(* ===== verification/_CoqProject ===== *)
-Q . S2P
Prelude.v
Encoding.v
Text.v
Hashing.v
Messages.v
Platform.v
Conns.v
Signed.v
Majority.v
Concrete.v
MajorityFacts.v
Store.v
Log.v
TimeWheel.v
Server.v
Lookups.v
Scenario.v
LogFacts.v
ConnsFacts.v
Voting.v
VotingFacts.v
Membership.v
MembershipFacts.v
Replication.v
ReplicationFacts.v
Election.v
ElectionFacts.v
Node.v
NodeFacts.v
CatchUp.v
Growth.v
Groups.v
Cluster.v
ClusterFacts.v
Handlers.v
Observer.v
Machine.v
Delivery.v
Directory.v
DirectoryFacts.v
Sync.v
Reigns.v
Succession.v
Elected.v
Campaign.v
Client.v
ClientFacts.v
Served.v
Routing.v
Start.v
StartFacts.v
Joining.v
Restart.v
