(* ===== verification/Prelude.v ===== *)
(** BFTRaft4go: a model of the server and client libraries, and what is proved
    of them.

    * The program

    A node ([server/], a gRPC service over a key-value store) is a member of
    several Raft groups. Each group has a log of commands, chained by hashes and
    signed by the clients that issued them; a leader turns commands into entries
    and sends them with its heartbeats; a follower checks and commits them; a
    time wheel per group starts elections, sends heartbeats or, for an observer,
    pulls entries. Group 1, the alpha group, records hosts, groups and peers
    through four functions of its state machine. A client ([client/]) learns the
    alpha nodes from its bootstrap addresses, finds a group's leader and hosts by
    majority answers, and awaits a majority of results for each command.
    [utils/] has the encodings, signatures, hashes and majorities both use.

    * The files

    - this file: the monad [M] of state, errors and panics; [preserves], with
      the tactic [solve_preserves], for relations that every run of a program
      respects, and [errorless] with [solve_errorless]; lemmas on lists.
    - [Encoding.v], [Text.v], [Hashing.v], [Messages.v], [Signed.v]:
      [utils/encoding.go], [utils/shares.go], the messages of [proto/] and all
      that is signed; FNV-1a, SHA-1 and [fmt.Sprint] are executable.
    - [Platform.v]: the libraries as classes with laws (store, string-keyed
      maps, protocol buffers, RSA, map iteration order), bundled in [World], and
      [utils/signature.go]. [Concrete.v] is an instance, so that the laws hold
      together and the examples run; [Scenario.v] is a small deployment on it.
    - [Majority.v]: [utils/consensus.go].
    - [Store.v], [Log.v]: the records and the log in the store, [server/store.go],
      [server/log_entries.go] and parts of [server/group.go] and
      [server/peers.go]. Their abstract views, [table_at], [peers_at], [log_at]
      and [chained], are what the rest is proved with.
    - [TimeWheel.v]: [server/time_wheel.go] with exact [float32] arithmetic.
    - [Server.v], [Lookups.v]: the state of a server ([BFTRaftServer] and the
      [RTGroup]s and groups its pointers share, on explicit heaps), the caches
      and the lookups of [server/hosts.go] and [server/group.go]. [frame] is the
      interface that handlers respect: logs, identity and groups stay in place. What
      handlers leave alone is proved once for every relation of the classes [Framing],
      [Storing] and [Telling], of which [frame] is one.
    - [Voting.v], [Replication.v], [Election.v], [Membership.v]: the handlers of
      [server/vote.go], [server/group.go], [server/consensus.go],
      [server/observer.go] and [server/membership.go]. The functions an
      application registers are the class [RaftFns].
    - [Node.v]: the remote procedures of [server/bftraft.go], and the server's part of
      [server/alpha.go].
    - [Client.v]: [client/] and [utils/alpha.go].
    - [Conns.v]: the tables of connections, gRPC servers and clients of
      [utils/conns.go], [utils/rpcs.go] and [server/clients.go].
    - [Start.v]: [server/config.go], [InitDatabase], [StartServer], and a server and its
      client together: [SyncAlphaGroup], which asks the client for the alpha nodes, and
      [GetServer].
    - [CatchUp.v]: heartbeats and answers between a leader and a follower that is behind.
    - [Growth.v]: what each handler does to a log whatever its outcome, errors and
      panics included.
    - [Groups.v]: handlers at a node that is a member of several groups.
    - [Cluster.v]: the nodes of a network as a step relation, and the replicated log
      that those of a group implement, [Spec]; [Handlers.v]: all that a started node
      runs, as steps of one relation; [Observer.v]: the turns of an observer.
    - [Reigns.v]: leaders that follow each other by elections; [Succession.v]: one
      election, what a vote does not bind the voter to, and what is lost without the
      proviso; [Elected.v]: from an election to the followers; [Campaign.v]: from a
      timeout to an election, and what it takes to win one.
    - [Machine.v]: the class [Machine] of state machines that the log drives, and what
      replication makes of them on one node; [Delivery.v]: on all nodes of a cluster.
      [Directory.v]: the table of hosts as such a machine. [Served.v]: what the client
      of a cluster gets, and [Routing.v] the same from its question to the alpha
      nodes on.
    - [Sync.v], [Joining.v]: [SyncAlphaGroup] against the answers of the alpha nodes, the
      server's part and the whole; [Restart.v]: [GetServer] on a used database.
    - [MajorityFacts.v], [LogFacts.v], [VotingFacts.v], [MembershipFacts.v],
      [ReplicationFacts.v], [ElectionFacts.v], [NodeFacts.v], [ClientFacts.v],
      [ConnsFacts.v], [StartFacts.v], [ClusterFacts.v], [DirectoryFacts.v], with
      [CatchUp.v], [Handlers.v], [Observer.v], [Reigns.v], [Succession.v], [Elected.v],
      [Campaign.v], [Delivery.v], [Served.v], [Routing.v], [Joining.v] and [Restart.v]: the properties, numbered C1,
      C2, ..., each with a witness on the small deployment where it has hypotheses.

    * How it is modelled

    A function that changes state is a program [M S A]: it answers [Ok], an
    error, or a panic, with the state it leaves. Remote calls are recorded in
    [calls] and their answers are arguments, in order of arrival; so are the
    values of the random generator. What other goroutines do while a function
    waits is an argument too, a state transformer: [env] for the rounds in which
    a voter waits, [during] for an election. Otherwise a handler runs under its
    group's lock and is one step. Unsigned integers are integers of [Z], wrapped
    where the code adds. A loop over an iterator has the number of items left as
    fuel, which it consumes one by one; a voter's poll has its twenty rounds.
    Entries of caches disappear when they expire; the theorems about lookups do
    not depend on what the caches hold.

    A cluster is a map from identities to servers, members of any number of groups. A
    step is one node's: an append request of any group, recorded in some node's
    [calls], reaches it, in any order and any number of times; a command reaches it;
    or it makes any move that respects [frame], as every handler that appends nothing is
    proved to. (That a process keeps its logs, whatever handlers it runs, is proved of
    the handlers themselves, in [Handlers.v], not assumed of its moves.) So messages may be lost, delayed, duplicated and
    reordered, and elections may go on meanwhile; a request is one that a member made.
    A node that panicked may go on from the state it was in, which is more than it
    does.

    * What is proved

    - Log: keys of groups and tables never meet and sort by index; appending,
      batching and pulling do what their declarative specifications say, on every
      branch; the last hash determines the commands of a log up to SHA-1
      collisions.
    - Replication: a batch extends a follower's log by exactly its entries or
      leaves it alone; the request a leader sends to a follower it tracks brings
      the follower's log to the leader's; and whatever length the leader's record gives
      the log of a follower that has at least one entry, two heartbeats that it answers
      bring it to the leader's.
    - Every node: no handler, whatever its arguments and its outcome, removes or replaces
      an entry of a log.
    - Cluster: the nodes of a group implement one append-only log, of which each node
      has a first part, when whoever takes a command as the leader is up to date,
      in particular when one member takes them all, or when leaders follow each other
      by elections that are held when every entry has reached a quorum and while nobody
      takes commands; logs never disagree then. But leaders answer before an entry has reached anybody, and a command that was
      answered can be overtaken.
    - State machines: on every node a machine is where the node's log takes it, and
      clients are told outputs of entries, signed; so nodes with logs of one length have
      one table of hosts, and a client that hears a majority of reports returns the
      output at its command's entry. The conditions, [tidy], are that the machine moves
      for one group only and that no leader panics between storing an entry and
      committing it; hosts must be registered through the log alone, which neither
      [RegHost] nor [SyncAlphaGroup] does, and request numbers must differ between
      clients for the last.
    - Clients: a command goes to the leader that alpha nodes name and awaits a quorum of
      the members they list, in any order, from as few as one answer, when those that
      answer are members and agree; what it returns is, by a majority of honest reports,
      what the state machine gives; its channel is closed however it returns. A client
      that asks an alpha node outside the group for its leader goes down.
    - Joining: a node that is no member of the alpha group has it, its members and
      their hosts in its store after it has started, as an alpha node reports them.
    - Start: the configuration read is the one written; the first node leads the
      alpha group from its start; a node that starts again, and hears from the alpha
      nodes, has its groups and logs, though not the votes it gave; a server has one connection per address, and
      serves both its services on the server that accepts at its address.
    - Votes and elections: leaders are accepted exactly with a quorum of signed
      votes, quorums share a voter, and a voter grants a term once while terms do
      not decrease and its record is not reset; a candidate comes out as the leader only
      with such a quorum, and with honest votes its first requests make every member that
      is not in a later term follow it; a leader that falls silent is challenged, with a
      request to every member, at the first turn of the time wheel after the timeout.
    - Membership: new groups, joins and registered hosts against their contracts.
    - Answers: [PickMajority] is the strict majority, [MajorityResponse] answers
      with it, and a client's command too; what signatures bind.
    - Where the code falls short, as theorems: empty logs bring voters down, a
      voter can vote twice in a term, votes serve for later terms, a voter goes on
      taking the entries of the leader it had whatever their term, a command that its
      client has an answer to can be overtaken, groups of one or two elect nobody, a new
      leader's heartbeat is late, an observer never catches up, a follower that restarts empty is never sent its first entry, errors
      are lost and nil is dereferenced in the membership functions, signed
      results double as commands, no signature on an append request matters, and the
      errors of [InitDatabase] and [StartServer] are lost.

    * What is not modelled

    What files, JSON, [badger.Open] and the network give: they are arguments, or the
    class [Transport]; flags, of which there are none; generated protobuf code beyond
    the messages; log output; data races on unlocked maps, and which client a goroutine
    of [MajorityResponse] calls, as they share the loop's variable: its answers are an
    argument. In a cluster, the observer's pull, which has its own theorem, and nodes
    that forge requests. No code gives a group the role OBSERVER, so that no time wheel
    gets to the pull by itself.

    * What could be added

    A voter that refuses the leader before, as the code does not: what of the proviso on
    successive leaders would then follow from the elections alone. The tables of groups
    and peers as state machines: they are what the log makes of them up to what the
    caches hold, to the peer of the node itself and to the progress of followers, which
    is kept in the same records. *)
From stdpp Require Export base tactics list gmap strings numbers sorting pretty.

From Stdlib Require Export ssreflect.
From Stdlib Require Export ZArith Lia.

#[export] Set Warnings "-clear-no-such-hyp".
#[global] Open Scope general_if_scope.
#[global] Open Scope string_scope.
#[global] Open Scope list_scope.
#[global] Open Scope Z_scope.

(** * Machine integers

    Go's [uint64] values are integers of [Z] kept in range; additions that
    the code performs at that width are written [wrap64 (a + b)]. *)

Definition wrap64 (n : Z) : Z := n mod 2 ^ 64.
Definition is_u64 (n : Z) : Prop := 0 ≤ n < 2 ^ 64.

#[global] Instance is_u64_dec n : Decision (is_u64 n).
Proof. unfold is_u64. apply _. Defined.

(** [int(x)] for an [x] of type [uint64]: the two's complement reading. *)
Definition int_of_u64 (n : Z) : Z :=
  if n <? 2 ^ 63 then n else n - 2 ^ 64.

(** * Outcomes

    A Go function either returns, returns an error, or panics. *)

Inductive outcome (A : Type) : Type :=
| Ok (a : A)
| Err (e : string)
| Panic (why : string).
Arguments Ok {_} _.
Arguments Err {_} _.
Arguments Panic {_} _.

(** * A state monad with Go's outcomes *)

Definition M (S A : Type) : Type := S → outcome A * S.

Section monad.
Context {S : Type}.

#[global] Instance M_ret : MRet (M S) := λ A a s, (Ok a, s).
#[global] Instance M_bind : MBind (M S) := λ A B f m s,
  match m s with
  | (Ok a, s') => f a s'
  | (Err e, s') => (Err e, s')
  | (Panic w, s') => (Panic w, s')
  end.

(** [return nil, errors.New(e)]. *)
Definition throw {A} (e : string) : M S A := λ s, (Err e, s).
Definition panic {A} (w : string) : M S A := λ s, (Panic w, s).
Definition get_state : M S S := λ s, (Ok s, s).
Definition gets {A} (f : S → A) : M S A := λ s, (Ok (f s), s).
Definition modify (f : S → S) : M S unit := λ s, (Ok tt, f s).

(** [if x, err := m; err == nil {...} else {...}]: the error as a value. *)
Definition try_ {A} (m : M S A) : M S (string + A) := λ s,
  match m s with
  | (Ok a, s') => (Ok (inr a), s')
  | (Err e, s') => (Ok (inl e), s')
  | (Panic w, s') => (Panic w, s')
  end.

(** [m] called for its effects, its error dropped. *)
Definition ignore {A} (m : M S A) : M S unit := _ ← try_ m; mret tt.

Definition nil_deref : string :=
  "runtime error: invalid memory address or nil pointer dereference".

(** A pointer that the next operation dereferences. *)
Definition unwrap {A} (o : option A) : M S A :=
  match o with Some a => mret a | None => panic nil_deref end.

Definition lift {A} (o : outcome A) : M S A := λ s, (o, s).

(** [for _, x := range l { ... }]. *)
Fixpoint for_each {A} (f : A → M S unit) (l : list A) : M S unit :=
  match l with
  | [] => mret tt
  | x :: l' => _ ← f x; for_each f l'
  end.

(** The same with loop variables [b] carried from one round to the next. *)
Fixpoint fold_each {A B} (f : B → A → M S B) (l : list A) (b : B) : M S B :=
  match l with
  | [] => mret b
  | x :: l' => b' ← f b x; fold_each f l' b'
  end.
End monad.

(** ** Running programs

    Equations that step a program whose first operation is known. *)

Section running.
Context {S : Type}.

Lemma bind_Ok {A B} (m : M S A) (f : A → M S B) s s' a :
  m s = (Ok a, s') → (m ≫= f) s = f a s'.
Proof. by rw /mbind /M_bind => ->. Qed.

Lemma bind_Err {A B} (m : M S A) (f : A → M S B) s s' e :
  m s = (Err e, s') → (m ≫= f) s = (Err e, s').
Proof. by rw /mbind /M_bind => ->. Qed.

Lemma bind_Panic {A B} (m : M S A) (f : A → M S B) s s' w :
  m s = (Panic w, s') → (m ≫= f) s = (Panic w, s').
Proof. by rw /mbind /M_bind => ->. Qed.

(** A program that returned ran each of its parts to a return. *)
Lemma bind_Ok_inv {A B} (m : M S A) (f : A → M S B) s s'' b :
  (m ≫= f) s = (Ok b, s'') →
  ∃ a s', m s = (Ok a, s') ∧ f a s' = (Ok b, s'').
Proof.
  rw /mbind /M_bind. destruct (m s) as [[a|e|w] s'] => H; try done.
  by exists a, s'.
Qed.

Lemma for_each_app {A} (f : A → M S unit) l1 l2 s :
  for_each f (l1 ++ l2) s = (for_each f l1 ≫= λ _, for_each f l2) s.
Proof.
  revert s. induction l1 as [|x l1 IH] => s //=.
  rw /mbind /M_bind. by destruct (f x s) as [[[]|e|w] s'].
Qed.
End running.

(** ** Relations every run of a program respects

    [preserves R m]: whatever [m] does, the state after it is related by [R]
    to the state before, on every path, errors and panics included. *)

Definition preserves {S A} (R : relation S) (m : M S A) : Prop :=
  ∀ s, R s (m s).2.

Create HintDb preserves.

Section preserves.
Context {S : Type} (R : relation S) `{!PreOrder R}.

Lemma preserves_ret {A} (a : A) : preserves R (mret a).
Proof. intros s. reflexivity. Qed.

Lemma preserves_throw {A} e : preserves (A:=A) R (throw e).
Proof. intros s. reflexivity. Qed.

Lemma preserves_panic {A} w : preserves (A:=A) R (panic w).
Proof. intros s. reflexivity. Qed.

Lemma preserves_gets {A} (f : S → A) : preserves R (gets f).
Proof. intros s. reflexivity. Qed.

Lemma preserves_get_state : preserves R get_state.
Proof. intros s. reflexivity. Qed.

Lemma preserves_lift {A} (o : outcome A) : preserves R (lift o).
Proof. intros s. reflexivity. Qed.

Lemma preserves_unwrap {A} (o : option A) : preserves R (unwrap o).
Proof. destruct o; intros s; reflexivity. Qed.

Lemma preserves_modify f : (∀ s, R s (f s)) → preserves R (modify f).
Proof. done. Qed.

Lemma preserves_bind {A B} (m : M S A) (f : A → M S B) :
  preserves R m → (∀ a, preserves R (f a)) → preserves R (m ≫= f).
Proof.
  intros Hm Hf s. specialize (Hm s). rw /mbind /M_bind.
  destruct (m s) as [[a|e|w] s'] => //=. etrans; [exact Hm|apply Hf].
Qed.

Lemma preserves_try {A} (m : M S A) : preserves R m → preserves R (try_ m).
Proof.
  intros Hm s. specialize (Hm s). rw /try_.
  by destruct (m s) as [[]?].
Qed.

Lemma preserves_ignore {A} (m : M S A) : preserves R m → preserves R (ignore m).
Proof.
  intros. apply preserves_bind; [by apply preserves_try|intros; apply preserves_ret].
Qed.

Lemma preserves_for_each {A} (f : A → M S unit) l :
  (∀ x, preserves R (f x)) → preserves R (for_each f l).
Proof.
  intros Hf. induction l; [apply preserves_ret|].
  by apply preserves_bind.
Qed.

Lemma preserves_fold_each {A B} (f : B → A → M S B) l b :
  (∀ b x, preserves R (f b x)) → preserves R (fold_each f l b).
Proof.
  intros Hf. revert b. induction l; intros b; [apply preserves_ret|].
  by apply preserves_bind.
Qed.
End preserves.

#[export] Hint Resolve preserves_ret preserves_throw preserves_panic
  preserves_gets preserves_get_state preserves_lift preserves_unwrap
  preserves_try preserves_ignore : preserves.

(** Walks a program's structure; what is left are its calls, closed by the
    [preserves] hints, and its state updates. *)
Ltac solve_preserves :=
  repeat lazymatch goal with
  | |- ∀ _, _ => intro
  | |- PreOrder _ => typeclasses eauto
  | |- preserves _ (mbind _ _) => apply preserves_bind
  | |- preserves _ (mret _) => apply preserves_ret
  | |- preserves _ (for_each _ _) => apply preserves_for_each
  | |- preserves _ (fold_each _ _ _) => apply preserves_fold_each
  | |- preserves _ (try_ _) => apply preserves_try
  | |- preserves _ (ignore _) => apply preserves_ignore
  | |- preserves _ (modify _) => apply preserves_modify
  | |- preserves _ (match ?x with _ => _ end) => destruct x
  | |- preserves _ (let _ := _ in _) => progress cbv zeta
  | |- preserves _ _ => solve [eauto with preserves typeclass_instances]
  end.

(** ** Programs without an error

    [errorless m]: [m] returns or panics. *)
Definition errorless {S A} (m : M S A) : Prop := ∀ s e, (m s).1 ≠ Err e.

Section errorless.
Context {S : Type}.

Lemma errorless_ret {A} (a : A) : errorless (S:=S) (mret a).
Proof. done. Qed.

Lemma errorless_gets {A} (f : S → A) : errorless (gets f).
Proof. done. Qed.

Lemma errorless_get_state : errorless (S:=S) get_state.
Proof. done. Qed.

Lemma errorless_modify (f : S → S) : errorless (modify f).
Proof. done. Qed.

Lemma errorless_unwrap {A} (o : option A) : errorless (S:=S) (unwrap o).
Proof. by destruct o. Qed.

Lemma errorless_bind {A B} (m : M S A) (f : A → M S B) :
  errorless m → (∀ a, errorless (f a)) → errorless (m ≫= f).
Proof.
  intros Hm Hf s e. specialize (Hm s). rw /mbind /M_bind.
  destruct (m s) as [[a|e'|w] s'] => //=; [apply Hf|by destruct (Hm e')].
Qed.

Lemma errorless_try {A} (m : M S A) : errorless (try_ m).
Proof. intros s e. rw /try_. by destruct (m s) as [[]?]. Qed.

Lemma errorless_ignore {A} (m : M S A) : errorless (ignore m).
Proof. apply errorless_bind; [apply errorless_try|done]. Qed.

Lemma errorless_for_each {A} (f : A → M S unit) l :
  (∀ x, errorless (f x)) → errorless (for_each f l).
Proof. intros Hf. induction l; [done|]. by apply errorless_bind. Qed.
End errorless.

Create HintDb errorless.
#[export] Hint Resolve errorless_ret errorless_gets errorless_get_state errorless_modify
  errorless_unwrap errorless_try errorless_ignore : errorless.

Ltac solve_errorless :=
  repeat lazymatch goal with
  | |- ∀ _, _ => intro
  | |- errorless (mbind _ _) => apply errorless_bind
  | |- errorless (for_each _ _) => apply errorless_for_each
  | |- errorless (match ?x with _ => _ end) => destruct x
  | |- errorless (let _ := _ in _) => progress cbv zeta
  | |- errorless _ => solve [eauto with errorless]
  end.

(** ** Lists *)

Lemma last_app_one {A} (l : list A) x : last (l ++ [x]) = Some x.
Proof. apply last_snoc. Qed.

Lemma elem_of_last {A} (l : list A) x : last l = Some x → x ∈ l.
Proof. rw last_lookup. apply list_elem_of_lookup_2. Qed.

Lemma StronglySorted_reverse {A} (R : relation A) l :
  StronglySorted R l → StronglySorted (flip R) (reverse l).
Proof.
  induction 1 as [|x l Hl IH Hx]; [constructor|]. rw reverse_cons.
  assert (∀ y, y ∈ reverse l → R x y) as Hy.
  { intros y Hy. rw elem_of_reverse in Hy. rw Forall_forall in Hx. by apply Hx. }
  revert IH Hy. generalize (reverse l) as r. clear.
  induction r as [|z r IHr]; simpl; intros Hs Hy; [repeat constructor|].
  apply StronglySorted_inv in Hs as [Hs Hz]. constructor.
  - apply IHr; [done|]. intros. apply Hy. by right.
  - apply Forall_app. split; [done|]. repeat constructor. apply Hy. left.
Qed.
