(* ===== verification/Encoding.v ===== *)
(** Byte strings: [utils/encoding.go] (fixed-width big-endian integers) and
    the byte-wise order in which the store keeps its keys. *)
From S2P Require Export Prelude.

(** A [[]byte]: each element is a byte, [0 <= b < 256], when the code built
    it. *)
Abbreviation bytes := (list Z).

(** [binary.BigEndian.PutUint32] and [PutUint64] of Go's library, for a buffer
    of [k] bytes: most significant byte first. *)
Fixpoint be_bytes (k : nat) (n : Z) : bytes :=
  match k with
  | O => []
  | S k' => Z.shiftr n (8 * Z.of_nat k') mod 256 :: be_bytes k' n
  end.

(** [binary.BigEndian.Uint64] of the library. *)
Definition be_value (bs : bytes) : Z :=
  foldl (λ acc b, Z.shiftl acc 8 + b) 0 bs.

Definition UINT32_LEN : nat := 4.
Definition UINT64_LEN : nat := 8.

Definition U32Bytes (t : Z) : bytes := be_bytes UINT32_LEN t.
Definition U64Bytes (n : Z) : bytes := be_bytes UINT64_LEN n.

(** [bs[offset : offset+UINT64_LEN]] panics when out of range. *)
Definition BytesU64 (bs : bytes) (offset : nat) : outcome Z :=
  if decide (offset + UINT64_LEN ≤ length bs)%nat
  then Ok (be_value (take UINT64_LEN (drop offset bs)))
  else Panic "runtime error: slice bounds out of range".

(** [bytes.Compare] of Go's library: lexicographic, a proper prefix first. *)
Fixpoint bytes_cmp (a b : bytes) : comparison :=
  match a, b with
  | [], [] => Eq
  | [], _ => Lt
  | _, [] => Gt
  | x :: a', y :: b' =>
    match x ?= y with Eq => bytes_cmp a' b' | c => c end
  end.

Definition blt (a b : bytes) : Prop := bytes_cmp a b = Lt.
Definition ble (a b : bytes) : Prop := bytes_cmp a b ≠ Gt.

#[export] Instance blt_dec a b : Decision (blt a b).
Proof. unfold blt. destruct (bytes_cmp a b); (left; done) || (right; done). Defined.
#[export] Instance ble_dec a b : Decision (ble a b).
Proof. unfold ble. destruct (bytes_cmp a b); (left; done) || (right; congruence). Defined.

(** [bytes.HasPrefix] of the library. *)
Fixpoint has_prefix (p b : bytes) : bool :=
  match p, b with
  | [], _ => true
  | x :: p', y :: b' => (x =? y) && has_prefix p' b'
  | _ :: _, [] => false
  end.

(** * Big-endian integers *)

Lemma length_be_bytes k n : length (be_bytes k n) = k.
Proof. induction k; simpl; auto. Qed.

Lemma length_U64Bytes n : length (U64Bytes n) = 8%nat.
Proof. apply length_be_bytes. Qed.

Lemma length_U32Bytes n : length (U32Bytes n) = 4%nat.
Proof. apply length_be_bytes. Qed.

Lemma be_bytes_range k n b : b ∈ be_bytes k n → 0 ≤ b < 256.
Proof.
  induction k as [|k IH]; simpl; [by intros ?%not_elem_of_nil|].
  intros [->|?]%elem_of_cons; [apply Z.mod_pos_bound; lia|auto].
Qed.

Lemma pow256 k : 256 ^ Z.of_nat k = 2 ^ (8 * Z.of_nat k).
Proof. rw (Z.pow_mul_r 2 8) //; lia. Qed.

Lemma pow256_S k : 256 ^ Z.of_nat (S k) = 256 * 256 ^ Z.of_nat k.
Proof. rw Nat2Z.inj_succ Z.pow_succ_r //; lia. Qed.

Lemma pow256_pos k : 0 < 256 ^ Z.of_nat k.
Proof. apply Z.pow_pos_nonneg; lia. Qed.

Lemma be_bytes_S k n :
  be_bytes (S k) n = (n / 256 ^ Z.of_nat k) mod 256 :: be_bytes k n.
Proof. cbn [be_bytes]. rw Z.shiftr_div_pow2; [lia|]. by rw pow256. Qed.

(** Only the low [k] bytes of the integer matter. *)
Lemma be_bytes_mod k j n :
  (k ≤ j)%nat → be_bytes k (n mod 256 ^ Z.of_nat j) = be_bytes k n.
Proof.
  induction k as [|k IH]; intros Hkj; [done|].
  rw !be_bytes_S IH; [lia|]. f_equal.
  pose proof (pow256_pos k) as Hk.
  assert (256 ^ Z.of_nat j = 256 ^ Z.of_nat k * (256 * 256 ^ Z.of_nat (j - k - 1))) as ->.
  { rw -pow256_S -Z.pow_add_r; [lia|lia|f_equal; lia]. }
  set (q := 256 ^ Z.of_nat (j - k - 1)).
  assert (0 < q) by (apply Z.pow_pos_nonneg; lia).
  rw Z.rem_mul_r; [lia|lia|].
  rw (Z.mul_comm (256 ^ Z.of_nat k)) Z.div_add; [lia|].
  rw (Z.div_small (n mod _)); [by apply Z.mod_pos_bound|]. simpl.
  symmetry. rw -{1}(Z.mod_small ((n / 256 ^ Z.of_nat k) mod 256) 256) ;
    [apply Z.mod_pos_bound; lia|].
  rw Z.rem_mul_r; [lia|lia|].
  rw Z.mul_comm Z.mod_add; [lia|]. by rw Z.mod_mod.
Qed.

Lemma be_value_app a b :
  be_value (a ++ b) = be_value a * 256 ^ Z.of_nat (length b) + be_value b.
Proof.
  unfold be_value. rw foldl_app.
  generalize (foldl (λ acc b, Z.shiftl acc 8 + b) 0 a) as x.
  induction b as [|y b IH] using rev_ind; intros x; cbn [foldl length]; [change (256 ^ Z.of_nat 0) with 1; lia|].
  rw !foldl_app length_app; cbn [foldl length]. rw IH Nat.add_1_r pow256_S !Z.shiftl_mul_pow2; lia.
Qed.

Lemma be_value_cons x b :
  be_value (x :: b) = x * 256 ^ Z.of_nat (length b) + be_value b.
Proof. rw (be_value_app [x] b). by change (be_value [x]) with x. Qed.

Lemma be_value_be_bytes k n :
  be_value (be_bytes k n) = n mod 256 ^ Z.of_nat k.
Proof.
  induction k as [|k IH]; [by rw Z.mod_1_r|].
  rw be_bytes_S be_value_cons length_be_bytes IH pow256_S.
  pose proof (pow256_pos k).
  rw (Z.mul_comm 256) Z.rem_mul_r; lia.
Qed.

Lemma be_bytes_inj k a b :
  0 ≤ a < 256 ^ Z.of_nat k → 0 ≤ b < 256 ^ Z.of_nat k →
  be_bytes k a = be_bytes k b → a = b.
Proof.
  intros Ha Hb Heq. apply (f_equal be_value) in Heq.
  by rw !be_value_be_bytes !Z.mod_small in Heq.
Qed.

Lemma U64Bytes_inj a b : is_u64 a → is_u64 b → U64Bytes a = U64Bytes b → a = b.
Proof. exact (be_bytes_inj 8 a b). Qed.

(** * The byte order *)

Lemma bytes_cmp_refl a : bytes_cmp a a = Eq.
Proof. induction a; simpl; [done|]. by rw Z.compare_refl. Qed.

Lemma bytes_cmp_eq a b : bytes_cmp a b = Eq ↔ a = b.
Proof.
  split; [|intros ->; apply bytes_cmp_refl].
  revert b. induction a as [|x a IH]; intros [|y b]; simpl; try done.
  destruct (Z.compare_spec x y); try done. subst. intros. f_equal. auto.
Qed.

Lemma bytes_cmp_antisym a b : bytes_cmp b a = CompOpp (bytes_cmp a b).
Proof.
  revert b. induction a as [|x a IH]; intros [|y b]; simpl; try done.
  rw (Z.compare_antisym x y). by destruct (x ?= y); simpl.
Qed.

Lemma bytes_cmp_app p a b : bytes_cmp (p ++ a) (p ++ b) = bytes_cmp a b.
Proof. induction p; simpl; [done|]. by rw Z.compare_refl. Qed.

Lemma blt_irrefl a : ¬ blt a a.
Proof. unfold blt. by rw bytes_cmp_refl. Qed.

#[export] Instance blt_trans : Transitive blt.
Proof.
  unfold blt. intros a. induction a as [|x a IH]; intros [|y b] [|z c]; simpl; try done.
  destruct (Z.compare_spec x y), (Z.compare_spec y z), (Z.compare_spec x z);
    subst; try done; try lia; eauto.
Qed.

Lemma blt_ble a b : blt a b → ble a b.
Proof. unfold blt, ble. congruence. Qed.

Lemma ble_iff a b : ble a b ↔ a = b ∨ blt a b.
Proof.
  unfold ble, blt. rw -bytes_cmp_eq. destruct (bytes_cmp a b); intuition congruence.
Qed.

Lemma ble_refl a : ble a a.
Proof. apply ble_iff. by left. Qed.

#[export] Instance ble_trans : Transitive ble.
Proof.
  intros a b c Hab Hbc. apply ble_iff in Hab, Hbc. apply ble_iff.
  destruct Hab as [Hab|Hab], Hbc as [Hbc|Hbc]; subst; auto.
  right. by trans b.
Qed.

Lemma blt_ble_trans a b c : blt a b → ble b c → blt a c.
Proof. intros Hab Hbc. apply ble_iff in Hbc as [Hbc|Hbc]; subst; [done|by trans b]. Qed.

Lemma ble_blt_trans a b c : ble a b → blt b c → blt a c.
Proof. intros Hab Hbc. apply ble_iff in Hab as [Hab|Hab]; subst; [done|by trans b]. Qed.

Lemma blt_not_ble a b : blt a b ↔ ¬ ble b a.
Proof.
  unfold ble, blt. rw (bytes_cmp_antisym a b).
  destruct (bytes_cmp a b); simpl; intuition congruence.
Qed.

Lemma blt_trichotomy a b : blt a b ∨ a = b ∨ blt b a.
Proof.
  unfold blt. rw (bytes_cmp_antisym a b) -bytes_cmp_eq.
  destruct (bytes_cmp a b); simpl; auto.
Qed.

(** Big-endian bytes of one width are ordered as the integers. *)
Lemma be_bytes_cmp k a b :
  0 ≤ a < 256 ^ Z.of_nat k → 0 ≤ b < 256 ^ Z.of_nat k →
  bytes_cmp (be_bytes k a) (be_bytes k b) = (a ?= b).
Proof.
  revert a b. induction k as [|k IH]; intros a b Ha Hb.
  { simpl in *. symmetry. apply Z.compare_eq_iff. lia. }
  rw !be_bytes_S. pose proof (pow256_pos k) as Hk. rw pow256_S in Ha, Hb.
  rw !(Z.mod_small (_ / _)); [split; [apply Z.div_pos|apply Z.div_lt_upper_bound]; lia..|].
  rw -(be_bytes_mod k k a) // -(be_bytes_mod k k b) //. simpl.
  rw IH; [apply Z.mod_pos_bound; lia..|].
  rw {3}(Z.div_mod a (256 ^ Z.of_nat k)); [lia|].
  rw {3}(Z.div_mod b (256 ^ Z.of_nat k)); [lia|].
  pose proof (Z.mod_pos_bound a (256 ^ Z.of_nat k) Hk).
  pose proof (Z.mod_pos_bound b (256 ^ Z.of_nat k) Hk).
  destruct (Z.compare_spec (a / 256 ^ Z.of_nat k) (b / 256 ^ Z.of_nat k)) as [->|Hlt|Hlt].
  - by rw Zcompare_plus_compat.
  - symmetry. apply Z.compare_lt_iff. nia.
  - symmetry. apply Z.compare_gt_iff. nia.
Qed.

Lemma U64Bytes_blt a b : is_u64 a → is_u64 b → blt (U64Bytes a) (U64Bytes b) ↔ a < b.
Proof. intros Ha Hb. unfold blt, U64Bytes. by rw (be_bytes_cmp 8). Qed.

Lemma U64Bytes_ble a b : is_u64 a → is_u64 b → ble (U64Bytes a) (U64Bytes b) ↔ a ≤ b.
Proof. intros Ha Hb. unfold ble, U64Bytes. by rw (be_bytes_cmp 8). Qed.

Lemma has_prefix_app p r : has_prefix p (p ++ r) = true.
Proof. induction p as [|x p IH]; simpl; [done|]. by rw Z.eqb_refl. Qed.

Lemma has_prefix_spec p b : has_prefix p b = true ↔ ∃ r, b = p ++ r.
Proof.
  split; [|intros [r ->]; apply has_prefix_app].
  revert b. induction p as [|x p IH]; intros b; simpl; [by exists b|].
  destruct b as [|y b]; simpl; [done|].
  intros [->%Z.eqb_eq [r ->]%IH]%andb_true_iff. by exists r.
Qed.
