(* ===== verification/Text.v ===== *)
(** Text: what the code uses of Go's [fmt] and [strconv], which is the plain
    [fmt.Sprint] of strings, unsigned integers and booleans, and
    [strconv.Itoa]. *)
From S2P Require Export Encoding.

(** [[]byte(s)]. *)
Definition str_bytes (s : string) : bytes :=
  (λ a, Z.of_N (Ascii.N_of_ascii a)) <$> String.list_ascii_of_string s.

Inductive arg : Type :=
| AStr (s : string)
| AInt (n : Z)
| ABool (b : bool).

Definition is_string (a : arg) : bool :=
  match a with AStr _ => true | _ => false end.

Definition show_arg (a : arg) : string :=
  match a with
  | AStr s => s
  | AInt n => pretty n
  | ABool b => if b then "true" else "false"
  end.

(** [fmt.Sprint]: a space between two operands when neither is a string. *)
Fixpoint sprint_from (prev_string : bool) (l : list arg) : string :=
  match l with
  | [] => ""
  | a :: l' =>
    (if prev_string || is_string a then "" else " ") +:+
      show_arg a +:+ sprint_from (is_string a) l'
  end.

Definition Sprint (l : list arg) : string := sprint_from true l.

(** [strconv.Itoa]. *)
Definition Itoa (n : Z) : string := pretty n.

(** The keys of the server's maps: [strconv.Itoa(int(id))]. *)
Definition id_key (id : Z) : string := Itoa (int_of_u64 id).

Lemma id_key_inj a b : is_u64 a → is_u64 b → id_key a = id_key b → a = b.
Proof.
  unfold is_u64, id_key, Itoa, int_of_u64.
  intros Ha Hb H%(inj pretty).
  destruct (Z.ltb_spec a (2 ^ 63)), (Z.ltb_spec b (2 ^ 63)); lia.
Qed.

(** * Fields separated by dashes *)

Lemma list_ascii_app a b :
  String.list_ascii_of_string (a +:+ b) =
  String.list_ascii_of_string a ++ String.list_ascii_of_string b.
Proof. induction a as [|c a IH]; simpl; [done|]. by rw IH. Qed.

Lemma str_bytes_app a b : str_bytes (a +:+ b) = str_bytes a ++ str_bytes b.
Proof. unfold str_bytes. by rw list_ascii_app fmap_app. Qed.

Lemma str_bytes_inj a b : str_bytes a = str_bytes b → a = b.
Proof.
  unfold str_bytes. intros H.
  rw -(String.string_of_list_ascii_of_string a) -(String.string_of_list_ascii_of_string b).
  f_equal. revert H. apply list_fmap_eq_inj.
  intros x y ?%N2Z.inj. rw -(Ascii.ascii_N_embedding x) -(Ascii.ascii_N_embedding y).
  by f_equal.
Qed.

(** Decimal digits: no byte of one is the dash. *)
Definition dash : Z := 45.
Definition no_dash (s : string) : Prop := dash ∉ str_bytes s.

Lemma pretty_N_char_no_dash x : Ascii.N_of_ascii (pretty_N_char x) ≠ 45%N.
Proof. unfold pretty_N_char. by repeat case_match. Qed.

Lemma pretty_N_go_no_dash x s : no_dash s → no_dash (pretty_N_go x s).
Proof.
  revert s. induction (N.lt_wf_0 x) as [x _ IH]; intros s Hs.
  assert (x = 0 ∨ 0 < x)%N as [->|?] by lia; [by rw pretty_N_go_0|].
  rw pretty_N_go_step //. apply IH; [by apply N.div_lt|].
  unfold no_dash, dash in *. cbn [str_bytes String.list_ascii_of_string fmap list_fmap].
  rw not_elem_of_cons. split; [|done].
  pose proof (pretty_N_char_no_dash (x `mod` 10)). lia.
Qed.

Lemma pretty_Z_no_dash n : 0 ≤ n → no_dash (pretty n).
Proof.
  intros Hn. destruct n as [|p|p]; [by apply (bool_decide_unpack _)| |done].
  change (no_dash (pretty_N_go (Npos p) "")). apply pretty_N_go_no_dash.
  by apply not_elem_of_nil.
Qed.

Lemma show_bool_no_dash b : no_dash (show_arg (ABool b)).
Proof. destruct b; by apply (bool_decide_unpack _). Qed.

Lemma split_at_dash (a b ra rb : bytes) :
  dash ∉ a → dash ∉ b →
  a ++ dash :: ra = b ++ dash :: rb → a = b ∧ ra = rb.
Proof.
  revert b. induction a as [|x a IH]; intros [|y b]; simpl;
    rw ?not_elem_of_cons; intros Ha Hb Heq; simplify_eq/=; [done|tauto|tauto|].
  destruct (IH b) as [-> ->]; tauto.
Qed.

(** Two texts that start with an unsigned integer and a dash are equal only if
    the integers and the rests are. *)
Lemma dash_field_inj a b ra rb :
  0 ≤ a → 0 ≤ b →
  pretty a +:+ "-" +:+ ra = pretty b +:+ "-" +:+ rb → a = b ∧ ra = rb.
Proof.
  intros Ha Hb H%(f_equal str_bytes). rw !str_bytes_app in H.
  apply split_at_dash in H as [H1%str_bytes_inj H2%str_bytes_inj];
    [|by apply pretty_Z_no_dash..].
  by apply (inj pretty) in H1.
Qed.
