(* ===== verification/Hashing.v ===== *)
(** The hashes the code takes from Go's library, [hash/fnv] and
    [crypto/sha1], and what [utils/signature.go] and [utils/consensus.go]
    build on them. Both are executable, and tested on published vectors. *)
From S2P Require Export Text.

(** * FNV-1a, 64 bits *)

Definition fnv_offset64 : Z := 14695981039346656037.
Definition fnv_prime64 : Z := 1099511628211.

Definition fnv1a_64 (data : bytes) : Z :=
  foldl (λ h b, wrap64 (Z.lxor h b * fnv_prime64)) fnv_offset64 data.

Definition HashData (data : bytes) : Z := fnv1a_64 data.

Definition HashPublicKeyBytes (keyData : bytes) : Z := fnv1a_64 keyData.

Lemma fnv1a_64_u64 data : is_u64 (fnv1a_64 data).
Proof.
  unfold fnv1a_64. assert (is_u64 fnv_offset64) as H by (unfold is_u64, fnv_offset64; lia).
  revert H. generalize fnv_offset64.
  induction data as [|b data IH]; intros h Hh; [done|].
  apply IH. apply Z.mod_pos_bound. lia.
Qed.

Example fnv_empty : HashData [] = 0xcbf29ce484222325.
Proof. reflexivity. Qed.
Example fnv_a : HashData (str_bytes "a") = 0xaf63dc4c8601ec8c.
Proof. vm_compute. reflexivity. Qed.
Example fnv_foobar : HashData (str_bytes "foobar") = 0x85944171f73967e8.
Proof. vm_compute. reflexivity. Qed.

(** * SHA-1 *)

Definition wrap32 (n : Z) : Z := n mod 2 ^ 32.

Definition rotl32 (n x : Z) : Z :=
  Z.lor (wrap32 (Z.shiftl x n)) (Z.shiftr x (32 - n)).

Record sha_state : Type := Sha { sa : Z; sb : Z; sc : Z; sd : Z; se : Z }.

Definition sha_init : sha_state :=
  Sha 0x67452301 0xEFCDAB89 0x98BADCFE 0x10325476 0xC3D2E1F0.

(** The round function and constant of round [t]. *)
Definition sha_f (t : nat) (b c d : Z) : Z :=
  if (t <? 20)%nat then Z.lor (Z.land b c) (Z.land (Z.lxor b (2 ^ 32 - 1)) d)
  else if (t <? 40)%nat then Z.lxor (Z.lxor b c) d
  else if (t <? 60)%nat
  then Z.lor (Z.lor (Z.land b c) (Z.land b d)) (Z.land c d)
  else Z.lxor (Z.lxor b c) d.

Definition sha_k (t : nat) : Z :=
  if (t <? 20)%nat then 0x5A827999
  else if (t <? 40)%nat then 0x6ED9EBA1
  else if (t <? 60)%nat then 0x8F1BBCDC else 0xCA62C1D6.

(** [n] rounds from round [t]; [w] is the window of the next sixteen schedule
    words. *)
Fixpoint sha_rounds (n t : nat) (w : list Z) (s : sha_state) : sha_state :=
  match n, w with
  | S n', w0 :: w' =>
    let next := rotl32 1 (Z.lxor (Z.lxor (nth 12 w' 0) (nth 7 w' 0))
                                 (Z.lxor (nth 1 w' 0) w0)) in
    let temp := wrap32 (rotl32 5 (sa s) + sha_f t (sb s) (sc s) (sd s)
                        + se s + sha_k t + w0) in
    sha_rounds n' (S t) (w' ++ [next])
      (Sha temp (sa s) (rotl32 30 (sb s)) (sc s) (sd s))
  | _, _ => s
  end.

(** The sixteen words of a 64-byte block. *)
Fixpoint sha_words (n : nat) (b : bytes) : list Z :=
  match n with
  | O => []
  | S n' => be_value (take 4 b) :: sha_words n' (drop 4 b)
  end.

Definition sha_block (s : sha_state) (b : bytes) : sha_state :=
  let r := sha_rounds 80 0 (sha_words 16 b) s in
  Sha (wrap32 (sa s + sa r)) (wrap32 (sb s + sb r)) (wrap32 (sc s + sc r))
      (wrap32 (sd s + sd r)) (wrap32 (se s + se r)).

Definition sha_pad (data : bytes) : bytes :=
  let n := length data in
  (data ++ [0x80] ++ replicate ((119 - n mod 64) mod 64) 0
        ++ be_bytes 8 (8 * Z.of_nat n)).

(** [n] is the number of 64-byte blocks left in [b]. *)
Fixpoint sha_blocks (n : nat) (s : sha_state) (b : bytes) : sha_state :=
  match n with
  | O => s
  | S n' => sha_blocks n' (sha_block s (take 64 b)) (drop 64 b)
  end.

(** [h := crypto.SHA1.New(); h.Write(data); h.Sum(nil)]. *)
Definition SHA1Hash (data : bytes) : bytes :=
  let p := sha_pad data in
  let s := sha_blocks (length p / 64) sha_init p in
  (be_bytes 4 (sa s) ++ be_bytes 4 (sb s) ++ be_bytes 4 (sc s)
   ++ be_bytes 4 (sd s) ++ be_bytes 4 (se s)).

Lemma length_SHA1Hash data : length (SHA1Hash data) = 20%nat.
Proof. unfold SHA1Hash. by rw !length_app !length_be_bytes. Qed.

(** The padded message is a whole number of blocks, so [sha_blocks] reads all
    of it. *)
Lemma sha_pad_blocks data : (length (sha_pad data) mod 64 = 0)%nat.
Proof.
  unfold sha_pad. rw !length_app length_replicate length_be_bytes. cbn [length].
  set (n := length data).
  pose proof (Nat.div_mod_eq n 64). pose proof (Nat.mod_upper_bound n 64 ltac:(lia)).
  pose proof (Nat.div_mod_eq (119 - n mod 64) 64).
  pose proof (Nat.mod_upper_bound (119 - n mod 64) 64 ltac:(lia)).
  replace (n + (1 + ((119 - n mod 64) mod 64 + 8)))%nat
    with ((n / 64 + 2 - (119 - n mod 64) / 64) * 64)%nat; [apply Nat.Div0.mod_mul|].
  assert ((119 - n mod 64) / 64 < 2)%nat by (apply Nat.Div0.div_lt_upper_bound; lia).
  lia.
Qed.

Definition hex_of (n : Z) (k : nat) : bytes := be_bytes k n.

Example sha1_empty :
  SHA1Hash [] = hex_of 0xda39a3ee5e6b4b0d3255bfef95601890afd80709 20.
Proof. vm_compute. reflexivity. Qed.
Example sha1_abc :
  SHA1Hash (str_bytes "abc") = hex_of 0xa9993e364706816aba3e25717850c26c9cd0d89d 20.
Proof. vm_compute. reflexivity. Qed.
Example sha1_two_blocks :
  SHA1Hash (str_bytes "abcdbcdecdefdefgefghfghighijhijkijkljklmklmnlmnomnopnopq")
  = hex_of 0x84983e441c3bd26ebaae4aa1f95129e5e54670f1 20.
Proof. vm_compute. reflexivity. Qed.

(** * The log's hash *)

(** What [LogHash] hashes: index, function and argument are bound to the hash
    of the entry before. *)
Definition log_preimage (prevHash : bytes) (index funcId : Z) (args : bytes) : bytes :=
  (((prevHash ++ U64Bytes index) ++ U64Bytes funcId) ++ args).

Definition LogHash (prevHash : bytes) (index funcId : Z) (args : bytes) : bytes :=
  SHA1Hash (log_preimage prevHash index funcId args).

Lemma log_preimage_inj p1 p2 i1 i2 f1 f2 a1 a2 :
  length p1 = length p2 →
  is_u64 i1 → is_u64 i2 → is_u64 f1 → is_u64 f2 →
  log_preimage p1 i1 f1 a1 = log_preimage p2 i2 f2 a2 →
  p1 = p2 ∧ i1 = i2 ∧ f1 = f2 ∧ a1 = a2.
Proof.
  unfold log_preimage. intros Hlen ???? H. rw -!app_assoc in H.
  apply app_inj_1 in H as [-> H]; [|done].
  apply app_inj_1 in H as [Hi H]; [|by rw !length_U64Bytes].
  apply app_inj_1 in H as [Hf ->]; [|by rw !length_U64Bytes].
  by apply U64Bytes_inj in Hi, Hf.
Qed.
