(* ===== verification/Messages.v ===== *)
(** The protocol's messages, as the structs of [proto/server/server.pb.go] and
    [proto/client/client.pb.go] declare them: one module per message, whose
    record [t] has the struct's fields. A pointer field is an [option]; a
    [uint64] or [uint32] is an integer of [Z]. *)
From S2P Require Export Hashing.

Module CommandRequest.
Record t : Type := mk {
  Group : Z;
  ClientId : Z;
  RequestId : Z;
  FuncId : Z;
  Signature : bytes;
  Arg : bytes
}.
#[global] Instance eq_dec : EqDecision t.
Proof. solve_decision. Defined.
Definition set_Signature (x : bytes) (r : t) : t :=
  mk (r.(Group)) (r.(ClientId)) (r.(RequestId)) (r.(FuncId)) x (r.(Arg)).
End CommandRequest.

Module CommandResponse.
Record t : Type := mk {
  Group : Z;
  LeaderId : Z;
  NodeId : Z;
  RequestId : Z;
  Signature : bytes;
  Result : bytes
}.
#[global] Instance eq_dec : EqDecision t.
Proof. solve_decision. Defined.
Definition set_LeaderId (x : Z) (r : t) : t :=
  mk (r.(Group)) x (r.(NodeId)) (r.(RequestId)) (r.(Signature)) (r.(Result)).
Definition set_Signature (x : bytes) (r : t) : t :=
  mk (r.(Group)) (r.(LeaderId)) (r.(NodeId)) (r.(RequestId)) x (r.(Result)).
Definition set_Result (x : bytes) (r : t) : t :=
  mk (r.(Group)) (r.(LeaderId)) (r.(NodeId)) (r.(RequestId)) (r.(Signature)) x.
End CommandResponse.

Module LogEntry.
Record t : Type := mk {
  Term : Z;
  Index : Z;
  Hash : bytes;
  Command : option CommandRequest.t
}.
#[global] Instance eq_dec : EqDecision t.
Proof. solve_decision. Defined.
End LogEntry.

Module RequestVoteRequest.
Record t : Type := mk {
  Group : Z;
  Term : Z;
  LogIndex : Z;
  LogTerm : Z;
  CandidateId : Z;
  Signature : bytes
}.
#[global] Instance eq_dec : EqDecision t.
Proof. solve_decision. Defined.
Definition set_Signature (x : bytes) (r : t) : t :=
  mk (r.(Group)) (r.(Term)) (r.(LogIndex)) (r.(LogTerm)) (r.(CandidateId)) x.
End RequestVoteRequest.

Module RequestVoteResponse.
Record t : Type := mk {
  Group : Z;
  Term : Z;
  LogIndex : Z;
  CandidateId : Z;
  Voter : Z;
  Granted : bool;
  Signature : bytes
}.
#[global] Instance eq_dec : EqDecision t.
Proof. solve_decision. Defined.
Definition set_Granted (x : bool) (r : t) : t :=
  mk (r.(Group)) (r.(Term)) (r.(LogIndex)) (r.(CandidateId)) (r.(Voter)) x (r.(Signature)).
Definition set_Signature (x : bytes) (r : t) : t :=
  mk (r.(Group)) (r.(Term)) (r.(LogIndex)) (r.(CandidateId)) (r.(Voter)) (r.(Granted)) x.
End RequestVoteResponse.

Module AppendEntriesRequest.
Record t : Type := mk {
  Group : Z;
  Term : Z;
  LeaderId : Z;
  PrevLogIndex : Z;
  PrevLogTerm : Z;
  Signature : bytes;
  QuorumVotes : list RequestVoteResponse.t;
  Entries : list LogEntry.t
}.
#[global] Instance eq_dec : EqDecision t.
Proof. solve_decision. Defined.
End AppendEntriesRequest.

Module AppendEntriesResponse.
Record t : Type := mk {
  Group : Z;
  Term : Z;
  Index : Z;
  Peer : Z;
  Successed : bool;
  Convinced : bool;
  Hash : bytes;
  Signature : bytes
}.
#[global] Instance eq_dec : EqDecision t.
Proof. solve_decision. Defined.
Definition set_Term (x : Z) (r : t) : t :=
  mk (r.(Group)) x (r.(Index)) (r.(Peer)) (r.(Successed)) (r.(Convinced)) (r.(Hash)) (r.(Signature)).
Definition set_Index (x : Z) (r : t) : t :=
  mk (r.(Group)) (r.(Term)) x (r.(Peer)) (r.(Successed)) (r.(Convinced)) (r.(Hash)) (r.(Signature)).
Definition set_Successed (x : bool) (r : t) : t :=
  mk (r.(Group)) (r.(Term)) (r.(Index)) (r.(Peer)) x (r.(Convinced)) (r.(Hash)) (r.(Signature)).
Definition set_Convinced (x : bool) (r : t) : t :=
  mk (r.(Group)) (r.(Term)) (r.(Index)) (r.(Peer)) (r.(Successed)) x (r.(Hash)) (r.(Signature)).
Definition set_Hash (x : bytes) (r : t) : t :=
  mk (r.(Group)) (r.(Term)) (r.(Index)) (r.(Peer)) (r.(Successed)) (r.(Convinced)) x (r.(Signature)).
Definition set_Signature (x : bytes) (r : t) : t :=
  mk (r.(Group)) (r.(Term)) (r.(Index)) (r.(Peer)) (r.(Successed)) (r.(Convinced)) (r.(Hash)) x.
End AppendEntriesResponse.

Module Peer.
Record t : Type := mk {
  Id : Z;
  Group : Z;
  NextIndex : Z;
  MatchIndex : Z
}.
#[global] Instance eq_dec : EqDecision t.
Proof. solve_decision. Defined.
Definition set_NextIndex (x : Z) (r : t) : t :=
  mk (r.(Id)) (r.(Group)) x (r.(MatchIndex)).
Definition set_MatchIndex (x : Z) (r : t) : t :=
  mk (r.(Id)) (r.(Group)) (r.(NextIndex)) x.
End Peer.

Module Host.
Record t : Type := mk {
  Id : Z;
  LastSeen : Z;
  Online : bool;
  ServerAddr : string;
  PublicKey : bytes
}.
#[global] Instance eq_dec : EqDecision t.
Proof. solve_decision. Defined.
Definition set_Id (x : Z) (r : t) : t :=
  mk x (r.(LastSeen)) (r.(Online)) (r.(ServerAddr)) (r.(PublicKey)).
Definition set_Online (x : bool) (r : t) : t :=
  mk (r.(Id)) (r.(LastSeen)) x (r.(ServerAddr)) (r.(PublicKey)).
End Host.

Module RaftGroup.
Record t : Type := mk {
  Replications : Z;
  Id : Z;
  Term : Z
}.
#[global] Instance eq_dec : EqDecision t.
Proof. solve_decision. Defined.
Definition set_Term (x : Z) (r : t) : t :=
  mk (r.(Replications)) (r.(Id)) x.
End RaftGroup.

Module ServerConfig.
Record t : Type := mk {
  PrivateKey : bytes
}.
#[global] Instance eq_dec : EqDecision t.
Proof. solve_decision. Defined.
End ServerConfig.

Module ApproveAppendResponse.
Record t : Type := mk {
  Group : Z;
  Peer : Z;
  Index : Z;
  Appended : bool;
  Delayed : bool;
  Failed : bool;
  Signature : bytes
}.
#[global] Instance eq_dec : EqDecision t.
Proof. solve_decision. Defined.
End ApproveAppendResponse.

Module GroupNodesResponse.
Record t : Type := mk {
  Nodes : list Host.t;
  Signature : bytes
}.
#[global] Instance eq_dec : EqDecision t.
Proof. solve_decision. Defined.
End GroupNodesResponse.

Module GroupMember.
Record t : Type := mk {
  Host : option Host.t;
  Peer : option Peer.t
}.
#[global] Instance eq_dec : EqDecision t.
Proof. solve_decision. Defined.
End GroupMember.

Module GroupMembersResponse.
Record t : Type := mk {
  LastEntry : option LogEntry.t;
  Members : list GroupMember.t;
  Signature : bytes
}.
#[global] Instance eq_dec : EqDecision t.
Proof. solve_decision. Defined.
End GroupMembersResponse.

Module PullGroupLogsResuest.
Record t : Type := mk {
  Group : Z;
  Index : Z
}.
#[global] Instance eq_dec : EqDecision t.
Proof. solve_decision. Defined.
End PullGroupLogsResuest.

Module LogEntries.
Record t : Type := mk {
  Entries : list LogEntry.t;
  Signature : bytes
}.
#[global] Instance eq_dec : EqDecision t.
Proof. solve_decision. Defined.
End LogEntries.

Module NodeJoinGroupEntry.
Record t : Type := mk {
  Group : Z
}.
#[global] Instance eq_dec : EqDecision t.
Proof. solve_decision. Defined.
End NodeJoinGroupEntry.

Module GroupLeader.
Record t : Type := mk {
  Node : option Host.t;
  Accuate : bool;
  Signature : bytes
}.
#[global] Instance eq_dec : EqDecision t.
Proof. solve_decision. Defined.
End GroupLeader.

Module GroupInvitation.
Record t : Type := mk {
  Group : Z;
  Leader : Z;
  Node : Z;
  Signature : bytes
}.
#[global] Instance eq_dec : EqDecision t.
Proof. solve_decision. Defined.
Definition set_Signature (x : bytes) (r : t) : t :=
  mk (r.(Group)) (r.(Leader)) (r.(Node)) x.
End GroupInvitation.

(** [client.CommandResult], the answer a replica sends to the client. *)
Module CommandResult.
Record t : Type := mk {
  Group : Z;
  NodeId : Z;
  RequestId : Z;
  Signature : bytes;
  Result : bytes
}.
#[global] Instance eq_dec : EqDecision t.
Proof. solve_decision. Defined.
End CommandResult.
