(* ===== verification/Platform.v ===== *)
(** The libraries the server runs on, as interfaces: each is a class with the
    operations the code calls and, as laws, the documented behaviour it relies
    on. [World] bundles them; everything that follows is parameterised by it.
    [Concrete.v] has an instance.

    Also here: [utils/signature.go], whose functions wrap Go's RSA and X.509
    libraries. *)
From S2P Require Export Messages.

(** * The key-value store, [github.com/dgraph-io/badger] *)

(** [item, err := txn.Get(key)] followed by [item.Value()]: the value is
    missing when reading it fails. *)
Inductive kvres : Type :=
| KVFound (value : option bytes)
| KVNotFound
| KVError (e : string).

(** The keys an iterator passes after [Seek(k)]. *)
Definition seek_range (reverse : bool) (k k' : bytes) : Prop :=
  if reverse then ble k' k else ble k k'.
#[global] Instance seek_range_dec r k k' : Decision (seek_range r k k').
Proof. destruct r; apply ble_dec. Defined.

(** A transaction sees, and writes, a state of type [D]. [kv_scan d reverse k]
    lists the items an iterator passes from [Seek(k)] on. [kv_commits d d']
    tells whether the commit of a transaction that read [d] and built [d']
    succeeds. *)
Class KV (D : Type) := {
  kv_get : D → bytes → kvres;
  kv_set : D → bytes → bytes → string + D;
  kv_scan : D → bool → bytes → list (bytes * option bytes);
  kv_commits : D → D → bool;
  kv_get_set d k v d' : kv_set d k v = inr d' → kv_get d' k = KVFound (Some v);
  kv_get_set_ne d k v d' k' :
    kv_set d k v = inr d' → k ≠ k' → kv_get d' k' = kv_get d k';
  kv_scan_forward d k : StronglySorted blt (kv_scan d false k).*1;
  kv_scan_reverse d k : StronglySorted (flip blt) (kv_scan d true k).*1;
  kv_scan_elem d reverse k k' v :
    (k', v) ∈ kv_scan d reverse k ↔
    kv_get d k' = KVFound v ∧ seek_range reverse k k'
}.

(** * Maps with string keys

    [github.com/patrickmn/go-cache] and [github.com/orcaman/concurrent-map].
    An entry of a cache that expires is deleted. *)
Class StrMap (Mp : Type → Type) := {
  sm_empty {V} : Mp V;
  sm_get {V} : Mp V → string → option V;
  sm_set {V} : Mp V → string → V → Mp V;
  sm_delete {V} : Mp V → string → Mp V;
  sm_get_empty {V} k : sm_get (sm_empty (V:=V)) k = None;
  sm_get_set {V} (m : Mp V) k v : sm_get (sm_set m k v) k = Some v;
  sm_get_set_ne {V} (m : Mp V) k k' v :
    k ≠ k' → sm_get (sm_set m k v) k' = sm_get m k';
  sm_get_delete {V} (m : Mp V) k : sm_get (sm_delete m k) k = None;
  sm_get_delete_ne {V} (m : Mp V) k k' :
    k ≠ k' → sm_get (sm_delete m k) k' = sm_get m k'
}.

(** * Protocol buffers, [github.com/golang/protobuf/proto]

    [unmarshal] gives what the message holds afterwards and whether
    [proto.Unmarshal] returned no error. *)
Class Codec (A : Type) := {
  marshal : A → string + bytes;
  unmarshal : bytes → A * bool;
  unmarshal_marshal a b : marshal a = inr b → unmarshal b = (a, true)
}.

(** * RSA and X.509

    [rsa_sign] gives the nil signature when signing fails; [pkix_parse] gives
    [None] for a well-formed key that is not an RSA key. *)
Class Crypto (PK SK : Type) := {
  rsa_public : SK → PK;
  rsa_sign : SK → bytes → bytes;
  rsa_verify : PK → bytes → bytes → bool;
  pkix_marshal : PK → string + bytes;
  pkix_parse : bytes → string + option PK;
  pkcs1_marshal : SK → bytes;
  pkcs1_parse : bytes → string + SK;
  rsa_verify_sign sk data :
    rsa_verify (rsa_public sk) (SHA1Hash data) (rsa_sign sk (SHA1Hash data)) = true;
  pkix_parse_marshal pk b : pkix_marshal pk = inr b → pkix_parse b = inr (Some pk);
  pkcs1_parse_marshal sk : pkcs1_parse (pkcs1_marshal sk) = inr sk
}.

(** * Go's maps

    [for k, v := range m] visits the entries in an order the language leaves
    open. *)
Class MapOrder := {
  map_range {A : Type} : list A → list A;
  map_range_perm {A : Type} (l : list A) : map_range l ≡ₚ l
}.

Definition range_map `{MapOrder} {A} (m : gmap Z A) : list (Z * A) :=
  map_range (map_to_list m).

Lemma elem_of_range_map `{MapOrder} {A} (m : gmap Z A) k v :
  (k, v) ∈ range_map m ↔ m !! k = Some v.
Proof. unfold range_map. by rw map_range_perm elem_of_map_to_list. Qed.

Lemma range_map_NoDup `{MapOrder} {A} (m : gmap Z A) : NoDup (range_map m).*1.
Proof. unfold range_map. rw map_range_perm. apply NoDup_fst_map_to_list. Qed.

Lemma range_map_dom `{MapOrder} {A} (m : gmap Z A) : (range_map m).*1 ≡ₚ elements (dom m).
Proof.
  apply NoDup_Permutation; [apply range_map_NoDup|apply NoDup_elements|]. intros i.
  rw elem_of_elements elem_of_dom list_elem_of_fmap. split.
  - intros ([j a] & -> & Hin%elem_of_range_map). by exists a.
  - intros [a Ha]. exists (i, a). split; [done|]. by apply elem_of_range_map.
Qed.

Class World := {
  W_order :: MapOrder;
  W_db : Type;
  W_kv :: KV W_db;
  W_map : Type → Type;
  W_strmap :: StrMap W_map;
  PublicKey : Type;
  PrivateKey : Type;
  W_crypto :: Crypto PublicKey PrivateKey;
  W_host_codec :: Codec Host.t;
  W_peer_codec :: Codec Peer.t;
  W_group_codec :: Codec RaftGroup.t;
  W_entry_codec :: Codec LogEntry.t;
  W_join_codec :: Codec NodeJoinGroupEntry.t;
  W_member_codec :: Codec GroupMember.t;
  W_config_codec :: Codec ServerConfig.t;
  (** A field of type [uint64] holds one. *)
  W_group_u64 b : is_u64 (RaftGroup.Id (unmarshal b).1);
  (** [grpc.Dial(addr)] returns no error. *)
  W_dial : string → bool
}.

(** A platform whose store takes every write and commit and whose codec encodes
    every log entry, host and peer: what a run without storage faults sees. *)
Record reliable (W : World) : Prop := {
  rel_set (d : W_db) k v : k ≠ [] → ∃ d', kv_set d k v = inr d';
  rel_commit (d d' : W_db) : kv_commits d d' = true;
  rel_entry (e : LogEntry.t) : ∃ b, marshal e = inr b;
  rel_host (h : Host.t) : ∃ b, marshal h = inr b;
  rel_peer (p : Peer.t) : ∃ b, marshal p = inr b
}.

(** * [utils/signature.go] *)

Section signature.
Context {W : World}.

(** [generated] is what [rsa.GenerateKey] gives: a key, or an error when the
    source of randomness fails. *)
Definition GenerateKey (generated : string + PrivateKey) : string + (bytes * bytes) :=
  match generated with
  | inl e => inl e
  | inr privateKey =>
    let privateKeyBytes := pkcs1_marshal privateKey in
    match pkix_marshal (rsa_public privateKey) with
    | inl e => inl e
    | inr publicKeyBytes => inr (privateKeyBytes, publicKeyBytes)
    end
  end.

Definition ParsePrivateKey (data : bytes) : string + PrivateKey := pkcs1_parse data.

Definition PublicKeyFromPrivate (key : PrivateKey) : PublicKey := rsa_public key.

(** The error of [ParsePKIXPublicKey] comes with a nil key, on which the type
    assertion of the return statement panics. *)
Definition ParsePublicKey (data : bytes) : outcome PublicKey :=
  match pkix_parse data with
  | inr (Some key) => Ok key
  | inr None => Panic "interface conversion: interface {} is not *rsa.PublicKey"
  | inl _ => Panic "interface conversion: interface {} is nil, not *rsa.PublicKey"
  end.

Definition HashPublicKey (key : PublicKey) : Z :=
  HashPublicKeyBytes (match pkix_marshal key with inr b => b | inl _ => [] end).

Definition Sign (privateKey : PrivateKey) (data : bytes) : bytes :=
  rsa_sign privateKey (SHA1Hash data).

(** [VerifySign(...) == nil]; the library dereferences the key. *)
Definition VerifySign (publicKey : option PublicKey) (signature data : bytes)
    : outcome bool :=
  match publicKey with
  | Some key => Ok (rsa_verify key (SHA1Hash data) signature)
  | None => Panic nil_deref
  end.

Lemma VerifySign_Sign sk data :
  VerifySign (Some (PublicKeyFromPrivate sk)) (Sign sk data) data = Ok true.
Proof. unfold VerifySign, Sign. by rw rsa_verify_sign. Qed.

Lemma ParsePublicKey_no_error data e : ParsePublicKey data ≠ Err e.
Proof. unfold ParsePublicKey. by repeat case_match. Qed.
End signature.
