(* ===== verification/Conns.v ===== *)
(** Connections: [utils/conns.go], [utils/rpcs.go] and [server/clients.go].

    [Net.t] is the two tables these packages keep for the whole process, with what
    was done to the servers they made. Dialling, making a server and listening are
    gRPC's and the operating system's: the class [Transport] has them, each given
    how many times it was called before. Both tables are used under a lock from
    beginning to end, so that a call is one step. *)
From S2P Require Export Platform.

(** What a process can ask of gRPC and the network; a server it makes is not one it
    made before. *)
Class Transport := {
  Conn : Type;
  GRPCServer : Type;
  grpc_Dial : nat → string → string + Conn;
  grpc_NewServer : nat → GRPCServer;
  net_Listen : nat → string → option string;
  grpc_NewServer_inj : Inj (=) (=) grpc_NewServer
}.

Inductive service : Type := BFTRaft | BFTRaftClientService.

Module Net.
Section net.
Context {T : Transport}.

Record t : Type := mk {
  ClientConn : gmap string Conn;
  RPCServers : gmap string GRPCServer;
  dials : nat;
  made : nat;
  listens : nat;
  registered : list (GRPCServer * service);
  serving : list (string * GRPCServer)
}.

Definition init : t := mk ∅ ∅ 0 0 0 [] [].

Definition upd_ClientConn (f : gmap string Conn → gmap string Conn) (n : t) : t :=
  mk (f (ClientConn n)) (RPCServers n) (dials n) (made n) (listens n) (registered n) (serving n).
Definition upd_RPCServers (f : gmap string GRPCServer → gmap string GRPCServer) (n : t) : t :=
  mk (ClientConn n) (f (RPCServers n)) (dials n) (made n) (listens n) (registered n) (serving n).
Definition upd_dials (f : nat → nat) (n : t) : t :=
  mk (ClientConn n) (RPCServers n) (f (dials n)) (made n) (listens n) (registered n) (serving n).
Definition upd_made (f : nat → nat) (n : t) : t :=
  mk (ClientConn n) (RPCServers n) (dials n) (f (made n)) (listens n) (registered n) (serving n).
Definition upd_listens (f : nat → nat) (n : t) : t :=
  mk (ClientConn n) (RPCServers n) (dials n) (made n) (f (listens n)) (registered n) (serving n).
Definition upd_registered (f : list (GRPCServer * service) → list (GRPCServer * service))
    (n : t) : t :=
  mk (ClientConn n) (RPCServers n) (dials n) (made n) (listens n) (f (registered n)) (serving n).
Definition upd_serving (f : list (string * GRPCServer) → list (string * GRPCServer)) (n : t) : t :=
  mk (ClientConn n) (RPCServers n) (dials n) (made n) (listens n) (registered n) (f (serving n)).
End net.
End Net.

Section conns.
Context {T : Transport}.

(** The client of the generated code. *)
Inductive BFTRaftClientStub : Type := NewBFTRaftClient (cc : Conn).

(** [ClientConn] is the table; a connection that was made once is kept. *)
Definition GetClientConn (addr : string) : M Net.t Conn :=
  cachedConn ← gets (λ n, Net.ClientConn n !! addr);
  match cachedConn with
  | Some cachedConn => mret cachedConn
  | None =>
    k ← gets Net.dials;
    _ ← modify (Net.upd_dials S);
    match grpc_Dial k addr with
    | inr conn =>
      _ ← modify (Net.upd_ClientConn <[addr := conn]>);
      mret conn
    | inl err => throw err
    end
  end.

Definition GetClusterRPC (addr : string) : M Net.t BFTRaftClientStub :=
  r ← try_ (GetClientConn addr);
  match r with
  | inr cc => mret (NewBFTRaftClient cc)
  | inl err => throw err
  end.

Definition GetGRPCServer (addr : string) : M Net.t GRPCServer :=
  cachedRPC ← gets (λ n, Net.RPCServers n !! addr);
  match cachedRPC with
  | Some cachedRPC => mret cachedRPC
  | None =>
    k ← gets Net.made;
    _ ← modify (Net.upd_made S);
    let grpcServer := grpc_NewServer k in
    _ ← modify (Net.upd_RPCServers <[addr := grpcServer]>);
    mret grpcServer
  end.

(** The generated [Register...Server]. *)
Definition RegisterService (server : GRPCServer) (svc : service) : M Net.t unit :=
  modify (Net.upd_registered (cons (server, svc))).

(** [Serve] does not return while the server runs: the state is the one in which
    it accepts. *)
Definition GRPCServerListen (addr : string) : M Net.t unit :=
  k ← gets Net.listens;
  _ ← modify (Net.upd_listens S);
  match net_Listen k addr with
  | Some err => throw err
  | None =>
    server ← GetGRPCServer addr;
    modify (Net.upd_serving (cons (addr, server)))
  end.
End conns.

(** * [server/clients.go] *)

Module ClientStore.
Section store.
Context {W : World} {T : Transport}.

(** A client is its connection; [closed] are the connections that were closed. *)
Record t : Type := mk {
  clients : W_map Conn;
  dials : nat;
  closed : list Conn
}.

Definition upd_clients (f : W_map Conn → W_map Conn) (c : t) : t :=
  mk (f (clients c)) (dials c) (closed c).
Definition upd_dials (f : nat → nat) (c : t) : t := mk (clients c) (f (dials c)) (closed c).
Definition upd_closed (f : list Conn → list Conn) (c : t) : t :=
  mk (clients c) (dials c) (f (closed c)).

Definition NewClientStore : t := mk sm_empty 0 [].

(** The function given to [OnEvicted]; the cache calls it with the entry it drops
    when that expires. *)
Definition OnEvicted (host : string) : M t unit :=
  client ← gets (λ c, sm_get (clients c) host);
  match client with
  | Some client =>
    _ ← modify (upd_clients (λ m, sm_delete m host));
    modify (upd_closed (cons client))
  | None => mret tt
  end.

(** [waiting] is what others do to the store while this call waits for its lock. *)
Definition Get (waiting : t → t) (serverAddr : string) : M t Conn :=
  cachedClient ← gets (λ c, sm_get (clients c) serverAddr);
  match cachedClient with
  | Some client => mret client
  | None =>
    _ ← modify waiting;
    cachedClient ← gets (λ c, sm_get (clients c) serverAddr);
    match cachedClient with
    | Some client => mret client
    | None =>
      k ← gets dials;
      _ ← modify (upd_dials S);
      match grpc_Dial k serverAddr with
      | inl err => throw err
      | inr conn =>
        _ ← modify (upd_clients (λ m, sm_set m serverAddr conn));
        mret conn
      end
    end
  end.
End store.
End ClientStore.
