(* ===== verification/Signed.v ===== *)
(** What is signed: the byte strings that [utils/shares.go], [server/vote.go],
    [server/log_entries.go], [server/membership.go] and [server/bftraft.go]
    build for signatures, and what each of them determines. *)
From S2P Require Export Platform.

Definition MAX_TERM_BUMP : Z := 20.
Definition ALPHA_GROUP : Z := 1.

(** * Commands and host lists *)

Definition CommandSignData (group sender reqId : Z) (data : bytes) : bytes :=
  ((U64Bytes group ++ U64Bytes sender) ++ U64Bytes reqId) ++ data.

Definition ExecCommandSignData (cmd : CommandRequest.t) : bytes :=
  CommandSignData (CommandRequest.Group cmd) (CommandRequest.ClientId cmd)
    (CommandRequest.RequestId cmd)
    (U64Bytes (CommandRequest.FuncId cmd) ++ CommandRequest.Arg cmd).

(** The error of [proto.Marshal] is dropped; the data is nil then. *)
Definition marshal_or_nil {A} `{Codec A} (a : A) : bytes :=
  match marshal a with inr data => data | inl _ => [] end.

Definition NodesSignData {W : World} (nodes : list Host.t) : bytes :=
  foldl (λ signData node, signData ++ marshal_or_nil node) [] nodes.

Definition GetMembersSignData {W : World} (members : list GroupMember.t) : bytes :=
  foldl (λ signData member, signData ++ marshal_or_nil member) [] members.

(** * Votes *)

Definition RequestVoteRequestSignData (req : RequestVoteRequest.t) : bytes :=
  str_bytes (Sprint [AInt (RequestVoteRequest.Group req); AStr "-";
    AInt (RequestVoteRequest.Term req); AStr "-";
    AInt (RequestVoteRequest.LogIndex req); AStr "-";
    AInt (RequestVoteRequest.Term req); AStr "-";
    AInt (RequestVoteRequest.CandidateId req)]).

Definition RequestVoteResponseSignData (res : RequestVoteResponse.t) : bytes :=
  str_bytes (Sprint [AInt (RequestVoteResponse.Group res); AStr "-";
    AInt (RequestVoteResponse.Term res); AStr "-";
    AInt (RequestVoteResponse.LogIndex res); AStr "-";
    AInt (RequestVoteResponse.Term res); AStr "-";
    AInt (RequestVoteResponse.CandidateId res); AStr "-";
    ABool (RequestVoteResponse.Granted res)]).

(** * Appends and invitations *)

Definition AppendLogEntrySignData (groupId term prevIndex prevTerm : Z) : bytes :=
  str_bytes (Sprint [AInt groupId; AStr "-"; AInt term; AStr "-"; AInt prevIndex;
                     AStr "-"; AInt prevTerm]).

Definition EB (b : bool) : Z := if b then 1 else 0.

Definition ApproveAppendSignData (res : ApproveAppendResponse.t) : bytes :=
  let bs1 := U64Bytes (ApproveAppendResponse.Peer res) ++
    [EB (ApproveAppendResponse.Appended res); EB (ApproveAppendResponse.Delayed res);
     EB (ApproveAppendResponse.Failed res)] in
  bs1 ++ U64Bytes (ApproveAppendResponse.Index res).

Definition InvitationSignature (inv : GroupInvitation.t) : bytes :=
  str_bytes (Sprint [AInt (GroupInvitation.Group inv); AStr "-";
    AInt (GroupInvitation.Node inv); AStr "-"; AInt (GroupInvitation.Leader inv)]).

(** * What a signature binds *)

Lemma CommandSignData_inj g s r d g' s' r' d' :
  is_u64 g → is_u64 s → is_u64 r → is_u64 g' → is_u64 s' → is_u64 r' →
  CommandSignData g s r d = CommandSignData g' s' r' d' →
  g = g' ∧ s = s' ∧ r = r' ∧ d = d'.
Proof.
  unfold CommandSignData. intros ?????? H. rw -!app_assoc in H.
  apply app_inj_1 in H as [Hg H]; [|by rw !length_U64Bytes].
  apply app_inj_1 in H as [Hs H]; [|by rw !length_U64Bytes].
  apply app_inj_1 in H as [Hr ->]; [|by rw !length_U64Bytes].
  by apply U64Bytes_inj in Hg, Hs, Hr.
Qed.

(** Reads the fields of two equal texts off one by one. *)
Ltac dash_fields H :=
  repeat (apply dash_field_inj in H; [|unfold is_u64 in *; lia..];
          let Hf := fresh "Hf" in let H' := fresh "Hrest" in
          destruct H as [Hf H']; rename H' into H).

Lemma Sprint_field n l :
  Sprint (AInt n :: AStr "-" :: l) = pretty n +:+ "-" +:+ Sprint l.
Proof. unfold Sprint. simpl. done. Qed.

Lemma append_nil_r s : s +:+ "" = s.
Proof. induction s as [|c s IH]; [done|].
  change (String c (s +:+ "") = String c s). by f_equal.
Qed.

Lemma Sprint_int n : Sprint [AInt n] = pretty n.
Proof. exact (append_nil_r (pretty n)). Qed.

Lemma Sprint_bool b : Sprint [ABool b] = if b then "true" else "false".
Proof. by destruct b. Qed.

(** The vote signature binds group, term, log index, candidate and decision. *)
Definition signed_vote_fields (v : RequestVoteResponse.t) : Z * Z * Z * Z * bool :=
  (RequestVoteResponse.Group v, RequestVoteResponse.Term v, RequestVoteResponse.LogIndex v,
   RequestVoteResponse.CandidateId v, RequestVoteResponse.Granted v).

Definition vote_in_range (v : RequestVoteResponse.t) : Prop :=
  is_u64 (RequestVoteResponse.Group v) ∧ is_u64 (RequestVoteResponse.Term v) ∧
  is_u64 (RequestVoteResponse.LogIndex v) ∧ is_u64 (RequestVoteResponse.CandidateId v).

Lemma vote_sign_data_inj v w :
  vote_in_range v → vote_in_range w →
  RequestVoteResponseSignData v = RequestVoteResponseSignData w →
  signed_vote_fields v = signed_vote_fields w.
Proof.
  intros (?&?&?&?) (?&?&?&?) Heq%str_bytes_inj.
  rw !Sprint_field !Sprint_bool in Heq. dash_fields Heq. unfold signed_vote_fields.
  assert (RequestVoteResponse.Granted v = RequestVoteResponse.Granted w)
    by (revert Heq; by destruct (RequestVoteResponse.Granted v), (RequestVoteResponse.Granted w)).
  congruence.
Qed.

Lemma AppendLogEntrySignData_inj g t i q g' t' i' q' :
  is_u64 g → is_u64 t → is_u64 i → is_u64 g' → is_u64 t' → is_u64 i' →
  AppendLogEntrySignData g t i q = AppendLogEntrySignData g' t' i' q' →
  g = g' ∧ t = t' ∧ i = i' ∧ q = q'.
Proof.
  intros ?????? Heq%str_bytes_inj. rw !Sprint_field !Sprint_int in Heq. dash_fields Heq.
  by apply (inj pretty) in Heq.
Qed.
