(* ===== verification/Majority.v ===== *)
(** [utils/consensus.go]: quorum sizes and majority answers. *)
From S2P Require Export Platform.

(** * Quorums *)

(** Go's [/] on [int] truncates toward zero. *)
Definition ExpectedPlayers (num : Z) : Z :=
  if num =? 0 then 1
  else if num =? 1 then 1
  else if num =? 2 then 2
  else if num =? 3 then 2
  else if num <? 5 then 3
  else Z.quot num 2 + 1.

(** The table of small cases is the formula of the last one. *)
Lemma ExpectedPlayers_half n : 0 ≤ n → ExpectedPlayers n = n / 2 + 1.
Proof.
  intros Hn. unfold ExpectedPlayers.
  repeat case_match; rw ?Z.quot_div_nonneg //;
    repeat match goal with
    | H : (_ =? _) = true |- _ => apply Z.eqb_eq in H; subst
    | H : (_ =? _) = false |- _ => apply Z.eqb_neq in H
    | H : (_ <? _) = true |- _ => apply Z.ltb_lt in H
    end; try done; try lia.
  by assert (n = 4) as -> by lia.
Qed.

Lemma ExpectedPlayers_bounds n :
  0 ≤ n → n < 2 * ExpectedPlayers n ∧ 0 < ExpectedPlayers n.
Proof.
  intros Hn. rw !ExpectedPlayers_half //.
  pose proof (Z.div_mod n 2). pose proof (Z.mod_pos_bound n 2). lia.
Qed.

Lemma ExpectedPlayers_le n : 1 ≤ n → ExpectedPlayers n ≤ n.
Proof.
  intros Hn. rw ExpectedPlayers_half; [lia|].
  pose proof (Z.div_mod n 2). pose proof (Z.mod_pos_bound n 2).
  destruct (decide (n = 1)) as [->|]; [done|]. lia.
Qed.

(** Two quorums of the members of a group share one. *)
Lemma quorums_meet (members v1 v2 : gset Z) :
  v1 ⊆ members → v2 ⊆ members →
  ExpectedPlayers (Z.of_nat (size members)) ≤ Z.of_nat (size v1) →
  ExpectedPlayers (Z.of_nat (size members)) ≤ Z.of_nat (size v2) →
  ∃ v, v ∈ v1 ∧ v ∈ v2.
Proof.
  intros H1 H2 Hq1 Hq2. destruct (decide (v1 ∩ v2 = ∅)) as [He|Hne%set_choose_L].
  - exfalso. pose proof (ExpectedPlayers_bounds (Z.of_nat (size members))) as Hb.
    assert (size (v1 ∪ v2) = size v1 + size v2)%nat as Hsz by (apply size_union; set_solver).
    assert (size (v1 ∪ v2) ≤ size members)%nat by (apply subseteq_size; set_solver). lia.
  - destruct Hne as [v Hv]. exists v. set_solver.
Qed.

(** * Counting *)

Definition occurrences (h : Z) (l : list Z) : nat := length (filter (λ x, x = h) l).

Lemma occurrences_cons h x l :
  occurrences h (x :: l) = ((if decide (x = h) then 1 else 0) + occurrences h l)%nat.
Proof. unfold occurrences. rw filter_cons. by case_decide. Qed.

Lemma occurrences_app h a b :
  occurrences h (a ++ b) = (occurrences h a + occurrences h b)%nat.
Proof. unfold occurrences. by rw filter_app length_app. Qed.

Lemma occurrences_snoc h l x :
  occurrences h (l ++ [x]) = (occurrences h l + if decide (x = h) then 1 else 0)%nat.
Proof. rw occurrences_app occurrences_cons. change (occurrences h []) with 0%nat. lia. Qed.

Lemma occurrences_perm h a b : a ≡ₚ b → occurrences h a = occurrences h b.
Proof. unfold occurrences. by intros ->. Qed.

Lemma occurrences_sublist h a b :
  a `sublist_of` b → (occurrences h a ≤ occurrences h b)%nat.
Proof.
  induction 1 as [|x a b _ IH|x a b _ IH]; [done|rw !occurrences_cons; lia|rw occurrences_cons; lia].
Qed.

Lemma occurrences_replicate h n : occurrences h (replicate n h) = n.
Proof. induction n as [|n IH]; [done|]. simpl. rw occurrences_cons IH. by case_decide. Qed.

Lemma occurrences_pos h l : (0 < occurrences h l)%nat ↔ h ∈ l.
Proof.
  induction l as [|x l IH]; [rw elem_of_nil; unfold occurrences; simpl; lia|].
  rw occurrences_cons elem_of_cons -IH. case_decide as Hx; [split; [by left|lia]|]. split; [by right|]. intros [->|?]; [done|lia].
Qed.

Lemma occurrences_two h h' l :
  h ≠ h' → (occurrences h l + occurrences h' l ≤ length l)%nat.
Proof.
  intros Hne. induction l as [|x l IH]; [done|].
  rw !occurrences_cons. simpl. repeat case_decide; subst; try done; lia.
Qed.

Section majority.
Context {W : World}.

(** * [PickMajority] *)

Definition count_one (countMap : gmap Z Z) (hash : Z) : gmap Z Z :=
  match countMap !! hash with
  | Some num => <[hash := num + 1]> countMap
  | None => <[hash := 1]> countMap
  end.

Definition count_map (hashes : list Z) : gmap Z Z := foldl count_one ∅ hashes.

(** The second loop: the first entry with enough votes, [0] if none has. *)
Fixpoint first_reaching (expected : Z) (entries : list (Z * Z)) : Z :=
  match entries with
  | [] => 0
  | (hash, count) :: rest =>
    if expected <=? count then hash else first_reaching expected rest
  end.

Definition PickMajority (hashes : list Z) : Z :=
  first_reaching (ExpectedPlayers (Z.of_nat (length hashes)))
    (range_map (count_map hashes)).

(** The abstract notion: a value that more than half of the list carries. *)
Definition has_majority (h : Z) (hashes : list Z) : Prop :=
  ExpectedPlayers (Z.of_nat (length hashes)) ≤ Z.of_nat (occurrences h hashes).

Lemma count_map_snoc l h : count_map (l ++ [h]) = count_one (count_map l) h.
Proof. unfold count_map. by rw foldl_app. Qed.

Lemma count_map_lookup l h :
  count_map l !! h =
    (if decide (h ∈ l) then Some (Z.of_nat (occurrences h l)) else None).
Proof.
  induction l as [|x l IH] using rev_ind; [done|].
  rw count_map_snoc. unfold count_one.
  destruct (decide (h = x)) as [->|Hne].
  - rw (decide_True (P:=x ∈ l ++ [x])); [set_solver|].
    rw occurrences_snoc (decide_True (P:=x = x)) // IH.
    case_decide as Hin; rw lookup_insert_eq; f_equal; [lia|].
    destruct (decide (0 < occurrences x l)%nat) as [?%occurrences_pos|]; [done|lia].
  - rw occurrences_snoc (decide_False (P:=x = h)); [congruence|]. rw Nat.add_0_r.
    assert ((match count_map l !! x with
      | Some num => <[x:=num + 1]> (count_map l)
      | None => <[x:=1]> (count_map l) end) !! h = count_map l !! h) as ->.
    { destruct (count_map l !! x); rw lookup_insert_ne; congruence. }
    rw IH. repeat case_decide; try done; set_solver.
Qed.

Lemma has_majority_unique h h' l : has_majority h l → has_majority h' l → h = h'.
Proof.
  unfold has_majority. intros H H'. destruct (decide (h = h')) as [|Hne]; [done|].
  pose proof (occurrences_two h h' l Hne).
  pose proof (ExpectedPlayers_bounds (Z.of_nat (length l))). lia.
Qed.

Lemma first_reaching_spec n entries :
  (∃ c, (first_reaching n entries, c) ∈ entries ∧ n ≤ c) ∨
  first_reaching n entries = 0 ∧ ∀ h c, (h, c) ∈ entries → c < n.
Proof.
  induction entries as [|[h c] rest IH]; simpl.
  { right. split; [done|]. by intros ?? ?%not_elem_of_nil. }
  destruct (Z.leb_spec n c); [left; exists c; set_solver|].
  destruct IH as [(c' & ? & ?)|[? Hr]]; [left; exists c'; set_solver|].
  right. split; [done|]. intros h' c' [[= -> ->]|?]%elem_of_cons; [lia|eauto].
Qed.

Lemma count_entry h c l :
  (h, c) ∈ range_map (count_map l) ↔ h ∈ l ∧ c = Z.of_nat (occurrences h l).
Proof. rw elem_of_range_map count_map_lookup. case_decide; naive_solver. Qed.

Lemma PickMajority_cases l :
  has_majority (PickMajority l) l ∨ PickMajority l = 0 ∧ ∀ h, ¬ has_majority h l.
Proof.
  unfold PickMajority, has_majority.
  destruct (first_reaching_spec (ExpectedPlayers (Z.of_nat (length l)))
    (range_map (count_map l))) as [(c & Hc & ?)|[-> Hno]].
  - left. apply count_entry in Hc as [? ->]. done.
  - right. split; [done|]. intros h Hh.
    pose proof (ExpectedPlayers_bounds (Z.of_nat (length l)) ltac:(lia)).
    assert (h ∈ l) by (apply occurrences_pos; lia).
    specialize (Hno h _ (proj2 (count_entry h _ l) (conj H0 eq_refl))). lia.
Qed.

Lemma PickMajority_majority h l : has_majority h l → PickMajority l = h.
Proof.
  intros Hh. destruct (PickMajority_cases l) as [Hm|[_ Hno]].
  - by apply (has_majority_unique _ _ l).
  - by destruct (Hno h).
Qed.

(** * [MajorityResponse] *)

(** An [interface{}] that may be nil, and the bytes its majority is taken
    over. *)
Record FuncResult (A : Type) : Type := mkFuncResult {
  Result : option A;
  Feature : bytes
}.
Arguments mkFuncResult {_} _ _.
Arguments Result {_} _.
Arguments Feature {_} _.

(** What the goroutine of one client sends: the call's result, or the nil
    result after ten seconds. *)
Definition timed {A} (r : option (FuncResult A)) : FuncResult A :=
  match r with Some fr => fr | None => mkFuncResult None [] end.

(** The loop that gathers the answers: hashes in order of arrival, and the last
    value of each hash. *)
Definition gather_step {A} (acc : list Z * gmap Z A) (fr : FuncResult A)
    : list Z * gmap Z A :=
  match Result fr with
  | None => acc
  | Some v =>
    let hash := HashData (Feature fr) in
    (acc.1 ++ [hash], <[hash := v]> acc.2)
  end.

Definition gather {A} (answers : list (FuncResult A)) : list Z * gmap Z A :=
  foldl gather_step ([], ∅) answers.

Definition pick_response {A} (gathered : list Z * gmap Z A) : option A :=
  match gathered.2 !! PickMajority gathered.1 with
  | Some val => Some val
  | None => snd <$> head (range_map gathered.2)
  end.

(** [clients] tells which of the clients are not nil, [answers] the results in
    their order of arrival. The loop waits for one result per client, nil or
    not, and blocks for ever ([None]) when there are fewer. *)
Definition MajorityResponse {A} (clients : list bool)
    (answers : list (option (FuncResult A))) : option (option A) :=
  if decide (length (filter (λ b, b = true) clients) = length clients)
  then Some (pick_response (gather (timed <$> answers)))
  else None.

(** ** The answers a majority agrees on *)

Definition answered {A} (answers : list (FuncResult A)) : list (FuncResult A) :=
  filter (λ fr, is_Some (Result fr)) answers.

Lemma gather_snoc {A} (l : list (FuncResult A)) fr :
  gather (l ++ [fr]) = gather_step (gather l) fr.
Proof. unfold gather. by rw foldl_app. Qed.

Lemma gather_hashes {A} (l : list (FuncResult A)) :
  (gather l).1 = (λ fr, HashData (Feature fr)) <$> answered l.
Proof.
  induction l as [|fr l IH] using rev_ind; [done|].
  rw gather_snoc. unfold gather_step, answered. rw filter_app filter_cons filter_nil.
  destruct (Result fr) eqn:Hr; case_decide as Hd; cbv beta in Hd; rw ?Hr in Hd.
  - by rw fmap_app -IH.
  - by destruct Hd.
  - by destruct Hd.
  - by rw app_nil_r IH.
Qed.

(** A value that is kept was the value of an answer with that hash. *)
Lemma gather_vals {A} (l : list (FuncResult A)) h v :
  (gather l).2 !! h = Some v →
  ∃ fr, fr ∈ l ∧ Result fr = Some v ∧ HashData (Feature fr) = h.
Proof.
  induction l as [|fr l IH] using rev_ind; [done|].
  rw gather_snoc. unfold gather_step. destruct (Result fr) as [w|] eqn:Hr.
  - simpl. destruct (decide (HashData (Feature fr) = h)) as [<-|Hne].
    + rw lookup_insert_eq. intros [= ->]. exists fr. set_solver.
    + rw lookup_insert_ne //. intros (fr' & ? & ? & ?)%IH. exists fr'. set_solver.
  - intros (fr' & ? & ? & ?)%IH. exists fr'. set_solver.
Qed.

Lemma gather_vals_hash {A} (l : list (FuncResult A)) h :
  h ∈ (gather l).1 → is_Some ((gather l).2 !! h).
Proof.
  induction l as [|fr l IH] using rev_ind; [by intros ?%not_elem_of_nil|].
  rw gather_snoc. unfold gather_step. destruct (Result fr) as [w|]; [|done].
  simpl. destruct (decide (HashData (Feature fr) = h)) as [<-|Hne].
  - rw lookup_insert_eq. eauto.
  - rw lookup_insert_ne // elem_of_app. intros [?|?]; [auto|set_solver].
Qed.

Lemma pick_response_majority {A} (l : list (FuncResult A)) h :
  has_majority h ((λ fr, HashData (Feature fr)) <$> answered l) →
  ∃ fr, fr ∈ l ∧ HashData (Feature fr) = h ∧ is_Some (Result fr) ∧
        pick_response (gather l) = Result fr.
Proof.
  intros Hm. unfold pick_response. rw gather_hashes.
  rw (PickMajority_majority h) //.
  assert (h ∈ (gather l).1) as Hin.
  { rw gather_hashes. apply occurrences_pos. unfold has_majority in Hm.
    pose proof (ExpectedPlayers_bounds
      (Z.of_nat (length ((λ fr, HashData (Feature fr)) <$> answered l))) ltac:(lia)). lia. }
  apply gather_vals_hash in Hin as [v Hv]. rw Hv.
  apply gather_vals in Hv as (fr & ? & Hr & ?). exists fr. rw Hr. eauto.
Qed.
End majority.
