(* ===== verification/Concrete.v ===== *)
(** An instance of the platform, on which the development's examples run: the
    store is a finite map whose scans sort its keys, the string-keyed maps are
    finite maps, a message is marshalled to the sequence of its fields with
    lengths before those that vary, and a signature is the key before the
    digest. It shows that the laws of [Platform.v] hold together. *)
From S2P Require Export Platform.

(** * The store *)

Definition memdb : Type := gmap bytes bytes.

Definition key_le (a b : bytes * bytes) : Prop := ble a.1 b.1.
#[global] Instance key_le_dec a b : Decision (key_le a b).
Proof. unfold key_le. apply _. Defined.

#[global] Instance key_le_total : Total key_le.
Proof.
  intros a b. unfold key_le. destruct (decide (ble a.1 b.1)) as [?|H]; [by left|right].
  apply blt_not_ble in H. by apply blt_ble.
Qed.

#[global] Instance key_le_trans : Transitive key_le.
Proof.
  intros a b c. unfold key_le. apply ble_trans.
Qed.

Definition mem_items (d : memdb) : list (bytes * bytes) :=
  merge_sort key_le (map_to_list d).

Definition mem_scan (d : memdb) (rev : bool) (k : bytes)
    : list (bytes * option bytes) :=
  let from := filter (λ kv, seek_range rev k kv.1) (mem_items d) in
  prod_map id Some <$> (if rev then reverse from else from).

Lemma mem_items_sorted d : StronglySorted blt (mem_items d).*1.
Proof.
  assert (StronglySorted key_le (mem_items d)) as Hs
    by (apply StronglySorted_merge_sort; apply _).
  assert (NoDup (mem_items d).*1) as Hd.
  { unfold mem_items. rw merge_sort_Permutation. apply NoDup_fst_map_to_list. }
  revert Hs Hd. generalize (mem_items d) as l.
  induction 1 as [|x l Hl IH Hx]; simpl; [constructor|].
  intros [Hx' Hd]%NoDup_cons. constructor; [auto|].
  apply Forall_fmap, Forall_forall. intros y Hy. simpl.
  rw Forall_forall in Hx. specialize (Hx y Hy). apply ble_iff in Hx as [Heq|]; [|done].
  destruct Hx'. rw Heq. by apply list_elem_of_fmap_2.
Qed.

Lemma StronglySorted_filter_fst (P : bytes * bytes → Prop) `{∀ x, Decision (P x)} l :
  StronglySorted blt l.*1 → StronglySorted blt (filter P l).*1.
Proof.
  induction l as [|x l IH]; [done|]. cbn [fmap list_fmap].
  intros [Hl Hx]%StronglySorted_inv. rw filter_cons. case_decide; [|auto].
  cbn [fmap list_fmap]. constructor; [auto|].
  rw Forall_fmap Forall_forall in Hx. rw Forall_fmap Forall_forall.
  intros y [_ Hy]%list_elem_of_filter. auto.
Qed.

#[local] Program Instance mem_kv : KV memdb := {
  kv_get d k := match d !! k with Some v => KVFound (Some v) | None => KVNotFound end;
  kv_set d k v :=
    if decide (k = []) then inl "Key cannot be empty" else inr (<[k := v]> d);
  kv_scan := mem_scan;
  kv_commits _ _ := true
}.
Next Obligation.
  intros d k v d' H. simpl in *. case_decide; simplify_eq. by rw lookup_insert_eq.
Qed.
Next Obligation.
  intros d k v d' k' H Hne. simpl in *. case_decide; simplify_eq. by rw lookup_insert_ne.
Qed.
Next Obligation.
  intros d k. unfold mem_scan. cbv zeta. rw -list_fmap_compose.
  apply StronglySorted_filter_fst, mem_items_sorted.
Qed.
Next Obligation.
  intros d k. unfold mem_scan. cbv zeta. rw -list_fmap_compose.
  rw fmap_reverse. apply StronglySorted_reverse.
  apply StronglySorted_filter_fst, mem_items_sorted.
Qed.
Next Obligation.
  intros d r k k' v. unfold mem_scan. cbv zeta.
  rw list_elem_of_fmap.
  assert (∀ x, x ∈ (if r then reverse (filter (λ kv, seek_range r k kv.1) (mem_items d))
                    else filter (λ kv, seek_range r k kv.1) (mem_items d)) ↔
      seek_range r k x.1 ∧ d !! x.1 = Some x.2) as Hx.
  { intros [a b]. trans ((a, b) ∈ filter (λ kv, seek_range r k kv.1) (mem_items d)).
    - destruct r; [apply elem_of_reverse|done].
    - rw list_elem_of_filter. unfold mem_items.
      by rw merge_sort_Permutation elem_of_map_to_list. }
  split.
  - intros ([a b] & [= -> ->] & [? Hd]%Hx). simpl in *. by rw Hd.
  - intros [Hd Hk]. destruct (d !! k') as [w|] eqn:Hw; simplify_eq.
    exists (k', w). split; [done|]. by apply Hx.
Qed.

(** * String-keyed maps *)

Definition mem_map (V : Type) : Type := gmap string V.

#[local] Program Instance mem_strmap : StrMap mem_map := {
  sm_empty V := (∅ : gmap string V);
  sm_get V m k := (m : gmap string V) !! k;
  sm_set V m k v := <[k := v]> (m : gmap string V);
  sm_delete V m k := delete k (m : gmap string V)
}.
Next Obligation. done. Qed.
Next Obligation. intros. apply lookup_insert_eq. Qed.
Next Obligation. intros. by apply lookup_insert_ne. Qed.
Next Obligation. intros. apply lookup_delete_eq. Qed.
Next Obligation. intros. by apply lookup_delete_ne. Qed.

(** * Messages *)

(** A field of varying length, its length first. *)
Definition put_bytes (b : bytes) : bytes := Z.of_nat (length b) :: b.

Definition take_bytes (l : bytes) : option (bytes * bytes) :=
  match l with
  | n :: r =>
    let n := Z.to_nat n in
    if decide (n ≤ length r)%nat then Some (take n r, drop n r) else None
  | [] => None
  end.

Lemma take_put_bytes b r : take_bytes (put_bytes b ++ r) = Some (b, r).
Proof.
  unfold take_bytes, put_bytes. cbn [app]. rw Nat2Z.id decide_True.
  { rw length_app. lia. }
  by rw take_app_length drop_app_length.
Qed.

#[global] Arguments put_bytes : simpl never.
#[global] Arguments take_bytes : simpl never.

Definition bool_Z (b : bool) : Z := if b then 1 else 0.

(** A codec from a printer and a parser; what fails to parse leaves [dflt]. *)
Program Definition codec_of {A} (dflt : A) (print : A → bytes)
    (parse : bytes → option A) (H : ∀ a, parse (print a) = Some a) : Codec A := {|
  marshal a := inr (print a);
  unmarshal b := match parse b with Some a => (a, true) | None => (dflt, false) end
|}.
Next Obligation. intros A dflt print parse H a b [= <-]. by rw H. Qed.

Definition str_of (b : bytes) : string :=
  String.string_of_list_ascii ((λ z, Ascii.ascii_of_N (Z.to_N z)) <$> b).

Lemma str_of_bytes s : str_of (str_bytes s) = s.
Proof.
  unfold str_of, str_bytes. rw -list_fmap_compose.
  rw -{2}(String.string_of_list_ascii_of_string s). f_equal.
  rw -{2}(list_fmap_id (String.list_ascii_of_string s)).
  apply list_fmap_ext. intros _ a _. simpl. by rw N2Z.id Ascii.ascii_N_embedding.
Qed.

Definition print_peer (p : Peer.t) : bytes :=
  [Peer.Id p; Peer.Group p; Peer.NextIndex p; Peer.MatchIndex p].
Definition parse_peer (b : bytes) : option Peer.t :=
  match b with [i; g; n; m] => Some (Peer.mk i g n m) | _ => None end.

Definition print_group (g : RaftGroup.t) : bytes :=
  [RaftGroup.Replications g; RaftGroup.Id g; RaftGroup.Term g].
Definition parse_group (b : bytes) : option RaftGroup.t :=
  match b with
  | [r; i; t] => if decide (is_u64 i) then Some (RaftGroup.mk r i t) else None
  | _ => None
  end.

Definition print_join (j : NodeJoinGroupEntry.t) : bytes := [NodeJoinGroupEntry.Group j].
Definition parse_join (b : bytes) : option NodeJoinGroupEntry.t :=
  match b with [g] => Some (NodeJoinGroupEntry.mk g) | _ => None end.

Definition print_host (h : Host.t) : bytes :=
  Host.Id h :: Host.LastSeen h :: bool_Z (Host.Online h) ::
  put_bytes (str_bytes (Host.ServerAddr h)) ++ put_bytes (Host.PublicKey h).
Definition parse_host (b : bytes) : option Host.t :=
  match b with
  | i :: l :: o :: r =>
    '(a, r) ← take_bytes r; '(k, r) ← take_bytes r;
    match r with [] => Some (Host.mk i l (o =? 1) (str_of a) k) | _ => None end
  | _ => None
  end.

Definition print_cmd (c : CommandRequest.t) : bytes :=
  CommandRequest.Group c :: CommandRequest.ClientId c :: CommandRequest.RequestId c ::
  CommandRequest.FuncId c ::
  put_bytes (CommandRequest.Signature c) ++ put_bytes (CommandRequest.Arg c).
Definition parse_cmd (b : bytes) : option CommandRequest.t :=
  match b with
  | g :: c :: q :: f :: r =>
    '(s, r) ← take_bytes r; '(a, r) ← take_bytes r;
    match r with [] => Some (CommandRequest.mk g c q f s a) | _ => None end
  | _ => None
  end.

Definition print_entry (e : LogEntry.t) : bytes :=
  LogEntry.Term e :: LogEntry.Index e :: put_bytes (LogEntry.Hash e) ++
  match LogEntry.Command e with None => [] | Some c => print_cmd c end.
Definition parse_entry (b : bytes) : option LogEntry.t :=
  match b with
  | t :: i :: r =>
    '(h, r) ← take_bytes r;
    match r with
    | [] => Some (LogEntry.mk t i h None)
    | _ => c ← parse_cmd r; Some (LogEntry.mk t i h (Some c))
    end
  | _ => None
  end.

Definition print_member (m : GroupMember.t) : bytes :=
  put_bytes (match GroupMember.Host m with None => [] | Some h => print_host h end) ++
  put_bytes (match GroupMember.Peer m with None => [] | Some p => print_peer p end).
Definition parse_opt {A} (parse : bytes → option A) (b : bytes) : option (option A) :=
  match b with [] => Some None | _ => Some <$> parse b end.
Definition parse_member (b : bytes) : option GroupMember.t :=
  '(h, r) ← take_bytes b; '(p, r) ← take_bytes r;
  h ← parse_opt parse_host h; p ← parse_opt parse_peer p;
  Some (GroupMember.mk h p).

Lemma parse_print_peer p : parse_peer (print_peer p) = Some p.
Proof. by destruct p. Qed.
Lemma parse_group_u64 b g : parse_group b = Some g → is_u64 (RaftGroup.Id g).
Proof.
  unfold parse_group. destruct b as [|r [|i [|t [|? ?]]]]; try done. by case_decide; [intros [= <-]|].
Qed.
Lemma parse_print_join j : parse_join (print_join j) = Some j.
Proof. by destruct j. Qed.

Lemma parse_print_host h : parse_host (print_host h) = Some h.
Proof.
  destruct h as [i l o a k]. unfold parse_host, print_host. simpl.
  rw take_put_bytes. simpl. rw -(app_nil_r (put_bytes k)) take_put_bytes. simpl.
  rw str_of_bytes. by destruct o.
Qed.

Lemma parse_print_cmd c : parse_cmd (print_cmd c) = Some c.
Proof.
  destruct c as [g c q f s a]. unfold parse_cmd, print_cmd. simpl.
  by rw take_put_bytes /= -(app_nil_r (put_bytes a)) take_put_bytes.
Qed.

Lemma parse_print_entry e : parse_entry (print_entry e) = Some e.
Proof.
  destruct e as [t i h [c|]]; unfold parse_entry, print_entry;
    cbn [LogEntry.Term LogEntry.Index LogEntry.Hash LogEntry.Command];
    rw take_put_bytes; cbn [mbind option_bind]; [|done].
  rw parse_print_cmd. by destruct c.
Qed.

Lemma parse_print_member m : parse_member (print_member m) = Some m.
Proof.
  destruct m as [h p]. unfold parse_member, print_member.
  cbn [GroupMember.Host GroupMember.Peer]. rw take_put_bytes.
  cbn [mbind option_bind]. rw -(app_nil_r (put_bytes (match p with _ => _ end))).
  rw take_put_bytes. cbn [mbind option_bind].
  assert (parse_opt parse_host (match h with None => [] | Some h => print_host h end) = Some h)
    as ->.
  { destruct h as [h|]; [|done]. unfold parse_opt. rw parse_print_host. by destruct h. }
  by destruct p as [[]|].
Qed.

#[local] Instance host_codec : Codec Host.t :=
  codec_of (Host.mk 0 0 false "" []) print_host parse_host parse_print_host.
#[local] Instance peer_codec : Codec Peer.t :=
  codec_of (Peer.mk 0 0 0 0) print_peer parse_peer parse_print_peer.
(** A number out of range is no group's. *)
#[local] Program Instance group_codec : Codec RaftGroup.t := {|
  marshal g := if decide (is_u64 (RaftGroup.Id g)) then inr (print_group g) else inl "out of range";
  unmarshal b :=
    match parse_group b with Some g => (g, true) | None => (RaftGroup.mk 0 0 0, false) end
|}.
Next Obligation.
  intros [r i t] b. cbn. case_decide as Hu; [|done]. intros [= <-].
  unfold parse_group, print_group. cbn. by rw decide_True.
Qed.
#[local] Instance entry_codec : Codec LogEntry.t :=
  codec_of (LogEntry.mk 0 0 [] None) print_entry parse_entry parse_print_entry.
#[local] Instance join_codec : Codec NodeJoinGroupEntry.t :=
  codec_of (NodeJoinGroupEntry.mk 0) print_join parse_join parse_print_join.
Definition print_config (c : ServerConfig.t) : bytes := ServerConfig.PrivateKey c.
Definition parse_config (b : bytes) : option ServerConfig.t := Some (ServerConfig.mk b).
Lemma parse_print_config c : parse_config (print_config c) = Some c.
Proof. by destruct c. Qed.

#[local] Instance config_codec : Codec ServerConfig.t :=
  codec_of (ServerConfig.mk []) print_config parse_config parse_print_config.
#[local] Instance member_codec : Codec GroupMember.t :=
  codec_of (GroupMember.mk None None) print_member parse_member parse_print_member.

(** * Keys *)

Definition mem_pkix_parse (b : bytes) : string + option Z :=
  match b with
  | [pk] => inr (Some pk)
  | [] => inl "asn1: syntax error"
  | _ => inr None
  end.

Definition mem_pkcs1_parse (b : bytes) : string + Z :=
  match b with [sk] => inr sk | _ => inl "asn1: syntax error" end.

#[local] Program Instance mem_crypto : Crypto Z Z := {
  rsa_public sk := sk;
  rsa_sign sk h := sk :: h;
  rsa_verify pk h s := bool_decide (s = pk :: h);
  pkix_marshal pk := inr [pk];
  pkix_parse := mem_pkix_parse;
  pkcs1_marshal sk := [sk];
  pkcs1_parse := mem_pkcs1_parse
}.
Next Obligation. intros. by apply bool_decide_eq_true. Qed.
Next Obligation. by intros pk b [= <-]. Qed.
Next Obligation. done. Qed.

#[local] Program Instance mem_order : MapOrder := { map_range A l := l }.
Next Obligation. done. Qed.

Lemma mem_group_u64 b : is_u64 (RaftGroup.Id (unmarshal b).1).
Proof.
  cbn. destruct (parse_group b) as [g|] eqn:Hg; [exact (parse_group_u64 _ _ Hg)|done].
Qed.

#[global] Instance mem_world : World := {
  W_db := memdb; W_map := mem_map; PublicKey := Z; PrivateKey := Z;
  W_group_u64 := mem_group_u64;
  W_dial addr := bool_decide (addr ≠ "")
}.

Lemma mem_reliable : reliable mem_world.
Proof.
  split; [|done|by eexists..]. intros d k v Hk. cbn. case_decide; [done|]. by eexists.
Qed.

(** The same platform with a store that refuses every commit. *)
Definition full_kv : KV memdb := {|
  kv_get := @kv_get _ mem_kv;
  kv_set := @kv_set _ mem_kv;
  kv_scan := @kv_scan _ mem_kv;
  kv_commits _ _ := false;
  kv_get_set := @kv_get_set _ mem_kv;
  kv_get_set_ne := @kv_get_set_ne _ mem_kv;
  kv_scan_forward := @kv_scan_forward _ mem_kv;
  kv_scan_reverse := @kv_scan_reverse _ mem_kv;
  kv_scan_elem := @kv_scan_elem _ mem_kv
|}.

Definition full_world : World := {|
  W_db := memdb; W_kv := full_kv; W_map := mem_map; PublicKey := Z; PrivateKey := Z;
  W_group_u64 := mem_group_u64;
  W_dial addr := bool_decide (addr ≠ "")
|}.
