(* ===== verification/MajorityFacts.v ===== *)
(** What quorums and majority answers are worth: majorities are the strict ones,
    two quorums share one or two members, and the answer of [MajorityResponse] is
    one that was given; and what the signatures of votes, requests and results
    bind. *)
From S2P Require Export Majority Signed Concrete.

(** * Quorums *)

(** Among [n] members two quorums have one member in common when [n] is odd and
    two when it is even. *)
Lemma ExpectedPlayers_overlap n :
  0 ≤ n → 2 * ExpectedPlayers n - n = if Z.even n then 2 else 1.
Proof.
  intros Hn. rw ExpectedPlayers_half //. pose proof (Z.div_mod n 2 ltac:(lia)).
  pose proof (Zmod_even n). destruct (Z.even n); lia.
Qed.

Lemma size_intersection (a b : gset Z) : (size (a ∩ b) + size (a ∪ b) = size a + size b)%nat.
Proof.
  rw size_union_alt.
  assert (size b = size (b ∖ a) + size (a ∩ b))%nat; [|lia].
  rw -size_union; [set_solver|]. f_equal. apply set_eq. intros x.
  rw elem_of_union elem_of_difference elem_of_intersection.
  destruct (decide (x ∈ a)); naive_solver.
Qed.

(** The first and the last [k] of the members. *)
Lemma overlapping_parts (members : gset Z) k :
  (k ≤ size members ≤ 2 * k)%nat →
  ∃ a b : gset Z, a ⊆ members ∧ b ⊆ members ∧ size a = k ∧ size b = k ∧
    size (a ∩ b) = (2 * k - size members)%nat.
Proof.
  intros Hk. set (l := elements members).
  assert (length l = size members) as Hl by done.
  assert (NoDup l) as Hnd by apply NoDup_elements.
  set (a := list_to_set (take k l) : gset Z).
  set (b := list_to_set (drop (length l - k) l) : gset Z).
  assert (size a = k) as Ha.
  { unfold a. rw size_list_to_set; [|rw length_take; lia].
    by eapply sublist_NoDup; [|apply sublist_take]. }
  assert (size b = k) as Hb.
  { unfold b. rw size_list_to_set; [|rw length_drop; lia].
    by eapply sublist_NoDup; [|apply sublist_drop]. }
  assert (a ∪ b = members) as Hab.
  { apply set_eq. intros x. rw elem_of_union /a /b !elem_of_list_to_set.
    rw -(elem_of_elements members). fold l. split.
    - intros [Hx|Hx]; (eapply elem_of_submseteq; [exact Hx|apply sublist_submseteq]);
        [apply sublist_take|apply sublist_drop].
    - intros (i & Hi)%list_elem_of_lookup. pose proof (lookup_lt_Some _ _ _ Hi).
      destruct (decide (i < k)%nat); [left|right]; apply list_elem_of_lookup.
      + exists i. by rw lookup_take_lt.
      + exists (i - (length l - k))%nat. rw lookup_drop. rw -Hi. f_equal. lia. }
  exists a, b. split; [set_solver|]. split; [set_solver|]. split; [done|]. split; [done|].
  pose proof (size_intersection a b) as Hs. rw Hab Ha Hb in Hs. lia.
Qed.

(** Quorums of the members of a group intersect, but not in an honest member:
    among [3 f + 1] members, [f] of which may lie, some two quorums share at most
    [f] as soon as [f > 1]. *)
Theorem quorums_are_not_byzantine (members : gset Z) (f : nat) :
  size members = (3 * f + 1)%nat → (2 ≤ f)%nat →
  let q := ExpectedPlayers (Z.of_nat (size members)) in
  (∀ a b : gset Z, a ⊆ members → b ⊆ members → q ≤ Z.of_nat (size a) → q ≤ Z.of_nat (size b) →
    ∃ v, v ∈ a ∧ v ∈ b) ∧
  ∃ a b : gset Z, a ⊆ members ∧ b ⊆ members ∧ q = Z.of_nat (size a) ∧ q = Z.of_nat (size b) ∧
    (size (a ∩ b) ≤ f)%nat.
Proof.
  intros Hn Hf q. split; [intros a b; exact (quorums_meet members a b)|].
  pose proof (ExpectedPlayers_overlap (Z.of_nat (size members)) (Nat2Z.is_nonneg _)) as Hq.
  fold q in Hq. assert (1 ≤ 2 * q - Z.of_nat (size members) ≤ 2) as Hq' by (destruct (Z.even _); lia).
  destruct (overlapping_parts members (Z.to_nat q)) as (a & b & Ha & Hb & Hsa & Hsb & Hs); [lia|].
  exists a, b. rw Hsa Hsb Hs. repeat split; try done; lia.
Qed.

Lemma quorums_are_not_byzantine_witness :
  ∃ a b : gset Z, a ⊆ {[1; 2; 3; 4; 5; 6; 7]} ∧ b ⊆ {[1; 2; 3; 4; 5; 6; 7]} ∧
    4 = Z.of_nat (size a) ∧ 4 = Z.of_nat (size b) ∧ (size (a ∩ b) ≤ 2)%nat.
Proof.
  exact (proj2 (quorums_are_not_byzantine {[1; 2; 3; 4; 5; 6; 7]} 2 eq_refl (le_n 2))).
Defined.

#[local] Arguments Result {_} _.
#[local] Arguments Feature {_} _.

Section facts.
Context {W : World}.

(** * Majorities *)

Lemma has_majority_strict h l :
  has_majority h l ↔ (length l < 2 * occurrences h l)%nat.
Proof.
  unfold has_majority. rw ExpectedPlayers_half; [lia|].
  pose proof (Z.div_mod (Z.of_nat (length l)) 2 ltac:(lia)).
  pose proof (Z.mod_pos_bound (Z.of_nat (length l)) 2 ltac:(lia)). lia.
Qed.

(** C32. [PickMajority] answers with the value that more than half of the list
    carries, and with 0 when there is none, whatever the order of the list and
    of the map it counts in. *)
Theorem PickMajority_spec l h :
  PickMajority l = h ↔
  (length l < 2 * occurrences h l)%nat ∨
  h = 0 ∧ ∀ h', ¬ (length l < 2 * occurrences h' l)%nat.
Proof.
  rw -has_majority_strict. split.
  - intros <-. destruct (PickMajority_cases l) as [?|[? Hno]]; [by left|right].
    split; [done|]. intros h'. rw -has_majority_strict. apply Hno.
  - intros [?|[-> Hno]]; [by apply PickMajority_majority|].
    destruct (PickMajority_cases l) as [Hm|[? _]]; [|done].
    apply has_majority_strict in Hm. by destruct (Hno _ Hm).
Qed.

Lemma head_range_map {A} (t : gmap Z A) : t ≠ ∅ → ∃ k v, head (range_map t) = Some (k, v) ∧ t !! k = Some v.
Proof.
  intros Hne. destruct (range_map t) as [|[k v] r] eqn:Hr.
  - exfalso. apply Hne. apply map_eq. intros i. rw lookup_empty.
    destruct (t !! i) as [v|] eqn:Hi; [|done]. apply elem_of_range_map in Hi.
    rw Hr in Hi. by apply not_elem_of_nil in Hi.
  - exists k, v. split; [done|]. apply elem_of_range_map. rw Hr. left.
Qed.

Lemma pick_response_given {A} (l : list (FuncResult A)) :
  match pick_response (gather l) with
  | Some v => ∃ fr, fr ∈ l ∧ Result fr = Some v
  | None => ∀ fr, fr ∈ l → Result fr = None
  end.
Proof.
  unfold pick_response. destruct ((gather l).2 !! _) as [v|] eqn:Hv.
  { apply gather_vals in Hv as (fr & ? & ? & _). eauto. }
  destruct (decide ((gather l).2 = ∅)) as [He|Hne].
  - rw He. unfold range_map. rw map_to_list_empty.
    pose proof (map_range_perm (@nil (Z * A))) as Hp. apply Permutation_nil_r in Hp. rw Hp. simpl.
    intros fr Hin. destruct (Result fr) as [v|] eqn:Hr; [|done]. exfalso.
    assert (is_Some ((gather l).2 !! HashData (Feature fr))) as [w Hw].
    { apply gather_vals_hash. rw gather_hashes. apply list_elem_of_fmap. exists fr. split; [done|].
      apply list_elem_of_filter. split; [by rw Hr|done]. }
    by rw He lookup_empty in Hw.
  - destruct (head_range_map _ Hne) as (k & v & -> & Hk). simpl.
    apply gather_vals in Hk as (fr & ? & ? & _). eauto.
Qed.

(** C31. [MajorityResponse] waits for ever exactly when one of its clients is nil.
    Otherwise its answer is one that a client gave, and nil only when none did;
    and it is the answer of more than half of those who answered, as told by the
    hash of the feature, when there is such a majority. *)
Theorem MajorityResponse_spec {A} clients (answers : list (option (FuncResult A))) :
  (MajorityResponse clients answers = None ↔ false ∈ clients) ∧
  ∀ o, MajorityResponse clients answers = Some o →
    match o with
    | Some v => ∃ fr, Some fr ∈ answers ∧ Result fr = Some v
    | None => ∀ fr, Some fr ∈ answers → Result fr = None
    end ∧
    let hashes := (λ fr, HashData (Feature fr)) <$> answered (timed <$> answers) in
    ∀ h, (length hashes < 2 * occurrences h hashes)%nat →
      ∃ fr, Some fr ∈ answers ∧ HashData (Feature fr) = h ∧ o = Result fr ∧ is_Some o.
Proof.
  assert (∀ (fr : FuncResult A), fr ∈ timed <$> answers → is_Some (Result fr) →
    Some fr ∈ answers) as Hin.
  { intros fr ([x|] & -> & Hx)%list_elem_of_fmap; [done|]. by intros [? [=]]. }
  unfold MajorityResponse. split.
  - assert (length (filter (λ b, b = true) clients) = length clients ↔ false ∉ clients) as Hc.
    { induction clients as [|b r IH]; [split; [intros _; apply not_elem_of_nil|done]|].
      rw filter_cons not_elem_of_cons. pose proof (length_filter (λ b, b = true) r).
      destruct b; simpl.
      { rw -IH. split; [intros ?; split; [done|lia]|intros [? ?]; lia]. }
      split; [intros ?; lia|by intros [? ?]]. }
    case_decide as Hd; [apply Hc in Hd; done|]. split; [intros _|done].
    destruct (decide (false ∈ clients)) as [?|Hn]; [done|]. by apply Hc in Hn.
  - intros o. case_decide; [|done]. intros [= <-]. split.
    + pose proof (pick_response_given (timed <$> answers)) as Hp.
      destruct (pick_response _) as [v|].
      * destruct Hp as (fr & Hfr & Hr). exists fr. split; [|done]. apply Hin; [done|by rw Hr].
      * intros fr Hfr. apply Hp. apply list_elem_of_fmap. by exists (Some fr).
    + intros h Hm%has_majority_strict.
      destruct (pick_response_majority _ _ Hm) as (fr & Hfr & Hh & Hs & Ho).
      exists fr. rw Ho. split; [by apply Hin|done].
Qed.

(** * Signatures *)

(** What is signed determines the fields it is read for: group, term, index,
    candidate and decision of a vote; group, term and previous entry of an
    append; group, sender, request and data of a command or result. A vote
    request is the exception: its log term is not signed. *)
Theorem signatures_bind :
  (∀ v w, vote_in_range v → vote_in_range w →
    RequestVoteResponseSignData v = RequestVoteResponseSignData w →
    signed_vote_fields v = signed_vote_fields w) ∧
  (∀ g t i q g' t' i' q', is_u64 g → is_u64 t → is_u64 i → is_u64 g' → is_u64 t' → is_u64 i' →
    AppendLogEntrySignData g t i q = AppendLogEntrySignData g' t' i' q' →
    g = g' ∧ t = t' ∧ i = i' ∧ q = q') ∧
  (∀ g s r d g' s' r' d', is_u64 g → is_u64 s → is_u64 r → is_u64 g' → is_u64 s' → is_u64 r' →
    CommandSignData g s r d = CommandSignData g' s' r' d' →
    g = g' ∧ s = s' ∧ r = r' ∧ d = d') ∧
  (∀ g t i lt lt' c sg sg',
    RequestVoteRequestSignData (RequestVoteRequest.mk g t i lt c sg) =
    RequestVoteRequestSignData (RequestVoteRequest.mk g t i lt' c sg')).
Proof.
  split; [exact vote_sign_data_inj|]. split; [exact AppendLogEntrySignData_inj|].
  split; [exact CommandSignData_inj|done].
Qed.
End facts.

(** Two of three clients agree. *)
Definition demo_given : list (option (FuncResult Z)) :=
  [Some (mkFuncResult _ (Some 5) [1]); None; Some (mkFuncResult _ (Some 5) [1]);
   Some (mkFuncResult _ (Some 6) [2])].

Lemma demo_response : MajorityResponse (W:=mem_world) [true; true; true; true] demo_given = Some (Some 5).
Proof. by vm_compute. Qed.

Lemma MajorityResponse_spec_witness : ∃ fr, Some fr ∈ demo_given ∧ Result fr = Some 5.
Proof.
  exact (proj1 (proj2 (MajorityResponse_spec (W:=mem_world) [true; true; true; true] demo_given) _
    demo_response)).
Defined.
