(* ===== verification/Store.v ===== *)
(** The store's layout: [server/store.go] and the functions of
    [server/group.go], [server/hosts.go] and [server/peers.go] that read and
    write it inside a transaction.

    Rows of one kind and group share a twelve-byte prefix. [table_at] is the
    abstract view of such rows, a finite map from row number to message; the
    lemmas here are what the log, the peers and the hosts are proved with. *)
From S2P Require Export Platform.

Definition LOG_ENTRIES : Z := 0.
Definition GROUP_PEERS : Z := 1.
Definition GROUP_META : Z := 2.
Definition HOST_LIST : Z := 3.
Definition GROUP_LAST_IDX : Z := 4.
Definition SERVER_CONF : Z := 100.

Definition HOST_LIST_GROUP : Z := 1.
Definition CONFIG_GROUP : Z := 0.

Definition ComposeKeyPrefix (group t : Z) : bytes := U32Bytes t ++ U64Bytes group.

(** An absent item has no value; reading the value of an item may fail. *)
Definition ItemValue (item : option (option bytes)) : option bytes :=
  match item with None => None | Some val => val end.

(** * Keys *)

Lemma length_ComposeKeyPrefix g t : length (ComposeKeyPrefix g t) = 12%nat.
Proof. unfold ComposeKeyPrefix. by rw length_app length_U32Bytes length_U64Bytes. Qed.

Definition is_u32 (n : Z) : Prop := 0 ≤ n < 2 ^ 32.

Lemma ComposeKeyPrefix_inj g t g' t' :
  is_u64 g → is_u64 g' → is_u32 t → is_u32 t' →
  ComposeKeyPrefix g t = ComposeKeyPrefix g' t' → g = g' ∧ t = t'.
Proof.
  intros ???? H. apply app_inj_1 in H as [Ht Hg]; [|by rw !length_U32Bytes].
  split; [by apply U64Bytes_inj|by apply (be_bytes_inj 4)].
Qed.

(** Keys under one prefix never start with another of the same length. *)
Lemma has_prefix_other p q r :
  length p = length q → p ≠ q → has_prefix p (q ++ r) = false.
Proof.
  intros Hlen Hne. destruct (has_prefix p (q ++ r)) eqn:H; [|done].
  apply has_prefix_spec in H as [r' H].
  by apply app_inj_1 in H as [-> _].
Qed.

Lemma has_prefix_kind g t g' t' r :
  is_u64 g → is_u64 g' → is_u32 t → is_u32 t' → (g, t) ≠ (g', t') →
  has_prefix (ComposeKeyPrefix g t) (ComposeKeyPrefix g' t' ++ r) = false.
Proof.
  intros ???? Hne. apply has_prefix_other; [by rw !length_ComposeKeyPrefix|].
  intros [-> ->]%ComposeKeyPrefix_inj; auto.
Qed.

(** Keys of different kinds, whatever the groups. *)
Lemma has_prefix_kinds g t g' t' r :
  is_u32 t → is_u32 t' → t' ≠ t →
  has_prefix (ComposeKeyPrefix g t) (ComposeKeyPrefix g' t' ++ r) = false.
Proof.
  intros ?? Hne. apply has_prefix_other; [by rw !length_ComposeKeyPrefix|].
  intros [Heq _]%app_inj_1; [|by rw !length_U32Bytes]. apply (be_bytes_inj 4) in Heq; [congruence|done..].
Qed.

(** Keys between two keys under a prefix are under it. *)
Lemma prefix_between p a b k :
  ble (p ++ a) k → ble k (p ++ b) → has_prefix p k = true.
Proof.
  revert k. induction p as [|x p IH]; intros [|y k]; try done.
  unfold ble. cbn [app bytes_cmp has_prefix]. intros Ha Hb.
  assert (x = y) as <-.
  { destruct (Z.compare_spec x y), (Z.compare_spec y x); try lia; done. }
  rw Z.eqb_refl. rw Z.compare_refl in Ha Hb. by apply IH.
Qed.

Section table.
Context {D : Type} `{KV D} {A : Type} `{Codec A}.

(** The items of a scan, up to the first key outside the prefix: what a loop
    on [ValidForPrefix] passes. *)
Fixpoint under_prefix (p : bytes) (items : list (bytes * option bytes))
    : list (bytes * option bytes) :=
  match items with
  | (k, v) :: rest => if has_prefix p k then (k, v) :: under_prefix p rest else []
  | [] => []
  end.

Definition row_key (p : bytes) (i : Z) : bytes := p ++ U64Bytes i.

(** The rows under [p] are those of [t], one per key [p ++ U64Bytes i]. *)
Record table_at (p : bytes) (d : D) (t : gmap Z A) : Prop := {
  table_row i a : t !! i = Some a →
    is_u64 i ∧ ∃ b, kv_get d (row_key p i) = KVFound (Some b) ∧ unmarshal b = (a, true);
  table_key k : has_prefix p k = true →
    (∃ i, is_u64 i ∧ k = row_key p i ∧ is_Some (t !! i)) ∨ kv_get d k = KVNotFound
}.

Lemma row_key_inj p i j : is_u64 i → is_u64 j → row_key p i = row_key p j → i = j.
Proof. intros ?? H1%app_inv_head. by apply U64Bytes_inj. Qed.

Lemma table_absent p d t i :
  table_at p d t → is_u64 i → t !! i = None → kv_get d (row_key p i) = KVNotFound.
Proof.
  intros Ht Hi Hn. destruct (table_key _ _ _ Ht (row_key p i)) as [(j & Hj & Hk & Hs)|];
    [apply has_prefix_app| |done].
  apply row_key_inj in Hk as ->; [|done..]. rw Hn in Hs. by destruct Hs.
Qed.

Lemma table_found p d t i v :
  table_at p d t → is_u64 i → kv_get d (row_key p i) = KVFound v →
  ∃ a b, t !! i = Some a ∧ v = Some b ∧ unmarshal b = (a, true).
Proof.
  intros Ht Hi Hg. destruct (t !! i) as [a|] eqn:Ha.
  - apply (table_row _ _ _ Ht) in Ha as (_ & b & Hb & Hu). simplify_eq/=.
    rw Hg in Hb. simplify_eq. eauto.
  - rw (table_absent p d t i Ht Hi Ha) in Hg. done.
Qed.

Lemma table_set p d t i a b d' :
  table_at p d t → is_u64 i → marshal a = inr b →
  kv_set d (row_key p i) b = inr d' → table_at p d' (<[i := a]> t).
Proof.
  intros Ht Hi Hm Hs. split.
  - intros j a' Hj. destruct (decide (i = j)) as [<-|Hne].
    + rw lookup_insert_eq in Hj. simplify_eq. split; [done|]. exists b.
      split; [exact (kv_get_set _ _ _ _ Hs)|by apply unmarshal_marshal].
    + rw lookup_insert_ne in Hj; [done|]. destruct (table_row _ _ _ Ht _ _ Hj) as (? & b' & ? & ?).
      split; [done|]. exists b'. split; [|done].
      rw (kv_get_set_ne _ _ _ _ _ Hs); [by intros ?%row_key_inj|done].
  - intros k Hk. destruct (decide (k = row_key p i)) as [->|Hne].
    + left. exists i. rw lookup_insert_eq. eauto.
    + rw (kv_get_set_ne _ _ _ _ _ Hs); [congruence|].
      destruct (table_key _ _ _ Ht k Hk) as [(j & ? & -> & ?)|]; [left|by right].
      exists j. split; [done|]. split; [done|]. rw lookup_insert_ne; [congruence|done].
Qed.

Lemma table_set_other p d t k b d' :
  table_at p d t → kv_set d k b = inr d' → has_prefix p k = false → table_at p d' t.
Proof.
  intros Ht Hs Hp.
  assert (∀ k', has_prefix p k' = true → kv_get d' k' = kv_get d k') as Hg.
  { intros k' Hk'. apply (kv_get_set_ne _ _ _ _ _ Hs). congruence. }
  split.
  - intros i a Ha. rw Hg; [apply has_prefix_app|]. by apply (table_row _ _ _ Ht).
  - intros k' Hk'. rw Hg; [done|]. by apply (table_key _ _ _ Ht).
Qed.

(** ** Scans of a table *)

(** An item of a scan and the row it holds. *)
Definition item_row (p : bytes) (item : bytes * option bytes) (row : Z * A) : Prop :=
  item.1 = row_key p row.1 ∧ is_u64 row.1 ∧
  ∃ b, item.2 = Some b ∧ unmarshal b = (row.2, true).

Definition row_lt (x y : Z * A) : Prop := x.1 < y.1.

Lemma under_prefix_elem p items k v :
  (k, v) ∈ under_prefix p items → (k, v) ∈ items ∧ has_prefix p k = true.
Proof.
  induction items as [|[k' v'] rest IH]; simpl; [by intros ?%not_elem_of_nil|].
  destruct (has_prefix p k') eqn:Hp; [|by intros ?%not_elem_of_nil].
  intros [[= -> ->]|[? ?]%IH]%elem_of_cons; split; try done; [left|by right].
Qed.

(** When the keys under [p] come first in the scan, the loop sees them all. *)
Lemma under_prefix_all p items k v :
  (∀ pre x post k' v', items = pre ++ x :: post → (k', v') ∈ post →
    has_prefix p k' = true → has_prefix p x.1 = true) →
  (k, v) ∈ items → has_prefix p k = true → (k, v) ∈ under_prefix p items.
Proof.
  intros Hfirst Hin Hp. induction items as [|[k' v'] rest IH]; [by apply not_elem_of_nil in Hin|].
  simpl. apply elem_of_cons in Hin as [[= <- <-]|Hin]; [rw Hp; left|].
  rw (Hfirst [] (k', v') rest k v) //. right. apply IH; [|done].
  intros pre x post k'' v'' ->. apply (Hfirst ((k', v') :: pre)). done.
Qed.

Lemma sorted_before {X} (R : relation X) pre x post y :
  StronglySorted R (pre ++ x :: post) → y ∈ post → R x y.
Proof.
  induction pre as [|z pre IH]; simpl; intros [Hs Hf]%StronglySorted_inv Hy.
  - rw Forall_forall in Hf. auto.
  - auto.
Qed.

Lemma sorted_fst_before (R : relation bytes) (pre : list (bytes * option bytes)) x post k v :
  StronglySorted R (pre ++ x :: post).*1 → (k, v) ∈ post → R x.1 k.
Proof.
  rw fmap_app fmap_cons. intros Hs Hin. apply (sorted_before R pre.*1 _ post.*1); [done|].
  by apply (list_elem_of_fmap_2 fst _ (k, v)).
Qed.

Lemma row_key_blt p i j : is_u64 i → is_u64 j → blt (row_key p i) (row_key p j) ↔ i < j.
Proof. intros. unfold row_key, blt. rw bytes_cmp_app. by apply U64Bytes_blt. Qed.

Lemma row_key_ble p i j : is_u64 i → is_u64 j → ble (row_key p i) (row_key p j) ↔ i ≤ j.
Proof. intros. unfold row_key, ble. rw bytes_cmp_app. by apply U64Bytes_ble. Qed.

Lemma under_prefix_split p items : ∃ rest, items = under_prefix p items ++ rest.
Proof.
  induction items as [|[k v] items [rest IH]]; [by exists []|]. simpl.
  destruct (has_prefix p k); [|by eexists]. exists rest. simpl. by f_equal.
Qed.

Lemma StronglySorted_app_l {X} (R : relation X) a b :
  StronglySorted R (a ++ b) → StronglySorted R a.
Proof.
  induction a as [|x a IH]; [constructor|]. simpl. intros [Hs Hf]%StronglySorted_inv.
  constructor; [auto|]. by apply Forall_app in Hf as [? _].
Qed.

Lemma under_prefix_sorted (R : relation bytes) p items :
  StronglySorted R items.*1 → StronglySorted R (under_prefix p items).*1.
Proof.
  destruct (under_prefix_split p items) as [rest Hi]. rw {1}Hi.
  rw fmap_app. apply StronglySorted_app_l.
Qed.

(** Each item of a scan of the table is a row. *)
Lemma scan_item_row p d t reverse k0 k v :
  table_at p d t → (k, v) ∈ under_prefix p (kv_scan d reverse k0) →
  ∃ row, item_row p (k, v) row ∧ t !! row.1 = Some row.2 ∧ seek_range reverse k0 k.
Proof.
  intros Ht [[Hg Hk]%kv_scan_elem Hp]%under_prefix_elem.
  destruct (table_key _ _ _ Ht k Hp) as [(i & Hi & -> & Hs)|Hn]; [|congruence].
  destruct (table_found p d t i v Ht Hi Hg) as (a & b & Ha & -> & Hu).
  exists (i, a). split; [|done]. split; [done|]. split; [done|]. by exists b.
Qed.

Lemma scan_rows p d t reverse k0 :
  table_at p d t →
  ∃ rows, Forall2 (item_row p) (under_prefix p (kv_scan d reverse k0)) rows ∧
    Forall (λ row, t !! row.1 = Some row.2 ∧ seek_range reverse k0 (row_key p row.1)) rows.
Proof.
  intros Ht.
  assert (∀ k v, (k, v) ∈ under_prefix p (kv_scan d reverse k0) →
    ∃ row, item_row p (k, v) row ∧ t !! row.1 = Some row.2 ∧ seek_range reverse k0 k) as Hr
    by (intros; by apply (scan_item_row p d)).
  revert Hr. generalize (under_prefix p (kv_scan d reverse k0)) as l.
  induction l as [|[k v] l IH]; intros Hr; [by exists []|].
  destruct IH as (rows & ? & ?). { intros k' v' Hin. apply Hr. by right. }
  destruct (Hr k v) as (row & Hi & Ha & Hk); [left|].
  exists (row :: rows). split; constructor; try done.
  split; [done|]. destruct Hi as [Hkey _]. simpl in Hkey. by subst k.
Qed.

Lemma rows_elem p items rows i a :
  Forall2 (item_row p) items rows → (i, a) ∈ rows → ∃ v, (row_key p i, v) ∈ items.
Proof.
  intros HF Hin. apply list_elem_of_lookup in Hin as [n Hn].
  destruct (Forall2_lookup_r _ _ _ _ _ HF Hn) as ([k v] & Hk & [Heq _]).
  simpl in Heq. subst k. exists v. by apply list_elem_of_lookup_2 in Hk.
Qed.

Lemma elem_rows p items rows k v :
  Forall2 (item_row p) items rows → (k, v) ∈ items → ∃ row, row ∈ rows ∧ item_row p (k, v) row.
Proof.
  intros HF Hin. apply list_elem_of_lookup in Hin as [n Hn].
  destruct (Forall2_lookup_l _ _ _ _ _ HF Hn) as (row & Hk & Hrow).
  exists row. split; [by apply list_elem_of_lookup_2 in Hk|done].
Qed.

Lemma rows_sorted p (items : list (bytes * option bytes)) rows (R : relation bytes)
    (R' : relation Z) :
  (∀ i j, is_u64 i → is_u64 j → R (row_key p i) (row_key p j) → R' i j) →
  Forall2 (item_row p) items rows → StronglySorted R items.*1 →
  StronglySorted (λ x y : Z * A, R' x.1 y.1) rows.
Proof.
  intros HR. induction 1 as [|x row items rows Hx HF IH]; [constructor|].
  cbn [fmap list_fmap]. intros [Hs Hf]%StronglySorted_inv. constructor; [auto|].
  apply Forall_forall. intros [j a] Hin.
  destruct (rows_elem _ _ _ _ _ HF Hin) as [v Hv].
  rw Forall_fmap Forall_forall in Hf. specialize (Hf _ Hv). simpl in *.
  destruct Hx as (Hk & Hi & _). rw Hk in Hf.
  apply list_elem_of_lookup in Hin as [n Hn].
  destruct (Forall2_lookup_r _ _ _ _ _ HF Hn) as (it & _ & (_ & Hj & _)). auto.
Qed.

(** A loop over a table from row [j] on passes its rows from [j] on, in
    ascending order. *)
Lemma scan_table p d t j :
  table_at p d t → is_u64 j →
  ∃ rows, Forall2 (item_row p) (under_prefix p (kv_scan d false (row_key p j))) rows ∧
    StronglySorted row_lt rows ∧ ∀ i a, (i, a) ∈ rows ↔ t !! i = Some a ∧ j ≤ i.
Proof.
  intros Ht Hj. destruct (scan_rows p d t false (row_key p j) Ht) as (rows & HF & Hr).
  exists rows. split; [done|]. split.
  { refine (rows_sorted p _ rows blt Z.lt _ HF _); [intros; by apply (row_key_blt p)|].
    apply under_prefix_sorted, kv_scan_forward. }
  intros i a. split.
  - intros Hin. rw Forall_forall in Hr. destruct (Hr _ Hin) as [Ha Hk]. simpl in *.
    split; [done|]. apply (row_key_ble p); [done|by apply (table_row _ _ _ Ht) in Ha as []|done].
  - intros [Ha Hle]. destruct (table_row _ _ _ Ht i a Ha) as (Hi & b & Hg & Hu).
    destruct (elem_rows p _ rows (row_key p i) (Some b) HF) as ([i' a'] & Hin & (Hk & Hi' & b' & Hb & Hu')).
    + apply under_prefix_all.
      * intros pre [k v] post k' v' Heq Hin Hp. apply has_prefix_spec in Hp as [r ->].
        apply (prefix_between p (U64Bytes j) r).
        -- assert ((k, v) ∈ kv_scan d false (row_key p j)) as [_ ?]%kv_scan_elem
             by (rw Heq; set_solver). done.
        -- apply blt_ble. pose proof (kv_scan_forward d (row_key p j)) as Hs.
           rw Heq in Hs. exact (sorted_fst_before _ _ (k, v) _ _ v' Hs Hin).
      * apply kv_scan_elem. split; [done|]. by apply row_key_ble.
      * apply has_prefix_app.
    + simpl in *. apply row_key_inj in Hk as ->; [|done..]. congruence.
Qed.

(** A loop in reverse from the largest possible row passes all rows, in
    descending order. *)
Lemma scan_table_reverse p d t :
  table_at p d t →
  ∃ rows, Forall2 (item_row p)
      (under_prefix p (kv_scan d true (row_key p (2 ^ 64 - 1)))) rows ∧
    StronglySorted (flip row_lt) rows ∧ ∀ i a, (i, a) ∈ rows ↔ t !! i = Some a.
Proof.
  intros Ht. assert (is_u64 (2 ^ 64 - 1)) as Hmax by (unfold is_u64; lia).
  destruct (scan_rows p d t true (row_key p (2 ^ 64 - 1)) Ht) as (rows & HF & Hr).
  exists rows. split; [done|]. split.
  { refine (rows_sorted p _ rows (flip blt) (flip Z.lt) _ HF _).
    - intros i j Hi Hj. by apply (row_key_blt p).
    - apply under_prefix_sorted, kv_scan_reverse. }
  intros i a. split.
  - intros Hin. rw Forall_forall in Hr. by destruct (Hr _ Hin).
  - intros Ha. destruct (table_row _ _ _ Ht i a Ha) as (Hi & b & Hg & Hu).
    destruct (elem_rows p _ rows (row_key p i) (Some b) HF) as ([i' a'] & Hin & (Hk & Hi' & b' & Hb & Hu')).
    + apply under_prefix_all.
      * intros pre [k v] post k' v' Heq Hin Hp. apply has_prefix_spec in Hp as [r ->].
        apply (prefix_between p r (U64Bytes (2 ^ 64 - 1))).
        -- apply blt_ble. pose proof (kv_scan_reverse d (row_key p (2 ^ 64 - 1))) as Hs.
           rw Heq in Hs. exact (sorted_fst_before _ _ (k, v) _ _ v' Hs Hin).
        -- assert ((k, v) ∈ kv_scan d true (row_key p (2 ^ 64 - 1))) as [_ ?]%kv_scan_elem
             by (rw Heq; set_solver). done.
      * apply kv_scan_elem. split; [done|]. apply row_key_ble; [done..|].
        unfold is_u64 in Hi. lia.
      * apply has_prefix_app.
    + simpl in *. apply row_key_inj in Hk as ->; [|done..]. congruence.
Qed.
End table.

(** Two strictly sorted lists with the same elements are one list. *)
Lemma sorted_unique {X} (R : relation X) l1 l2 :
  (∀ x, ¬ R x x) → (∀ x y, R x y → ¬ R y x) →
  StronglySorted R l1 → StronglySorted R l2 → (∀ x, x ∈ l1 ↔ x ∈ l2) → l1 = l2.
Proof.
  intros Hirr Hasym H1. revert l2. induction H1 as [|x l1 Hs1 IH Hf1]; intros l2 H2 Heq.
  { destruct l2 as [|y l2]; [done|]. destruct (not_elem_of_nil y). apply Heq. left. }
  destruct H2 as [|y l2 Hs2 Hf2].
  { destruct (not_elem_of_nil x). apply Heq. left. }
  rw Forall_forall in Hf1. rw Forall_forall in Hf2.
  assert (x = y) as <-.
  { assert (x ∈ y :: l2) as Hx by (apply Heq; left).
    assert (y ∈ x :: l1) as Hy by (apply Heq; left).
    apply elem_of_cons in Hx as [|Hx]; [done|]. apply elem_of_cons in Hy as [|Hy]; [done|].
    destruct (Hasym x y); auto. }
  f_equal. apply IH; [done|]. intros z. specialize (Heq z).
  rw !elem_of_cons in Heq. split; intros Hz.
  - destruct (proj1 Heq (or_intror Hz)) as [->|]; [|done]. by destruct (Hirr x); auto.
  - destruct (proj2 Heq (or_intror Hz)) as [->|]; [|done]. by destruct (Hirr x); auto.
Qed.

(** * Groups, peers and hosts in the store *)

Section records.
Context {W : World}.

Definition group_key (groupId : Z) : bytes := ComposeKeyPrefix groupId GROUP_META.
Definition peers_prefix (group : Z) : bytes := ComposeKeyPrefix group GROUP_PEERS.
Definition hosts_prefix : bytes := ComposeKeyPrefix HOST_LIST_GROUP HOST_LIST.

(** [txn.Set] with the error as the outcome. *)
Definition txn_set (txn : W_db) (key data : bytes) : outcome W_db :=
  match kv_set txn key data with inr txn' => Ok txn' | inl e => Err e end.

(** [proto.Marshal] with the error as the outcome. *)
Definition proto_marshal {A} `{Codec A} (a : A) : outcome bytes :=
  match marshal a with inr data => Ok data | inl e => Err e end.

Definition GetGroupFromKV (txn : W_db) (groupId : Z) : option RaftGroup.t :=
  match kv_get txn (group_key groupId) with
  | KVFound item =>
    match ItemValue (Some item) with
    | None => None
    | Some data => Some (unmarshal data).1
    end
  | _ => None
  end.

Lemma GetGroupFromKV_u64 txn groupId g :
  GetGroupFromKV txn groupId = Some g → is_u64 (RaftGroup.Id g).
Proof.
  unfold GetGroupFromKV. repeat case_match; try done. intros [= <-]. apply W_group_u64.
Qed.

Definition SaveGroup (txn : W_db) (group : RaftGroup.t) : outcome W_db :=
  match proto_marshal group with
  | Ok data => txn_set txn (group_key (RaftGroup.Id group)) data
  | Err e => Err e
  | Panic w => Panic w
  end.

Definition SavePeer (txn : W_db) (peer : Peer.t) : outcome W_db :=
  match proto_marshal peer with
  | Ok data => txn_set txn (peers_prefix (Peer.Group peer) ++ U64Bytes (Peer.Id peer)) data
  | Err e => Err e
  | Panic w => Panic w
  end.

Definition SaveHost (txn : W_db) (node : Host.t) : outcome W_db :=
  match proto_marshal node with
  | Ok data => txn_set txn (hosts_prefix ++ U64Bytes (Host.Id node)) data
  | Err e => Err e
  | Panic w => Panic w
  end.

(** The loop of [GetGroupPeersFromKV]; a value that cannot be read is a nil
    pointer the loop dereferences. *)
Fixpoint peers_loop (keyPrefix : bytes) (items : list (bytes * option bytes))
    (peers : gmap Z Peer.t) : outcome (gmap Z Peer.t) :=
  match items with
  | [] => Ok peers
  | (k, item) :: rest =>
    if has_prefix keyPrefix k then
      match ItemValue (Some item) with
      | None => Panic nil_deref
      | Some item_data =>
        let peer := (unmarshal item_data).1 in
        peers_loop keyPrefix rest (<[Peer.Id peer := peer]> peers)
      end
    else Ok peers
  end.

Definition GetGroupPeersFromKV (txn : W_db) (group : Z) : outcome (gmap Z Peer.t) :=
  let keyPrefix := peers_prefix group in
  peers_loop keyPrefix (kv_scan txn false (keyPrefix ++ U64Bytes 0)) ∅.

(** ** The peers of a group as a table *)

(** [t] is what the store records of the peers of [group]. *)
Record peers_at (txn : W_db) (group : Z) (t : gmap Z Peer.t) : Prop := {
  peers_table : table_at (peers_prefix group) txn t;
  peers_id i p : t !! i = Some p → Peer.Id p = i
}.

Lemma peers_loop_rows p items rows acc :
  Forall2 (item_row p) (under_prefix p items) rows →
  peers_loop p items acc = Ok (foldl (λ m row, <[Peer.Id row.2 := row.2]> m) acc rows).
Proof.
  revert rows acc. induction items as [|[k v] items IH]; intros rows acc; simpl.
  { by intros ->%Forall2_nil_inv_l. }
  destruct (has_prefix p k); [|by intros ->%Forall2_nil_inv_l].
  intros ([i a] & rows' & (_ & _ & b & Hv & Hu) & HF & ->)%Forall2_cons_inv_l.
  simpl in *. subst v. rw Hu. by apply IH.
Qed.

Lemma foldl_rows_lookup (rows : list (Z * Peer.t)) (acc : gmap Z Peer.t) j :
  (∀ i a, (i, a) ∈ rows → Peer.Id a = i) → StronglySorted row_lt rows →
  foldl (λ m row, <[Peer.Id row.2 := row.2]> m) acc rows !! j =
    match (list_to_map rows : gmap Z Peer.t) !! j with Some a => Some a | None => acc !! j end.
Proof.
  intros Hid Hs. revert acc. induction Hs as [|[i a] rows Hs IH Hf]; intros acc; [done|].
  cbn [foldl list_to_map foldr]. rw IH; [intros; apply Hid; by right|]. simpl.
  rw (Hid i a); [left|]. destruct (decide (i = j)) as [<-|Hne].
  - rw !lookup_insert_eq. rw not_elem_of_list_to_map_1; [|done].
    intros ([i' a'] & Hi & Hin)%list_elem_of_fmap. rw Forall_forall in Hf.
    specialize (Hf _ Hin). unfold row_lt in Hf. simpl in *. lia.
  - by rw !lookup_insert_ne.
Qed.

Lemma sorted_rows_NoDup {A} (rows : list (Z * A)) :
  StronglySorted row_lt rows → NoDup rows.*1.
Proof.
  induction 1 as [|[i a] rows Hs IH Hf]; [constructor|]. cbn [fmap list_fmap].
  constructor; [|done]. intros ([i' a'] & Hi & Hin)%list_elem_of_fmap.
  rw Forall_forall in Hf. specialize (Hf _ Hin). unfold row_lt in Hf. simpl in *. lia.
Qed.

Lemma GetGroupPeers_at txn group t :
  peers_at txn group t → GetGroupPeersFromKV txn group = Ok t.
Proof.
  intros [Ht Hid]. unfold GetGroupPeersFromKV.
  destruct (scan_table _ _ _ 0 Ht) as (rows & HF & Hs & Hr); [unfold is_u64; lia|].
  rw (peers_loop_rows _ _ _ _ HF). f_equal. apply map_eq. intros j.
  rw foldl_rows_lookup; [intros i a [Ha _]%Hr; by apply Hid|done|].
  rw lookup_empty. destruct ((list_to_map rows : gmap Z Peer.t) !! j) as [a|] eqn:Hj.
  - apply elem_of_list_to_map_2 in Hj. by apply Hr in Hj as [-> _].
  - apply not_elem_of_list_to_map_2 in Hj. destruct (t !! j) as [a|] eqn:Ha; [|done].
    destruct Hj. apply (list_elem_of_fmap_2 fst rows (j, a)). apply Hr. split; [done|].
    apply (table_row _ _ _ Ht) in Ha as [[? _] _]. done.
Qed.

Lemma SavePeer_at txn txn' peer group t :
  peers_at txn group t → Peer.Group peer = group → is_u64 (Peer.Id peer) →
  SavePeer txn peer = Ok txn' → peers_at txn' group (<[Peer.Id peer := peer]> t).
Proof.
  intros [Ht Hid] Hg Hi. unfold SavePeer, proto_marshal, txn_set.
  destruct (marshal peer) as [|data] eqn:Hm; [done|].
  destruct (kv_set _ _ _) as [|d] eqn:Hs; [done|]. intros [= <-]. rw Hg in Hs.
  split; [exact (table_set _ _ _ _ _ _ _ Ht Hi Hm Hs)|].
  intros j p. destruct (decide (Peer.Id peer = j)) as [<-|Hne].
  - rw lookup_insert_eq. by intros [= ->].
  - rw lookup_insert_ne //. apply Hid.
Qed.
End records.
