(* ===== verification/Log.v ===== *)
(** The replicated log: [server/log_entries.go], the batch of entries that
    [server/peers.go] computes for a follower, and [PullGroupLogs] of
    [server/bftraft.go], as functions of the transaction's state and the
    group's id.

    [log_at] relates the store to the log it holds, a list of entries numbered
    from one; [chained] is the hash chain that every append checks. *)
From S2P Require Export Store.

Section log.
Context {W : World}.

(** * Iterators *)

Record LogEntryIterator : Type := mkLogEntryIterator {
  prefix : bytes;
  data : list (bytes * option bytes)
}.

Definition LogEntryFromKVItem (item : bytes * option bytes) : option LogEntry.t :=
  match ItemValue (Some item.2) with
  | None => None
  | Some itemData => Some (unmarshal itemData).1
  end.

(** [ValidForPrefix] is false past the last item. *)
Definition Current (liter : LogEntryIterator) : option LogEntry.t :=
  match data liter with
  | item :: _ => if has_prefix (prefix liter) item.1 then LogEntryFromKVItem item else None
  | [] => None
  end.

Definition Next (liter : LogEntryIterator) : option LogEntry.t * LogEntryIterator :=
  match data liter with
  | _ :: rest =>
    let liter' := mkLogEntryIterator (prefix liter) rest in (Current liter', liter')
  | [] => (None, liter)
  end.

Definition log_prefix (groupId : Z) : bytes := ComposeKeyPrefix groupId LOG_ENTRIES.

(** [^uint64(0)]. *)
Definition max_u64 : Z := 2 ^ 64 - 1.

Definition ReversedLogIterator (txn : W_db) (groupId : Z) : LogEntryIterator :=
  let keyPrefix := log_prefix groupId in
  mkLogEntryIterator keyPrefix (kv_scan txn true (keyPrefix ++ U64Bytes max_u64)).

(** * Reading the end of the log *)

Definition LastLogEntry (txn : W_db) (groupId : Z) : option LogEntry.t :=
  Current (ReversedLogIterator txn groupId).

(** The hash the first entry is chained to. *)
Definition genesis_hash (groupId : Z) : bytes :=
  SHA1Hash (str_bytes (Sprint [AStr "GROUP:"; AInt groupId])).

Definition LastEntryHash (txn : W_db) (groupId : Z) : bytes :=
  match LastLogEntry txn groupId with
  | None => genesis_hash groupId
  | Some lastLog => LogEntry.Hash lastLog
  end.

Definition LastEntryIndex (txn : W_db) (groupId : Z) : Z :=
  match LastLogEntry txn groupId with
  | None => 0
  | Some lastLog => LogEntry.Index lastLog
  end.

Definition LogEntryKey (groupId entryIndex : Z) : bytes :=
  log_prefix groupId ++ U64Bytes entryIndex.

Definition GetLogEntry (txn : W_db) (groupId entryIndex : Z) : option LogEntry.t :=
  let key := LogEntryKey groupId entryIndex in
  match kv_get txn key with
  | KVFound item => LogEntryFromKVItem (key, item)
  | _ => None
  end.

(** * Appending *)

(** The error of [txn.Set] is dropped by the code. *)
Definition AppendEntryToLocal (txn : W_db) (groupId : Z) (entry : LogEntry.t)
    : outcome W_db :=
  match LogEntry.Command entry with
  | None => Panic nil_deref
  | Some cmd =>
    if CommandRequest.Group cmd =? groupId then
      let key := LogEntryKey (CommandRequest.Group cmd) (LogEntry.Index entry) in
      match kv_get txn key with
      | KVNotFound =>
        let hash := LogHash (LastEntryHash txn groupId) (LogEntry.Index entry)
                      (CommandRequest.FuncId cmd) (CommandRequest.Arg cmd) in
        if decide (hash = LogEntry.Hash entry) then
          match marshal entry with
          | inr data => Ok (match kv_set txn key data with inr txn' => txn' | inl _ => txn end)
          | inl err => Err err
          end
        else Err "Log entry hash mismatch"
      | KVFound _ => Err "log existed"
      | KVError err => Err err
      end
    else Panic "log group id not match the actual group work on it"
  end.

(** * The batch for a follower *)

(** The loop over the log, newest entry first; [fuel] items are left in the
    iterator. *)
Fixpoint uncommitted_loop (fuel : nat) (iter : LogEntryIterator) (nextLogIdx : Z)
    (entries : list LogEntry.t) (prevEntry : LogEntry.t)
    : list LogEntry.t * LogEntry.t :=
  match fuel with
  | O => (entries, prevEntry)
  | S fuel' =>
    match Current iter with
    | None => (entries, prevEntry)
    | Some entry =>
      if LogEntry.Index entry <? nextLogIdx then (entries, entry)
      else uncommitted_loop fuel' (Next iter).2 nextLogIdx (entries ++ [entry]) entry
    end
  end.

(** [entries[i], entries[j] = entries[j], entries[i]]. *)
Definition swap {A} (l : list A) (i j : nat) : list A :=
  match l !! i, l !! j with
  | Some x, Some y => <[i := y]> (<[j := x]> l)
  | _, _ => l
  end.

(** [n] rounds of the reversing loop, from round [i]. *)
Fixpoint swap_loop {A} (n i : nat) (l : list A) : list A :=
  match n with
  | O => l
  | S n' => swap_loop n' (S i) (swap l i (length l - i - 1))
  end.

Definition reverse_in_place {A} (l : list A) : list A :=
  if (1 <? length l)%nat then swap_loop (length l / 2) 0 l else l.

Definition zero_entry : LogEntry.t := LogEntry.mk 0 0 [] None.

(** One more round than there are items, for the last call of [Current]. *)
Definition PeerUncommittedLogEntries (txn : W_db) (groupId : Z) (peer : Peer.t)
    : list LogEntry.t * LogEntry.t :=
  let iter := ReversedLogIterator txn groupId in
  let '(entries, prevEntry) :=
    uncommitted_loop (S (length (data iter))) iter (Peer.NextIndex peer) [] zero_entry in
  let prevEntry :=
    if (Peer.NextIndex peer =? 0) && (Peer.MatchIndex peer =? 0)
    then zero_entry else prevEntry in
  (reverse_in_place entries, prevEntry).

(** * Serving the log to observers *)

Fixpoint pull_loop (keyPrefix : bytes) (items : list (bytes * option bytes))
    : list (option LogEntry.t) :=
  match items with
  | [] => []
  | item :: rest =>
    if has_prefix keyPrefix item.1
    then LogEntryFromKVItem item :: pull_loop keyPrefix rest else []
  end.

(** The iterator has moved past the first item before the first entry is
    taken. *)
Definition PullGroupLogs (txn : W_db) (group index : Z)
    : outcome (list (option LogEntry.t)) :=
  let keyPrefix := log_prefix group in
  match kv_scan txn false (keyPrefix ++ U64Bytes index) with
  | item :: rest =>
    if has_prefix keyPrefix item.1 then
      match LogEntryFromKVItem item with
      | None => Panic nil_deref
      | Some firstEntry =>
        if LogEntry.Index firstEntry =? index
        then Ok (pull_loop keyPrefix rest) else Ok []
      end
    else Ok []
  | [] => Ok []
  end.

(** * The log as a list *)

Fixpoint log_map_from (i : Z) (l : list LogEntry.t) : gmap Z LogEntry.t :=
  match l with
  | [] => ∅
  | e :: l' => <[i := e]> (log_map_from (i + 1) l')
  end.

(** Entries are numbered from one. *)
Definition log_map (l : list LogEntry.t) : gmap Z LogEntry.t := log_map_from 1 l.

(** The store holds exactly the log [l] for the group. *)
Record log_at (txn : W_db) (groupId : Z) (l : list LogEntry.t) : Prop := {
  log_table : table_at (log_prefix groupId) txn (log_map l);
  log_index n e : l !! n = Some e → LogEntry.Index e = Z.of_nat n + 1
}.

Lemma log_map_from_lookup i l k :
  log_map_from i l !! k = if decide (i ≤ k) then l !! Z.to_nat (k - i) else None.
Proof.
  revert i. induction l as [|e l IH]; intros i; simpl.
  { case_decide; [|done]. by destruct (Z.to_nat (k - i)). }
  destruct (decide (i = k)) as [<-|Hne].
  - rw lookup_insert_eq decide_True //; [lia|]. by rw Z.sub_diag.
  - rw lookup_insert_ne // IH. repeat case_decide; try lia; [|done].
    replace (Z.to_nat (k - i)) with (S (Z.to_nat (k - (i + 1)))) by lia. done.
Qed.

Lemma log_map_lookup l k :
  log_map l !! k = if decide (1 ≤ k) then l !! Z.to_nat (k - 1) else None.
Proof. apply log_map_from_lookup. Qed.

Lemma log_map_nth l n : log_map l !! (Z.of_nat n + 1) = l !! n.
Proof. rw log_map_lookup decide_True; [lia|]. f_equal. lia. Qed.

Lemma log_map_Some l k e :
  log_map l !! k = Some e ↔ ∃ n, l !! n = Some e ∧ k = Z.of_nat n + 1.
Proof.
  split.
  - rw log_map_lookup. case_decide; [|done]. intros Hl. eexists. split; [exact Hl|lia].
  - intros (n & Hl & ->). by rw log_map_nth.
Qed.

Lemma log_map_snoc l e :
  log_map (l ++ [e]) = <[Z.of_nat (length l) + 1 := e]> (log_map l).
Proof.
  apply map_eq. intros k. destruct (decide (Z.of_nat (length l) + 1 = k)) as [<-|Hne].
  - by rw lookup_insert_eq log_map_nth lookup_app_r // Nat.sub_diag.
  - rw lookup_insert_ne // !log_map_lookup. case_decide; [|done].
    destruct (decide (Z.to_nat (k - 1) < length l)%nat) as [Hlt|Hge].
    + by rw lookup_app_l.
    + rw lookup_app_r; [lia|]. rw (lookup_ge_None_2 l); [lia|].
      apply lookup_ge_None_2. simpl. lia.
Qed.

Lemma log_at_length txn g l : log_at txn g l → Z.of_nat (length l) < 2 ^ 64.
Proof.
  intros [Ht _]. destruct (last l) as [e|] eqn:Hl.
  - rw last_lookup -log_map_nth in Hl. apply (table_row _ _ _ Ht) in Hl as [[_ ?] _].
    destruct l; simpl in *; lia.
  - apply last_None in Hl as ->. done.
Qed.

(** The list with its numbers: the rows of the log. *)
Fixpoint numbered (i : Z) (l : list LogEntry.t) : list (Z * LogEntry.t) :=
  match l with [] => [] | e :: l' => (i, e) :: numbered (i + 1) l' end.

Lemma numbered_elem i l k e :
  (k, e) ∈ numbered i l ↔ i ≤ k ∧ l !! Z.to_nat (k - i) = Some e.
Proof.
  revert i. induction l as [|x l IH]; intros i; simpl.
  { split; [by intros ?%not_elem_of_nil|]. intros [_ H]. by destruct (Z.to_nat _). }
  rw elem_of_cons IH. split.
  - intros [[= -> ->]|[? Hl]]; [rw Z.sub_diag; split; [lia|done]|].
    split; [lia|]. by replace (Z.to_nat (k - i)) with (S (Z.to_nat (k - (i + 1)))) by lia.
  - intros [? Hl]. destruct (decide (k = i)) as [->|].
    + rw Z.sub_diag in Hl. simpl in Hl. left. congruence.
    + right. split; [lia|].
      by replace (Z.to_nat (k - i)) with (S (Z.to_nat (k - (i + 1)))) in Hl by lia.
Qed.

Lemma numbered_snd i l : (numbered i l).*2 = l.
Proof. revert i. induction l as [|e l IH]; intros i; [done|]. cbn [numbered]. by rw fmap_cons IH. Qed.

Lemma numbered_sorted i l : StronglySorted row_lt (numbered i l).
Proof.
  revert i. induction l as [|e l IH]; intros i; [constructor|].
  cbn [numbered]. constructor; [auto|]. apply Forall_forall.
  intros [k e'] [? _]%numbered_elem. unfold row_lt. simpl. lia.
Qed.

Lemma row_lt_irrefl {A} (x : Z * A) : ¬ row_lt x x.
Proof. unfold row_lt. lia. Qed.
Lemma row_lt_asym {A} (x y : Z * A) : row_lt x y → ¬ row_lt y x.
Proof. unfold row_lt. lia. Qed.

(** A forward scan from row [j] on passes the log from entry [j] on. *)
Lemma log_scan txn g l j :
  log_at txn g l → is_u64 j → 1 ≤ j →
  Forall2 (item_row (log_prefix g))
    (under_prefix (log_prefix g) (kv_scan txn false (log_prefix g ++ U64Bytes j)))
    (numbered j (drop (Z.to_nat (j - 1)) l)).
Proof.
  intros [Ht _] Hj Hj1. destruct (scan_table _ _ _ j Ht Hj) as (rows & HF & Hs & Hr).
  replace (numbered j (drop (Z.to_nat (j - 1)) l)) with rows; [done|].
  apply (sorted_unique row_lt); auto using row_lt_irrefl, row_lt_asym, numbered_sorted.
  intros [k e]. rw Hr numbered_elem log_map_lookup lookup_drop. split.
  - intros [Hk ?]. split; [done|]. rw decide_True in Hk; [lia|]. rw -Hk. f_equal. lia.
  - intros [? Hk]. split; [|done]. rw decide_True; [lia|]. rw -Hk. f_equal. lia.
Qed.

(** A scan in reverse passes the log from its end. *)
Lemma log_scan_reverse txn g l :
  log_at txn g l →
  Forall2 (item_row (log_prefix g))
    (under_prefix (log_prefix g) (data (ReversedLogIterator txn g)))
    (reverse (numbered 1 l)).
Proof.
  intros [Ht _]. destruct (scan_table_reverse _ _ _ Ht) as (rows & HF & Hs & Hr).
  replace (reverse (numbered 1 l)) with rows; [done|].
  apply (sorted_unique (flip row_lt)); [..|intros [k e]].
  - intros x. apply row_lt_irrefl.
  - intros x y. apply row_lt_asym.
  - done.
  - apply StronglySorted_reverse, numbered_sorted.
  - rw Hr elem_of_reverse numbered_elem log_map_lookup. split.
    + intros Hk. case_decide; [|done]. done.
    + intros [? Hk]. by rw decide_True.
Qed.

(** ** Iterators over rows *)

Lemma Current_rows p items (rows : list (Z * LogEntry.t)) :
  Forall2 (item_row p) (under_prefix p items) rows →
  Current (mkLogEntryIterator p items) = snd <$> head rows.
Proof.
  unfold Current. cbn [data prefix]. destruct items as [|[k v] items]; simpl.
  { by intros ->%Forall2_nil_inv_l. }
  destruct (has_prefix p k); [|by intros ->%Forall2_nil_inv_l].
  intros ([i a] & rows' & (_ & _ & b & Hv & Hu) & _ & ->)%Forall2_cons_inv_l.
  simpl in *. subst v. unfold LogEntryFromKVItem. simpl. by rw Hu.
Qed.

Lemma Next_rows p items (row : Z * LogEntry.t) rows :
  Forall2 (item_row p) (under_prefix p items) (row :: rows) →
  ∃ items', (Next (mkLogEntryIterator p items)).2 = mkLogEntryIterator p items' ∧
    Forall2 (item_row p) (under_prefix p items') rows ∧
    length items = S (length items').
Proof.
  unfold Next. cbn [data prefix]. destruct items as [|[k v] items]; simpl.
  { by intros ?%Forall2_nil_inv_l. }
  destruct (has_prefix p k); [|by intros ?%Forall2_nil_inv_l].
  intros [_ ?]%Forall2_cons_1. by exists items.
Qed.

(** * The end of the log *)

Lemma LastLogEntry_at txn g l : log_at txn g l → LastLogEntry txn g = last l.
Proof.
  intros Hl%log_scan_reverse. unfold LastLogEntry, ReversedLogIterator in *.
  cbn [data] in Hl. rw (Current_rows _ _ _ Hl) -{2}(numbered_snd 1 l).
  generalize (numbered 1 l) as rows. intros rows.
  destruct rows as [|x rows _] using rev_ind; [done|].
  by rw reverse_snoc fmap_app last_snoc.
Qed.

Lemma LastEntryIndex_at txn g l :
  log_at txn g l → LastEntryIndex txn g = Z.of_nat (length l).
Proof.
  intros Hl. unfold LastEntryIndex. rw (LastLogEntry_at _ _ _ Hl).
  destruct l as [|e l _] using rev_ind; [done|]. rw last_snoc.
  rw (log_index _ _ _ Hl (length l) e).
  - by rw lookup_app_r // Nat.sub_diag.
  - rw length_app. simpl. lia.
Qed.

(** The hash a log's next entry is chained to. *)
Definition tip (g : Z) (l : list LogEntry.t) : bytes :=
  match last l with None => genesis_hash g | Some e => LogEntry.Hash e end.

Lemma LastEntryHash_at txn g l : log_at txn g l → LastEntryHash txn g = tip g l.
Proof. intros Hl. unfold LastEntryHash, tip. by rw (LastLogEntry_at _ _ _ Hl). Qed.

Lemma GetLogEntry_at txn g l n :
  log_at txn g l → is_u64 (Z.of_nat n + 1) →
  GetLogEntry txn g (Z.of_nat n + 1) = l !! n.
Proof.
  intros [Ht _] Hn. unfold GetLogEntry, LogEntryKey.
  change (log_prefix g ++ U64Bytes (Z.of_nat n + 1)) with (row_key (log_prefix g) (Z.of_nat n + 1)).
  destruct (l !! n) as [e|] eqn:He.
  - rw -log_map_nth in He. destruct (table_row _ _ _ Ht _ _ He) as (_ & b & Hg & Hu).
    rw Hg. unfold LogEntryFromKVItem. simpl. by rw Hu.
  - rw -log_map_nth in He. by rw (table_absent _ _ _ _ Ht Hn He).
Qed.

(** * The hash chain *)

(** The entry's hash is that of its index and command after [prev]. *)
Definition entry_linked (prev : bytes) (e : LogEntry.t) : Prop :=
  ∃ cmd, LogEntry.Command e = Some cmd ∧
    LogEntry.Hash e = LogHash prev (LogEntry.Index e) (CommandRequest.FuncId cmd)
                        (CommandRequest.Arg cmd).

Fixpoint chained_from (prev : bytes) (l : list LogEntry.t) : Prop :=
  match l with
  | [] => True
  | e :: l' => entry_linked prev e ∧ chained_from (LogEntry.Hash e) l'
  end.

Definition chained (g : Z) (l : list LogEntry.t) : Prop := chained_from (genesis_hash g) l.

Lemma chained_from_snoc prev l e :
  chained_from prev (l ++ [e]) ↔
  chained_from prev l ∧
  entry_linked (match last l with None => prev | Some e' => LogEntry.Hash e' end) e.
Proof.
  revert prev. induction l as [|x l IH]; intros prev; [simpl; tauto|].
  cbn [app chained_from]. rw IH last_cons. destruct (last l); tauto.
Qed.

Lemma chained_snoc g l e : chained g (l ++ [e]) ↔ chained g l ∧ entry_linked (tip g l) e.
Proof. apply chained_from_snoc. Qed.

Lemma chained_prefix g a b : chained g (a ++ b) → chained g a.
Proof.
  unfold chained. generalize (genesis_hash g) as prev.
  induction a as [|x a IH]; intros prev; [done|]. simpl. intros [? ?]. split; [done|eauto].
Qed.

(** * Appending to the log *)

Definition command_group (e : LogEntry.t) : option Z :=
  CommandRequest.Group <$> LogEntry.Command e.

(** The key of an entry is a row of its group's log and of no other table. *)
Lemma LogEntryKey_row g i : LogEntryKey g i = row_key (log_prefix g) i.
Proof. done. Qed.

Section append.
Variables (txn : W_db) (g : Z) (l : list LogEntry.t).
Hypothesis Hlog : log_at txn g l.

Lemma LogEntryKey_existing i :
  1 ≤ i ≤ Z.of_nat (length l) → ∃ v, kv_get txn (LogEntryKey g i) = KVFound v.
Proof using Hlog.
  intros Hi. destruct Hlog as [Ht _].
  destruct (lookup_lt_is_Some_2 l (Z.to_nat (i - 1))) as [e He]; [lia|].
  assert (log_map l !! i = Some e) as Hm by (by rw log_map_lookup decide_True; [lia|]).
  destruct (table_row _ _ _ Ht _ _ Hm) as (_ & b & Hg & _). rw LogEntryKey_row Hg. eauto.
Qed.

Lemma LogEntryKey_absent i :
  is_u64 i → ¬ 1 ≤ i ≤ Z.of_nat (length l) → kv_get txn (LogEntryKey g i) = KVNotFound.
Proof using Hlog.
  intros Hu Hi. destruct Hlog as [Ht _]. rw LogEntryKey_row.
  apply (table_absent _ _ _ _ Ht Hu). rw log_map_lookup. case_decide; [|done].
  apply lookup_ge_None_2. lia.
Qed.

Lemma log_at_snoc e data txn' :
  LogEntry.Index e = Z.of_nat (length l) + 1 → is_u64 (LogEntry.Index e) →
  marshal e = inr data → kv_set txn (LogEntryKey g (LogEntry.Index e)) data = inr txn' →
  log_at txn' g (l ++ [e]).
Proof using Hlog.
  intros Hi Hu Hm Hs. destruct Hlog as [Ht Hix]. rw LogEntryKey_row in Hs. split.
  - rw log_map_snoc -Hi. exact (table_set _ _ _ _ _ _ _ Ht Hu Hm Hs).
  - intros n e'. rw lookup_snoc_Some. intros [[_ Hn]|[-> <-]]; auto.
Qed.

(** What appending returns, whatever the entry. *)
Lemma AppendEntryToLocal_cases e :
  AppendEntryToLocal txn g e =
    match LogEntry.Command e with
    | None => Panic nil_deref
    | Some cmd =>
      if decide (CommandRequest.Group cmd = g) then
        match kv_get txn (LogEntryKey g (LogEntry.Index e)) with
        | KVNotFound =>
          if decide (LogEntry.Hash e = LogHash (tip g l) (LogEntry.Index e)
                       (CommandRequest.FuncId cmd) (CommandRequest.Arg cmd)) then
            match marshal e with
            | inr data =>
              Ok (match kv_set txn (LogEntryKey g (LogEntry.Index e)) data with
                  | inr txn' => txn' | inl _ => txn end)
            | inl err => Err err
            end
          else Err "Log entry hash mismatch"
        | KVFound _ => Err "log existed"
        | KVError err => Err err
        end
      else Panic "log group id not match the actual group work on it"
    end.
Proof using Hlog.
  unfold AppendEntryToLocal. destruct (LogEntry.Command e) as [cmd|]; [|done].
  destruct (Z.eqb_spec (CommandRequest.Group cmd) g) as [Hg|Hg],
    (decide (CommandRequest.Group cmd = g)); try done.
  rw Hg. destruct (kv_get _ _); try done. rw (LastEntryHash_at _ _ _ Hlog).
  repeat case_decide; congruence.
Qed.

(** A successful append of the next entry extends the log and its chain, unless
    the store refused the write. *)
Lemma AppendEntryToLocal_extends e txn' :
  AppendEntryToLocal txn g e = Ok txn' →
  LogEntry.Index e = Z.of_nat (length l) + 1 → is_u64 (LogEntry.Index e) →
  txn' = txn ∨
  log_at txn' g (l ++ [e]) ∧ entry_linked (tip g l) e ∧ command_group e = Some g.
Proof using Hlog.
  rw AppendEntryToLocal_cases. intros Ha Hi Hu.
  unfold command_group, entry_linked.
  destruct (LogEntry.Command e) as [cmd|] eqn:Hc; [|done]. case_decide; [|done].
  destruct (kv_get _ _); try done. case_decide; [|done].
  destruct (marshal e) as [|b] eqn:Hm; [done|].
  destruct (kv_set _ _ _) as [|d] eqn:Hs; injection Ha as <-; [by left|right].
  split; [exact (log_at_snoc e b d Hi Hu Hm Hs)|]. split; [|simpl; congruence].
  exists cmd. done.
Qed.

(** The next entry, correctly hashed, is accepted. *)
Lemma AppendEntryToLocal_next e cmd data txn' :
  LogEntry.Command e = Some cmd → CommandRequest.Group cmd = g →
  LogEntry.Index e = Z.of_nat (length l) + 1 → is_u64 (LogEntry.Index e) →
  LogEntry.Hash e = LogHash (tip g l) (LogEntry.Index e)
                      (CommandRequest.FuncId cmd) (CommandRequest.Arg cmd) →
  marshal e = inr data → kv_set txn (LogEntryKey g (LogEntry.Index e)) data = inr txn' →
  AppendEntryToLocal txn g e = Ok txn' ∧ log_at txn' g (l ++ [e]).
Proof using Hlog.
  intros Hc Hg Hi Hu Hh Hm Hs. split; [|exact (log_at_snoc e data txn' Hi Hu Hm Hs)].
  rw AppendEntryToLocal_cases Hc decide_True //.
  rw LogEntryKey_absent //; [lia|]. by rw decide_True // Hm Hs.
Qed.
End append.

(** Appending to one group's log leaves every other table as it is. *)
Lemma AppendEntryToLocal_other {A} `{Codec A} txn txn' g e p (t : gmap Z A) :
  AppendEntryToLocal txn g e = Ok txn' →
  (∀ i, has_prefix p (LogEntryKey g i) = false) → table_at p txn t → table_at p txn' t.
Proof.
  unfold AppendEntryToLocal. intros Ha Hp Ht.
  destruct (LogEntry.Command e) as [cmd|]; [|done].
  destruct (Z.eqb_spec (CommandRequest.Group cmd) g) as [->|]; [|done].
  destruct (kv_get _ _); try done. case_decide; [|done].
  destruct (marshal e) as [|b]; [done|].
  destruct (kv_set _ _ _) as [|d] eqn:Hs; simplify_eq; [done|].
  by apply (table_set_other _ _ _ _ _ _ Ht Hs).
Qed.

(** * Batches for followers *)

(** What [uncommitted_loop] does with the entries it passes, newest first. *)
Fixpoint collect (nextLogIdx : Z) (newest_first entries : list LogEntry.t)
    (prevEntry : LogEntry.t) : list LogEntry.t * LogEntry.t :=
  match newest_first with
  | [] => (entries, prevEntry)
  | entry :: older =>
    if LogEntry.Index entry <? nextLogIdx then (entries, entry)
    else collect nextLogIdx older (entries ++ [entry]) entry
  end.

Lemma uncommitted_loop_collect fuel p items (rows : list (Z * LogEntry.t)) next es prev :
  Forall2 (item_row p) (under_prefix p items) rows → (length rows ≤ fuel)%nat →
  uncommitted_loop fuel (mkLogEntryIterator p items) next es prev =
  collect next rows.*2 es prev.
Proof.
  revert items rows es prev. induction fuel as [|fuel IH]; intros items rows es prev HF Hlen.
  { destruct rows; simpl in *; [done|lia]. }
  cbn [uncommitted_loop]. rw (Current_rows _ _ _ HF).
  destruct rows as [|row rows]; [done|]. cbn [head fmap option_fmap option_map list_fmap collect].
  destruct (_ <? next); [done|].
  destruct (Next_rows _ _ _ _ HF) as (items' & -> & HF' & _).
  apply IH; [done|]. simpl in Hlen. lia.
Qed.

(** The entries a follower that expects entry [next] lacks. *)
Definition batch_start (next : Z) : nat := Z.to_nat (next - 1).

Lemma collect_log next l es prev :
  (∀ n e, l !! n = Some e → LogEntry.Index e = Z.of_nat n + 1) →
  collect next (reverse l) es prev =
  (es ++ reverse (drop (batch_start next) l),
   default prev (l !! Nat.min (batch_start next - 1) (length l - 1))).
Proof.
  unfold batch_start. revert es prev.
  induction l as [|e l IH] using rev_ind; intros es prev Hix.
  { rw drop_nil. cbn [reverse rev_append collect]. by rw app_nil_r. }
  rw reverse_snoc. cbn [collect].
  assert (LogEntry.Index e = Z.of_nat (length l) + 1) as He
    by (apply Hix; by rw lookup_app_r // Nat.sub_diag).
  rw He length_app Nat.add_1_r Nat.sub_succ Nat.sub_0_r. cbn [length].
  destruct (Z.ltb_spec (Z.of_nat (length l) + 1) next).
  - rw drop_ge; [rw length_app; simpl; lia|]. rw app_nil_r.
    replace (Nat.min _ _) with (length l) by lia. by rw lookup_app_r // Nat.sub_diag.
  - rw IH; [intros n e' Hn; apply Hix; by apply lookup_app_l_Some|].
    rw drop_app_le; [lia|]. rw reverse_snoc -app_assoc. f_equal.
    destruct l as [|x l]; [by rw Nat.min_0_r|].
    replace (Nat.min _ (length (x :: l))) with (Nat.min (Z.to_nat (next - 1) - 1) (length (x :: l) - 1))
      by (simpl in *; lia).
    rw lookup_app_l; [simpl; lia|].
    destruct (lookup_lt_is_Some_2 (x :: l) (Nat.min (Z.to_nat (next - 1) - 1) (length (x :: l) - 1)))
      as [y Hy]; [simpl; lia|]. by rw Hy.
Qed.

(** ** The reversing loop *)

Lemma swap_length {A} (l : list A) i j : length (swap l i j) = length l.
Proof. unfold swap. repeat case_match; by rw ?length_insert. Qed.

Lemma swap_lookup {A} (l : list A) i j k :
  (i < length l)%nat → (j < length l)%nat →
  swap l i j !! k = if decide (k = i) then l !! j else if decide (k = j) then l !! i else l !! k.
Proof.
  intros Hi Hj. unfold swap.
  destruct (lookup_lt_is_Some_2 l i Hi) as [x Hx], (lookup_lt_is_Some_2 l j Hj) as [y Hy].
  rw Hx Hy. repeat case_decide; subst.
  - apply list_lookup_insert_eq. by rw length_insert.
  - rw list_lookup_insert_ne; [congruence|]. by apply list_lookup_insert_eq.
  - rw !list_lookup_insert_ne; congruence.
Qed.

Lemma swap_loop_lookup {A} n i (l : list A) k :
  (2 * (i + n) ≤ length l)%nat →
  swap_loop n i l !! k =
    if decide ((i ≤ k < i + n) ∨ (length l - (i + n) ≤ k < length l - i))%nat
    then l !! (length l - 1 - k)%nat else l !! k.
Proof.
  revert i l. induction n as [|n IH]; intros i l Hn; cbn [swap_loop].
  { rw decide_False //. lia. }
  rw IH swap_length; [lia|]. rw !swap_lookup; try lia.
  repeat case_decide; subst; try lia; f_equal; lia.
Qed.

Lemma reverse_in_place_reverse {A} (l : list A) : reverse_in_place l = reverse l.
Proof.
  unfold reverse_in_place. destruct (Nat.ltb_spec 1 (length l)) as [H|H].
  - apply list_eq. intros k. pose proof (Nat.div_mod_eq (length l) 2).
    pose proof (Nat.mod_upper_bound (length l) 2).
    rw swap_loop_lookup; [lia|].
    destruct (decide (k < length l)%nat) as [Hk|Hk].
    + rw reverse_lookup //. case_decide; f_equal; lia.
    + rw (lookup_ge_None_2 (reverse l)); [rw length_reverse; lia|].
      case_decide; [lia|]. apply lookup_ge_None_2. lia.
  - destruct l as [|x [|]]; simpl in *; [done|done|lia].
Qed.

Definition batch_prev (l : list LogEntry.t) (peer : Peer.t) : LogEntry.t :=
  if (Peer.NextIndex peer =? 0) && (Peer.MatchIndex peer =? 0) then zero_entry
  else default zero_entry
         (l !! Nat.min (batch_start (Peer.NextIndex peer) - 1) (length l - 1)).

(** The batch is the log from entry [NextIndex] on, oldest first. *)
Lemma PeerUncommittedLogEntries_at txn g l peer :
  log_at txn g l →
  PeerUncommittedLogEntries txn g peer =
  (drop (batch_start (Peer.NextIndex peer)) l, batch_prev l peer).
Proof.
  intros Hl. unfold PeerUncommittedLogEntries.
  pose proof (log_scan_reverse txn g l Hl) as HF.
  unfold ReversedLogIterator in *. cbn [data] in *.
  rw (uncommitted_loop_collect _ _ _ _ _ _ _ HF).
  { rw -(Forall2_length _ _ _ HF).
    destruct (under_prefix_split (log_prefix g)
      (kv_scan txn true (log_prefix g ++ U64Bytes max_u64))) as [rest Hrest].
    rw {2}Hrest length_app. lia. }
  rw fmap_reverse numbered_snd collect_log; [apply (log_index _ _ _ Hl)|].
  rw app_nil_l reverse_in_place_reverse reverse_involutive. done.
Qed.

(** * Pulled entries *)

Lemma pull_loop_rows p items (rows : list (Z * LogEntry.t)) :
  Forall2 (item_row p) (under_prefix p items) rows →
  pull_loop p items = Some <$> rows.*2.
Proof.
  revert rows. induction items as [|[k v] items IH]; intros rows; simpl.
  { by intros ->%Forall2_nil_inv_l. }
  destruct (has_prefix p k); [|by intros ->%Forall2_nil_inv_l].
  intros ([i a] & rows' & (_ & _ & b & Hv & Hu) & HF & ->)%Forall2_cons_inv_l.
  simpl in *. subst v. rw (IH _ HF). unfold LogEntryFromKVItem. simpl. by rw Hu.
Qed.

(** A pull from [index] yields the entries after it. *)
Lemma PullGroupLogs_at txn g l index :
  log_at txn g l → is_u64 index → 1 ≤ index →
  PullGroupLogs txn g index = Ok (Some <$> drop (Z.to_nat index) l).
Proof.
  intros Hl Hu H1. unfold PullGroupLogs.
  pose proof (log_scan txn g l index Hl Hu H1) as HF.
  destruct (kv_scan _ _ _) as [|[k v] items].
  { apply Forall2_length in HF. simpl in HF.
    assert (drop (Z.to_nat (index - 1)) l = []) as Hd.
    { revert HF. by destruct (drop (Z.to_nat (index - 1)) l). }
    apply (f_equal length) in Hd. rw length_drop in Hd. simpl in Hd.
    rw drop_ge; [lia|done]. }
  cbn [under_prefix fst] in *. destruct (has_prefix (log_prefix g) k) eqn:Hp.
  - destruct (drop (Z.to_nat (index - 1)) l) as [|e r] eqn:Hd; [by apply Forall2_cons_nil_inv in HF|].
    cbn [numbered] in HF. apply Forall2_cons_1 in HF as [(_ & _ & b & Hv & Hb) HF].
    simpl in Hv, Hb. subst v. unfold LogEntryFromKVItem. simpl. rw Hb. simpl.
    assert (l !! Z.to_nat (index - 1) = Some e) as He.
    { by rw -(Nat.add_0_r (Z.to_nat (index - 1))) -lookup_drop Hd. }
    rw (log_index _ _ _ Hl _ _ He) (proj2 (Z.eqb_eq _ index)); [lia|].
    rw (pull_loop_rows _ _ _ HF) numbered_snd. do 2 f_equal.
    replace (Z.to_nat index) with (Z.to_nat (index - 1) + 1)%nat by lia.
    by rw -drop_drop Hd.
  - apply Forall2_length in HF. simpl in HF.
    assert (drop (Z.to_nat (index - 1)) l = []) as Hd.
    { revert HF. by destruct (drop (Z.to_nat (index - 1)) l). }
    apply (f_equal length) in Hd. rw length_drop in Hd. simpl in Hd.
    rw drop_ge; [lia|done].
Qed.
End log.
