(* ===== verification/TimeWheel.v ===== *)
(** [server/time_wheel.go]: election and heartbeat timeouts. The arithmetic is
    Go's [float32], carried out exactly: a non-negative float is an integer
    number of units of [2^-53], rounded to 24 significant bits, ties to
    even. *)
From S2P Require Export Prelude.

Definition f32_unit : Z := 2 ^ 53.

Definition f32_round (n : Z) : Z :=
  if n <? 2 ^ 24 then n
  else
    let u := 2 ^ (Z.log2 n - 23) in
    let q := n / u in
    let r := n mod u in
    if 2 * r <? u then q * u
    else if u <? 2 * r then (q + 1) * u
    else if Z.even q then q * u else (q + 1) * u.

(** [r] is the value of [rand.Float32()], in units. *)
Definition RandomTimeout (mult r : Z) : Z :=
  let lowRange := 500 * mult in
  let highRange := 1000 * mult in
  f32_round (lowRange * f32_unit + f32_round (highRange * r)) / f32_unit.

(** An integer below [2^24] is a float, and rounding does not cross it. *)
Lemma f32_round_cases n :
  0 ≤ n → f32_round n = n ∨
  ∃ e, 0 < e ∧ 2 ^ (e + 23) ≤ n < 2 ^ (e + 24) ∧
    (f32_round n = n / 2 ^ e * 2 ^ e ∨
     f32_round n = (n / 2 ^ e + 1) * 2 ^ e ∧ n mod 2 ^ e ≠ 0).
Proof.
  intros Hn. unfold f32_round. destruct (Z.ltb_spec n (2 ^ 24)); [by left|].
  set (e := Z.log2 n - 23). pose proof (Z.log2_spec n ltac:(lia)) as [Hl Hh].
  assert (24 ≤ Z.log2 n) by (apply Z.log2_le_pow2; lia).
  assert (0 < 2 ^ e) by (apply Z.pow_pos_nonneg; lia).
  right. exists e. split; [lia|]. split.
  { replace (e + 23) with (Z.log2 n) by lia. by replace (e + 24) with (Z.succ (Z.log2 n)) by lia. }
  destruct (Z.ltb_spec (2 * (n mod 2 ^ e)) (2 ^ e)); [by left|].
  destruct (Z.ltb_spec (2 ^ e) (2 * (n mod 2 ^ e))); [right; split; [done|lia]|].
  destruct (Z.even _); [by left|right; split; [done|lia]].
Qed.

Lemma unit_multiple k e :
  0 ≤ e → 2 ^ (e + 23) ≤ k * f32_unit → k < 2 ^ 24 →
  (∃ m, k * f32_unit = m * 2 ^ e) ∨ 2 ^ (e + 24) ≤ k * f32_unit.
Proof.
  intros He H1 Hk. unfold f32_unit in *. destruct (decide (e ≤ 53)) as [Hle|Hgt].
  - left. exists (k * 2 ^ (53 - e)). rw -Z.mul_assoc -Z.pow_add_r; [lia|lia|].
    do 2 f_equal. lia.
  - exfalso. assert (2 ^ (54 + 23) ≤ 2 ^ (e + 23)) by (apply Z.pow_le_mono_r; lia). lia.
Qed.

Lemma f32_round_le n k :
  0 ≤ n ≤ k * f32_unit → k < 2 ^ 24 → f32_round n ≤ k * f32_unit.
Proof.
  intros [Hn Hle] Hk. destruct (f32_round_cases n Hn) as [->|(e & He & [Hlo Hhi] & Hr)]; [done|].
  pose proof (Z.pow_pos_nonneg 2 e ltac:(lia) ltac:(lia)).
  pose proof (Z.div_mod n (2 ^ e) ltac:(lia)). pose proof (Z.mod_pos_bound n (2 ^ e) ltac:(lia)).
  destruct Hr as [->|[-> Hne]]; [lia|].
  destruct (unit_multiple k e) as [[m Hm]|]; [lia|lia|done| |].
  - rw Hm in Hle |- *. apply Z.mul_le_mono_nonneg_r; [lia|].
    assert (n / 2 ^ e < m); [|lia]. apply (Z.mul_lt_mono_pos_r (2 ^ e)); lia.
  - assert (n / 2 ^ e < 2 ^ 24); [|rw Z.pow_add_r in H2; nia].
    apply Z.div_lt_upper_bound; [lia|]. rw -Z.pow_add_r; lia.
Qed.

Lemma f32_round_ge n k :
  0 ≤ k → k * f32_unit ≤ n → k < 2 ^ 24 → k * f32_unit ≤ f32_round n.
Proof.
  intros Hk0 Hle Hk. destruct (f32_round_cases n) as [->|(e & He & [Hlo Hhi] & Hr)];
    [unfold f32_unit in *; lia|done|].
  pose proof (Z.pow_pos_nonneg 2 e ltac:(lia) ltac:(lia)).
  pose proof (Z.div_mod n (2 ^ e) ltac:(lia)). pose proof (Z.mod_pos_bound n (2 ^ e) ltac:(lia)).
  destruct Hr as [->|[-> Hne]]; [|lia].
  destruct (decide (2 ^ (e + 23) ≤ k * f32_unit)) as [Hb|Hb].
  - destruct (unit_multiple k e) as [[m Hm]|]; [lia|lia|done| |lia].
    rw Hm in Hle |- *. apply Z.mul_le_mono_nonneg_r; [lia|].
    apply Z.div_le_lower_bound; lia.
  - assert (2 ^ 23 ≤ n / 2 ^ e); [|rw Z.pow_add_r in Hb; nia].
    apply Z.div_le_lower_bound; [lia|]. rw -Z.pow_add_r; lia.
Qed.

(** The timeout is at least half and at most one and a half times [mult]
    seconds. *)
Lemma RandomTimeout_range mult r :
  0 ≤ mult → 1500 * mult < 2 ^ 24 → 0 ≤ r < f32_unit →
  500 * mult ≤ RandomTimeout mult r ≤ 1500 * mult.
Proof.
  intros Hm Hs Hr. unfold RandomTimeout. unfold f32_unit in Hr.
  pose proof (f32_round_le (1000 * mult * r) (1000 * mult)) as H1.
  pose proof (f32_round_ge (1000 * mult * r) 0) as H0. unfold f32_unit in H0, H1.
  split.
  - apply Z.div_le_lower_bound; [done|]. rw (Z.mul_comm f32_unit).
    apply f32_round_ge; unfold f32_unit; nia.
  - apply Z.div_le_upper_bound; [done|]. rw (Z.mul_comm f32_unit).
    apply f32_round_le; unfold f32_unit; nia.
Qed.

Lemma drawn_range (l : list Z) : 0 ≤ default 0 (head l) mod f32_unit < f32_unit.
Proof. apply Z.mod_pos_bound. done. Qed.
