(* ===== verification/Server.v ===== *)
(** The server's state and the operations every handler uses.

    [Server.t] is [BFTRaftServer] of [server/bftraft.go] together with what its
    pointers point to: [rtgroups] and [raftgroups] are the heap objects of type
    [RTGroup] and [pb.RaftGroup], so that the caches, the on-board groups and
    the running goroutines share them as they do in the program. [now] and
    [rands] stand for the clock and for the values [math/rand] will return;
    [calls] records the remote calls made, last one first.

    The operations are those of [server/group.go], [server/hosts.go] and
    [server/peers.go] that go through the database and the caches. *)
From S2P Require Export Log Signed Majority TimeWheel.

Definition LEADER : Z := 0.
Definition FOLLOWER : Z := 1.
Definition CANDIDATE : Z := 2.
Definition OBSERVER : Z := 3.

(** [time.Duration], in nanoseconds. *)
Definition Millisecond : Z := 10 ^ 6.
Definition Second : Z := 10 ^ 9.

Module Options.
Record t : Type := mk {
  DBPath : string;
  Address : string;
  Bootstrap : list string;
  ConsensusTimeout : Z
}.
End Options.

(** The functions a server can have registered: its own four, and those of the
    application that embeds it. *)
Inductive raft_fn : Type :=
| Fn_SMNodeJoin
| Fn_SMRegHost
| Fn_SMNewClient
| Fn_SMNewGroup
| Fn_user (n : Z).

(** Calls to other nodes, with the address called. *)
Inductive rpc : Type :=
| Rpc_AppendEntries (addr : string) (req : AppendEntriesRequest.t)
| Rpc_RequestVote (addr : string) (req : RequestVoteRequest.t)
| Rpc_SendGroupInvitation (addr : string) (inv : GroupInvitation.t)
| Rpc_ResponseCommand (addr : string) (res : CommandResult.t)
| Rpc_ExecCommand (addr : string) (cmd : CommandRequest.t)
| Rpc_PullGroupLogs (addr : string) (req : PullGroupLogsResuest.t).

Module RTGroup.
Record t : Type := mk {
  Leader : Z;
  LastVotedTo : Z;
  LastVotedTerm : Z;
  GroupPeers : gmap Z Peer.t;
  Group : nat;
  Timeout : Z;
  Role : Z;
  Votes : list RequestVoteResponse.t;
  SendVotesForPeers : gmap Z bool;
  IsBusy : bool
}.

Definition upd_Leader (f : Z → Z) (r : t) : t :=
  mk
    (f (r.(Leader))) (r.(LastVotedTo)) (r.(LastVotedTerm)) (r.(GroupPeers))
    (r.(Group)) (r.(Timeout)) (r.(Role)) (r.(Votes)) (r.(SendVotesForPeers))
    (r.(IsBusy)).
Definition upd_LastVotedTo (f : Z → Z) (r : t) : t :=
  mk
    (r.(Leader)) (f (r.(LastVotedTo))) (r.(LastVotedTerm)) (r.(GroupPeers))
    (r.(Group)) (r.(Timeout)) (r.(Role)) (r.(Votes)) (r.(SendVotesForPeers))
    (r.(IsBusy)).
Definition upd_LastVotedTerm (f : Z → Z) (r : t) : t :=
  mk
    (r.(Leader)) (r.(LastVotedTo)) (f (r.(LastVotedTerm))) (r.(GroupPeers))
    (r.(Group)) (r.(Timeout)) (r.(Role)) (r.(Votes)) (r.(SendVotesForPeers))
    (r.(IsBusy)).
Definition upd_GroupPeers (f : gmap Z Peer.t → gmap Z Peer.t) (r : t) : t :=
  mk
    (r.(Leader)) (r.(LastVotedTo)) (r.(LastVotedTerm)) (f (r.(GroupPeers)))
    (r.(Group)) (r.(Timeout)) (r.(Role)) (r.(Votes)) (r.(SendVotesForPeers))
    (r.(IsBusy)).
Definition upd_Timeout (f : Z → Z) (r : t) : t :=
  mk
    (r.(Leader)) (r.(LastVotedTo)) (r.(LastVotedTerm)) (r.(GroupPeers))
    (r.(Group)) (f (r.(Timeout))) (r.(Role)) (r.(Votes))
    (r.(SendVotesForPeers)) (r.(IsBusy)).
Definition upd_Role (f : Z → Z) (r : t) : t :=
  mk
    (r.(Leader)) (r.(LastVotedTo)) (r.(LastVotedTerm)) (r.(GroupPeers))
    (r.(Group)) (r.(Timeout)) (f (r.(Role))) (r.(Votes))
    (r.(SendVotesForPeers)) (r.(IsBusy)).
Definition upd_Votes (f : list RequestVoteResponse.t → list RequestVoteResponse.t) (r : t) : t :=
  mk
    (r.(Leader)) (r.(LastVotedTo)) (r.(LastVotedTerm)) (r.(GroupPeers))
    (r.(Group)) (r.(Timeout)) (r.(Role)) (f (r.(Votes)))
    (r.(SendVotesForPeers)) (r.(IsBusy)).
Definition upd_SendVotesForPeers (f : gmap Z bool → gmap Z bool) (r : t) : t :=
  mk
    (r.(Leader)) (r.(LastVotedTo)) (r.(LastVotedTerm)) (r.(GroupPeers))
    (r.(Group)) (r.(Timeout)) (r.(Role)) (r.(Votes)) (f
    (r.(SendVotesForPeers))) (r.(IsBusy)).
End RTGroup.

Module Server.
Section server.
Context {W : World}.

Record t : Type := mk {
  Id : Z;
  Opts : Options.t;
  DB : W_db;
  FuncReg : gmap Z raft_fn;
  GroupsOnboard : W_map nat;
  GroupInvitations : gmap Z (list GroupInvitation.t);
  PendingNewGroups : gmap Z (list (option string));
  Groups : W_map nat;
  Hosts : W_map Host.t;
  NodePublicKeys : W_map PublicKey;
  SigningKey : PrivateKey;
  rtgroups : gmap nat RTGroup.t;
  raftgroups : gmap nat RaftGroup.t;
  now : Z;
  rands : list Z;
  calls : list rpc
}.

Definition upd_DB (f : W_db → W_db) (r : t) : t :=
  mk
    (r.(Id)) (r.(Opts)) (f (r.(DB))) (r.(FuncReg)) (r.(GroupsOnboard))
    (r.(GroupInvitations)) (r.(PendingNewGroups)) (r.(Groups)) (r.(Hosts))
    (r.(NodePublicKeys)) (r.(SigningKey)) (r.(rtgroups)) (r.(raftgroups))
    (r.(now)) (r.(rands)) (r.(calls)).
Definition upd_FuncReg (f : gmap Z raft_fn → gmap Z raft_fn) (r : t) : t :=
  mk
    (r.(Id)) (r.(Opts)) (r.(DB)) (f (r.(FuncReg))) (r.(GroupsOnboard))
    (r.(GroupInvitations)) (r.(PendingNewGroups)) (r.(Groups)) (r.(Hosts))
    (r.(NodePublicKeys)) (r.(SigningKey)) (r.(rtgroups)) (r.(raftgroups))
    (r.(now)) (r.(rands)) (r.(calls)).
Definition upd_GroupsOnboard (f : W_map nat → W_map nat) (r : t) : t :=
  mk
    (r.(Id)) (r.(Opts)) (r.(DB)) (r.(FuncReg)) (f (r.(GroupsOnboard)))
    (r.(GroupInvitations)) (r.(PendingNewGroups)) (r.(Groups)) (r.(Hosts))
    (r.(NodePublicKeys)) (r.(SigningKey)) (r.(rtgroups)) (r.(raftgroups))
    (r.(now)) (r.(rands)) (r.(calls)).
Definition upd_GroupInvitations (f : gmap Z (list GroupInvitation.t) → gmap Z (list GroupInvitation.t)) (r : t) : t :=
  mk
    (r.(Id)) (r.(Opts)) (r.(DB)) (r.(FuncReg)) (r.(GroupsOnboard)) (f
    (r.(GroupInvitations))) (r.(PendingNewGroups)) (r.(Groups)) (r.(Hosts))
    (r.(NodePublicKeys)) (r.(SigningKey)) (r.(rtgroups)) (r.(raftgroups))
    (r.(now)) (r.(rands)) (r.(calls)).
Definition upd_PendingNewGroups (f : gmap Z (list (option string)) → gmap Z (list (option string))) (r : t) : t :=
  mk
    (r.(Id)) (r.(Opts)) (r.(DB)) (r.(FuncReg)) (r.(GroupsOnboard))
    (r.(GroupInvitations)) (f (r.(PendingNewGroups))) (r.(Groups))
    (r.(Hosts)) (r.(NodePublicKeys)) (r.(SigningKey)) (r.(rtgroups))
    (r.(raftgroups)) (r.(now)) (r.(rands)) (r.(calls)).
Definition upd_Groups (f : W_map nat → W_map nat) (r : t) : t :=
  mk
    (r.(Id)) (r.(Opts)) (r.(DB)) (r.(FuncReg)) (r.(GroupsOnboard))
    (r.(GroupInvitations)) (r.(PendingNewGroups)) (f (r.(Groups)))
    (r.(Hosts)) (r.(NodePublicKeys)) (r.(SigningKey)) (r.(rtgroups))
    (r.(raftgroups)) (r.(now)) (r.(rands)) (r.(calls)).
Definition upd_Hosts (f : W_map Host.t → W_map Host.t) (r : t) : t :=
  mk
    (r.(Id)) (r.(Opts)) (r.(DB)) (r.(FuncReg)) (r.(GroupsOnboard))
    (r.(GroupInvitations)) (r.(PendingNewGroups)) (r.(Groups)) (f
    (r.(Hosts))) (r.(NodePublicKeys)) (r.(SigningKey)) (r.(rtgroups))
    (r.(raftgroups)) (r.(now)) (r.(rands)) (r.(calls)).
Definition upd_NodePublicKeys (f : W_map PublicKey → W_map PublicKey) (r : t) : t :=
  mk
    (r.(Id)) (r.(Opts)) (r.(DB)) (r.(FuncReg)) (r.(GroupsOnboard))
    (r.(GroupInvitations)) (r.(PendingNewGroups)) (r.(Groups)) (r.(Hosts))
    (f (r.(NodePublicKeys))) (r.(SigningKey)) (r.(rtgroups))
    (r.(raftgroups)) (r.(now)) (r.(rands)) (r.(calls)).
Definition upd_rtgroups (f : gmap nat RTGroup.t → gmap nat RTGroup.t) (r : t) : t :=
  mk
    (r.(Id)) (r.(Opts)) (r.(DB)) (r.(FuncReg)) (r.(GroupsOnboard))
    (r.(GroupInvitations)) (r.(PendingNewGroups)) (r.(Groups)) (r.(Hosts))
    (r.(NodePublicKeys)) (r.(SigningKey)) (f (r.(rtgroups)))
    (r.(raftgroups)) (r.(now)) (r.(rands)) (r.(calls)).
Definition upd_raftgroups (f : gmap nat RaftGroup.t → gmap nat RaftGroup.t) (r : t) : t :=
  mk
    (r.(Id)) (r.(Opts)) (r.(DB)) (r.(FuncReg)) (r.(GroupsOnboard))
    (r.(GroupInvitations)) (r.(PendingNewGroups)) (r.(Groups)) (r.(Hosts))
    (r.(NodePublicKeys)) (r.(SigningKey)) (r.(rtgroups)) (f
    (r.(raftgroups))) (r.(now)) (r.(rands)) (r.(calls)).
Definition upd_now (f : Z → Z) (r : t) : t :=
  mk
    (r.(Id)) (r.(Opts)) (r.(DB)) (r.(FuncReg)) (r.(GroupsOnboard))
    (r.(GroupInvitations)) (r.(PendingNewGroups)) (r.(Groups)) (r.(Hosts))
    (r.(NodePublicKeys)) (r.(SigningKey)) (r.(rtgroups)) (r.(raftgroups)) (f
    (r.(now))) (r.(rands)) (r.(calls)).
Definition upd_rands (f : list Z → list Z) (r : t) : t :=
  mk
    (r.(Id)) (r.(Opts)) (r.(DB)) (r.(FuncReg)) (r.(GroupsOnboard))
    (r.(GroupInvitations)) (r.(PendingNewGroups)) (r.(Groups)) (r.(Hosts))
    (r.(NodePublicKeys)) (r.(SigningKey)) (r.(rtgroups)) (r.(raftgroups))
    (r.(now)) (f (r.(rands))) (r.(calls)).
Definition upd_calls (f : list rpc → list rpc) (r : t) : t :=
  mk
    (r.(Id)) (r.(Opts)) (r.(DB)) (r.(FuncReg)) (r.(GroupsOnboard))
    (r.(GroupInvitations)) (r.(PendingNewGroups)) (r.(Groups)) (r.(Hosts))
    (r.(NodePublicKeys)) (r.(SigningKey)) (r.(rtgroups)) (r.(raftgroups))
    (r.(now)) (r.(rands)) (f (r.(calls))).
End server.
Arguments t : clear implicits.
Arguments t {_}.
End Server.

Section ops.
Context {W : World}.

Definition MS (A : Type) : Type := M Server.t A.

(** * Pointers *)

Definition load_rt (m : nat) : MS RTGroup.t :=
  s ← get_state; unwrap (Server.rtgroups s !! m).

Definition load_group (g : nat) : MS RaftGroup.t :=
  s ← get_state; unwrap (Server.raftgroups s !! g).

Definition update_rt (m : nat) (f : RTGroup.t → RTGroup.t) : MS unit :=
  modify (Server.upd_rtgroups (alter f m)).

Definition update_group (g : nat) (f : RaftGroup.t → RaftGroup.t) : MS unit :=
  modify (Server.upd_raftgroups (alter f g)).

(** [m.Group], dereferenced. *)
Definition group_of (m : nat) : MS RaftGroup.t :=
  rt ← load_rt m; load_group (RTGroup.Group rt).

(** A pointer that is not in use. *)
Definition fresh_ptr {A} (heap : gmap nat A) : nat :=
  map_fold (λ p _ n, Nat.max (S p) n) O heap.

Definition new_group_ptr (g : RaftGroup.t) : MS nat :=
  p ← gets (λ s, fresh_ptr (Server.raftgroups s));
  _ ← modify (Server.upd_raftgroups <[p := g]>);
  mret p.

Definition new_rt_ptr (rt : RTGroup.t) : MS nat :=
  p ← gets (λ s, fresh_ptr (Server.rtgroups s));
  _ ← modify (Server.upd_rtgroups <[p := rt]>);
  mret p.

(** * The environment *)

Definition time_Now : MS Z := gets Server.now.

(** The next value of [rand.Float32()], in units: a fraction of one, whatever
    number stands in [rands], and [0] when they are used up. *)
Definition next_rand : MS Z :=
  r ← gets Server.rands;
  _ ← modify (Server.upd_rands tail);
  mret (default 0 (head r) mod f32_unit).

Definition call (c : rpc) : MS unit := modify (Server.upd_calls (cons c)).

(** [utils.GetClusterRPC(addr)] and [ClientRPCs.Get(addr)]: whether a
    connection is obtained. *)
Definition GetClusterRPC (addr : string) : MS bool := mret (W_dial addr).
Definition GetClientRPC (addr : string) : MS bool := mret (W_dial addr).

Definition server_sign (data : bytes) : MS bytes :=
  key ← gets Server.SigningKey; mret (Sign key data).

(** * Transactions *)

Definition txn_read {A} (f : W_db → A) : MS A := gets (λ s, f (Server.DB s)).

Definition txn_write (f : W_db → outcome W_db) : MS unit :=
  d ← gets Server.DB;
  d' ← lift (f d);
  modify (Server.upd_DB (λ _, d')).

(** [s.DB.View(fn)]: what [fn] wrote is discarded. *)
Definition DB_View {A} (fn : MS A) : MS A := λ s,
  let '(o, s') := fn s in (o, Server.upd_DB (λ _, Server.DB s) s').

(** [s.DB.Update(fn)]: committed when [fn] returns no error and the store finds
    no conflict. *)
Definition DB_Update {A} (fn : MS A) : MS A := λ s,
  let '(o, s') := fn s in
  let rolled_back := Server.upd_DB (λ _, Server.DB s) s' in
  match o with
  | Ok a =>
    if kv_commits (Server.DB s) (Server.DB s') then (Ok a, s')
    else (Err "Transaction Conflict. Please retry", rolled_back)
  | o => (o, rolled_back)
  end.

(** * Groups *)

Definition GetGroup (groupId : Z) : MS (option nat) :=
  let cacheKey := id_key groupId in
  cachedGroup ← gets (λ s, sm_get (Server.Groups s) cacheKey);
  match cachedGroup with
  | Some group => mret (Some group)
  | None =>
    g ← txn_read (λ txn, GetGroupFromKV txn groupId);
    match g with
    | Some g =>
      group ← new_group_ptr g;
      _ ← modify (Server.upd_Groups (λ c, sm_set c cacheKey group));
      mret (Some group)
    | None => mret None
    end
  end.

Definition GetGroupNTXN (groupId : Z) : MS (option nat) := DB_View (GetGroup groupId).

Definition SaveGroupNTXN (group : RaftGroup.t) : MS unit :=
  DB_Update (txn_write (λ txn, SaveGroup txn group)).

Definition GetOnboardGroup (id : Z) : MS (option nat) :=
  gets (λ s, sm_get (Server.GroupsOnboard s) (id_key id)).

Definition SetOnboardGroup (meta : nat) : MS unit :=
  g ← group_of meta;
  modify (Server.upd_GroupsOnboard (λ c, sm_set c (id_key (RaftGroup.Id g)) meta)).

(** * Hosts *)

Definition GetHost (nodeId : Z) : MS (option Host.t) :=
  let cacheKey := id_key nodeId in
  cacheNode ← gets (λ s, sm_get (Server.Hosts s) cacheKey);
  match cacheNode with
  | Some node => mret (Some node)
  | None =>
    item ← txn_read (λ txn, kv_get txn (hosts_prefix ++ U64Bytes nodeId));
    match item with
    | KVFound item =>
      match ItemValue (Some item) with
      | None => mret None
      | Some data =>
        let node := (unmarshal data).1 in
        _ ← modify (Server.upd_Hosts (λ c, sm_set c cacheKey node));
        mret (Some node)
      end
    | _ => mret None
    end
  end.

Definition GetHostNTXN (nodeId : Z) : MS (option Host.t) := DB_View (GetHost nodeId).

Definition GetHostPublicKey (nodeId : Z) : MS (option PublicKey) :=
  let cacheKey := id_key nodeId in
  cachedKey ← gets (λ s, sm_get (Server.NodePublicKeys s) cacheKey);
  match cachedKey with
  | Some key => mret (Some key)
  | None =>
    node ← GetHostNTXN nodeId;
    match node with
    | None => mret None
    | Some node =>
      r ← try_ (lift (ParsePublicKey (Host.PublicKey node)));
      match r with
      | inr key =>
        _ ← modify (Server.upd_NodePublicKeys (λ c, sm_set c cacheKey key));
        mret (Some key)
      | inl _ => mret None
      end
    end
  end.

Definition SaveHostNTXN (node : Host.t) : MS unit :=
  DB_Update (txn_write (λ txn, SaveHost txn node)).

Definition VerifyCommandSign (cmd : CommandRequest.t) : MS bool :=
  let signData := ExecCommandSignData cmd in
  publicKey ← GetHostPublicKey (CommandRequest.ClientId cmd);
  match publicKey with
  | None => mret false
  | Some key => lift (VerifySign (Some key) (CommandRequest.Signature cmd) signData)
  end.

(** * The members of a group *)

Definition GetGroupHosts (groupId : Z) : MS (list Host.t) :=
  peers ← txn_read (λ txn, GetGroupPeersFromKV txn groupId);
  peers ← lift peers;
  fold_each (λ nodes '(_, peer),
    node ← GetHost (Peer.Id peer);
    match node with
    | Some node => mret (nodes ++ [node])
    | None => mret nodes
    end) (range_map peers) [].

Definition GetGroupHostsNTXN (groupId : Z) : MS (list Host.t) :=
  DB_View (GetGroupHosts groupId).

(** [res.Node] of the second branch is assigned to a variable that shadows the
    one returned. *)
Definition GroupLeader (groupId : Z) : MS GroupLeader.t :=
  let res := GroupLeader.mk None false [] in
  meta ← GetOnboardGroup groupId;
  match meta with
  | Some meta =>
    rt ← load_rt meta;
    node ← GetHostNTXN (RTGroup.Leader rt);
    mret (GroupLeader.mk node true [])
  | None =>
    _ ← DB_View (
      hosts ← GetGroupHosts groupId;
      if (0 <? length hosts)%nat then _ ← next_rand; mret tt else mret tt);
    mret res
  end.

(** * Timers and new groups *)

Definition RefreshTimer (m : nat) (mult : Z) : MS unit :=
  t ← time_Now;
  r ← next_rand;
  update_rt m (RTGroup.upd_Timeout (λ _, t + RandomTimeout mult r * Millisecond)).

(** The goroutine that [StartTimeWheel] starts serves every object of
    [rtgroups]; see [Election.v]. *)
Definition NewRTGroup (leader : Z) (groupPeers : gmap Z Peer.t) (group : nat)
    (role : Z) : MS nat :=
  t ← time_Now;
  new_rt_ptr (RTGroup.mk leader 0 0 groupPeers group (t + 60 * Second) role [] ∅ false).

Definition OnboardGroupPeersSlice (m : nat) : MS (list Peer.t) :=
  rt ← load_rt m; mret (range_map (RTGroup.GroupPeers rt)).*2.

(** [server/peers.go]: the groups this server is a peer of. One round of the scan. *)
Definition scan_peer (serverId : Z) (groups : gmap Z nat) (item : bytes * option bytes)
    : MS (gmap Z nat) :=
  val ← unwrap (ItemValue (Some item.2));
  let peer := (unmarshal val).1 in
  if Peer.Id peer =? serverId then
    group ← txn_read (λ txn, GetGroupFromKV txn (Peer.Group peer));
    match group with
    | None => mret groups
    | Some group =>
      self ← gets Server.Id;
      hosts ← GetGroupHosts (RaftGroup.Id group);
      let defaultLeader := if (length hosts <? 2)%nat then self else 0 in
      peers ← txn_read (λ txn, GetGroupPeersFromKV txn (Peer.Group peer));
      peers ← lift peers;
      g ← new_group_ptr group;
      meta ← NewRTGroup defaultLeader peers g FOLLOWER;
      mret (<[Peer.Group peer := meta]> groups)
    end
  else mret groups.

(** [s.GroupsOnboard.Set(k, meta)] for each group of the map. *)
Definition set_on_board (groups : list (Z * nat)) : MS unit :=
  for_each (λ '(groupId, meta),
    modify (Server.upd_GroupsOnboard (λ c, sm_set c (id_key groupId) meta))) groups.

Definition ScanHostedGroups (serverId : Z) : MS (gmap Z nat) :=
  let scanKey := U32Bytes GROUP_PEERS in
  res ← DB_View (
    items ← txn_read (λ txn, under_prefix scanKey (kv_scan txn false scanKey));
    fold_each (scan_peer serverId) items (∅ : gmap Z nat));
  _ ← set_on_board (range_map res);
  mret res.

(** * The group's methods on its log *)

Definition LastLogEntryNTXN (m : nat) : MS (option LogEntry.t) :=
  g ← group_of m; DB_View (txn_read (λ txn, LastLogEntry txn (RaftGroup.Id g))).

Definition LastEntryHashNTXN (m : nat) : MS bytes :=
  g ← group_of m; DB_View (txn_read (λ txn, LastEntryHash txn (RaftGroup.Id g))).

Definition LastEntryIndexNTXN (m : nat) : MS Z :=
  g ← group_of m; DB_View (txn_read (λ txn, LastEntryIndex txn (RaftGroup.Id g))).

Definition GroupUncommittedLogEntries (m : nat) (peer : Peer.t)
    : MS (list LogEntry.t * LogEntry.t) :=
  g ← group_of m;
  DB_View (txn_read (λ txn, PeerUncommittedLogEntries txn (RaftGroup.Id g) peer)).

(** [m.AppendEntryToLocal(txn, entry)] inside a transaction. *)
Definition GroupAppendEntry (m : nat) (entry : LogEntry.t) : MS unit :=
  g ← group_of m;
  txn_write (λ txn, AppendEntryToLocal txn (RaftGroup.Id g) entry).

Definition ExpectedHonestPeers (m : nat) : MS Z :=
  rt ← load_rt m;
  let num_peers := Z.of_nat (size (RTGroup.GroupPeers rt)) in
  mret (ExpectedPlayers num_peers).

Lemma fresh_ptr_bound {A} (heap : gmap nat A) p a :
  heap !! p = Some a → (p < fresh_ptr heap)%nat.
Proof.
  unfold fresh_ptr. revert p a.
  apply (map_fold_weak_ind (λ n heap, ∀ p a, heap !! p = Some a → (p < n)%nat)).
  - intros p a. by rw lookup_empty.
  - intros p x heap' n _ IH p' a. destruct (decide (p = p')) as [<-|Hne].
    + lia.
    + rw lookup_insert_ne //. intros ?%IH. lia.
Qed.

Lemma fresh_ptr_None {A} (heap : gmap nat A) : heap !! fresh_ptr heap = None.
Proof.
  destruct (heap !! fresh_ptr heap) as [a|] eqn:H; [|done].
  apply fresh_ptr_bound in H. lia.
Qed.

(** * What handlers leave alone

    [quiet s s']: at most the host and key caches changed. *)
Definition quiet (s s' : Server.t) : Prop :=
  ∃ h k, s' = Server.upd_Hosts (λ _, h) (Server.upd_NodePublicKeys (λ _, k) s).

#[global] Instance quiet_preorder : PreOrder quiet.
Proof.
  split.
  - intros s. exists (Server.Hosts s), (Server.NodePublicKeys s). by destruct s.
  - intros s ? ? (h & k & ->) (h' & k' & ->). by exists h', k'.
Qed.

(** Group numbers are in range, and a group is on board under its own number. *)
Record boards (s : Server.t) : Prop := {
  boards_u64 p g : Server.raftgroups s !! p = Some g → is_u64 (RaftGroup.Id g);
  boards_key key m : sm_get (Server.GroupsOnboard s) key = Some m →
    ∃ rt g, Server.rtgroups s !! m = Some rt ∧
      Server.raftgroups s !! RTGroup.Group rt = Some g ∧ key = id_key (RaftGroup.Id g)
}.

Lemma boards_same s s' :
  Server.rtgroups s' = Server.rtgroups s → Server.raftgroups s' = Server.raftgroups s →
  Server.GroupsOnboard s' = Server.GroupsOnboard s → boards s → boards s'.
Proof. intros H1 H2 H3 [Hu Hk]. split; [by rw H2|]. by rw H1 H2 H3. Qed.

(** [frame s s']: the objects of the heap and the identity of the server are
    still there, groups are on board under their numbers, every log is as it was,
    and what was sent to followers of a group are entries of the group's log. *)
Record frame (s s' : Server.t) : Prop := {
  frame_id : Server.Id s' = Server.Id s;
  frame_key : Server.SigningKey s' = Server.SigningKey s;
  frame_rt m rt : Server.rtgroups s !! m = Some rt →
    ∃ rt', Server.rtgroups s' !! m = Some rt' ∧ RTGroup.Group rt' = RTGroup.Group rt;
  frame_group p g : Server.raftgroups s !! p = Some g →
    ∃ g', Server.raftgroups s' !! p = Some g' ∧ RaftGroup.Id g' = RaftGroup.Id g;
  frame_log g l : is_u64 g → log_at (Server.DB s) g l → log_at (Server.DB s') g l;
  frame_sent g l addr req : is_u64 g → log_at (Server.DB s) g l →
    Rpc_AppendEntries addr req ∈ Server.calls s' → AppendEntriesRequest.Group req = g →
    Rpc_AppendEntries addr req ∈ Server.calls s ∨
    (∀ e, e ∈ AppendEntriesRequest.Entries req → e ∈ l);
  frame_boards : boards s → boards s'
}.

#[local] Hint Extern 2 (boards _) =>
  match goal with H : boards ?s |- _ => refine (boards_same s _ _ _ _ H); reflexivity end : core.

#[global] Instance frame_preorder : PreOrder frame.
Proof.
  split.
  - intros s. split; eauto.
  - intros s1 s2 s3 [I1 K1 R1 G1 L1 C1 B1] [I2 K2 R2 G2 L2 C2 B2]. split; [congruence|congruence|..|auto].
    + intros m rt (rt' & (rt'' & ? & ?)%R2 & ?)%R1. exists rt''. split; congruence.
    + intros p g (g' & (g'' & ? & ?)%G2 & ?)%G1. exists g''. split; congruence.
    + auto.
    + intros g l addr req Hu Hl Hin Hg. destruct (C2 g l addr req) as [?|?]; eauto.
Qed.

Lemma quiet_frame s s' : quiet s s' → frame s s'.
Proof. intros (h & k & ->). split; simpl; eauto. Qed.

Lemma preserves_quiet_frame {A} (m : MS A) : preserves quiet m → preserves frame m.
Proof. intros H s. apply quiet_frame, H. Qed.

Lemma quiet_hosts f s : quiet s (Server.upd_Hosts f s).
Proof. by exists (f (Server.Hosts s)), (Server.NodePublicKeys s); destruct s. Qed.

Lemma quiet_keys f s : quiet s (Server.upd_NodePublicKeys f s).
Proof. by exists (Server.Hosts s), (f (Server.NodePublicKeys s)); destruct s. Qed.

Lemma quiet_view {A} (fn : MS A) : preserves quiet fn → preserves quiet (DB_View fn).
Proof.
  intros H s. specialize (H s). unfold DB_View.
  destruct (fn s) as [o s']. simpl in *. destruct H as (h & k & ->). exists h, k. by destruct s.
Qed.

Lemma quiet_GetHost nodeId : preserves quiet (GetHost nodeId).
Proof. unfold GetHost, txn_read. solve_preserves. apply quiet_hosts. Qed.

Lemma quiet_GetHostNTXN nodeId : preserves quiet (GetHostNTXN nodeId).
Proof. apply quiet_view, quiet_GetHost. Qed.

Lemma quiet_GetHostPublicKey nodeId : preserves quiet (GetHostPublicKey nodeId).
Proof.
  unfold GetHostPublicKey. solve_preserves; auto using quiet_GetHostNTXN, quiet_keys.
Qed.

Lemma quiet_VerifyCommandSign cmd : preserves quiet (VerifyCommandSign cmd).
Proof. unfold VerifyCommandSign. solve_preserves; auto using quiet_GetHostPublicKey. Qed.

Lemma quiet_GetGroupHosts groupId : preserves quiet (GetGroupHosts groupId).
Proof. unfold GetGroupHosts, txn_read. solve_preserves; auto using quiet_GetHost. Qed.

Lemma quiet_load_rt m : preserves quiet (load_rt m).
Proof. unfold load_rt. solve_preserves. Qed.

Lemma quiet_group_of m : preserves quiet (group_of m).
Proof. unfold group_of, load_rt, load_group. solve_preserves. Qed.

Lemma quiet_server_sign data : preserves quiet (server_sign data).
Proof. unfold server_sign. solve_preserves. Qed.

Lemma quiet_LastLogEntryNTXN m : preserves quiet (LastLogEntryNTXN m).
Proof. unfold LastLogEntryNTXN. solve_preserves; [apply quiet_group_of|]. apply quiet_view. unfold txn_read. solve_preserves. Qed.

(** ** Operations that respect the frame *)

Lemma base_DB_Update {A} (fn : MS A) : preserves frame fn → preserves frame (DB_Update fn).
Proof.
  intros H s. specialize (H s). unfold DB_Update.
  destruct (fn s) as [[a|e|w] s']; simpl in *; [case_match; [done|]|..];
    destruct H as [H1 H2 H3 H4 H5 H6 H7]; split; simpl; eauto; intros ?%H7; auto.
Qed.

Lemma base_DB_View {A} (fn : MS A) : preserves frame fn → preserves frame (DB_View fn).
Proof.
  intros H s. specialize (H s). unfold DB_View.
  destruct (fn s) as [o s']; simpl in *. destruct H as [H1 H2 H3 H4 H5 H6 H7]; split; simpl; eauto; intros ?%H7; auto.
Qed.

Lemma frame_txn_write f :
  (∀ txn txn' g l, f txn = Ok txn' → is_u64 g → log_at txn g l → log_at txn' g l) →
  preserves frame (txn_write f).
Proof.
  intros Hf s. unfold txn_write, gets, lift, modify, mbind, M_bind.
  destruct (f (Server.DB s)) as [d| |] eqn:Hd; simpl; [|reflexivity..].
  split; simpl; eauto.
Qed.

Lemma base_update_rt m f :
  (∀ rt, RTGroup.Group (f rt) = RTGroup.Group rt) → preserves frame (update_rt m f).
Proof.
  intros Hf s. unfold update_rt, modify. simpl.
  assert (∀ m' rt, Server.rtgroups s !! m' = Some rt → ∃ rt',
    alter f m (Server.rtgroups s) !! m' = Some rt' ∧ RTGroup.Group rt' = RTGroup.Group rt) as Ha.
  { intros m' rt Hrt. destruct (decide (m = m')) as [<-|Hne].
    - rw lookup_alter_eq Hrt. eexists. split; [done|apply Hf].
    - rw lookup_alter_ne //. eauto. }
  split; simpl; eauto. intros [Hu Hk]. split; [done|].
  intros key m' (rt & g & (rt' & ? & Hr)%Ha & Hg & ?)%Hk. exists rt', g. rw Hr. by split.
Qed.

Lemma base_update_group p f :
  (∀ g, RaftGroup.Id (f g) = RaftGroup.Id g) → preserves frame (update_group p f).
Proof.
  intros Hf s. unfold update_group, modify. simpl.
  assert (∀ p' g, Server.raftgroups s !! p' = Some g → ∃ g',
    alter f p (Server.raftgroups s) !! p' = Some g' ∧ RaftGroup.Id g' = RaftGroup.Id g) as Ha.
  { intros p' g Hg. destruct (decide (p = p')) as [<-|Hne].
    - rw lookup_alter_eq Hg. eexists. split; [done|apply Hf].
    - rw lookup_alter_ne //. eauto. }
  split; simpl; eauto. intros [Hu Hk]. split; simpl.
  - intros p' g [[<- (g0 & Hg & ->)]|[_ Hg]]%lookup_alter_Some; [rw Hf|]; eauto.
  - intros key m' (rt & g & ? & (g' & ? & Hi)%Ha & ?)%Hk. exists rt, g'. rw Hi. by split.
Qed.

Lemma lookup_fresh {A} (heap : gmap nat A) x p a :
  heap !! p = Some a → <[fresh_ptr heap := x]> heap !! p = Some a.
Proof. intros Hp. rw lookup_insert_ne //. apply fresh_ptr_bound in Hp. lia. Qed.

Lemma base_new_group_ptr g : is_u64 (RaftGroup.Id g) → preserves frame (new_group_ptr g).
Proof.
  intros Hg s. split; simpl; eauto.
  - intros p g' Hp. exists g'. split; [exact (lookup_fresh _ _ _ _ Hp)|done].
  - intros [Hu Hk]. split; simpl.
    + intros p g' [[_ <-]|[_ ?]]%lookup_insert_Some; eauto.
    + intros key m (rt & g' & ? & Hp & ?)%Hk. exists rt, g'.
      split; [done|]. split; [exact (lookup_fresh _ _ _ _ Hp)|done].
Qed.

Lemma base_new_rt_ptr rt : preserves frame (new_rt_ptr rt).
Proof.
  intros s. split; simpl; eauto.
  - intros p rt' Hp. exists rt'. split; [exact (lookup_fresh _ _ _ _ Hp)|done].
  - intros [Hu Hk]. split; [done|]. simpl.
    intros key m (rt' & g & Hp & ?)%Hk. exists rt', g. split; [exact (lookup_fresh _ _ _ _ Hp)|done].
Qed.

(** A write whose key is of another kind than log entries. *)
Lemma log_at_set_other txn txn' g l kind g' r data :
  kv_set txn (ComposeKeyPrefix g' kind ++ r) data = inr txn' →
  is_u32 kind → kind ≠ LOG_ENTRIES → log_at txn g l → log_at txn' g l.
Proof.
  intros Hs Hk Hne [Ht Hi]. split; [|done].
  apply (table_set_other _ _ _ _ _ _ Ht Hs). unfold log_prefix.
  by apply has_prefix_kinds.
Qed.

Lemma SaveGroup_log txn txn' group g l :
  SaveGroup txn group = Ok txn' → log_at txn g l → log_at txn' g l.
Proof.
  unfold SaveGroup, txn_set, group_key. destruct (proto_marshal group); [|done..].
  destruct (kv_set _ _ _) eqn:Hs; [done|]. intros [= <-].
  rw -(app_nil_r (ComposeKeyPrefix _ _)) in Hs.
  exact (log_at_set_other _ _ _ _ _ _ _ _ Hs ltac:(done) ltac:(done)).
Qed.

Lemma SavePeer_log txn txn' peer g l :
  SavePeer txn peer = Ok txn' → log_at txn g l → log_at txn' g l.
Proof.
  unfold SavePeer, txn_set. destruct (proto_marshal peer); [|done..].
  destruct (kv_set _ _ _) eqn:Hs; [done|]. intros [= <-].
  exact (log_at_set_other _ _ _ _ _ _ _ _ Hs ltac:(done) ltac:(done)).
Qed.

Lemma SaveHost_log txn txn' node g l :
  SaveHost txn node = Ok txn' → log_at txn g l → log_at txn' g l.
Proof.
  unfold SaveHost, txn_set. destruct (proto_marshal node); [|done..].
  destruct (kv_set _ _ _) eqn:Hs; [done|]. intros [= <-].
  exact (log_at_set_other _ _ _ _ _ _ _ _ Hs ltac:(done) ltac:(done)).
Qed.

Lemma frame_SaveHost node : preserves frame (txn_write (λ txn, SaveHost txn node)).
Proof. apply frame_txn_write. eauto using SaveHost_log. Qed.

Lemma frame_SaveHostNTXN node : preserves frame (SaveHostNTXN node).
Proof. apply base_DB_Update, frame_SaveHost. Qed.

Lemma base_SetOnboardGroup m : preserves frame (SetOnboardGroup m).
Proof.
  intros s. unfold SetOnboardGroup, group_of, load_rt, load_group, get_state, mbind, M_bind.
  destruct (Server.rtgroups s !! m) as [rt|] eqn:Hm; [|reflexivity]. simpl.
  destruct (Server.raftgroups s !! RTGroup.Group rt) as [g|] eqn:Hg; [|reflexivity]. simpl.
  split; simpl; eauto. intros [Hu Hk]. split; [done|]. simpl. intros key m'.
  destruct (decide (id_key (RaftGroup.Id g) = key)) as [<-|Hne].
  - rw sm_get_set. intros [= <-]. by exists rt, g.
  - rw sm_get_set_ne; [done|apply Hk].
Qed.

(** Calls that carry no entries, and those that carry no results either. *)
Definition carries_entries (c : rpc) : bool :=
  match c with Rpc_AppendEntries _ _ => true | _ => false end.

Definition plain (c : rpc) : bool :=
  match c with Rpc_AppendEntries _ _ | Rpc_ResponseCommand _ _ => false | _ => true end.

Lemma base_call c : carries_entries c = false → preserves frame (call c).
Proof.
  intros Hc. unfold call. solve_preserves. split; simpl; eauto.
  intros g l addr req _ _ [<-|?]%elem_of_cons _; [done|by left].
Qed.

(** A request to a follower, with entries of the group's log. *)
Lemma frame_call_append addr req s :
  (∀ l, is_u64 (AppendEntriesRequest.Group req) →
    log_at (Server.DB s) (AppendEntriesRequest.Group req) l →
    ∀ e, e ∈ AppendEntriesRequest.Entries req → e ∈ l) →
  frame s (Server.upd_calls (cons (Rpc_AppendEntries addr req)) s).
Proof.
  intros He. split; simpl; eauto.
  intros g l addr' req' Hu Hl [[= -> ->]|?]%elem_of_cons <-; [right; eauto|by left].
Qed.
(** ** Relations that handlers respect

    Most handlers write nothing but the records of groups and peers. What they leave
    alone is proved once, for every relation that such writes and steps that write
    nothing respect; [frame] is one, and others speak of other tables or of the results
    that clients are told. *)
Definition response (c : rpc) : option (string * CommandResult.t) :=
  match c with Rpc_ResponseCommand addr r => Some (addr, r) | _ => None end.

Definition told (s : Server.t) : list (string * CommandResult.t) := omap response (Server.calls s).

Record silent (s s' : Server.t) : Prop := {
  silent_frame : frame s s';
  silent_DB : Server.DB s' = Server.DB s;
  silent_FuncReg : Server.FuncReg s' = Server.FuncReg s;
  silent_told : told s' = told s;
  silent_sent : Server.calls s ⊆ Server.calls s'
}.

#[export] Instance silent_preorder : PreOrder silent.
Proof.
  split; [intros s; split; [reflexivity|done..]|]. intros s1 s2 s3 [F1 D1 R1 T1 C1] [F2 D2 R2 T2 C2].
  split; [by transitivity s2|congruence..|set_solver].
Qed.

Lemma quiet_silent s s' : quiet s s' → silent s s'.
Proof. intros H. split; [by apply quiet_frame|..]; by destruct H as (h & k & ->). Qed.

(** Steps that write nothing respect [R]; and, for [Storing], the writes do. *)
Class Framing (R : relation Server.t) := {
  framing_preorder :: PreOrder R;
  framing_silent s s' : silent s s' → R s s'
}.

Class Storing (R : relation Server.t) := {
  storing_framing :: Framing R;
  storing_update {A} (fn : MS A) : preserves R fn → preserves R (DB_Update fn);
  storing_SaveGroup group : preserves R (txn_write (λ txn, SaveGroup txn group));
  storing_SavePeer peer : preserves R (txn_write (λ txn, SavePeer txn peer))
}.

(** And those that telling a client a result respects. *)
Class Telling (R : relation Server.t) := {
  telling_storing :: Storing R;
  telling_call addr r : preserves R (call (Rpc_ResponseCommand addr r))
}.

#[export] Instance silent_framing : Framing silent.
Proof. split; [apply _|done]. Qed.

#[export] Instance frame_storing : Storing frame.
Proof.
  split; [split; [apply _|by intros s s' []]|intros A; apply base_DB_Update|..];
    intros ?; apply frame_txn_write; eauto using SaveGroup_log, SavePeer_log.
Qed.

#[export] Instance frame_telling : Telling frame.
Proof. split; [apply _|]. intros addr r. by apply base_call. Qed.

Section framing.
Context {R : relation Server.t} `{!Framing R}.

Lemma framing_quiet {A} (p : MS A) : preserves quiet p → preserves R p.
Proof. intros H s. apply framing_silent, quiet_silent, H. Qed.

(** A program that writes nothing. *)
Lemma framing_pure {A} (p : MS A) :
  preserves frame p → (∀ s, Server.DB (p s).2 = Server.DB s ∧
    Server.FuncReg (p s).2 = Server.FuncReg s ∧ told (p s).2 = told s ∧
    Server.calls s ⊆ Server.calls (p s).2) → preserves R p.
Proof. intros Hf Hd s. apply framing_silent. split; [apply Hf|apply Hd..]. Qed.

Lemma frame_DB_View {A} (fn : MS A) : preserves silent fn → preserves R (DB_View fn).
Proof.
  intros H. apply framing_pure.
  - apply base_DB_View. intros s. apply H.
  - intros s. destruct (H s) as [_ _ Hr Ht Hc]. revert Hr Ht Hc. unfold DB_View. by destruct (fn s).
Qed.

Lemma frame_update_rt m f :
  (∀ rt, RTGroup.Group (f rt) = RTGroup.Group rt) → preserves R (update_rt m f).
Proof. intros Hf. apply framing_pure; [by apply base_update_rt|done]. Qed.

Lemma frame_update_group p f :
  (∀ g, RaftGroup.Id (f g) = RaftGroup.Id g) → preserves R (update_group p f).
Proof. intros Hf. apply framing_pure; [by apply base_update_group|done]. Qed.

Lemma frame_new_group_ptr g : is_u64 (RaftGroup.Id g) → preserves R (new_group_ptr g).
Proof. intros Hg. apply framing_pure; [by apply base_new_group_ptr|done]. Qed.

Lemma frame_new_rt_ptr rt : preserves R (new_rt_ptr rt).
Proof. apply framing_pure; [apply base_new_rt_ptr|done]. Qed.

Lemma frame_next_rand : preserves R next_rand.
Proof. apply framing_pure; [|done]. intros s. split; simpl; eauto. Qed.

Lemma frame_RefreshTimer m mult : preserves R (RefreshTimer m mult).
Proof.
  unfold RefreshTimer, time_Now. solve_preserves; [apply frame_next_rand|by apply frame_update_rt].
Qed.

Lemma frame_NewRTGroup leader peers group role :
  preserves R (NewRTGroup leader peers group role).
Proof. unfold NewRTGroup, time_Now. solve_preserves. apply frame_new_rt_ptr. Qed.

Lemma frame_GetGroup groupId : preserves R (GetGroup groupId).
Proof.
  unfold GetGroup. apply (preserves_bind _); [apply (preserves_gets _)|intros [p|]; [solve_preserves|]].
  intros s. rw (bind_Ok _ _ s s _ (eq_refl : txn_read (λ txn, GetGroupFromKV txn groupId) s = _)).
  destruct (GetGroupFromKV (Server.DB s) groupId) as [g|] eqn:Hg; [|reflexivity].
  apply GetGroupFromKV_u64 in Hg. generalize s.
  change (preserves R (group ← new_group_ptr g;
    _ ← modify (Server.upd_Groups (λ c, sm_set c (id_key groupId) group)); mret (Some group))).
  solve_preserves; [by apply frame_new_group_ptr|]. apply framing_silent. split; [|done..].
  split; simpl; eauto.
Qed.

Lemma frame_SetOnboardGroup m : preserves R (SetOnboardGroup m).
Proof.
  apply framing_pure; [apply base_SetOnboardGroup|]. intros s. unfold SetOnboardGroup.
  unfold group_of, load_rt, load_group, get_state, mbind, M_bind.
  destruct (Server.rtgroups s !! m) as [rt|]; [|done]. simpl. by destruct (Server.raftgroups s !! _).
Qed.

Lemma frame_call c : plain c = true → preserves R (call c).
Proof.
  intros Hc. apply framing_pure; [apply base_call|intros s]; [by destruct c|].
  split; [done|]. split; [done|]. split; [by destruct c|]. by right.
Qed.
End framing.

Lemma frame_SaveGroupNTXN `{!Storing R} group : preserves R (SaveGroupNTXN group).
Proof. apply storing_update, storing_SaveGroup. Qed.
End ops.

#[export] Hint Extern 2 (boards _) =>
  match goal with H : boards ?s |- _ => refine (boards_same s _ _ _ _ H); reflexivity end : core.

#[export] Hint Resolve quiet_GetHost quiet_GetHostNTXN quiet_GetHostPublicKey
  quiet_VerifyCommandSign quiet_GetGroupHosts quiet_load_rt quiet_group_of
  quiet_server_sign
  quiet_LastLogEntryNTXN : preserves.

#[export] Hint Resolve storing_SaveGroup storing_SavePeer frame_SaveHost frame_SaveGroupNTXN
  frame_SaveHostNTXN frame_RefreshTimer frame_NewRTGroup frame_GetGroup
  frame_SetOnboardGroup frame_call frame_new_group_ptr frame_new_rt_ptr : preserves.
#[export] Hint Resolve telling_call : preserves.
#[export] Hint Extern 1 (plain _ = true) => reflexivity : preserves.

(** The frame hints, the quiet ones below them, and updates that [frame] ignores. *)
Ltac solve_frame :=
  solve_preserves;
  try solve [apply framing_quiet; eauto with preserves
            |intros; apply framing_silent; split; [split; simpl; by eauto|reflexivity..]].
