(* ===== verification/Lookups.v ===== *)
(** What the caches of hosts and keys answer: the lookups of [server/hosts.go]
    fill the caches as they go, and no lookup changes what another answers; and the
    hosts that a server finds for the peers of a group. *)
From S2P Require Export Server.

Section lookups.
Context {W : World}.

(** The answers in a state, and the states that answer alike. *)
Definition host_of (s : Server.t) (id : Z) : outcome (option Host.t) := (GetHost id s).1.
Definition key_of (s : Server.t) (id : Z) : outcome (option PublicKey) :=
  (GetHostPublicKey id s).1.

Record same_answers (s s' : Server.t) : Prop := {
  same_quiet : quiet s s';
  same_host id : host_of s' id = host_of s id;
  same_key id : key_of s' id = key_of s id
}.

#[global] Instance same_answers_preorder : PreOrder same_answers.
Proof.
  split.
  - intros s. split; reflexivity.
  - intros s1 s2 s3 [Q1 H1 K1] [Q2 H2 K2]. split; [by transitivity s2|congruence..].
Qed.

(** The cache key determines the database key. *)
Lemma U64Bytes_mod a : U64Bytes (a mod 2 ^ 64) = U64Bytes a.
Proof. exact (be_bytes_mod 8 8 a (le_n 8)). Qed.

Lemma int_of_u64_mod a : int_of_u64 a mod 2 ^ 64 = a mod 2 ^ 64.
Proof.
  unfold int_of_u64. case_match; [done|].
  replace (a - 2 ^ 64) with (a + (-1) * 2 ^ 64) by lia. by rw Z_mod_plus_full.
Qed.

Lemma id_key_U64Bytes a b : id_key a = id_key b → U64Bytes a = U64Bytes b.
Proof.
  unfold id_key, Itoa. intros Heq%(inj pretty).
  by rw -(U64Bytes_mod a) -(U64Bytes_mod b) -(int_of_u64_mod a) Heq int_of_u64_mod.
Qed.

Lemma GetHost_key a b s : id_key a = id_key b → GetHost a s = GetHost b s.
Proof.
  intros Hk. unfold GetHost. rw Hk.
  by rw (id_key_U64Bytes _ _ Hk).
Qed.

Lemma GetHostPublicKey_key a b s : id_key a = id_key b → GetHostPublicKey a s = GetHostPublicKey b s.
Proof.
  intros Hk. unfold GetHostPublicKey, GetHostNTXN, DB_View.
  rw Hk /gets /mbind /M_bind. case_match; [done|].
  by rw (GetHost_key _ _ _ Hk).
Qed.

(** What [GetHost] answers and leaves behind. *)
Definition read_host (s : Server.t) (id : Z) : option Host.t :=
  match sm_get (Server.Hosts s) (id_key id) with
  | Some node => Some node
  | None =>
    match kv_get (Server.DB s) (hosts_prefix ++ U64Bytes id) with
    | KVFound (Some data) => Some (unmarshal data).1
    | _ => None
    end
  end.

Lemma GetHost_run id s :
  GetHost id s =
  (Ok (read_host s id),
   match sm_get (Server.Hosts s) (id_key id), read_host s id with
   | None, Some node => Server.upd_Hosts (λ c, sm_set c (id_key id) node) s
   | _, _ => s
   end).
Proof.
  unfold GetHost, read_host, gets, txn_read, modify, mbind, M_bind, mret, M_ret.
  destruct (sm_get _ _); [done|]. simpl.
  by destruct (kv_get _ _) as [[]| |].
Qed.

Lemma host_of_eq s id : host_of s id = Ok (read_host s id).
Proof. unfold host_of. by rw GetHost_run. Qed.
(** The states [GetHost] and [GetHostPublicKey] leave behind. *)
Definition cache_host (s : Server.t) (id : Z) : Server.t := (GetHost id s).2.

Lemma upd_DB_same (s : Server.t) : Server.upd_DB (λ _, Server.DB s) s = s.
Proof. by destruct s. Qed.

Lemma cache_host_DB s id : Server.DB (cache_host s id) = Server.DB s.
Proof.
  unfold cache_host. rw GetHost_run. simpl.
  by destruct (sm_get _ _), (read_host s id).
Qed.

Lemma GetHostNTXN_run id s : GetHostNTXN id s = (Ok (read_host s id), cache_host s id).
Proof.
  unfold GetHostNTXN, DB_View. rw (surjective_pairing (GetHost id s)).
  rw -(cache_host_DB s id) upd_DB_same. by rw GetHost_run.
Qed.

Lemma read_host_cached s id id' : read_host (cache_host s id) id' = read_host s id'.
Proof.
  unfold cache_host. rw GetHost_run. cbn [snd].
  destruct (sm_get (Server.Hosts s) (id_key id)) eqn:Hc, (read_host s id) as [node|] eqn:Hr;
    try done.
  unfold read_host. simpl. destruct (decide (id_key id = id_key id')) as [Hk|Hne].
  - rw -Hk sm_get_set Hc -(id_key_U64Bytes _ _ Hk). symmetry.
    revert Hr. unfold read_host. by rw Hc.
  - by rw sm_get_set_ne.
Qed.

Lemma keys_cached s id : Server.NodePublicKeys (cache_host s id) = Server.NodePublicKeys s.
Proof.
  unfold cache_host. rw GetHost_run. simpl.
  by destruct (sm_get _ _), (read_host s id).
Qed.

Definition read_key (s : Server.t) (id : Z) : outcome (option PublicKey) :=
  match sm_get (Server.NodePublicKeys s) (id_key id) with
  | Some key => Ok (Some key)
  | None =>
    match read_host s id with
    | None => Ok None
    | Some node =>
      match ParsePublicKey (Host.PublicKey node) with
      | Ok key => Ok (Some key)
      | Err _ => Ok None
      | Panic w => Panic w
      end
    end
  end.

Lemma GetHostPublicKey_run id s :
  GetHostPublicKey id s =
  (read_key s id,
   match sm_get (Server.NodePublicKeys s) (id_key id), read_key s id with
   | Some _, _ => s
   | None, Ok (Some key) =>
     Server.upd_NodePublicKeys (λ c, sm_set c (id_key id) key) (cache_host s id)
   | None, _ => cache_host s id
   end).
Proof.
  unfold GetHostPublicKey, read_key, gets, try_, lift, modify, mbind, M_bind, mret, M_ret.
  destruct (sm_get _ _); [done|]. rw GetHostNTXN_run.
  destruct (read_host s id); [|done].
  by destruct (ParsePublicKey _).
Qed.

Lemma key_of_eq s id : key_of s id = read_key s id.
Proof. unfold key_of. by rw GetHostPublicKey_run. Qed.

Lemma read_key_host_cached s id id' : read_key (cache_host s id) id' = read_key s id'.
Proof. unfold read_key. by rw keys_cached read_host_cached. Qed.

Lemma same_answers_GetHost id : preserves same_answers (GetHost id).
Proof.
  intros s. split; [apply quiet_GetHost|..]; intros id'.
  - rw !host_of_eq. f_equal. apply read_host_cached.
  - rw !key_of_eq. apply read_key_host_cached.
Qed.

Lemma same_answers_GetHostNTXN id : preserves same_answers (GetHostNTXN id).
Proof. intros s. rw GetHostNTXN_run. apply same_answers_GetHost. Qed.

Lemma same_answers_GetHostPublicKey id : preserves same_answers (GetHostPublicKey id).
Proof.
  intros s. split; [apply quiet_GetHostPublicKey|..]; intros id'.
  - rw !host_of_eq GetHostPublicKey_run. cbn [snd]. f_equal.
    destruct (sm_get _ _); [done|].
    destruct (read_key s id) as [[key|]| |]; try apply read_host_cached.
  - rw !key_of_eq GetHostPublicKey_run. cbn [snd].
    destruct (sm_get _ _) as [k|] eqn:Hc; [done|].
    destruct (read_key s id) as [[key|]| |] eqn:Hr; try apply read_key_host_cached.
    unfold read_key at 1. simpl. rw keys_cached.
    change (read_host (Server.upd_NodePublicKeys _ (cache_host s id)) id')
      with (read_host (cache_host s id) id').
    rw read_host_cached. destruct (decide (id_key id = id_key id')) as [Hk|Hne].
    + rw -Hk sm_get_set -Hr. unfold read_key. rw -Hk Hc.
      unfold read_host. by rw -Hk (id_key_U64Bytes _ _ Hk).
    + by rw sm_get_set_ne.
Qed.

Lemma same_answers_VerifyCommandSign cmd : preserves same_answers (VerifyCommandSign cmd).
Proof.
  unfold VerifyCommandSign. solve_preserves. apply same_answers_GetHostPublicKey.
Qed.
(** * Loops over records

    [GetGroupHosts] and [RPCGroupMembers] look the host of each record up and make an
    [item] of those they find. *)
Section loop.
Context {B : Type} (get : Z → MS (option Host.t)) (item : Peer.t → Host.t → B).

Definition with_host (s : Server.t) (row : Z * Peer.t) : option B :=
  host ← read_host s (Peer.Id row.2);
  Some (item row.2 host).

Lemma hosts_loop s rows acc :
  (∀ id s0, get id s0 = (Ok (read_host s0 id), cache_host s0 id)) → ∀ s0,
  quiet s s0 → (∀ id, read_host s0 id = read_host s id) →
  ∃ s1, fold_each (λ items '(_, p),
      host ← get (Peer.Id p);
      match host with
      | Some host => mret (items ++ [item p host])
      | None => mret items
      end) rows acc s0 = (Ok (acc ++ omap (with_host s) rows), s1) ∧ quiet s s1.
Proof.
  intros Hget. revert acc. induction rows as [|[i p] rows IH]; intros acc s0 Hq Hr.
  { exists s0. simpl. by rw app_nil_r. }
  cbn [fold_each].
  assert (quiet s (cache_host s0 (Peer.Id p))) as Hq1
    by (transitivity s0; [done|exact (quiet_GetHost (Peer.Id p) s0)]).
  assert (∀ id, read_host (cache_host s0 (Peer.Id p)) id = read_host s id) as Hr1
    by (intros id; by rw read_host_cached).
  cbn [omap list_omap]. unfold with_host at 1. cbn [snd].
  pose proof (Hget (Peer.Id p) s0) as Hrun. rw Hr in Hrun.
  match goal with |- ∃ s1, (?q ≫= _) s0 = _ ∧ _ =>
    assert (q s0 = (Ok match read_host s (Peer.Id p) with
      | Some h => acc ++ [item p h] | None => acc end, cache_host s0 (Peer.Id p)))
      as Hstep by (rw (bind_Ok _ _ _ _ _ Hrun); by destruct (read_host s (Peer.Id p))) end.
  rw (bind_Ok _ _ _ _ _ Hstep). clear Hstep Hrun.
  destruct (read_host s (Peer.Id p)) as [h|]; cbn [mbind option_bind].
  - destruct (IH (acc ++ [item p h]) _ Hq1 Hr1) as (s1 & Hrun & Hq').
    exists s1. split; [|done]. rw -app_assoc in Hrun. exact Hrun.
  - exact (IH acc _ Hq1 Hr1).
Qed.
End loop.

(** What [GetGroupHosts] answers, of the peers that the store has. *)
Lemma GetHost_cache id (s : Server.t) : GetHost id s = (Ok (read_host s id), cache_host s id).
Proof. unfold cache_host. by rw GetHost_run. Qed.

Lemma GetGroupHosts_run s group t :
  peers_at (Server.DB s) group t →
  ∃ s', GetGroupHosts group s = (Ok (omap (with_host (λ _ h, h) s) (range_map t)), s') ∧ quiet s s'.
Proof.
  intros Ht. unfold GetGroupHosts.
  rw (bind_Ok _ _ _ _ _ (eq_refl : txn_read (λ txn, GetGroupPeersFromKV txn group) s = (Ok _, s))).
  rw (GetGroupPeers_at _ _ _ Ht) (bind_Ok _ _ _ _ _ (eq_refl : lift (Ok t) s = (Ok t, s))).
  exact (hosts_loop GetHost (λ _ h, h) s (range_map t) [] GetHost_cache s ltac:(reflexivity) ltac:(done)).
Qed.

(** The host in a table, when what the cache holds is from there. *)
Definition hosts_fresh (H : gmap Z Host.t) (s : Server.t) : Prop := ∀ id h,
  is_u64 id → sm_get (Server.Hosts s) (id_key id) = Some h → H !! id = Some h.

Lemma read_host_at s H id :
  table_at hosts_prefix (Server.DB s) H → hosts_fresh H s → is_u64 id → read_host s id = H !! id.
Proof.
  intros Ht Hf Hid. unfold read_host. destruct (sm_get _ _) as [h|] eqn:Hc; [by rw (Hf id h Hid Hc)|].
  destruct (H !! id) as [h|] eqn:Hh.
  - destruct (table_row _ _ _ Ht _ _ Hh) as (_ & b & Hb & Hu). unfold row_key in Hb. by rw Hb Hu.
  - pose proof (table_absent _ _ _ _ Ht Hid Hh) as Hb. unfold row_key in Hb. by rw Hb.
Qed.
End lookups.

#[export] Hint Resolve same_answers_GetHost same_answers_GetHostNTXN
  same_answers_GetHostPublicKey same_answers_VerifyCommandSign : preserves.
