(* ===== verification/Scenario.v ===== *)
(** A small deployment to run the definitions on: group 7 with the members 1, 2
    and 3, on the platform of [Concrete.v], where the key of a host is its
    number. [node self role term log] is the server of one member, with
    one function of the application registered under the number 10. *)
From S2P Require Export Concrete Lookups.

(** The platform's store. *)
Abbreviation store := (@W_db mem_world).

Definition demo_group_id : Z := 7.

(** * A log *)

Definition demo_cmd (n : Z) : CommandRequest.t :=
  CommandRequest.mk demo_group_id 1 n 10 [] [n].

Definition demo_entry (term index : Z) (prev : bytes) : LogEntry.t :=
  LogEntry.mk term index (LogHash prev index 10 [index]) (Some (demo_cmd index)).

(** [n] entries of one term, oldest first, the first with number [index]. *)
Fixpoint demo_entries (term index : Z) (prev : bytes) (n : nat) : list LogEntry.t :=
  match n with
  | O => []
  | S n' =>
    let e := demo_entry term index prev in
    e :: demo_entries term (index + 1) (LogEntry.Hash e) n'
  end.

Definition demo_log (n : nat) : list LogEntry.t :=
  demo_entries 1 1 (genesis_hash demo_group_id) n.

(** * A database *)

Definition put {A} `{Codec A} (key : bytes) (a : A) (d : store) : store :=
  match marshal a with
  | inr b => match kv_set d key b with inr d' => d' | inl _ => d end
  | inl _ => d
  end.

Definition put_entry (d : store) (e : LogEntry.t) : store :=
  put (LogEntryKey demo_group_id (LogEntry.Index e)) e d.

Definition demo_host (n : Z) : Host.t :=
  Host.mk n 0 true (Itoa n) [n].

Definition demo_peer (n : Z) : Peer.t := Peer.mk n demo_group_id 0 0.

Definition demo_group (term : Z) : RaftGroup.t := RaftGroup.mk 3 demo_group_id term.

Definition put_member (d : store) (n : Z) : store :=
  put (peers_prefix demo_group_id ++ U64Bytes n) (demo_peer n)
    (put (hosts_prefix ++ U64Bytes n) (demo_host n) d).

Definition demo_db (term : Z) (log : list LogEntry.t) : store :=
  put (group_key demo_group_id) (demo_group term)
    (foldl put_member (foldl put_entry (∅ : memdb) log) [1; 2; 3]).

(** * A server *)

Definition demo_peers : gmap Z Peer.t :=
  list_to_map [(1, demo_peer 1); (2, demo_peer 2); (3, demo_peer 3)].

Definition demo_rt (leader role : Z) : RTGroup.t :=
  RTGroup.mk leader 0 0 demo_peers 0 0 role [] ∅ false.

Definition node (self leader role term : Z) (log : list LogEntry.t) : Server.t :=
  Server.mk self (Options.mk "db" (Itoa self) [] 0) (demo_db term log)
    {[ 10 := Fn_user 0 ]}
    (sm_set sm_empty (id_key demo_group_id) 0%nat) ∅ ∅ sm_empty sm_empty sm_empty self
    {[ 0%nat := demo_rt leader role ]} {[ 0%nat := demo_group term ]} 0 [] [].

(** The database holds the log. *)
Lemma table_at_empty {A} `{Codec A} p : table_at p ((∅ : memdb) : store) (∅ : gmap Z A).
Proof. split; [by intros i a|]. intros k _. by right. Qed.

Lemma log_at_empty g : log_at ((∅ : memdb) : store) g [].
Proof. split; [apply table_at_empty|done]. Qed.

Lemma put_other {A} `{Codec A} g l kind g' r (a : A) d :
  is_u32 kind → kind ≠ LOG_ENTRIES → log_at d g l →
  log_at (put (ComposeKeyPrefix g' kind ++ r) a d) g l.
Proof.
  intros Hk Hne Hl. unfold put. destruct (marshal a); [done|].
  destruct (kv_set _ _ _) eqn:Hs; [done|]. exact (log_at_set_other _ _ _ _ _ _ _ _ Hs Hk Hne Hl).
Qed.

Lemma put_entry_at d l e :
  log_at d demo_group_id l → LogEntry.Index e = Z.of_nat (length l) + 1 →
  is_u64 (LogEntry.Index e) → log_at (put_entry d e) demo_group_id (l ++ [e]).
Proof.
  intros Hl Hi Hu. unfold put_entry, put. change (marshal e) with (inr (print_entry e) : string + bytes).
  cbv beta iota.
  case_match eqn:Hs.
  { exfalso. revert Hs. cbn. by case_decide. }
  exact (log_at_snoc d demo_group_id l Hl e (print_entry e) _ Hi Hu eq_refl Hs).
Qed.

Lemma put_entries_at es d l :
  (∀ n e, es !! n = Some e → LogEntry.Index e = Z.of_nat (length l + n) + 1) →
  Z.of_nat (length l + length es) < 2 ^ 64 - 1 → log_at d demo_group_id l →
  log_at (foldl put_entry d es) demo_group_id (l ++ es).
Proof.
  revert d l. induction es as [|e es IH]; intros d l Hi Hlen Hl; simpl in *.
  { by rw app_nil_r. }
  replace (l ++ e :: es) with ((l ++ [e]) ++ es) by (by rw -app_assoc).
  pose proof (Hi 0%nat e eq_refl) as He. apply IH.
  - intros n e' Hn. rw length_app. rw (Hi (S n) e' Hn). simpl. lia.
  - rw length_app. simpl. lia.
  - apply put_entry_at; [done|lia|]. unfold is_u64. lia.
Qed.

Lemma put_members_at ns d l :
  log_at d demo_group_id l → log_at (foldl put_member d ns) demo_group_id l.
Proof.
  revert d. induction ns as [|n ns IH]; intros d Hl; simpl; [done|].
  apply IH. unfold put_member, peers_prefix, hosts_prefix. by repeat apply put_other.
Qed.

Lemma demo_entries_index term i prev n k e :
  demo_entries term i prev n !! k = Some e → LogEntry.Index e = i + Z.of_nat k.
Proof.
  revert i prev k. induction n as [|n IH]; intros i prev k; [done|].
  destruct k as [|k]; simpl; [intros [= <-]; simpl; lia|]. intros ->%IH. lia.
Qed.

Lemma length_demo_entries term i prev n : length (demo_entries term i prev n) = n.
Proof. revert i prev. induction n as [|n IH]; intros i prev; simpl; [done|]. by rw IH. Qed.

Lemma demo_db_log term n :
  Z.of_nat n < 2 ^ 64 - 1 → log_at (demo_db term (demo_log n)) demo_group_id (demo_log n).
Proof.
  intros Hn. unfold demo_db, group_key.
  rw -(app_nil_r (ComposeKeyPrefix demo_group_id GROUP_META)).
  apply put_other; [done|done|]. apply put_members_at.
  apply (put_entries_at (demo_log n) (∅ : memdb) []); [|by rw length_demo_entries|apply log_at_empty].
  intros k e He%demo_entries_index. rw He. simpl. lia.
Qed.
