(* ===== verification/LogFacts.v ===== *)
(** What the log and its keys guarantee: integers and keys read back, rows of
    different tables never meet, the tip of a hash chain determines the commands
    of the log, and what appending, batching and pulling do, each against a
    declarative specification; an entry after the next one is refused. *)
From S2P Require Export Log Scenario.

Section facts.
Context {W : World}.

(** * Keys *)

(** An unsigned integer is read back from its eight bytes wherever they are
    stored, and integers keep their order as bytes. *)
Theorem U64Bytes_roundtrip n n' before after :
  is_u64 n → is_u64 n' →
  BytesU64 (before ++ U64Bytes n ++ after) (length before) = Ok n ∧
  (blt (U64Bytes n) (U64Bytes n') ↔ n < n').
Proof.
  intros Hn Hn'. split; [|by apply U64Bytes_blt]. unfold BytesU64.
  rw !length_app length_U64Bytes decide_True; [unfold UINT64_LEN; lia|].
  rw drop_app_length. rw take_app_le; [by rw length_U64Bytes|].
  rw take_ge; [by rw length_U64Bytes|]. unfold U64Bytes. rw be_value_be_bytes.
  f_equal. by apply Z.mod_small.
Qed.

(** C37. A key of the log of one group is under the prefix of that group's log and
    of no other table, and the keys of a log are ordered like its indices. *)
Theorem LogEntryKey_separate g i g' i' kind :
  is_u64 g → is_u64 g' → is_u64 i → is_u64 i' → is_u32 kind →
  (has_prefix (ComposeKeyPrefix g' kind) (LogEntryKey g i) = true ↔
     g' = g ∧ kind = LOG_ENTRIES) ∧
  (blt (LogEntryKey g i) (LogEntryKey g i') ↔ i < i').
Proof.
  intros Hg Hg' Hi Hi' Hk. split; [|by apply row_key_blt]. split.
  - intros Hp. destruct (decide ((g', kind) = (g, LOG_ENTRIES))) as [[= -> ->]|Hne]; [done|].
    exfalso. unfold LogEntryKey, log_prefix in Hp. rw has_prefix_kind in Hp; [done..|].
    congruence.
  - intros [-> ->]. apply has_prefix_app.
Qed.

(** * The hash chain *)

(** What the chain binds of an entry. *)
Definition bound_content (e : LogEntry.t) : option (Z * bytes) :=
  cmd ← LogEntry.Command e; Some (CommandRequest.FuncId cmd, CommandRequest.Arg cmd).

Definition well_ranged (l : list LogEntry.t) : Prop :=
  ∀ n e, l !! n = Some e →
    LogEntry.Index e = Z.of_nat n + 1 ∧ is_u64 (LogEntry.Index e) ∧
    ∀ cmd, LogEntry.Command e = Some cmd → is_u64 (CommandRequest.FuncId cmd).

(** Two different texts, hashed for the entries [e1] and [e2] of the same index,
    with one hash. *)
Definition hash_collision (p1 p2 : bytes) (e1 e2 : LogEntry.t) : Prop :=
  ∃ cmd1 cmd2, LogEntry.Command e1 = Some cmd1 ∧ LogEntry.Command e2 = Some cmd2 ∧
    let x1 := log_preimage p1 (LogEntry.Index e1) (CommandRequest.FuncId cmd1) (CommandRequest.Arg cmd1) in
    let x2 := log_preimage p2 (LogEntry.Index e2) (CommandRequest.FuncId cmd2) (CommandRequest.Arg cmd2) in
    x1 ≠ x2 ∧ SHA1Hash x1 = SHA1Hash x2.

Lemma length_tip g l : chained g l → length (tip g l) = 20%nat.
Proof.
  destruct l as [|e l _] using rev_ind; intros Hl; [apply length_SHA1Hash|].
  apply chained_snoc in Hl as [_ (cmd & _ & Hh)]. unfold tip. rw last_snoc Hh.
  apply length_SHA1Hash.
Qed.

Lemma well_ranged_snoc l e :
  well_ranged (l ++ [e]) →
  well_ranged l ∧ LogEntry.Index e = Z.of_nat (length l) + 1 ∧ is_u64 (LogEntry.Index e) ∧
  ∀ cmd, LogEntry.Command e = Some cmd → is_u64 (CommandRequest.FuncId cmd).
Proof.
  intros Hw. split; [|apply Hw; by rw lookup_app_r // Nat.sub_diag].
  intros n e' Hn. apply Hw. by apply lookup_app_l_Some.
Qed.

(** C29. Tamper evidence: two logs of a group with the same number of entries and
    the same last hash carry the same functions and arguments in the same order,
    unless two of their entries exhibit a SHA-1 collision. *)
Theorem tip_determines_log g l1 l2 :
  chained g l1 → chained g l2 → well_ranged l1 → well_ranged l2 →
  length l1 = length l2 → tip g l1 = tip g l2 →
  bound_content <$> l1 = bound_content <$> l2 ∨
  ∃ n e1 e2, l1 !! n = Some e1 ∧ l2 !! n = Some e2 ∧
    hash_collision (tip g (take n l1)) (tip g (take n l2)) e1 e2.
Proof.
  revert l2. induction l1 as [|e1 l1 IH] using rev_ind; intros l2 Hc1 Hc2 Hw1 Hw2 Hlen Htip.
  { by destruct l2; [left|]. }
  destruct l2 as [|e2 l2 _] using rev_ind.
  { rw length_app in Hlen. simpl in Hlen. lia. }
  rw !length_app in Hlen. simpl in Hlen. assert (length l1 = length l2) as Hl by lia.
  apply chained_snoc in Hc1 as [Hc1 (cmd1 & Hcmd1 & Hh1)].
  apply chained_snoc in Hc2 as [Hc2 (cmd2 & Hcmd2 & Hh2)].
  apply well_ranged_snoc in Hw1 as (Hw1 & Hi1 & Hu1 & Hf1).
  apply well_ranged_snoc in Hw2 as (Hw2 & Hi2 & Hu2 & Hf2).
  assert (LogEntry.Hash e1 = LogEntry.Hash e2) as Hhash.
  { unfold tip in Htip. by rw !last_snoc in Htip. }
  rw Hh1 Hh2 in Hhash. unfold LogHash in Hhash.
  destruct (decide (log_preimage (tip g l1) (LogEntry.Index e1) (CommandRequest.FuncId cmd1)
      (CommandRequest.Arg cmd1) =
    log_preimage (tip g l2) (LogEntry.Index e2) (CommandRequest.FuncId cmd2)
      (CommandRequest.Arg cmd2))) as [Heq|Hne].
  - apply log_preimage_inj in Heq as (Ht & _ & Hf & Ha); [|by rw !length_tip|auto..].
    destruct (IH l2 Hc1 Hc2 Hw1 Hw2 Hl Ht) as [Hrest|(n & x1 & x2 & Hx1 & Hx2 & Hcol)].
    + left. assert (bound_content e1 = bound_content e2) as He
        by (unfold bound_content; rw Hcmd1 Hcmd2; simpl; congruence).
      rw !fmap_app Hrest. cbn [fmap list_fmap]. by rw He.
    + right. pose proof (lookup_lt_Some _ _ _ Hx1) as Hn. exists n, x1, x2.
      split; [by apply lookup_app_l_Some|]. split; [by apply lookup_app_l_Some|].
      rw !take_app_le; [lia|lia|done].
  - right. exists (length l1), e1, e2.
    split; [by rw lookup_app_r // Nat.sub_diag|]. split; [by rw Hl lookup_app_r // Nat.sub_diag|].
    rw {2}Hl !take_app_length. exists cmd1, cmd2. done.
Qed.

(** * Appending *)

(** C15. What [AppendEntryToLocal] does with an entry of any index, on a store
    that takes writes: it panics without a command or on another group's, refuses
    an index that is taken and a hash that does not follow the last entry's, and
    otherwise stores the entry, which extends log and chain when its index is the
    next. *)
Theorem AppendEntryToLocal_behaviour txn g l e :
  reliable W → log_at txn g l → chained g l → is_u64 (LogEntry.Index e) →
  match LogEntry.Command e with
  | None => AppendEntryToLocal txn g e = Panic nil_deref
  | Some cmd =>
    if decide (CommandRequest.Group cmd = g) then
      if decide (1 ≤ LogEntry.Index e ≤ Z.of_nat (length l)) then
        AppendEntryToLocal txn g e = Err "log existed"
      else if decide (LogEntry.Hash e = LogHash (tip g l) (LogEntry.Index e)
                        (CommandRequest.FuncId cmd) (CommandRequest.Arg cmd)) then
        ∃ txn', AppendEntryToLocal txn g e = Ok txn' ∧
          (LogEntry.Index e = Z.of_nat (length l) + 1 →
           log_at txn' g (l ++ [e]) ∧ chained g (l ++ [e]))
      else AppendEntryToLocal txn g e = Err "Log entry hash mismatch"
    else ∃ w, AppendEntryToLocal txn g e = Panic w
  end.
Proof.
  intros Hrel Hl Hch Hu. rw (AppendEntryToLocal_cases _ _ _ Hl).
  destruct (LogEntry.Command e) as [cmd|] eqn:Hc; [|done].
  destruct (decide (CommandRequest.Group cmd = g)) as [Hg|Hg]; [|by eexists].
  destruct (decide (1 ≤ LogEntry.Index e ≤ _)) as [Hi|Hi].
  - by destruct (LogEntryKey_existing _ _ _ Hl _ Hi) as [v ->].
  - rw (LogEntryKey_absent _ _ _ Hl _ Hu Hi). destruct (decide (LogEntry.Hash e = _)) as [Hh|]; [|done].
    destruct (rel_entry _ Hrel e) as [b Hb].
    destruct (rel_set _ Hrel txn (LogEntryKey g (LogEntry.Index e)) b) as [d Hd]; [done|].
    rw Hb Hd. exists d. split; [done|]. intros Hnext.
    split; [exact (log_at_snoc _ _ _ Hl _ _ _ Hnext Hu Hb Hd)|].
    apply chained_snoc. split; [done|]. by exists cmd.
Qed.

(** * Reading the log *)

Lemma drop_as_filter l k :
  (∀ n e, l !! n = Some e → LogEntry.Index e = Z.of_nat n + 1) →
  drop (Z.to_nat k) l = filter (λ e, k < LogEntry.Index e) l.
Proof.
  intros Hi. induction l as [|e l IH] using rev_ind; [by rw drop_nil|].
  assert (LogEntry.Index e = Z.of_nat (length l) + 1) as He
    by (apply Hi; by rw lookup_app_r // Nat.sub_diag).
  rw filter_app -IH; [intros n x Hn; apply Hi; by apply lookup_app_l_Some|].
  rw filter_cons filter_nil. case_decide as Hk.
  - rw drop_app_le; [lia|done].
  - rw !drop_ge ?length_app; simpl; [lia|lia|done].
Qed.

(** The batch for a follower is, oldest first, the entries whose index it
    has not got. *)
Theorem PeerUncommittedLogEntries_filter txn g l peer :
  log_at txn g l →
  (PeerUncommittedLogEntries txn g peer).1 =
    filter (λ e, Peer.NextIndex peer ≤ LogEntry.Index e) l.
Proof.
  intros Hl. rw (PeerUncommittedLogEntries_at _ _ _ _ Hl). cbn [fst]. unfold batch_start.
  rw drop_as_filter; [apply (log_index _ _ _ Hl)|].
  apply list_filter_iff. intros e. lia.
Qed.

(** [PullGroupLogs] answers with the entries after the one asked for: that
    entry itself is not among them. *)
Theorem PullGroupLogs_filter txn g l index :
  log_at txn g l → is_u64 index → 1 ≤ index →
  PullGroupLogs txn g index = Ok (Some <$> filter (λ e, index < LogEntry.Index e) l).
Proof.
  intros Hl Hu H1. rw (PullGroupLogs_at _ _ _ _ Hl Hu H1).
  by rw drop_as_filter; [apply (log_index _ _ _ Hl)|].
Qed.

(** The entry after the next one of a log is refused by who has the entries before both,
    unless two hashes in a row are equal or SHA-1 collides. *)
Lemma skipped_entry_refused lo g l n e :
  chained g l → Z.of_nat (length l) < 2 ^ 64 - 1 → log_at lo g (take n l) →
  (∀ i e, l !! i = Some e → LogEntry.Index e = Z.of_nat i + 1) →
  l !! S n = Some e → command_group e = Some g →
  AppendEntryToLocal lo g e = Err "Log entry hash mismatch" ∨
  tip g (take n l) = tip g (take (S n) l) ∨
  hash_collision (tip g (take n l)) (tip g (take (S n) l)) e e.
Proof.
  intros Hch Hlen Hlo Hindex He Hgrp. pose proof (Hindex _ _ He) as Hidx.
  pose proof (lookup_lt_Some _ _ _ He) as Hlt.
  assert (entry_linked (tip g (take (S n) l)) e) as (cmd & Hc & Hh).
  { rw -(take_drop_middle _ _ _ He) in Hch. rw (cons_middle e) app_assoc in Hch.
    by apply chained_prefix, chained_snoc in Hch as [_ ?]. }
  unfold command_group in Hgrp. rw Hc in Hgrp. injection Hgrp as Hgrp.
  rw (AppendEntryToLocal_cases _ _ _ Hlo) Hc decide_True // (LogEntryKey_absent _ _ _ Hlo);
    [unfold is_u64; lia|rw length_take; lia|].
  case_decide as Hhash; [|by left]. right. rw Hh in Hhash.
  destruct (decide (tip g (take n l) = tip g (take (S n) l))) as [|Hne]; [by left|right].
  exists cmd, cmd. split; [done|]. split; [done|]. split; [|done].
  intros Heq. destruct Hne. unfold log_preimage in Heq. by repeat apply app_inv_tail in Heq.
Qed.
End facts.

(** * Witnesses *)

Lemma U64Bytes_roundtrip_witness :
  BytesU64 ([7] ++ U64Bytes 258 ++ [9]) 1 = Ok 258 ∧ (blt (U64Bytes 258) (U64Bytes 259) ↔ 258 < 259).
Proof.
  exact (U64Bytes_roundtrip 258 259 [7] [9] (conj (Z.lt_le_incl 0 258 eq_refl) eq_refl)
    (conj (Z.lt_le_incl 0 259 eq_refl) eq_refl)).
Defined.

Lemma demo_u64 : is_u64 1 ∧ is_u64 2 ∧ is_u64 demo_group_id.
Proof. unfold is_u64, demo_group_id. lia. Qed.

Lemma LogEntryKey_separate_witness :
  (has_prefix (ComposeKeyPrefix 1 LOG_ENTRIES) (LogEntryKey demo_group_id 1) = true ↔
     1 = demo_group_id ∧ LOG_ENTRIES = LOG_ENTRIES) ∧
  (blt (LogEntryKey demo_group_id 1) (LogEntryKey demo_group_id 2) ↔ 1 < 2).
Proof.
  destruct demo_u64 as (H1 & H2 & H7).
  exact (LogEntryKey_separate demo_group_id 1 1 2 LOG_ENTRIES H7 H1 H1 H2
    (conj (Z.le_refl 0) eq_refl)).
Defined.

Lemma demo_chain term i prev n : chained_from prev (demo_entries term i prev n).
Proof.
  revert i prev. induction n as [|n IH]; intros i prev; [done|].
  cbn [demo_entries chained_from]. split; [by exists (demo_cmd i)|apply IH].
Qed.

Lemma demo_entries_function term i prev n k e cmd :
  demo_entries term i prev n !! k = Some e → LogEntry.Command e = Some cmd →
  CommandRequest.FuncId cmd = 10.
Proof.
  revert i prev k. induction n as [|n IH]; intros i prev k; [done|].
  destruct k as [|k]; [intros [= <-] [= <-]; done|]. apply IH.
Qed.

Lemma demo_log_ranged n : Z.of_nat n < 2 ^ 64 - 1 → well_ranged (demo_log n).
Proof.
  intros Hn k e He. pose proof (demo_entries_index _ _ _ _ _ _ He) as Hi.
  pose proof (lookup_lt_Some _ _ _ He) as Hk. unfold demo_log in Hk. rw length_demo_entries in Hk.
  split; [lia|]. split; [unfold is_u64; lia|]. intros cmd Hc.
  rw (demo_entries_function _ _ _ _ _ _ _ He Hc). by unfold is_u64.
Qed.

Lemma tip_determines_log_witness :
  bound_content <$> demo_log 2 = bound_content <$> demo_log 2 ∨
  ∃ n e1 e2, demo_log 2 !! n = Some e1 ∧ demo_log 2 !! n = Some e2 ∧
    hash_collision (tip demo_group_id (take n (demo_log 2)))
      (tip demo_group_id (take n (demo_log 2))) e1 e2.
Proof.
  exact (tip_determines_log demo_group_id (demo_log 2) (demo_log 2) (demo_chain _ _ _ _)
    (demo_chain _ _ _ _) (demo_log_ranged 2 eq_refl) (demo_log_ranged 2 eq_refl) eq_refl eq_refl).
Defined.

Lemma AppendEntryToLocal_behaviour_witness :
  AppendEntryToLocal (demo_db 1 (demo_log 1)) demo_group_id
    (demo_entry 1 1 (genesis_hash demo_group_id)) = Err "log existed".
Proof.
  exact (AppendEntryToLocal_behaviour (demo_db 1 (demo_log 1)) demo_group_id (demo_log 1)
    (demo_entry 1 1 (genesis_hash demo_group_id)) mem_reliable (demo_db_log 1 1 eq_refl)
    (demo_chain _ _ _ _) (proj1 demo_u64)).
Defined.

Lemma PeerUncommittedLogEntries_filter_witness :
  (PeerUncommittedLogEntries (demo_db 1 (demo_log 3)) demo_group_id (Peer.mk 2 demo_group_id 2 1)).1
  = filter (λ e, 2 ≤ LogEntry.Index e) (demo_log 3).
Proof. exact (PeerUncommittedLogEntries_filter _ _ _ _ (demo_db_log 1 3 eq_refl)). Defined.

Lemma PullGroupLogs_filter_witness :
  PullGroupLogs (demo_db 1 (demo_log 3)) demo_group_id 1 =
    Ok (Some <$> filter (λ e, 1 < LogEntry.Index e) (demo_log 3)).
Proof.
  exact (PullGroupLogs_filter _ _ _ 1 (demo_db_log 1 3 eq_refl) (proj1 demo_u64) (Z.le_refl 1)).
Defined.
