(* ===== verification/ConnsFacts.v ===== *)
(** Connections: the tables of a process never lose or change an entry, so that an
    address has one connection and one server, and no server has two addresses; a
    server process sees them through whether dialling succeeds, and an address is dialled
    until a connection is made, and never again. A client's
    connection is kept until its table drops it, and closed then. *)
From S2P Require Export Scenario Conns.

(** * The tables *)

Section tables.
Context {T : Transport}.

(** What is in the tables stays there. *)
Record keeps (n n' : Net.t) : Prop := {
  keeps_conn addr c : Net.ClientConn n !! addr = Some c → Net.ClientConn n' !! addr = Some c;
  keeps_server addr srv :
    Net.RPCServers n !! addr = Some srv → Net.RPCServers n' !! addr = Some srv;
  keeps_registered x : x ∈ Net.registered n → x ∈ Net.registered n'
}.

#[global] Instance keeps_preorder : PreOrder keeps.
Proof.
  split; [by split|]. intros n1 n2 n3 [C1 S1 R1] [C2 S2 R2]. split; auto.
Qed.

(** A table that gets an entry it did not have. *)
Lemma lookup_insert_absent {A} (m : gmap string A) k (a : A) k' b :
  m !! k = None → m !! k' = Some b → <[k := a]> m !! k' = Some b.
Proof. intros Hn Hb. rw lookup_insert_ne; [congruence|done]. Qed.

Lemma keeps_GetClientConn addr : preserves keeps (GetClientConn addr).
Proof.
  intros n. unfold GetClientConn. 
  rw (bind_Ok _ _ _ _ _ (eq_refl : gets (λ n, Net.ClientConn n !! addr) n = _)).
  destruct (Net.ClientConn n !! addr) as [c|] eqn:Hc; [reflexivity|].
  rw (bind_Ok _ _ _ _ _ (eq_refl : gets Net.dials n = _))
    (bind_Ok _ _ _ _ _ (eq_refl : modify (Net.upd_dials S) n = _)).
  destruct (grpc_Dial _ _); split; simpl; auto using lookup_insert_absent.
Qed.

Lemma keeps_GetClusterRPC addr : preserves keeps (GetClusterRPC addr).
Proof. unfold GetClusterRPC. solve_preserves. apply keeps_GetClientConn. Qed.

Lemma keeps_GetGRPCServer addr : preserves keeps (GetGRPCServer addr).
Proof.
  intros n. unfold GetGRPCServer.
  rw (bind_Ok _ _ _ _ _ (eq_refl : gets (λ n, Net.RPCServers n !! addr) n = _)).
  destruct (Net.RPCServers n !! addr) as [c|] eqn:Hc; [reflexivity|].
  split; simpl; auto using lookup_insert_absent.
Qed.

Lemma keeps_RegisterService srv svc : preserves keeps (RegisterService srv svc).
Proof. intros n. split; simpl; auto. intros x Hx. by right. Qed.

Lemma keeps_GRPCServerListen addr : preserves keeps (GRPCServerListen addr).
Proof.
  unfold GRPCServerListen. solve_preserves; try (split; simpl; by auto).
  apply keeps_GetGRPCServer.
Qed.

(** The calls of a process. *)
Inductive net_call : Type :=
| Call_conn (addr : string)
| Call_rpc (addr : string)
| Call_server (addr : string)
| Call_register (srv : GRPCServer) (svc : service)
| Call_listen (addr : string).

Definition run_call (c : net_call) : M Net.t unit :=
  match c with
  | Call_conn addr => ignore (GetClientConn addr)
  | Call_rpc addr => ignore (GetClusterRPC addr)
  | Call_server addr => ignore (GetGRPCServer addr)
  | Call_register srv svc => RegisterService srv svc
  | Call_listen addr => ignore (GRPCServerListen addr)
  end.

Definition run_calls (cs : list net_call) : M Net.t unit := for_each run_call cs.

Lemma keeps_run_calls cs : preserves keeps (run_calls cs).
Proof.
  apply preserves_for_each; [apply _|]. intros []; cbn [run_call]; try apply preserves_ignore; try apply _;
    auto using keeps_GetClientConn, keeps_GetClusterRPC, keeps_GetGRPCServer,
      keeps_RegisterService, keeps_GRPCServerListen.
Qed.

Lemma GetClientConn_known addr c n :
  Net.ClientConn n !! addr = Some c → GetClientConn addr n = (Ok c, n).
Proof.
  intros Hc. unfold GetClientConn.
  rw (bind_Ok _ _ _ _ _ (eq_refl : gets (λ n, Net.ClientConn n !! addr) n = _)). by rw Hc.
Qed.

Lemma GetGRPCServer_known addr srv n :
  Net.RPCServers n !! addr = Some srv → GetGRPCServer addr n = (Ok srv, n).
Proof.
  intros Hc. unfold GetGRPCServer.
  rw (bind_Ok _ _ _ _ _ (eq_refl : gets (λ n, Net.RPCServers n !! addr) n = _)). by rw Hc.
Qed.

(** What a call that succeeds returns is in the table. *)
Lemma GetClientConn_stores addr c n n' :
  GetClientConn addr n = (Ok c, n') → Net.ClientConn n' !! addr = Some c.
Proof.
  unfold GetClientConn.
  rw (bind_Ok _ _ _ _ _ (eq_refl : gets (λ n, Net.ClientConn n !! addr) n = _)).
  destruct (Net.ClientConn n !! addr) as [c'|] eqn:Hc; [by intros [= -> ->]|].
  rw (bind_Ok _ _ _ _ _ (eq_refl : gets Net.dials n = _))
    (bind_Ok _ _ _ _ _ (eq_refl : modify (Net.upd_dials S) n = _)).
  destruct (grpc_Dial _ _); [done|]. intros [= <- <-]. apply lookup_insert_eq.
Qed.

Lemma GetGRPCServer_stores addr srv n n' :
  GetGRPCServer addr n = (Ok srv, n') → Net.RPCServers n' !! addr = Some srv.
Proof.
  unfold GetGRPCServer.
  rw (bind_Ok _ _ _ _ _ (eq_refl : gets (λ n, Net.RPCServers n !! addr) n = _)).
  destruct (Net.RPCServers n !! addr) as [c'|] eqn:Hc; [by intros [= -> ->]|].
  intros [= <- <-]. apply lookup_insert_eq.
Qed.

(** A connection once made is the one every later call gets, whatever the
    process does in between, and no later call dials the address again. *)
Theorem GetClientConn_stable addr n c n1 cs :
  GetClientConn addr n = (Ok c, n1) →
  let n2 := (run_calls cs n1).2 in
  GetClientConn addr n2 = (Ok c, n2) ∧ GetClusterRPC addr n2 = (Ok (NewBFTRaftClient c), n2).
Proof.
  intros Hc n2. apply GetClientConn_stores in Hc.
  assert (GetClientConn addr n2 = (Ok c, n2)) as Hn2.
  { apply GetClientConn_known. by apply (keeps_run_calls cs n1). }
  split; [done|]. unfold GetClusterRPC, try_. rw /mbind /M_bind. by rw Hn2.
Qed.

(** C27. An address has one connection: [GetClusterRPC] returns the connection of the
    table when it has one, and changes nothing; otherwise it dials, once. When dialling
    fails it returns the error and the table stays as it was; when it succeeds the new
    connection is the one that this and every later call returns, whatever connections,
    servers and services the process asks for in between, and none of the later calls
    dials. *)
Theorem GetClusterRPC_one_connection addr n :
  match Net.ClientConn n !! addr, grpc_Dial (Net.dials n) addr with
  | None, inl err =>
    ∃ n1, GetClusterRPC addr n = (Err err, n1) ∧ Net.dials n1 = S (Net.dials n) ∧
      Net.ClientConn n1 = Net.ClientConn n
  | None, inr c =>
    ∃ n1, GetClusterRPC addr n = (Ok (NewBFTRaftClient c), n1) ∧ Net.dials n1 = S (Net.dials n) ∧
      ∀ cs, let n2 := (run_calls cs n1).2 in GetClusterRPC addr n2 = (Ok (NewBFTRaftClient c), n2)
  | Some c, _ =>
    ∀ cs, let n2 := (run_calls cs n).2 in GetClusterRPC addr n2 = (Ok (NewBFTRaftClient c), n2)
  end ∧
  ∀ c, Net.ClientConn n !! addr = Some c → GetClusterRPC addr n = (Ok (NewBFTRaftClient c), n).
Proof.
  assert (∀ c n, Net.ClientConn n !! addr = Some c →
    GetClusterRPC addr n = (Ok (NewBFTRaftClient c), n)) as Hknown.
  { intros c n' Hc. unfold GetClusterRPC, try_. rw /mbind /M_bind. by rw (GetClientConn_known _ _ _ Hc). }
  assert (∀ c n, Net.ClientConn n !! addr = Some c → ∀ cs, let n2 := (run_calls cs n).2 in
    GetClusterRPC addr n2 = (Ok (NewBFTRaftClient c), n2)) as Hlater.
  { intros c n' Hc cs. apply Hknown. by apply (keeps_run_calls cs n'). }
  split; [|intros c; apply Hknown].
  destruct (Net.ClientConn n !! addr) as [c|] eqn:Hc; [exact (Hlater c n Hc)|].
  destruct (grpc_Dial (Net.dials n) addr) as [err|c] eqn:Hd; unfold GetClusterRPC at 1, GetClientConn, try_;
    rw /mbind /M_bind /gets /modify /mret /M_ret; rw Hc Hd; cbn -[run_calls].
  - eexists. split; [reflexivity|done].
  - eexists. split; [reflexivity|]. split; [done|]. apply Hlater. apply lookup_insert_eq.
Qed.

(** Servers are made one after the other, each for one address. *)
Record one_each (n : Net.t) : Prop := {
  one_made addr srv : Net.RPCServers n !! addr = Some srv →
    ∃ k, (k < Net.made n)%nat ∧ srv = grpc_NewServer k;
  one_addr a b srv : Net.RPCServers n !! a = Some srv → Net.RPCServers n !! b = Some srv → a = b
}.

Lemma one_each_GetGRPCServer addr n : one_each n → one_each (GetGRPCServer addr n).2.
Proof.
  intros [Hm Ha]. unfold GetGRPCServer.
  rw (bind_Ok _ _ _ _ _ (eq_refl : gets (λ n, Net.RPCServers n !! addr) n = _)).
  destruct (Net.RPCServers n !! addr) as [c|] eqn:Hc; [by split|]. simpl.
  assert (∀ a, Net.RPCServers n !! a ≠ Some (grpc_NewServer (Net.made n))) as Hnew.
  { intros a (k & Hk & Heq)%Hm. apply grpc_NewServer_inj in Heq. lia. }
  split; cbn [Net.RPCServers Net.made Net.upd_RPCServers Net.upd_made].
  - intros a srv [[<- <-]|[_ (k & ? & ?)%Hm]]%lookup_insert_Some; [by exists (Net.made n); split; [lia|]|].
    exists k. split; [lia|done].
  - intros a b srv [[<- <-]|[? Hx]]%lookup_insert_Some [[? Hs]|[? Hy]]%lookup_insert_Some;
      [done|by apply Hnew in Hy|by subst; apply Hnew in Hx|by apply (Ha a b srv)].
Qed.

(** The calls that make no server. *)
Definition same_servers (n n' : Net.t) : Prop :=
  Net.RPCServers n' = Net.RPCServers n ∧ Net.made n' = Net.made n.

#[global] Instance same_servers_preorder : PreOrder same_servers.
Proof. split; [by split|]. intros n1 n2 n3 [? ?] [? ?]. split; congruence. Qed.

Lemma same_GetClientConn addr : preserves same_servers (GetClientConn addr).
Proof. unfold GetClientConn. solve_preserves; by split. Qed.

Lemma one_each_same n n' : same_servers n n' → one_each n → one_each n'.
Proof. intros [Hs Hm] [H1 H2]. split; rw Hs ?Hm; done. Qed.

Lemma one_each_listen addr n : one_each n → one_each (GRPCServerListen addr n).2.
Proof.
  intros Hn. unfold GRPCServerListen.
  rw (bind_Ok _ _ _ _ _ (eq_refl : gets Net.listens n = _))
    (bind_Ok _ _ _ _ _ (eq_refl : modify (Net.upd_listens S) n = _)).
  destruct (net_Listen _ _); [by apply (one_each_same n)|].
  pose proof (one_each_GetGRPCServer addr (Net.upd_listens S n)
    (one_each_same n (Net.upd_listens S n) (conj eq_refl eq_refl) Hn)) as H.
  rw /mbind /M_bind. destruct (GetGRPCServer _ _) as [[srv|e|w] n']; [|done..].
  exact (one_each_same n' (Net.upd_serving _ n') (conj eq_refl eq_refl) H).
Qed.

Lemma one_each_call c n : one_each n → one_each (run_call c n).2.
Proof.
  intros Hn. assert (∀ {A} (p : M Net.t A), (ignore p n).2 = (p n).2) as Hi.
  { intros A p. unfold ignore, try_. rw /mbind /M_bind. by destruct (p n) as [[]?]. }
  destruct c as [addr|addr|addr|srv svc|addr]; cbn [run_call]; rw ?Hi.
  - exact (one_each_same _ _ (same_GetClientConn addr n) Hn).
  - apply (one_each_same n); [|done]. unfold GetClusterRPC.
    assert (preserves same_servers (r ← try_ (GetClientConn addr);
      match r with inr cc => mret (NewBFTRaftClient cc) | inl err => throw err end)) as Hp.
    { solve_preserves. apply same_GetClientConn. }
    apply Hp.
  - by apply one_each_GetGRPCServer.
  - exact (one_each_same n (Net.upd_registered _ n) (conj eq_refl eq_refl) Hn).
  - by apply one_each_listen.
Qed.

Lemma one_each_init : one_each Net.init.
Proof. split; [intros addr srv|intros a b srv]; cbn; by rw lookup_empty. Qed.

(** From its start a process has one server per address and one address per
    server, whatever connections and servers it asks for, and in any order. *)
Theorem servers_one_each cs : one_each (run_calls cs Net.init).2.
Proof.
  generalize Net.init one_each_init. induction cs as [|c cs IH]; intros n Hn; [done|].
  pose proof (one_each_call c n Hn) as H. unfold run_calls. cbn [for_each].
  rw /mbind /M_bind. destruct (run_call c n) as [[[]|e|w] n1]; [by apply IH|done..].
Qed.

(** What a server process sees of its connections: whether the address can be
    dialled. *)
Definition dials_as (W : World) : Prop :=
  ∀ k addr, (∃ c, grpc_Dial k addr = inr c) ↔ W_dial addr = true.

Definition dialled (W : World) (n : Net.t) : Prop :=
  ∀ addr c, Net.ClientConn n !! addr = Some c → W_dial addr = true.

(** [GetClusterRPC] with its table does what the server's model takes it to do:
    it gives a client exactly when the address can be dialled, whatever the table
    holds, and keeps the table right. *)
Theorem GetClusterRPC_refines {W : World} addr n (s : Server.t) :
  dials_as W → dialled W n →
  ((∃ c, (GetClusterRPC addr n).1 = Ok c) ↔ Server.GetClusterRPC addr s = (Ok true, s)) ∧
  dialled W (GetClusterRPC addr n).2.
Proof.
  intros Hd Hn. unfold GetClusterRPC, Server.GetClusterRPC, mret, M_ret.
  assert ((Ok (W_dial addr), s) = (Ok true, s) ↔ W_dial addr = true) as Hw
    by (split; [by intros [= ->]|by intros ->]).
  rw Hw. clear Hw. unfold GetClientConn, try_. rw /mbind /M_bind /gets /modify /mret /M_ret.
  destruct (Net.ClientConn n !! addr) as [c|] eqn:Hc; simpl.
  { split; [|done]. split; [intros _; exact (Hn addr c Hc)|]. intros _. by eexists. }
  destruct (grpc_Dial (Net.dials n) addr) as [e|c] eqn:Hdial; simpl.
  - split; [|done]. split; [by intros [??]|]. intros [c Hk]%(Hd (Net.dials n)). congruence.
  - assert (W_dial addr = true) as Hok by (apply (Hd (Net.dials n)); by exists c).
    split; [by split; [|by eexists]|].
    intros a c'. cbn. intros [[<- _]|[_ Ha]]%lookup_insert_Some; [done|exact (Hn a c' Ha)].
Qed.
End tables.

(** * The clients of a server *)

Section clients.
Context {W : World} {T : Transport}.

(** A client that was handed out is what the table gives for its address until
    it drops the entry, without dialling again, also to a caller that was waiting
    for the lock; when the entry is dropped its connection is closed, and the next
    call dials. *)
Theorem ClientStore_lifecycle addr st conn st' waiting :
  ClientStore.Get waiting addr st = (Ok conn, st') →
  (∀ waiting', ClientStore.Get waiting' addr st' = (Ok conn, st')) ∧
  (∀ st0, sm_get (ClientStore.clients st0) addr = None →
     ClientStore.Get (λ _, st') addr st0 = (Ok conn, st')) ∧
  let st'' := (ClientStore.OnEvicted addr st').2 in
  conn ∈ ClientStore.closed st'' ∧ sm_get (ClientStore.clients st'') addr = None ∧
  ClientStore.dials (ClientStore.Get id addr st'').2 = S (ClientStore.dials st'').
Proof.
  intros Hget.
  assert (sm_get (ClientStore.clients st') addr = Some conn) as Hst'.
  { revert Hget. unfold ClientStore.Get. rw /mbind /M_bind /gets /modify /mret /M_ret.
    destruct (sm_get (ClientStore.clients st) addr) as [c|] eqn:Hc; [by intros [= <- <-]|].
    destruct (sm_get (ClientStore.clients (waiting st)) addr) as [c|] eqn:Hc'; [by intros [= <- <-]|].
    destruct (grpc_Dial _ _); [done|]. intros [= <- <-]. apply sm_get_set. }
  split; [|split].
  - intros waiting'. unfold ClientStore.Get. rw /mbind /M_bind /gets. by rw Hst'.
  - intros st0 H0. unfold ClientStore.Get. rw /mbind /M_bind /gets /modify. by rw H0 Hst'.
  - unfold ClientStore.OnEvicted. rw /mbind /M_bind /gets /modify. rw Hst'. simpl.
    split; [by left|]. split; [apply sm_get_delete|].
    unfold ClientStore.Get. rw /mbind /M_bind /gets /modify /mret /M_ret. simpl.
    rw sm_get_delete. simpl. rw sm_get_delete. by destruct (grpc_Dial _ _).
Qed.

(** And a client is handed out exactly when the address can be dialled, as the server's
    model has it, whatever the store holds and others do to it. *)
Definition dialled_store (st : ClientStore.t) : Prop :=
  ∀ addr c, sm_get (ClientStore.clients st) addr = Some c → W_dial addr = true.

Theorem ClientStore_Get_refines waiting addr st (s : Server.t) :
  dials_as W → dialled_store st → (∀ st', dialled_store st' → dialled_store (waiting st')) →
  ((∃ c, (ClientStore.Get waiting addr st).1 = Ok c) ↔ GetClientRPC addr s = (Ok true, s)) ∧
  dialled_store (ClientStore.Get waiting addr st).2.
Proof.
  intros Hd Hst Hw. unfold GetClientRPC, mret, M_ret.
  assert ((Ok (W_dial addr), s) = (Ok true, s) ↔ W_dial addr = true) as ->
    by (split; [by intros [= ->]|by intros ->]).
  unfold ClientStore.Get. rw /mbind /M_bind /gets /modify /mret /M_ret.
  destruct (sm_get (ClientStore.clients st) addr) as [c|] eqn:Hc.
  { split; [|done]. split; [intros _; exact (Hst addr c Hc)|by eexists]. }
  specialize (Hw st Hst).
  destruct (sm_get (ClientStore.clients (waiting st)) addr) as [c|] eqn:Hc'.
  { split; [|done]. split; [intros _; exact (Hw addr c Hc')|by eexists]. }
  cbn. destruct (grpc_Dial _ addr) as [e|c] eqn:Hdial; cbn.
  - split; [|done]. split; [by intros [??]|]. intros [c Hk]%(Hd (ClientStore.dials (waiting st))). congruence.
  - assert (W_dial addr = true) as Hok by (apply (Hd (ClientStore.dials (waiting st))); by exists c).
    split; [by split; [|by eexists]|]. intros a c'. cbn. destruct (decide (addr = a)) as [<-|Hne]; [done|].
    rw sm_get_set_ne //. apply Hw.
Qed.
End clients.

(** * Witnesses *)

(** A network where every address but the empty one can be dialled; connections and
    servers are numbered. *)
#[global] Instance demo_transport : Transport := {
  Conn := string * nat;
  GRPCServer := nat;
  grpc_Dial k addr := if bool_decide (addr ≠ "") then inr (addr, k) else inl "no address";
  grpc_NewServer k := k;
  net_Listen _ _ := None
}.
Definition demo_conn : Conn := ("a", 0%nat).

Lemma GetClientConn_stable_witness :
  let n2 := (run_calls [Call_rpc "b"; Call_conn "a"; Call_listen "a"]
    (GetClientConn "a" Net.init).2).2 in
  GetClientConn "a" n2 = (Ok demo_conn, n2) ∧
  GetClusterRPC "a" n2 = (Ok (NewBFTRaftClient demo_conn), n2).
Proof.
  exact (GetClientConn_stable "a" Net.init demo_conn (GetClientConn "a" Net.init).2
    [Call_rpc "b"; Call_conn "a"; Call_listen "a"] eq_refl).
Defined.

Lemma demo_dials_as : dials_as mem_world.
Proof.
  intros k addr. cbn. destruct (bool_decide_reflect (addr ≠ "")) as [H|H].
  - split; [done|]. intros _. by eexists.
  - split; [by intros [? ?]|done].
Qed.

Lemma demo_dialled : dialled mem_world Net.init.
Proof. intros addr c. cbn. by rw lookup_empty. Qed.

Lemma GetClusterRPC_refines_witness :
  dialled mem_world (GetClusterRPC "a" Net.init).2.
Proof.
  exact (proj2 (GetClusterRPC_refines "a" Net.init (node 1 1 LEADER 1 []) demo_dials_as
    demo_dialled)).
Defined.

Lemma ClientStore_lifecycle_witness :
  let st' := (ClientStore.Get id "a" (ClientStore.NewClientStore (W:=mem_world))).2 in
  ClientStore.Get id "a" st' = (Ok demo_conn, st') ∧
  demo_conn ∈ ClientStore.closed (ClientStore.OnEvicted "a" st').2.
Proof.
  destruct (ClientStore_lifecycle "a" ClientStore.NewClientStore demo_conn
    (ClientStore.Get id "a" (ClientStore.NewClientStore (W:=mem_world))).2 id eq_refl)
    as (H1 & _ & H2 & _).
  split; [exact (H1 id)|exact H2].
Defined.
