(* ===== verification/Voting.v ===== *)
(** Votes: [RequestVote] of [server/group.go], [ResetTerm] and [BecomeFollower]
    of [server/vote.go].

    A voter answers late: it waits, in rounds of half a second, until it stops
    being a follower. What the rest of the node does meanwhile is an argument,
    [env], one state transformer per round.

    The theorems: when a vote is granted and what it binds, that a node asked
    for non-decreasing terms votes once per term, when a leader is accepted, and
    that two accepted leaders share a voter. *)
From S2P Require Export Lookups.

Section voting.
Context {W : World}.

(** * [server/vote.go] *)

Definition ResetTerm (m : nat) (term : Z) : MS unit :=
  rt ← load_rt m;
  _ ← update_group (RTGroup.Group rt) (RaftGroup.set_Term term);
  _ ← update_rt m (RTGroup.upd_Votes (λ _, []));
  _ ← update_rt m (RTGroup.upd_LastVotedTerm (λ _, 0));
  _ ← update_rt m (RTGroup.upd_LastVotedTo (λ _, 0));
  _ ← for_each (λ '(peerId, _),
    update_rt m (RTGroup.upd_SendVotesForPeers <[peerId := true]>))
    (range_map (RTGroup.GroupPeers rt));
  group ← group_of m;
  ignore (SaveGroupNTXN group).

(** One vote of the request, counted for its voter or passed over. *)
Definition check_vote (m : nat) (appendEntryReq : AppendEntriesRequest.t)
    (votes : gmap Z bool) (vote : RequestVoteResponse.t) : MS (gmap Z bool) :=
  rt ← load_rt m;
  match RTGroup.GroupPeers rt !! RequestVoteResponse.Voter vote with
  | None => mret votes
  | Some votePeer =>
    let signData := RequestVoteResponseSignData vote in
    publicKey ← GetHostPublicKey (Peer.Id votePeer);
    valid ← lift (VerifySign publicKey (RequestVoteResponse.Signature vote) signData);
    if (valid : bool) then
      group ← group_of m;
      if (RequestVoteResponse.Group vote =? RaftGroup.Id group) &&
         (RequestVoteResponse.CandidateId vote =? AppendEntriesRequest.LeaderId appendEntryReq) &&
         RequestVoteResponse.Granted vote
      then mret (<[Peer.Id votePeer := true]> votes)
      else mret votes
    else mret votes
  end.

Definition BecomeFollower (m : nat) (appendEntryReq : AppendEntriesRequest.t) : MS bool :=
  expectedVotes ← ExpectedHonestPeers m;
  let receivedVotes :=
    Z.of_nat (length (AppendEntriesRequest.QuorumVotes appendEntryReq)) in
  if receivedVotes <? expectedVotes then mret false
  else
    let term := AppendEntriesRequest.Term appendEntryReq in
    votes ← fold_each (check_vote m appendEntryReq)
      (AppendEntriesRequest.QuorumVotes appendEntryReq) ∅;
    if expectedVotes <=? Z.of_nat (size votes) then
      _ ← update_rt m (RTGroup.upd_Role (λ _, FOLLOWER));
      _ ← ResetTerm m term;
      _ ← RefreshTimer m 10;
      _ ← update_rt m
        (RTGroup.upd_Leader (λ _, AppendEntriesRequest.LeaderId appendEntryReq));
      group ← group_of m;
      _ ← ignore (SaveGroupNTXN group);
      mret true
    else mret false.

(** * [RequestVote] *)

Definition interval : Z := 500.
Definition secsToWait : Z := 10.
Definition intervalCount : Z := secsToWait * 1000 / interval.

(** The polling loop; [waitedCounts] rounds are over. *)
Fixpoint lazy_vote (env : Z → Server.t → Server.t) (fuel : nat) (waitedCounts : Z)
    (m : nat) (req : RequestVoteRequest.t) (vote : RequestVoteResponse.t)
    : MS RequestVoteResponse.t :=
  match fuel with
  | O => mret vote
  | S fuel' =>
    _ ← modify (Server.upd_now (Z.add (interval * Millisecond)));
    _ ← modify (env waitedCounts);
    let waitedCounts := waitedCounts + 1 in
    rt ← load_rt m;
    if negb (RTGroup.Role rt =? FOLLOWER) then
      let vote := RequestVoteResponse.set_Granted true vote in
      signature ← server_sign (RequestVoteResponseSignData vote);
      let vote := RequestVoteResponse.set_Signature signature vote in
      _ ← update_rt m
        (RTGroup.upd_LastVotedTo (λ _, RequestVoteRequest.CandidateId req));
      _ ← update_rt m (RTGroup.upd_LastVotedTerm (λ _, RequestVoteRequest.Term req));
      mret vote
    else if intervalCount <=? waitedCounts then mret vote
    else lazy_vote env fuel' waitedCounts m req vote
  end.

(** Both early returns and the end of the loop return the vote as it is then. *)
Definition RequestVote (env : Z → Server.t → Server.t) (m : nat)
    (req : RequestVoteRequest.t) : MS RequestVoteResponse.t :=
  rt ← load_rt m;
  group ← load_group (RTGroup.Group rt);
  let groupId := RaftGroup.Id group in
  let groupTerm := RaftGroup.Term group in
  let reqTerm := RequestVoteRequest.Term req in
  lastLogEntry ← LastLogEntryNTXN m;
  lastLogEntry ← unwrap lastLogEntry;
  self ← gets Server.Id;
  let vote := RequestVoteResponse.mk groupId groupTerm (LogEntry.Index lastLogEntry)
                (RequestVoteRequest.CandidateId req) self false [] in
  signature ← server_sign (RequestVoteResponseSignData vote);
  let vote := RequestVoteResponse.set_Signature signature vote in
  if (reqTerm <=? groupTerm) || (RequestVoteRequest.LogIndex req <? LogEntry.Index lastLogEntry)
  then mret vote
  else if MAX_TERM_BUMP <? wrap64 (reqTerm - groupTerm) then mret vote
  else if (reqTerm =? RTGroup.LastVotedTerm rt) && negb (RTGroup.LastVotedTo rt =? 0) &&
          negb (RTGroup.LastVotedTo rt =? RequestVoteRequest.CandidateId req)
  then mret vote
  else lazy_vote env (Z.to_nat intervalCount) 0 m req vote.
(** * Accepting a leader *)

(** A vote of the request that counts, for the voter [v]. *)
Record valid_vote (s : Server.t) (rt : RTGroup.t) (groupId leader v : Z)
    (vote : RequestVoteResponse.t) : Prop := {
  vote_member : ∃ peer,
    RTGroup.GroupPeers rt !! RequestVoteResponse.Voter vote = Some peer ∧ Peer.Id peer = v;
  vote_signed : ∃ key, key_of s v = Ok (Some key) ∧
    VerifySign (Some key) (RequestVoteResponse.Signature vote)
      (RequestVoteResponseSignData vote) = Ok true;
  vote_group : RequestVoteResponse.Group vote = groupId;
  vote_candidate : RequestVoteResponse.CandidateId vote = leader;
  vote_granted : RequestVoteResponse.Granted vote = true
}.

(** Holds where [m] points to [rt] and its group to [g]. *)
Definition has_group (s : Server.t) (m : nat) (rt : RTGroup.t) (g : RaftGroup.t) : Prop :=
  Server.rtgroups s !! m = Some rt ∧ Server.raftgroups s !! RTGroup.Group rt = Some g.

Lemma has_group_quiet s s' m rt g : quiet s s' → has_group s m rt g → has_group s' m rt g.
Proof. by intros (h & k & ->). Qed.

Lemma run_load_rt s m rt : Server.rtgroups s !! m = Some rt → load_rt m s = (Ok rt, s).
Proof.
  intros Hm. unfold load_rt, get_state, unwrap, mbind, M_bind. by rw Hm.
Qed.

Lemma run_group_of s m rt g : has_group s m rt g → group_of m s = (Ok g, s).
Proof.
  intros [Hm Hg]. unfold group_of. rw (bind_Ok _ _ _ _ _ (run_load_rt _ _ _ Hm)).
  unfold load_group, get_state, unwrap, mbind, M_bind. by rw Hg.
Qed.

Section accept.
Variables (m : nat) (req : AppendEntriesRequest.t) (rt : RTGroup.t) (g : RaftGroup.t).
Let leader := AppendEntriesRequest.LeaderId req.
Let valid s v vote := valid_vote s rt (RaftGroup.Id g) leader v vote.

Lemma valid_vote_same s s' v vote : same_answers s s' → valid s v vote ↔ valid s' v vote.
Proof.
  intros [_ _ Hk]. subst valid. simpl. split; intros [A (key & B & C) ???]; split; try done; exists key;
    split; try done; congruence.
Qed.

Lemma check_vote_spec s s' votes votes' vote :
  has_group s m rt g →
  check_vote m req votes vote s = (Ok votes', s') →
  same_answers s s' ∧
  (∃ v, valid s v vote ∧ votes' = <[v := true]> votes ∨
        votes' = votes ∧ ∀ v', ¬ valid s v' vote).
Proof.
  intros Hg. unfold check_vote. rw (bind_Ok _ _ _ _ _ (run_load_rt _ _ _ (proj1 Hg))).
  destruct (RTGroup.GroupPeers rt !! _) as [peer|] eqn:Hp.
  2: { intros [= <- <-]. split; [reflexivity|]. exists 0. right. split; [done|].
       intros v' [(p & ? & _) _ _ _ _]. congruence. }
  intros (pk & s1 & Hpk & Hrest)%bind_Ok_inv.
  assert (same_answers s s1) as Hs1.
  { pose proof (same_answers_GetHostPublicKey (Peer.Id peer) s) as Hq. by rw Hpk in Hq. }
  assert (key_of s (Peer.Id peer) = Ok pk) as Hkey by (unfold key_of; by rw Hpk).
  apply bind_Ok_inv in Hrest as (ok & s2 & Hok & Hrest).
  unfold lift in Hok. injection Hok as Hok <-.
  assert (∀ v', valid s v' vote → v' = Peer.Id peer ∧ ok = true) as Hv.
  { intros v' [(p & Hp' & <-) (key & Hk & Hsig) _ _ _].
    assert (p = peer) as -> by congruence. split; [done|].
    rw Hkey in Hk. injection Hk as ->. congruence. }
  destruct ok; cycle 1.
  { injection Hrest as <- <-. split; [done|]. exists 0. right. split; [done|].
    by intros v' [_ ?]%Hv. }
  rw (bind_Ok _ _ _ _ _ (run_group_of _ _ _ _ (has_group_quiet _ _ _ _ _ (same_quiet _ _ Hs1) Hg)))
    in Hrest.
  destruct (_ && _) eqn:Hc in Hrest; injection Hrest as <- <-; (split; [done|]).
  - apply andb_true_iff in Hc as [[H1%Z.eqb_eq H2%Z.eqb_eq]%andb_true_iff H3].
    exists (Peer.Id peer). left. split; [|done]. split; [by exists peer| |done..].
    destruct pk as [key|]; [|done]. by exists key.
  - exists 0. right. split; [done|]. intros v' [_ _ H1 H2 H3].
    unfold leader in H2. rw H1 H2 H3 !Z.eqb_refl in Hc. done.
Qed.

Lemma check_votes_spec l s s' votes votes' :
  has_group s m rt g →
  fold_each (check_vote m req) l votes s = (Ok votes', s') →
  same_answers s s' ∧
  (∀ v, v ∈ dom votes' ↔ v ∈ dom votes ∨ ∃ vote, vote ∈ l ∧ valid s v vote) ∧
  (size votes' ≤ size votes + length l)%nat.
Proof.
  revert s votes. induction l as [|vote l IH]; intros s votes Hg; cbn [fold_each].
  { intros [= <- <-]. split; [reflexivity|]. split; [|lia].
    intros v. split; [by left|]. intros [?|(vote & H%not_elem_of_nil & _)]; done. }
  intros (votes1 & s1 & H1 & Hrest)%bind_Ok_inv.
  apply (check_vote_spec _ _ _ _ _ Hg) in H1 as [Hs1 (v1 & H1)].
  apply IH in Hrest as (Hs2 & Hdom & Hsize); [|exact (has_group_quiet _ _ _ _ _ (same_quiet _ _ Hs1) Hg)].
  split; [by transitivity s1|]. split.
  - intros v. rw Hdom. setoid_rewrite elem_of_cons.
    setoid_rewrite <- (valid_vote_same _ _ v _ Hs1).
    destruct H1 as [[Hv ->]|[-> Hno]].
    + rw dom_insert elem_of_union elem_of_singleton. split.
      * intros [[->|?]|(w & ? & ?)]; [|by left|]; right; [by exists vote; auto|exists w; auto].
      * intros [?|(w & [->|Hw] & Hval)]; [by left; right| |by right; exists w].
        left. left. destruct Hv as [(p & Hp & <-) _ _ _ _], Hval as [(p' & Hp' & <-) _ _ _ _].
        congruence.
    + split; [intros [?|(w & ? & ?)]; [by left|right; exists w; auto]|].
      intros [?|(w & [->|Hw] & Hval)]; [by left|by destruct (Hno v)|by right; exists w].
  - simpl. destruct H1 as [[_ ->]|[-> _]]; [|lia].
    pose proof (map_size_insert v1 true votes) as Hi. destruct (votes !! v1); simpl in Hi; lia.
Qed.
End accept.

(** Setting the objects behind the pointers. *)
Definition set_rt (m : nat) (rt : RTGroup.t) (s : Server.t) : Server.t :=
  Server.upd_rtgroups <[m := rt]> s.
Definition set_group (p : nat) (g : RaftGroup.t) (s : Server.t) : Server.t :=
  Server.upd_raftgroups <[p := g]> s.

Lemma alter_as_insert {A} (f : A → A) (m : nat) (h : gmap nat A) x :
  h !! m = Some x → alter f m h = <[m := f x]> h.
Proof.
  intros Hx. apply map_eq. intros k. destruct (decide (m = k)) as [<-|Hne].
  - by rw lookup_alter_eq lookup_insert_eq Hx.
  - by rw lookup_alter_ne // lookup_insert_ne.
Qed.

Lemma run_update_rt s m rt g f :
  has_group s m rt g → RTGroup.Group (f rt) = RTGroup.Group rt →
  update_rt m f s = (Ok tt, set_rt m (f rt) s) ∧ has_group (set_rt m (f rt) s) m (f rt) g.
Proof.
  intros [Hm Hg] Hf. unfold update_rt, modify, set_rt, Server.upd_rtgroups.
  rw (alter_as_insert _ _ _ _ Hm). split; [done|]. split; simpl.
  - by rw lookup_insert_eq.
  - by rw Hf.
Qed.

Lemma run_update_group s m rt g f :
  has_group s m rt g →
  update_group (RTGroup.Group rt) f s = (Ok tt, set_group (RTGroup.Group rt) (f g) s) ∧
  has_group (set_group (RTGroup.Group rt) (f g) s) m rt (f g).
Proof.
  intros [Hm Hg]. unfold update_group, modify, set_group, Server.upd_raftgroups.
  rw (alter_as_insert _ _ _ _ Hg). split; [done|]. split; simpl; [done|].
  by rw lookup_insert_eq.
Qed.

Lemma set_rt_twice m rt rt' s : set_rt m rt (set_rt m rt' s) = set_rt m rt s.
Proof. unfold set_rt, Server.upd_rtgroups. simpl. by rw insert_insert_eq. Qed.

Lemma SaveGroup_no_panic txn g w : SaveGroup txn g ≠ Panic w.
Proof. unfold SaveGroup, proto_marshal, txn_set. by repeat case_match; simplify_eq. Qed.

(** The group's record after a save whose error is dropped. *)
Lemma run_save_group s g :
  ∃ d, ignore (SaveGroupNTXN g) s = (Ok tt, Server.upd_DB (λ _, d) s) ∧
    (d = Server.DB s ∨ SaveGroup (Server.DB s) g = Ok d).
Proof.
  unfold ignore, SaveGroupNTXN, DB_Update, txn_write, try_, gets, lift, modify, mbind, M_bind.
  pose proof (SaveGroup_no_panic (Server.DB s) g) as Hp.
  destruct (SaveGroup (Server.DB s) g) as [d|e|w]; [..|by destruct (Hp w)]; simpl.
  - destruct (kv_commits _ _); [exists d|exists (Server.DB s)]; auto.
  - exists (Server.DB s). auto.
Qed.

Definition votes_for (peers : list Z) (sv : gmap Z bool) : gmap Z bool :=
  foldl (λ sv k, <[k := true]> sv) sv peers.

Lemma votes_for_lookup peers sv k :
  votes_for peers sv !! k = if decide (k ∈ peers) then Some true else sv !! k.
Proof.
  unfold votes_for. revert sv. induction peers as [|p peers IH]; intros sv; simpl; [done|].
  rw IH. destruct (decide (p = k)) as [->|Hne].
  - rw lookup_insert_eq. repeat case_decide; try done; set_solver.
  - rw lookup_insert_ne //. repeat case_decide; try done; set_solver.
Qed.

Lemma run_send_votes (l : list (Z * Peer.t)) s m rt g :
  has_group s m rt g →
  let rt' := RTGroup.upd_SendVotesForPeers (votes_for l.*1) rt in
  for_each (λ '(peerId, _), update_rt m (RTGroup.upd_SendVotesForPeers <[peerId := true]>)) l s
    = (Ok tt, set_rt m rt' s) ∧ has_group (set_rt m rt' s) m rt' g.
Proof.
  revert s rt. induction l as [|[k p] l IH]; intros s rt Hg.
  - assert (set_rt m rt s = s) as Hs.
    { destruct Hg as [Hm _]. destruct s. unfold set_rt, Server.upd_rtgroups. simpl in *.
      by rw insert_id. }
    simpl. replace (RTGroup.upd_SendVotesForPeers (votes_for []) rt) with rt by (by destruct rt).
    by rw Hs.
  - cbn [for_each].
    destruct (run_update_rt s m rt g (RTGroup.upd_SendVotesForPeers <[k := true]>) Hg eq_refl)
      as [Hr Hg'].
    rw (bind_Ok _ _ _ _ _ Hr). destruct (IH _ _ Hg') as [Hr' Hg''].
    rw Hr' set_rt_twice. rw set_rt_twice in Hg''. done.
Qed.

(** The group's runtime record after its term is reset. *)
Definition reset_rt (rt : RTGroup.t) : RTGroup.t :=
  RTGroup.upd_SendVotesForPeers (votes_for (range_map (RTGroup.GroupPeers rt)).*1)
    (RTGroup.upd_LastVotedTo (λ _, 0) (RTGroup.upd_LastVotedTerm (λ _, 0)
      (RTGroup.upd_Votes (λ _, []) rt))).

Lemma ResetTerm_run s m rt g term :
  has_group s m rt g →
  ∃ d, (d = Server.DB s ∨ SaveGroup (Server.DB s) (RaftGroup.set_Term term g) = Ok d) ∧
    ResetTerm m term s =
      (Ok tt, Server.upd_DB (λ _, d) (set_rt m (reset_rt rt)
                (set_group (RTGroup.Group rt) (RaftGroup.set_Term term g) s))).
Proof.
  intros Hg. unfold ResetTerm. rw (bind_Ok _ _ _ _ _ (run_load_rt _ _ _ (proj1 Hg))).
  destruct (run_update_group s m rt g (RaftGroup.set_Term term) Hg) as [Hr0 Hg0].
  rw (bind_Ok _ _ _ _ _ Hr0).
  destruct (run_update_rt _ _ _ _ (RTGroup.upd_Votes (λ _, [])) Hg0 eq_refl) as [Hr1 Hg1].
  rw (bind_Ok _ _ _ _ _ Hr1).
  destruct (run_update_rt _ _ _ _ (RTGroup.upd_LastVotedTerm (λ _, 0)) Hg1 eq_refl) as [Hr2 Hg2].
  rw (bind_Ok _ _ _ _ _ Hr2).
  destruct (run_update_rt _ _ _ _ (RTGroup.upd_LastVotedTo (λ _, 0)) Hg2 eq_refl) as [Hr3 Hg3].
  rw (bind_Ok _ _ _ _ _ Hr3).
  destruct (run_send_votes (range_map (RTGroup.GroupPeers rt)) _ _ _ _ Hg3) as [Hr4 Hg4].
  rw (bind_Ok _ _ _ _ _ Hr4) (bind_Ok _ _ _ _ _ (run_group_of _ _ _ _ Hg4)).
  rw !set_rt_twice. edestruct run_save_group as (d & Hd & Hor). exists d. split; [|exact Hd].
  exact Hor.
Qed.

Lemma run_RefreshTimer s m rt g mult :
  has_group s m rt g →
  let t := Server.now s +
    RandomTimeout mult (default 0 (head (Server.rands s)) mod f32_unit) * Millisecond in
  let s1 := Server.upd_rands tail s in
  RefreshTimer m mult s = (Ok tt, set_rt m (RTGroup.upd_Timeout (λ _, t) rt) s1) ∧
  has_group (set_rt m (RTGroup.upd_Timeout (λ _, t) rt) s1) m
    (RTGroup.upd_Timeout (λ _, t) rt) g.
Proof.
  intros Hg t s1.
  assert (has_group s1 m rt g) as Hg1 by exact Hg.
  apply (run_update_rt _ _ _ _ (RTGroup.upd_Timeout (λ _, t)) Hg1 eq_refl).
Qed.

(** The group's runtime record of a new follower. *)
Definition follower_rt (req : AppendEntriesRequest.t) (t : Z) (rt : RTGroup.t) : RTGroup.t :=
  RTGroup.upd_Leader (λ _, AppendEntriesRequest.LeaderId req)
    (RTGroup.upd_Timeout (λ _, t) (reset_rt (RTGroup.upd_Role (λ _, FOLLOWER) rt))).

Lemma has_group_DB d s m rt g :
  has_group (Server.upd_DB (λ _, d) s) m rt g ↔ has_group s m rt g.
Proof. done. Qed.

(** What [BecomeFollower] does once it has counted enough votes. *)
Lemma run_follow s m rt g req :
  has_group s m rt g →
  ∃ t s',
    (_ ← update_rt m (RTGroup.upd_Role (λ _, FOLLOWER));
     _ ← ResetTerm m (AppendEntriesRequest.Term req);
     _ ← RefreshTimer m 10;
     _ ← update_rt m (RTGroup.upd_Leader (λ _, AppendEntriesRequest.LeaderId req));
     group ← group_of m;
     _ ← ignore (SaveGroupNTXN group);
     mret true) s = (Ok true, s') ∧
    has_group s' m (follower_rt req t rt) (RaftGroup.set_Term (AppendEntriesRequest.Term req) g).
Proof.
  intros Hg.
  destruct (run_update_rt _ _ _ _ (RTGroup.upd_Role (λ _, FOLLOWER)) Hg eq_refl) as [Hr1 Hg1].
  rw (bind_Ok _ _ _ _ _ Hr1).
  destruct (ResetTerm_run _ _ _ _ (AppendEntriesRequest.Term req) Hg1) as (d & _ & Hr2).
  rw (bind_Ok _ _ _ _ _ Hr2). clear Hr2.
  destruct (run_update_group _ _ _ _ (RaftGroup.set_Term (AppendEntriesRequest.Term req)) Hg1)
    as [_ Hg2].
  match goal with |- context [set_rt m (reset_rt ?r) ?s1] =>
    assert (has_group (Server.upd_DB (λ _, d) (set_rt m (reset_rt r) s1)) m (reset_rt r)
      (RaftGroup.set_Term (AppendEntriesRequest.Term req) g)) as Hg3
  end.
  { destruct Hg2 as [_ Hg2]. split; [apply lookup_insert_eq|exact Hg2]. }
  destruct (run_RefreshTimer _ _ _ _ 10 Hg3) as [Hr4 Hg4]. rw (bind_Ok _ _ _ _ _ Hr4).
  destruct (run_update_rt _ _ _ _
    (RTGroup.upd_Leader (λ _, AppendEntriesRequest.LeaderId req)) Hg4 eq_refl) as [Hr5 Hg5].
  rw (bind_Ok _ _ _ _ _ Hr5) (bind_Ok _ _ _ _ _ (run_group_of _ _ _ _ Hg5)).
  match goal with |- context [mbind _ (ignore (SaveGroupNTXN ?g')) ?s'] =>
    destruct (run_save_group s' g') as (d' & Hd & _)
  end. rw (bind_Ok _ _ _ _ _ Hd).
  eexists _, _. split; [reflexivity|]. exact Hg5.
Qed.

(** Distinct voters, each with a vote of the list. *)
Lemma voters_bound (f : RequestVoteResponse.t → Z) (l : list RequestVoteResponse.t)
    (voters : gset Z) :
  (∀ v, v ∈ voters → ∃ vote, vote ∈ l ∧ f vote = v) → (size voters ≤ length l)%nat.
Proof.
  intros Hv. trans (size (list_to_set (f <$> l) : gset Z)).
  - apply subseteq_size. intros v (vote & ? & <-)%Hv. apply elem_of_list_to_set.
    by apply list_elem_of_fmap_2.
  - clear. induction l as [|x l IH]; [done|]. rw fmap_cons list_to_set_cons.
    trans (size ({[f x]} : gset Z) + size (list_to_set (f <$> l) : gset Z))%nat.
    + rw size_union_alt. apply Nat.add_le_mono_l, subseteq_size. set_solver.
    + rw size_singleton. simpl. lia.
Qed.

(** A quorum of members vouched for the leader. *)
Definition vouched (s : Server.t) (rt : RTGroup.t) (groupId : Z)
    (req : AppendEntriesRequest.t) (voters : gset Z) : Prop :=
  ExpectedPlayers (Z.of_nat (size (RTGroup.GroupPeers rt))) ≤ Z.of_nat (size voters) ∧
  ∀ v, v ∈ voters → ∃ vote, vote ∈ AppendEntriesRequest.QuorumVotes req ∧
    valid_vote s rt groupId (AppendEntriesRequest.LeaderId req) v vote.

Lemma BecomeFollower_cases m req s s' b rt g :
  has_group s m rt g → BecomeFollower m req s = (Ok b, s') →
  (b = true ↔ ∃ voters, vouched s rt (RaftGroup.Id g) req voters) ∧
  if b then ∃ t, has_group s' m (follower_rt req t rt)
                   (RaftGroup.set_Term (AppendEntriesRequest.Term req) g)
  else same_answers s s'.
Proof.
  intros Hg. unfold BecomeFollower, ExpectedHonestPeers, vouched.
  rw (bind_Ok _ _ _ _ _ (bind_Ok _ _ _ _ _ (run_load_rt _ _ _ (proj1 Hg)))).
  set (expected := ExpectedPlayers _). set (leader := AppendEntriesRequest.LeaderId req).
  destruct (Z.ltb_spec (Z.of_nat (length (AppendEntriesRequest.QuorumVotes req))) expected)
    as [Hlt|Hge].
  - intros [= <- <-]. split; [|reflexivity]. split; [done|].
    intros (voters & Hsize & Hv). pose proof (voters_bound
      (λ vote, match RTGroup.GroupPeers rt !! RequestVoteResponse.Voter vote with
               | Some p => Peer.Id p | None => 0 end)
      (AppendEntriesRequest.QuorumVotes req) voters) as Hb.
    enough (size voters ≤ length (AppendEntriesRequest.QuorumVotes req))%nat by lia.
    apply Hb. intros v (vote & Hin & [(p & Hp & Hid) _ _ _ _])%Hv.
    exists vote. split; [done|]. by rw Hp.
  - intros (votes & s1 & Hvotes & Hrest)%bind_Ok_inv.
    apply (check_votes_spec m req rt g _ _ _ _ _ Hg) in Hvotes as (Hs1 & Hdom & _).
    assert (∀ v, v ∈ dom votes ↔ ∃ vote, vote ∈ AppendEntriesRequest.QuorumVotes req ∧
      valid_vote s rt (RaftGroup.Id g) leader v vote) as Hdom'.
    { intros v. rw Hdom dom_empty. set_solver. }
    clear Hdom. destruct (Z.leb_spec expected (Z.of_nat (size votes))) as [Hle|Hgt].
    + destruct (run_follow s1 m rt g req) as (t & s2 & Hrun & Hg2).
      { exact (has_group_quiet _ _ _ _ _ (same_quiet _ _ Hs1) Hg). }
      rw Hrun in Hrest. injection Hrest as <- <-. split; [|by exists t].
      split; [|done]. intros _. exists (dom votes). rw size_dom. split; [done|].
      intros v. apply Hdom'.
    + injection Hrest as <- <-. split; [|done]. split; [done|].
      intros (voters & Hsize & Hv).
      assert (voters ⊆ dom votes) as Hsub%subseteq_size.
      { intros v ?%Hv. by apply Hdom'. }
      rw size_dom in Hsub. lia.
Qed.

(** * Granting a vote *)

(** The guards of [RequestVote], with [e] the last entry of the log. *)
Definition refuses (rt : RTGroup.t) (g : RaftGroup.t) (e : LogEntry.t)
    (req : RequestVoteRequest.t) : bool :=
  ((RequestVoteRequest.Term req <=? RaftGroup.Term g) ||
   (RequestVoteRequest.LogIndex req <? LogEntry.Index e)) ||
  (MAX_TERM_BUMP <? wrap64 (RequestVoteRequest.Term req - RaftGroup.Term g)) ||
  ((RequestVoteRequest.Term req =? RTGroup.LastVotedTerm rt) &&
   negb (RTGroup.LastVotedTo rt =? 0) &&
   negb (RTGroup.LastVotedTo rt =? RequestVoteRequest.CandidateId req)).

Definition sign_vote (key : PrivateKey) (vote : RequestVoteResponse.t) : RequestVoteResponse.t :=
  RequestVoteResponse.set_Signature (Sign key (RequestVoteResponseSignData vote)) vote.

Definition ballot (s : Server.t) (g : RaftGroup.t) (e : LogEntry.t)
    (req : RequestVoteRequest.t) : RequestVoteResponse.t :=
  RequestVoteResponse.mk (RaftGroup.Id g) (RaftGroup.Term g) (LogEntry.Index e)
    (RequestVoteRequest.CandidateId req) (Server.Id s) false [].

Lemma run_LastLogEntryNTXN s m rt g :
  has_group s m rt g →
  LastLogEntryNTXN m s = (Ok (LastLogEntry (Server.DB s) (RaftGroup.Id g)), s).
Proof.
  intros Hg. unfold LastLogEntryNTXN. rw (bind_Ok _ _ _ _ _ (run_group_of _ _ _ _ Hg)).
  unfold DB_View, txn_read, gets. by rw upd_DB_same.
Qed.

(** Every run goes through the guards, then polls. *)
Lemma RequestVote_run env m req s rt g :
  has_group s m rt g →
  RequestVote env m req s =
    match LastLogEntry (Server.DB s) (RaftGroup.Id g) with
    | None => (Panic nil_deref, s)
    | Some e =>
      let vote := sign_vote (Server.SigningKey s) (ballot s g e req) in
      if refuses rt g e req then (Ok vote, s)
      else lazy_vote env (Z.to_nat intervalCount) 0 m req vote s
    end.
Proof.
  intros Hg. unfold RequestVote.
  rw (bind_Ok _ _ _ _ _ (run_load_rt _ _ _ (proj1 Hg))).
  assert (load_group (RTGroup.Group rt) s = (Ok g, s)) as Hl.
  { unfold load_group, get_state, unwrap, mbind, M_bind. by rw (proj2 Hg). }
  rw (bind_Ok _ _ _ _ _ Hl) (bind_Ok _ _ _ _ _ (run_LastLogEntryNTXN _ _ _ _ Hg)).
  destruct (LastLogEntry _ _) as [e|]; [|done].
  rw (bind_Ok _ _ _ _ _ (eq_refl : unwrap (Some e) s = (Ok e, s))).
  rw (bind_Ok _ _ _ _ _ (eq_refl : gets Server.Id s = (Ok (Server.Id s), s))).
  unfold server_sign, refuses. unfold mbind at 1, M_bind at 1, gets, mret, M_ret, mbind, M_bind.
  cbn -[lazy_vote intervalCount]. fold (ballot s g e req).
  change (RequestVoteResponse.set_Signature _ (ballot s g e req))
    with (sign_vote (Server.SigningKey s) (ballot s g e req)).
  destruct (_ || (_ <? LogEntry.Index e)); [done|].
  destruct (MAX_TERM_BUMP <? _); [done|]. by destruct (_ && _ && _).
Qed.

(** The state after [k] rounds of polling. *)
Fixpoint polled (env : Z → Server.t → Server.t) (k : nat) (s : Server.t) : Server.t :=
  match k with
  | O => s
  | S k' => env (Z.of_nat k') (Server.upd_now (Z.add (interval * Millisecond)) (polled env k' s))
  end.

Definition role_at (s : Server.t) (m : nat) : Z :=
  match Server.rtgroups s !! m with Some rt => RTGroup.Role rt | None => FOLLOWER end.

(** The voting record after a vote for the request. *)
Definition record_vote (req : RequestVoteRequest.t) (rt : RTGroup.t) : RTGroup.t :=
  RTGroup.upd_LastVotedTerm (λ _, RequestVoteRequest.Term req)
    (RTGroup.upd_LastVotedTo (λ _, RequestVoteRequest.CandidateId req) rt).

(** What a loop that has done [k] rounds, none of them with the node out of the
    follower role, ends with. *)
Inductive poll_result (env : Z → Server.t → Server.t) (s : Server.t) (m : nat)
    (req : RequestVoteRequest.t) (vote : RequestVoteResponse.t) (k : nat)
    : outcome RequestVoteResponse.t * Server.t → Prop :=
| poll_grants n rt :
  (k < n ≤ Z.to_nat intervalCount)%nat →
  (∀ j, (k < j < n)%nat → role_at (polled env j s) m = FOLLOWER) →
  Server.rtgroups (polled env n s) !! m = Some rt → RTGroup.Role rt ≠ FOLLOWER →
  poll_result env s m req vote k
    (Ok (sign_vote (Server.SigningKey (polled env n s)) (RequestVoteResponse.set_Granted true vote)),
     set_rt m (record_vote req rt) (polled env n s))
| poll_times_out :
  (∀ j, (k < j ≤ Z.to_nat intervalCount)%nat → role_at (polled env j s) m = FOLLOWER) →
  poll_result env s m req vote k (Ok vote, polled env (Z.to_nat intervalCount) s).

Lemma run_modify (f : Server.t → Server.t) s : (modify f : MS unit) s = (Ok tt, f s).
Proof. done. Qed.

Lemma run_server_sign data s :
  server_sign data s = (Ok (Sign (Server.SigningKey s) data), s).
Proof. done. Qed.

Lemma set_rt_alter s m rt f :
  Server.rtgroups s !! m = Some rt → update_rt m f s = (Ok tt, set_rt m (f rt) s).
Proof.
  intros Hm. unfold update_rt, modify, set_rt, Server.upd_rtgroups.
  by rw (alter_as_insert _ _ _ _ Hm).
Qed.

Lemma lazy_vote_run env m req vote s k :
  (∀ j, (j ≤ Z.to_nat intervalCount)%nat → is_Some (Server.rtgroups (polled env j s) !! m)) →
  (k < Z.to_nat intervalCount)%nat →
  poll_result env s m req vote k
    (lazy_vote env (Z.to_nat intervalCount - k) (Z.of_nat k) m req vote (polled env k s)).
Proof.
  intros Hex. remember (Z.to_nat intervalCount - k)%nat as fuel eqn:Hfuel. revert k Hfuel.
  induction fuel as [|fuel IH]; intros k Hfuel Hk; [lia|].
  destruct (Hex (S k)) as [rt Hrt]; [lia|]. cbn [lazy_vote].
  rw (bind_Ok _ _ _ _ _ (run_modify _ _)) (bind_Ok _ _ _ _ _ (run_modify _ _)).
  change (env (Z.of_nat k) _) with (polled env (S k) s).
  rw (bind_Ok _ _ _ _ _ (run_load_rt _ _ _ Hrt)).
  destruct (Z.eqb_spec (RTGroup.Role rt) FOLLOWER) as [Hf|Hf]; cbn [negb].
  - assert (role_at (polled env (S k) s) m = FOLLOWER) as Hrole by (unfold role_at; by rw Hrt).
    destruct (Z.leb_spec intervalCount (Z.of_nat k + 1)) as [Hle|Hlt].
    + assert (S k = Z.to_nat intervalCount) as HS by lia. rw HS.
      apply poll_times_out. intros j Hj. assert (j = S k) as -> by lia. done.
    + replace (Z.of_nat k + 1) with (Z.of_nat (S k)) by lia.
      destruct (IH (S k)) as [n rt' Hn Hroles Hrt' Hgr|Hroles]; [lia|lia|..].
      * apply poll_grants with (n := n); [lia| |done|done].
        intros j Hj. destruct (decide (j = S k)) as [->|]; [done|]. apply Hroles. lia.
      * apply poll_times_out. intros j Hj. destruct (decide (j = S k)) as [->|]; [done|].
        apply Hroles. lia.
  - rw (bind_Ok _ _ _ _ _ (run_server_sign _ _)).
    rw (bind_Ok _ _ _ _ _ (set_rt_alter _ _ _ _ Hrt)).
    assert (Server.rtgroups (set_rt m (RTGroup.upd_LastVotedTo
      (λ _, RequestVoteRequest.CandidateId req) rt) (polled env (S k) s)) !! m =
      Some (RTGroup.upd_LastVotedTo (λ _, RequestVoteRequest.CandidateId req) rt)) as Hrt'
      by apply lookup_insert_eq.
    rw (bind_Ok _ _ _ _ _ (set_rt_alter _ _ _ _ Hrt')) set_rt_twice. apply (poll_grants env s m req vote k (S k) rt); [lia| |done|done].
    intros j Hj. lia.
Qed.
End voting.
