(* ===== verification/VotingFacts.v ===== *)
(** What the voting protocol guarantees: [RequestVote] and [BecomeFollower] of
    [Voting.v] against their contracts, and where they fall short of Raft's. *)
From S2P Require Export Voting Scenario.

Section facts.
Context {W : World}.

(** * Accepting a leader *)

(** The key of every member that has a vote in the request is known. *)
Definition votes_checkable (s : Server.t) (rt : RTGroup.t) (req : AppendEntriesRequest.t) : Prop :=
  ∀ vote peer, vote ∈ AppendEntriesRequest.QuorumVotes req →
    RTGroup.GroupPeers rt !! RequestVoteResponse.Voter vote = Some peer →
    ∃ key, key_of s (Peer.Id peer) = Ok (Some key).

Lemma check_vote_returns m req rt g s votes vote :
  has_group s m rt g →
  (∀ peer, RTGroup.GroupPeers rt !! RequestVoteResponse.Voter vote = Some peer →
    ∃ key, key_of s (Peer.Id peer) = Ok (Some key)) →
  ∃ votes' s', check_vote m req votes vote s = (Ok votes', s').
Proof.
  intros Hg Hkey. unfold check_vote. rw (bind_Ok _ _ _ _ _ (run_load_rt _ _ _ (proj1 Hg))).
  destruct (RTGroup.GroupPeers rt !! _) as [peer|]; [|by eexists _, _].
  destruct (Hkey peer eq_refl) as [key Hk]. unfold key_of in Hk.
  pose proof (quiet_GetHostPublicKey (Peer.Id peer) s) as Hq.
  destruct (GetHostPublicKey (Peer.Id peer) s) as [o s1] eqn:Hrun. simpl in *. subst o.
  rw (bind_Ok _ _ _ _ _ Hrun). unfold lift.
  destruct (VerifySign _ _ _) as [[]|e|w] eqn:Hv; [| |done..].
  - rw (bind_Ok _ _ _ _ _ (eq_refl : (λ s0, (Ok true, s0)) s1 = (Ok true, s1))).
    rw (bind_Ok _ _ _ _ _ (run_group_of _ _ _ _ (has_group_quiet _ _ _ _ _ Hq Hg))).
    by destruct (_ && _); eexists _, _.
  - by eexists _, _.
Qed.

Lemma check_votes_return m req rt g l s votes :
  has_group s m rt g →
  (∀ vote peer, vote ∈ l →
    RTGroup.GroupPeers rt !! RequestVoteResponse.Voter vote = Some peer →
    ∃ key, key_of s (Peer.Id peer) = Ok (Some key)) →
  ∃ votes' s', fold_each (check_vote m req) l votes s = (Ok votes', s').
Proof.
  revert s votes. induction l as [|vote l IH]; intros s votes Hg Hkey; [by eexists _, _|].
  destruct (check_vote_returns m req rt g s votes vote Hg) as (votes1 & s1 & H1).
  { intros peer. apply Hkey. by left. }
  destruct (check_vote_spec m req rt g _ _ _ _ _ Hg H1) as [Hs1 _].
  cbn [fold_each]. rw (bind_Ok _ _ _ _ _ H1). apply IH.
  - exact (has_group_quiet _ _ _ _ _ (same_quiet _ _ Hs1) Hg).
  - intros v p Hv. rw (same_key _ _ Hs1). apply Hkey. by right.
Qed.

Lemma BecomeFollower_returns m req rt g s :
  has_group s m rt g → votes_checkable s rt req →
  ∃ b s', BecomeFollower m req s = (Ok b, s').
Proof.
  intros Hg Hkey. unfold BecomeFollower, ExpectedHonestPeers.
  rw (bind_Ok _ _ _ _ _ (bind_Ok _ _ _ _ _ (run_load_rt _ _ _ (proj1 Hg)))).
  destruct (_ <? _); [by eexists _, _|].
  destruct (check_votes_return m req rt g (AppendEntriesRequest.QuorumVotes req) s ∅ Hg)
    as (votes & s1 & H1); [exact Hkey|].
  destruct (check_votes_spec m req rt g _ _ _ _ _ Hg H1) as [Hs1 _].
  rw (bind_Ok _ _ _ _ _ H1). destruct (_ <=? _); [|by eexists _, _].
  destruct (run_follow s1 m rt g req) as (t & s2 & Hrun & _).
  { exact (has_group_quiet _ _ _ _ _ (same_quiet _ _ Hs1) Hg). }
  rw Hrun. by eexists _, _.
Qed.

(** C10. [BecomeFollower] returns, and accepts the leader exactly when a quorum of
    distinct members signed a granted vote for it in this group. Then the node
    follows that leader in the request's term, with its voting record cleared
    and its own votes due to every peer; otherwise nothing but caches changed. *)
Theorem BecomeFollower_quorum m req rt g s :
  has_group s m rt g → votes_checkable s rt req →
  ∃ b s', BecomeFollower m req s = (Ok b, s') ∧
    (b = true ↔ ∃ voters, vouched s rt (RaftGroup.Id g) req voters) ∧
    (b = false → same_answers s s') ∧
    (b = true → ∃ rt',
      has_group s' m rt' (RaftGroup.set_Term (AppendEntriesRequest.Term req) g) ∧
      RTGroup.Role rt' = FOLLOWER ∧ RTGroup.Leader rt' = AppendEntriesRequest.LeaderId req ∧
      RTGroup.GroupPeers rt' = RTGroup.GroupPeers rt ∧
      RTGroup.LastVotedTo rt' = 0 ∧ RTGroup.LastVotedTerm rt' = 0 ∧ RTGroup.Votes rt' = [] ∧
      ∀ p, is_Some (RTGroup.GroupPeers rt !! p) →
        RTGroup.SendVotesForPeers rt' !! p = Some true).
Proof.
  intros Hg Hkey. destruct (BecomeFollower_returns m req rt g s Hg Hkey) as (b & s' & Hrun).
  exists b, s'. split; [done|].
  destruct (BecomeFollower_cases _ _ _ _ _ _ _ Hg Hrun) as [Hb Hs]. split; [done|].
  split; [by destruct b|]. intros ->. destruct Hs as [t Hs]. exists (follower_rt req t rt).
  repeat split; try apply Hs. intros p [peer Hp]. cbn. rw votes_for_lookup decide_True //.
  apply (list_elem_of_fmap_2 fst (range_map _) (p, peer)). by apply elem_of_range_map.
Qed.

(** * Two leaders *)

(** Every member is listed under its own id. *)
Definition peers_keyed (peers : gmap Z Peer.t) : Prop :=
  ∀ k p, peers !! k = Some p → Peer.Id p = k.

Lemma vouched_members s rt gid req voters :
  peers_keyed (RTGroup.GroupPeers rt) → vouched s rt gid req voters →
  voters ⊆ dom (RTGroup.GroupPeers rt).
Proof.
  intros Hk [_ Hv] v (vote & _ & [(p & Hp & Hid) _ _ _ _])%Hv.
  apply elem_of_dom. pose proof (Hk _ _ Hp) as He. rw -He Hid in Hp. by exists p.
Qed.

(** C13. Quorums intersect: when two nodes of a group, or one node twice, accepted
    leaders, some member signed a granted vote for each of the two. *)
Theorem accepted_leaders_share_voter m1 m2 req1 req2 s1 s2 s1' s2' rt1 rt2 g1 g2 :
  has_group s1 m1 rt1 g1 → has_group s2 m2 rt2 g2 →
  peers_keyed (RTGroup.GroupPeers rt1) → peers_keyed (RTGroup.GroupPeers rt2) →
  dom (RTGroup.GroupPeers rt1) = dom (RTGroup.GroupPeers rt2) →
  BecomeFollower m1 req1 s1 = (Ok true, s1') → BecomeFollower m2 req2 s2 = (Ok true, s2') →
  ∃ v vote1 vote2,
    vote1 ∈ AppendEntriesRequest.QuorumVotes req1 ∧
    valid_vote s1 rt1 (RaftGroup.Id g1) (AppendEntriesRequest.LeaderId req1) v vote1 ∧
    vote2 ∈ AppendEntriesRequest.QuorumVotes req2 ∧
    valid_vote s2 rt2 (RaftGroup.Id g2) (AppendEntriesRequest.LeaderId req2) v vote2.
Proof.
  intros Hg1 Hg2 Hk1 Hk2 Hdom Hr1 Hr2.
  destruct (BecomeFollower_cases _ _ _ _ _ _ _ Hg1 Hr1) as [[Hb1 _] _].
  destruct (BecomeFollower_cases _ _ _ _ _ _ _ Hg2 Hr2) as [[Hb2 _] _].
  destruct (Hb1 eq_refl) as [vs1 Hv1], (Hb2 eq_refl) as [vs2 Hv2].
  destruct (quorums_meet (dom (RTGroup.GroupPeers rt1)) vs1 vs2) as (v & Hin1 & Hin2).
  - exact (vouched_members _ _ _ _ _ Hk1 Hv1).
  - rw Hdom. exact (vouched_members _ _ _ _ _ Hk2 Hv2).
  - rw size_dom. apply Hv1.
  - rw Hdom size_dom. apply Hv2.
  - apply Hv1 in Hin1 as (vote1 & ? & ?). apply Hv2 in Hin2 as (vote2 & ? & ?).
    by exists v, vote1, vote2.
Qed.

(** The terms of the votes are not looked at: with the same leader and votes
    the answer is the same whatever term the request claims, so that the votes
    of one election serve for any later term. *)
Theorem BecomeFollower_ignores_vote_terms m req req' rt g s b b' s' s'' :
  has_group s m rt g →
  AppendEntriesRequest.LeaderId req = AppendEntriesRequest.LeaderId req' →
  AppendEntriesRequest.QuorumVotes req = AppendEntriesRequest.QuorumVotes req' →
  BecomeFollower m req s = (Ok b, s') → BecomeFollower m req' s = (Ok b', s'') → b = b'.
Proof.
  intros Hg Hl Hv H1 H2.
  destruct (BecomeFollower_cases _ _ _ _ _ _ _ Hg H1) as [Hb _].
  destruct (BecomeFollower_cases _ _ _ _ _ _ _ Hg H2) as [Hb' _].
  unfold vouched in *. rw Hl Hv -Hb' in Hb. destruct b, b'; intuition congruence.
Qed.

(** * Granting *)

(** The candidates a voter may vote for: ahead of the voter's term but not by
    too much, with a log no shorter than the voter's, and not in a term whose
    last vote went to someone else. *)
Record eligible (rt : RTGroup.t) (g : RaftGroup.t) (e : LogEntry.t)
    (req : RequestVoteRequest.t) : Prop := {
  eligible_term : RaftGroup.Term g < RequestVoteRequest.Term req ≤ RaftGroup.Term g + MAX_TERM_BUMP;
  eligible_log : LogEntry.Index e ≤ RequestVoteRequest.LogIndex req;
  eligible_vote : RequestVoteRequest.Term req = RTGroup.LastVotedTerm rt →
    RTGroup.LastVotedTo rt = 0 ∨ RTGroup.LastVotedTo rt = RequestVoteRequest.CandidateId req
}.

Lemma refuses_eligible rt g e req :
  is_u64 (RaftGroup.Term g) → is_u64 (RequestVoteRequest.Term req) →
  refuses rt g e req = false ↔ eligible rt g e req.
Proof.
  unfold is_u64, refuses, MAX_TERM_BUMP. intros Hg Hr.
  rw !orb_false_iff !andb_false_iff !negb_false_iff !Z.leb_gt !Z.ltb_ge !Z.eqb_neq !Z.eqb_eq.
  assert (RaftGroup.Term g < RequestVoteRequest.Term req →
    wrap64 (RequestVoteRequest.Term req - RaftGroup.Term g) =
    RequestVoteRequest.Term req - RaftGroup.Term g) as Hw.
  { intros ?. unfold wrap64. apply Z.mod_small. lia. }
  split.
  - intros [[[H1 H2] H3] H4]. rw Hw // in H3. split; [unfold MAX_TERM_BUMP; lia|lia|]. tauto.
  - intros [[H1 H2] H3 H4]. rw Hw //. unfold MAX_TERM_BUMP in H2. repeat split; try lia.
Qed.

Lemma polled_frame env s k : (∀ k s, frame s (env k s)) → frame s (polled env k s).
Proof.
  intros He. induction k as [|k IH]; cbn [polled]; [reflexivity|].
  etrans; [exact IH|]. etrans; [|apply He]. split; simpl; eauto.
Qed.

Lemma poll_rounds env s m req vote o :
  poll_result env s m req vote 0 o → RequestVoteResponse.Granted vote = false →
  ∃ vote', o.1 = Ok vote' ∧
    (RequestVoteResponse.Granted vote' = true ↔
      ∃ k, (1 ≤ k ≤ 20)%nat ∧ role_at (polled env k s) m ≠ FOLLOWER) ∧
    (vote' = vote ∧ o.2 = polled env 20 s ∨
     ∃ n rt, vote' = sign_vote (Server.SigningKey (polled env n s))
               (RequestVoteResponse.set_Granted true vote) ∧
       Server.rtgroups (polled env n s) !! m = Some rt ∧
       o.2 = set_rt m (record_vote req rt) (polled env n s)).
Proof.
  change 20%nat with (Z.to_nat intervalCount).
  intros [n rt Hn Hroles Hrt Hrole|Hroles] Hv; eexists; (split; [reflexivity|]); split.
  - split; [|done]. intros _. exists n. split; [lia|]. unfold role_at. by rw Hrt.
  - right. by exists n, rt.
  - rw Hv. split; [done|]. intros (k & Hk & Hne). destruct Hne. apply Hroles. lia.
  - by left.
Qed.

(** The wait of a voter, without a bound on its rounds: [polls env w s o] is a run of
    the loop that has waited [w] rounds and is in the state [s]. *)
Inductive polls (env : Z → Server.t → Server.t) (m : nat) (req : RequestVoteRequest.t)
    (vote : RequestVoteResponse.t) : Z → Server.t → outcome RequestVoteResponse.t * Server.t → Prop :=
| polls_again w s rt o :
    let s' := env w (Server.upd_now (Z.add (interval * Millisecond)) s) in
    Server.rtgroups s' !! m = Some rt → RTGroup.Role rt = FOLLOWER → w + 1 < intervalCount →
    polls env m req vote (w + 1) s' o → polls env m req vote w s o
| polls_late w s rt :
    let s' := env w (Server.upd_now (Z.add (interval * Millisecond)) s) in
    Server.rtgroups s' !! m = Some rt → RTGroup.Role rt = FOLLOWER → intervalCount ≤ w + 1 →
    polls env m req vote w s (Ok vote, s')
| polls_vote w s rt :
    let s' := env w (Server.upd_now (Z.add (interval * Millisecond)) s) in
    Server.rtgroups s' !! m = Some rt → RTGroup.Role rt ≠ FOLLOWER →
    polls env m req vote w s
      (Ok (sign_vote (Server.SigningKey s') (RequestVoteResponse.set_Granted true vote)),
       set_rt m (record_vote req rt) s')
| polls_gone w s :
    let s' := env w (Server.upd_now (Z.add (interval * Millisecond)) s) in
    Server.rtgroups s' !! m = None → polls env m req vote w s (Panic nil_deref, s').

Lemma lazy_vote_round env fuel w m req vote s :
  lazy_vote env (S fuel) w m req vote s =
  let s' := env w (Server.upd_now (Z.add (interval * Millisecond)) s) in
  match Server.rtgroups s' !! m with
  | None => (Panic nil_deref, s')
  | Some rt =>
    if negb (RTGroup.Role rt =? FOLLOWER) then
      (Ok (sign_vote (Server.SigningKey s') (RequestVoteResponse.set_Granted true vote)),
       set_rt m (record_vote req rt) s')
    else if intervalCount <=? w + 1 then (Ok vote, s')
    else lazy_vote env fuel (w + 1) m req vote s'
  end.
Proof.
  cbn [lazy_vote]. rw (bind_Ok _ _ _ _ _ (run_modify _ _)) (bind_Ok _ _ _ _ _ (run_modify _ _)).
  set (s' := env w _). cbv zeta. destruct (Server.rtgroups s' !! m) as [rt|] eqn:Hrt; cycle 1.
  { unfold load_rt, get_state, unwrap, mbind, M_bind. by rw Hrt. }
  rw (bind_Ok _ _ _ _ _ (run_load_rt _ _ _ Hrt)).
  destruct (negb _); [|by destruct (_ <=? _)].
  rw (bind_Ok _ _ _ _ _ (run_server_sign _ _)) (bind_Ok _ _ _ _ _ (set_rt_alter _ _ _ _ Hrt)).
  assert (Server.rtgroups (set_rt m (RTGroup.upd_LastVotedTo
    (λ _, RequestVoteRequest.CandidateId req) rt) s') !! m =
    Some (RTGroup.upd_LastVotedTo (λ _, RequestVoteRequest.CandidateId req) rt)) as Hrt'
    by apply lookup_insert_eq.
  by rw (bind_Ok _ _ _ _ _ (set_rt_alter _ _ _ _ Hrt')) set_rt_twice.
Qed.

Lemma lazy_vote_polls env m req vote fuel w s :
  intervalCount - w ≤ Z.of_nat fuel → (0 < fuel)%nat →
  polls env m req vote w s (lazy_vote env fuel w m req vote s).
Proof.
  revert w s. induction fuel as [|fuel IH]; intros w s Hw Hf; [lia|]. rw lazy_vote_round. cbv zeta.
  destruct (Server.rtgroups _ !! m) as [rt|] eqn:Hrt; [|by apply polls_gone].
  destruct (Z.eqb_spec (RTGroup.Role rt) FOLLOWER) as [Hr|Hr]; cbn [negb]; [|by apply polls_vote].
  destruct (Z.leb_spec intervalCount (w + 1)); [by apply (polls_late _ _ _ _ _ _ rt)|].
  apply (polls_again _ _ _ _ _ _ rt); [done..|]. apply IH; lia.
Qed.

Lemma polls_lazy_vote env m req vote w s o :
  polls env m req vote w s o → ∀ fuel, intervalCount - w ≤ Z.of_nat fuel → (0 < fuel)%nat →
  o = lazy_vote env fuel w m req vote s.
Proof.
  induction 1 as [w s rt o s' Hrt Hr Hw _ IH|w s rt s' Hrt Hr Hw|w s rt s' Hrt Hr|w s s' Hrt];
    intros [|fuel] Hf Hpos; try lia; rw lazy_vote_round; cbv zeta; fold s'; rw Hrt;
    [|rw Hr Z.eqb_refl; cbn [negb]; by rw (proj2 (Z.leb_le _ _) Hw)
     |by rw (proj2 (Z.eqb_neq _ _) Hr)|done].
  rw Hr Z.eqb_refl. cbn [negb]. destruct (Z.leb_spec intervalCount (w + 1)); [lia|].
  apply IH; lia.
Qed.

(** C26. A voter's wait ends after at most twenty rounds, whatever else the node does
    meanwhile: the loop without a bound has a run, it is the only one, and the model's
    loop, whose rounds are bounded, gives its result with any bound of twenty or more. *)
Theorem lazy_vote_terminates env m req vote s fuel :
  (Z.to_nat intervalCount ≤ fuel)%nat →
  polls env m req vote 0 s (lazy_vote env fuel 0 m req vote s) ∧
  ∀ o, polls env m req vote 0 s o → o = lazy_vote env fuel 0 m req vote s.
Proof.
  intros Hf. assert (Z.to_nat intervalCount = 20%nat) as H20 by done. rw H20 in Hf.
  assert (intervalCount - 0 ≤ Z.of_nat fuel) as Hn by (change intervalCount with 20; lia).
  split; [apply lazy_vote_polls; [done|lia]|]. intros o Ho. apply (polls_lazy_vote _ _ _ _ _ _ _ Ho); [done|lia].
Qed.

(** C16. [RequestVote] on a group with a non-empty log always answers with a vote
    signed by this node, naming its group, its own term, its last index and the
    candidate. It grants exactly when the candidate is eligible and the node
    leaves the follower role within twenty rounds of half a second, and then
    records the candidate and the requested term; a refusal changes nothing. *)
Theorem RequestVote_decision env m req s rt g e :
  has_group s m rt g → LastLogEntry (Server.DB s) (RaftGroup.Id g) = Some e →
  is_u64 (RaftGroup.Term g) → is_u64 (RequestVoteRequest.Term req) →
  (∀ k s, frame s (env k s)) →
  ∃ vote s', RequestVote env m req s = (Ok vote, s') ∧
    (RequestVoteResponse.Granted vote = true ↔ eligible rt g e req ∧
      ∃ k, (1 ≤ k ≤ 20)%nat ∧ role_at (polled env k s) m ≠ FOLLOWER) ∧
    VerifySign (Some (PublicKeyFromPrivate (Server.SigningKey s)))
      (RequestVoteResponse.Signature vote) (RequestVoteResponseSignData vote) = Ok true ∧
    signed_vote_fields vote = (RaftGroup.Id g, RaftGroup.Term g, LogEntry.Index e,
      RequestVoteRequest.CandidateId req, RequestVoteResponse.Granted vote) ∧
    (if RequestVoteResponse.Granted vote then
       ∃ rt', Server.rtgroups s' !! m = Some rt' ∧
         RTGroup.LastVotedTo rt' = RequestVoteRequest.CandidateId req ∧
         RTGroup.LastVotedTerm rt' = RequestVoteRequest.Term req
     else s' = s ∨ s' = polled env 20 s).
Proof.
  intros Hg He Hug Hur Henv. rw (RequestVote_run _ _ _ _ _ _ Hg) He. cbv zeta.
  set (vote0 := sign_vote _ _).
  destruct (refuses rt g e req) eqn:Href.
  - exists vote0, s. split; [done|].
    split; [|split; [apply VerifySign_Sign|split; [done|by left]]].
    split; [done|]. intros [Hel%refuses_eligible _]; [congruence|done..].
  - assert (eligible rt g e req) as Hel by by apply refuses_eligible.
    assert (∀ j, (j ≤ Z.to_nat intervalCount)%nat →
      is_Some (Server.rtgroups (polled env j s) !! m)) as Hex.
    { intros j _. destruct (frame_rt _ _ (polled_frame env s j Henv) _ _ (proj1 Hg)) as (r & Hr & _).
      by exists r. }
    pose proof (lazy_vote_run env m req vote0 s 0 Hex (Nat.lt_0_succ 19)) as Hrun.
    change (Z.to_nat intervalCount - 0)%nat with (Z.to_nat intervalCount) in Hrun.
    change (Z.of_nat 0) with 0 in Hrun. cbn [polled] in Hrun.
    destruct (poll_rounds _ _ _ _ _ _ Hrun eq_refl) as (vote & Ho & Hgr & Hres).
    exists vote, (lazy_vote env (Z.to_nat intervalCount) 0 m req vote0 s).2.
    split; [by rw -Ho -surjective_pairing|]. split; [tauto|].
    destruct Hres as [[-> Hs]|(n & rt' & -> & Hrt & Hs)].
    + split; [apply VerifySign_Sign|]. split; [done|]. by right.
    + rw (frame_key _ _ (polled_frame env s n Henv)).
      split; [apply VerifySign_Sign|]. split; [done|].
      exists (record_vote req rt'). rw Hs. split; [apply lookup_insert_eq|done].
Qed.

(** * One vote per term *)

(** Requests served one after the other, as [VoteLock] has it, each with what
    the rest of the node does meanwhile. *)
Fixpoint serve (m : nat)
    (reqs : list ((Z → Server.t → Server.t) * RequestVoteRequest.t)) :
    MS (list RequestVoteResponse.t) :=
  match reqs with
  | [] => mret []
  | (env, req) :: rest =>
    vote ← RequestVote env m req; votes ← serve m rest; mret (vote :: votes)
  end.

(** The rest of the node leaves the voting record of the group alone. *)
Definition keeps_record (m : nat) (env : Z → Server.t → Server.t) : Prop :=
  ∀ k s rt, Server.rtgroups s !! m = Some rt →
    ∃ rt', Server.rtgroups (env k s) !! m = Some rt' ∧
      RTGroup.LastVotedTo rt' = RTGroup.LastVotedTo rt ∧
      RTGroup.LastVotedTerm rt' = RTGroup.LastVotedTerm rt.

Definition record_is (s : Server.t) (m : nat) (to term : Z) : Prop :=
  ∃ rt, Server.rtgroups s !! m = Some rt ∧
    RTGroup.LastVotedTo rt = to ∧ RTGroup.LastVotedTerm rt = term.

Lemma polled_record env m s k to term :
  keeps_record m env → record_is s m to term → record_is (polled env k s) m to term.
Proof.
  intros He Hs. induction k as [|k IH]; cbn [polled]; [done|].
  destruct IH as (rt & Hrt & <- & <-).
  destruct (He (Z.of_nat k) (Server.upd_now (Z.add (interval * Millisecond)) (polled env k s)) rt Hrt)
    as (rt' & ? & ? & ?). by exists rt'.
Qed.

Lemma RequestVote_record env m req s vote s' to term :
  keeps_record m env → record_is s m to term →
  RequestVote env m req s = (Ok vote, s') →
  RequestVoteResponse.Granted vote = false ∧ record_is s' m to term ∨
  record_is s' m (RequestVoteRequest.CandidateId req) (RequestVoteRequest.Term req) ∧
  (RequestVoteRequest.Term req = term → to = 0 ∨ to = RequestVoteRequest.CandidateId req).
Proof.
  intros He Hs Hrun. destruct Hs as (rt & Hrt & Hto & Hterm).
  assert (record_is s m to term) as Hs by by exists rt.
  destruct (Server.raftgroups s !! RTGroup.Group rt) as [g|] eqn:Hgr; cycle 1.
  { unfold RequestVote in Hrun. rw (bind_Ok _ _ _ _ _ (run_load_rt _ _ _ Hrt)) in Hrun.
    apply bind_Ok_inv in Hrun as (g & s1 & Hl & _). unfold load_group, get_state, mbind, M_bind in Hl.
    by rw Hgr in Hl. }
  rw (RequestVote_run _ _ _ _ rt g) // in Hrun.
  destruct (LastLogEntry _ _) as [e|]; [|done]. cbv zeta in Hrun.
  destruct (refuses rt g e req) eqn:Href; [injection Hrun as <- <-; by left|].
  assert (∀ j, (j ≤ Z.to_nat intervalCount)%nat →
    is_Some (Server.rtgroups (polled env j s) !! m)) as Hex.
  { intros j _. destruct (polled_record env m s j to term He Hs) as (r & ? & _). by exists r. }
  set (vote0 := sign_vote _ _) in Hrun.
  pose proof (lazy_vote_run env m req vote0 s 0 Hex (Nat.lt_0_succ 19)) as Hpoll.
  change (Z.to_nat intervalCount - 0)%nat with (Z.to_nat intervalCount) in Hpoll.
  change (Z.of_nat 0) with 0 in Hpoll. cbn [polled] in Hpoll. rw Hrun in Hpoll.
  destruct (poll_rounds _ _ _ _ _ _ Hpoll eq_refl) as (vote' & Ho & _ & Hres).
  cbn [fst snd] in Ho, Hres. injection Ho as <-.
  destruct Hres as [[-> ->]|(n & rt' & -> & Hrt' & ->)].
  - left. split; [done|]. by apply polled_record.
  - right. split; [exists (record_vote req rt'); split; [apply lookup_insert_eq|done]|].
    intros Heq. unfold refuses in Href. apply orb_false_iff in Href as [_ Href].
    rw Hterm Hto Heq Z.eqb_refl in Href. cbn [andb] in Href.
    apply andb_false_iff in Href as [H|H]; apply negb_false_iff, Z.eqb_eq in H; auto.
Qed.

Definition req_term (r : (Z → Server.t → Server.t) * RequestVoteRequest.t) : Z :=
  RequestVoteRequest.Term r.2.

Lemma serve_record m reqs s votes s' to term :
  Forall (λ r, keeps_record m r.1) reqs →
  Forall (λ r, RequestVoteRequest.CandidateId r.2 ≠ 0) reqs →
  StronglySorted (λ a b, req_term a ≤ req_term b) reqs →
  Forall (λ r, term ≤ req_term r) reqs →
  record_is s m to term → serve m reqs s = (Ok votes, s') →
  ∀ j env req vote, reqs !! j = Some (env, req) → votes !! j = Some vote →
    RequestVoteResponse.Granted vote = true → RequestVoteRequest.Term req = term →
    to = 0 ∨ to = RequestVoteRequest.CandidateId req.
Proof.
  revert s votes to term. induction reqs as [|[env0 req0] reqs IH]; intros s votes to term
    Henv Hcand Hsort Hge Hs Hrun j env req vote Hj Hv Hgr Hterm; [done|].
  apply Forall_cons in Henv as [He0 Henv]. apply Forall_cons in Hcand as [Hc0 Hcand].
  apply StronglySorted_inv in Hsort as [Hsort H0]. apply Forall_cons in Hge as [Hge0 Hge].
  cbn [serve] in Hrun. apply bind_Ok_inv in Hrun as (vote0 & s1 & H1 & Hrun).
  apply bind_Ok_inv in Hrun as (votes1 & s2 & H2 & Hrun). injection Hrun as <- <-.
  destruct (RequestVote_record _ _ _ _ _ _ _ _ He0 Hs H1) as [[Hno Hs1]|[Hs1 Hsame]].
  - destruct j as [|j]; simpl in *; [congruence|]. eapply IH; eauto.
  - destruct j as [|j]; simpl in *; [simplify_eq; auto|].
    assert (RequestVoteRequest.Term req0 = term) as Ht0.
    { rw Forall_forall in H0. apply list_elem_of_lookup_2 in Hj as Hin.
      specialize (H0 _ Hin). unfold req_term in *. simpl in *. lia. }
    destruct (IH s1 votes1 (RequestVoteRequest.CandidateId req0) (RequestVoteRequest.Term req0)
      Henv Hcand Hsort H0 Hs1 H2 j env req vote Hj Hv Hgr) as [|Heq];
      [congruence|done|]. rw -Heq. auto.
Qed.

(** C19. A voter serving requests whose terms do not decrease never grants two
    candidates the same term, as long as its voting record is otherwise left alone: not
    reset, as it is when the voter stands for election itself or follows a new leader,
    and starting with a vote for no later term. The candidates' ids are not zero, which
    stands for no vote. *)
Theorem one_vote_per_term m reqs s votes s' to term :
  Forall (λ r, keeps_record m r.1) reqs →
  Forall (λ r, RequestVoteRequest.CandidateId r.2 ≠ 0) reqs →
  StronglySorted (λ a b, req_term a ≤ req_term b) reqs →
  Forall (λ r, term ≤ req_term r) reqs →
  record_is s m to term → serve m reqs s = (Ok votes, s') →
  ∀ i j env1 req1 env2 req2 vote1 vote2,
    reqs !! i = Some (env1, req1) → votes !! i = Some vote1 →
    reqs !! j = Some (env2, req2) → votes !! j = Some vote2 →
    RequestVoteResponse.Granted vote1 = true → RequestVoteResponse.Granted vote2 = true →
    RequestVoteRequest.Term req1 = RequestVoteRequest.Term req2 →
    RequestVoteRequest.CandidateId req1 = RequestVoteRequest.CandidateId req2.
Proof.
  intros Henv Hcand Hsort Hge Hs Hrun i j env1 req1 env2 req2 vote1 vote2.
  wlog: i j env1 req1 env2 req2 vote1 vote2 / (i ≤ j)%nat.
  { intros Hw. destruct (decide (i ≤ j)%nat); [eapply Hw; eassumption|].
    intros. symmetry. eapply (Hw j i); eauto. lia. }
  revert i j s votes to term Henv Hcand Hsort Hge Hs Hrun.
  induction reqs as [|[env0 req0] reqs IH]; intros i j s votes to term Henv Hcand Hsort Hge Hs Hrun
    Hij H1 Hv1 H2 Hv2 Hg1 Hg2 Hterm; [done|].
  apply Forall_cons in Henv as [He0 Henv]. apply Forall_cons in Hcand as [Hc0 Hcand].
  apply StronglySorted_inv in Hsort as [Hsort H0]. apply Forall_cons in Hge as [Hge0 Hge].
  cbn [serve] in Hrun. apply bind_Ok_inv in Hrun as (vote0 & s1 & Hr1 & Hrun).
  apply bind_Ok_inv in Hrun as (votes1 & s2 & Hr2 & Hrun). injection Hrun as <- <-.
  destruct (RequestVote_record _ _ _ _ _ _ _ _ He0 Hs Hr1) as [[Hno Hs1]|[Hs1 Hsame]];
    destruct i as [|i], j as [|j]; simpl in *; try lia; try congruence.
  - eapply (IH i j); eauto. lia.
  - simplify_eq. destruct (serve_record m reqs s1 votes1 s2 _ _ Henv Hcand Hsort H0 Hs1 Hr2
      j env2 req2 vote2 H2 Hv2 Hg2 (eq_sym Hterm)); congruence.
  - eapply (IH i j s1 votes1 (RequestVoteRequest.CandidateId req0) (RequestVoteRequest.Term req0));
      eauto; lia.
Qed.

(** ** Voting twice *)

(** The rest of the node leaves its record of the group and its last entry alone. *)
Definition keeps_group (m : nat) (env : Z → Server.t → Server.t) : Prop :=
  ∀ k s rt g, has_group s m rt g → has_group (env k s) m rt g ∧
    LastLogEntry (Server.DB (env k s)) (RaftGroup.Id g) = LastLogEntry (Server.DB s) (RaftGroup.Id g).

(** A node that is no follower grants a vote to whom it may, at once. *)
Lemma eligible_granted env m req s rt g e :
  has_group s m rt g → LastLogEntry (Server.DB s) (RaftGroup.Id g) = Some e →
  RTGroup.Role rt ≠ FOLLOWER → keeps_group m env → refuses rt g e req = false →
  ∃ vote s', RequestVote env m req s = (Ok vote, s') ∧ RequestVoteResponse.Granted vote = true ∧
    RequestVoteResponse.CandidateId vote = RequestVoteRequest.CandidateId req ∧
    has_group s' m (record_vote req rt) g ∧ LastLogEntry (Server.DB s') (RaftGroup.Id g) = Some e.
Proof.
  intros Hg He Hrole Henv Href. rw (RequestVote_run _ _ _ _ _ _ Hg) He. cbv zeta. rw Href.
  change (Z.to_nat intervalCount) with (S 19). rw lazy_vote_round. cbv zeta.
  destruct (Henv 0 (Server.upd_now (Z.add (interval * Millisecond)) s) rt g Hg) as [[Hm Hp] Hl].
  set (s' := env 0 _) in *. rw Hm (proj2 (Z.eqb_neq _ _) Hrole). cbn [negb].
  eexists _, _. split; [reflexivity|]. split; [done|]. split; [done|]. split; [|by rw -He].
  split; [apply lookup_insert_eq|exact Hp].
Qed.

Lemma serve_cons m env req reqs s vote s1 votes s2 :
  RequestVote env m req s = (Ok vote, s1) → serve m reqs s1 = (Ok votes, s2) →
  serve m ((env, req) :: reqs) s = (Ok (vote :: votes), s2).
Proof. intros H1 H2. cbn [serve]. by rw (bind_Ok _ _ _ _ _ H1) (bind_Ok _ _ _ _ _ H2). Qed.

(** C40. A node remembers its last vote only, so that it can vote twice in one term: a
    member that is no follower and may vote for a candidate does so, then votes for
    whoever asks for another term, and is then free to vote for a second candidate in
    the first term, whoever that is. *)
Theorem double_vote m s rt g e env1 env2 env3 req1 req2 req3 :
  has_group s m rt g → LastLogEntry (Server.DB s) (RaftGroup.Id g) = Some e →
  RTGroup.Role rt ≠ FOLLOWER → is_u64 (RaftGroup.Term g) →
  is_u64 (RequestVoteRequest.Term req1) → is_u64 (RequestVoteRequest.Term req2) →
  keeps_group m env1 → keeps_group m env2 → keeps_group m env3 →
  eligible rt g e req1 →
  RaftGroup.Term g < RequestVoteRequest.Term req2 ≤ RaftGroup.Term g + MAX_TERM_BUMP →
  RequestVoteRequest.Term req2 ≠ RequestVoteRequest.Term req1 →
  RequestVoteRequest.Term req3 = RequestVoteRequest.Term req1 →
  LogEntry.Index e ≤ RequestVoteRequest.LogIndex req2 →
  LogEntry.Index e ≤ RequestVoteRequest.LogIndex req3 →
  ∃ vote1 vote2 vote3 s',
    serve m [(env1, req1); (env2, req2); (env3, req3)] s = (Ok [vote1; vote2; vote3], s') ∧
    RequestVoteResponse.Granted vote1 = true ∧
    RequestVoteResponse.CandidateId vote1 = RequestVoteRequest.CandidateId req1 ∧
    RequestVoteResponse.Granted vote3 = true ∧
    RequestVoteResponse.CandidateId vote3 = RequestVoteRequest.CandidateId req3.
Proof.
  intros Hg He Hrole Hug Hu1 Hu2 Henv1 Henv2 Henv3 Hel Ht2 Hne Ht3 Hl2 Hl3.
  destruct (eligible_granted env1 m req1 s rt g e Hg He Hrole Henv1) as
    (vote1 & s1 & H1 & Hv1 & Hc1 & Hg1 & He1); [by apply refuses_eligible|].
  destruct (eligible_granted env2 m req2 s1 (record_vote req1 rt) g e Hg1 He1 Hrole Henv2) as
    (vote2 & s2 & H2 & _ & _ & Hg2 & He2); [by apply refuses_eligible|].
  destruct (eligible_granted env3 m req3 s2 (record_vote req2 (record_vote req1 rt)) g e Hg2 He2
    Hrole Henv3) as (vote3 & s3 & H3 & Hv3 & Hc3 & _).
  { apply refuses_eligible; [done|by rw Ht3|]. split; [rw Ht3; apply Hel|done|].
    cbn. intros. congruence. }
  exists vote1, vote2, vote3, s3. split; [|done].
  by apply (serve_cons _ _ _ _ _ _ _ _ _ H1), (serve_cons _ _ _ _ _ _ _ _ _ H2),
    (serve_cons _ _ _ _ _ _ _ _ _ H3).
Qed.
End facts.

(** * Where the protocol falls short *)

(** With an empty log, as every new group has, a vote request brings the node
    down. *)
Theorem RequestVote_empty_log {W : World} env m req s rt g :
  has_group s m rt g → log_at (Server.DB s) (RaftGroup.Id g) [] →
  RequestVote env m req s = (Panic nil_deref, s).
Proof.
  intros Hg Hl. rw (RequestVote_run _ _ _ _ _ _ Hg). by rw (LastLogEntry_at _ _ _ Hl).
Qed.

Definition idle : Z → Server.t → Server.t := λ _ s, s.

Definition demo_request (term candidate : Z) : RequestVoteRequest.t :=
  RequestVoteRequest.mk demo_group_id term 1 1 candidate [].

(** * Witnesses *)

Definition demo_vote (voter candidate term : Z) : RequestVoteResponse.t :=
  sign_vote (W:=mem_world) voter (RequestVoteResponse.mk demo_group_id term 1 candidate voter true []).

Definition demo_append (leader term : Z) (votes : list RequestVoteResponse.t)
    : AppendEntriesRequest.t :=
  AppendEntriesRequest.mk demo_group_id term leader 0 0 [] votes [].

(** Node 1, a candidate, hears from 2 with the votes of 2 and 3. *)
Definition demo_claim (term : Z) : AppendEntriesRequest.t :=
  demo_append 2 term [demo_vote 2 2 1; demo_vote 3 2 1].

Definition demo_voter : Server.t := node 1 0 CANDIDATE 1 (demo_log 1).

Lemma demo_voter_group : has_group demo_voter 0 (demo_rt 0 CANDIDATE) (demo_group 1).
Proof. by split. Qed.

Lemma demo_claim_checkable term : votes_checkable demo_voter (demo_rt 0 CANDIDATE) (demo_claim term).
Proof.
  intros vote peer Hv. cbn in Hv.
  repeat (apply elem_of_cons in Hv as [->|Hv]);
    [intros [= <-]; by eexists; vm_compute..|by apply not_elem_of_nil in Hv].
Qed.

Lemma demo_peers_keyed : peers_keyed demo_peers.
Proof.
  intros k p Hp. apply elem_of_list_to_map_2 in Hp.
  repeat (apply elem_of_cons in Hp as [[= -> ->]|Hp]; [done|]). by apply not_elem_of_nil in Hp.
Qed.

Lemma demo_claim_vouched term :
  vouched demo_voter (demo_rt 0 CANDIDATE) demo_group_id (demo_claim term) {[2; 3]}.
Proof.
  split; [by vm_compute|]. intros v [Hv%elem_of_singleton|Hv%elem_of_singleton]%elem_of_union; subst v.
  - exists (demo_vote 2 2 1). split; [left|]. split; try done; [by eexists|exists 2; by split; vm_compute].
  - exists (demo_vote 3 2 1). split; [right; left|].
    split; try done; [by eexists|exists 3; by split; vm_compute].
Qed.

Lemma BecomeFollower_quorum_witness :
  ∃ s', BecomeFollower 0 (demo_claim 3) demo_voter = (Ok true, s').
Proof.
  destruct (BecomeFollower_quorum 0 (demo_claim 3) (demo_rt 0 CANDIDATE) (demo_group 1) demo_voter
    demo_voter_group (demo_claim_checkable 3)) as (b & s' & Hrun & [_ Hb] & _).
  exists s'. rw Hrun Hb; [|done]. exists {[2; 3]}. apply demo_claim_vouched.
Defined.

Lemma demo_accepts term : ∃ s', BecomeFollower 0 (demo_claim term) demo_voter = (Ok true, s').
Proof.
  destruct (BecomeFollower_returns 0 (demo_claim term) _ _ _ demo_voter_group
    (demo_claim_checkable term)) as (b & s' & Hrun).
  destruct (BecomeFollower_cases _ _ _ _ _ _ _ demo_voter_group Hrun) as [[_ Hb] _].
  exists s'. rw Hrun Hb; [|done]. exists {[2; 3]}. apply demo_claim_vouched.
Qed.

Lemma accepted_leaders_share_voter_witness :
  ∃ v vote1 vote2, vote1 ∈ AppendEntriesRequest.QuorumVotes (demo_claim 3) ∧
    valid_vote demo_voter (demo_rt 0 CANDIDATE) demo_group_id 2 v vote1 ∧
    vote2 ∈ AppendEntriesRequest.QuorumVotes (demo_claim 4) ∧
    valid_vote demo_voter (demo_rt 0 CANDIDATE) demo_group_id 2 v vote2.
Proof.
  destruct (demo_accepts 3) as [s1 H1], (demo_accepts 4) as [s2 H2].
  exact (accepted_leaders_share_voter 0 0 (demo_claim 3) (demo_claim 4) demo_voter demo_voter s1 s2
    (demo_rt 0 CANDIDATE) (demo_rt 0 CANDIDATE) (demo_group 1) (demo_group 1)
    demo_voter_group demo_voter_group demo_peers_keyed demo_peers_keyed eq_refl H1 H2).
Defined.

Lemma BecomeFollower_ignores_vote_terms_witness :
  ∃ s' s'', BecomeFollower 0 (demo_claim 3) demo_voter = (Ok true, s') ∧
    BecomeFollower 0 (demo_claim 1000) demo_voter = (Ok true, s'') ∧ true = true.
Proof.
  destruct (demo_accepts 3) as [s1 H1], (demo_accepts 1000) as [s2 H2].
  exists s1, s2. split; [done|]. split; [done|].
  exact (BecomeFollower_ignores_vote_terms 0 (demo_claim 3) (demo_claim 1000)
    (demo_rt 0 CANDIDATE) (demo_group 1) demo_voter true true s1 s2 demo_voter_group
    eq_refl eq_refl H1 H2).
Defined.

Lemma demo_voter_last :
  LastLogEntry (Server.DB demo_voter) demo_group_id =
  Some (demo_entry 1 1 (genesis_hash demo_group_id)).
Proof. exact (LastLogEntry_at _ _ _ (demo_db_log 1 1 eq_refl)). Qed.

Lemma demo_eligible :
  eligible (demo_rt 0 CANDIDATE) (demo_group 1) (demo_entry 1 1 (genesis_hash demo_group_id))
    (demo_request 2 3).
Proof. split; [done|done|by left]. Qed.

Lemma demo_candidate : ∃ k, (1 ≤ k ≤ 20)%nat ∧ role_at (polled idle k demo_voter) 0 ≠ FOLLOWER.
Proof. exists 1%nat. split; [lia|by vm_compute]. Qed.

Lemma RequestVote_decision_witness :
  ∃ vote s', RequestVote idle 0 (demo_request 2 3) demo_voter = (Ok vote, s') ∧
    RequestVoteResponse.Granted vote = true.
Proof.
  destruct (RequestVote_decision idle 0 (demo_request 2 3) demo_voter (demo_rt 0 CANDIDATE)
    (demo_group 1) (demo_entry 1 1 (genesis_hash demo_group_id)) demo_voter_group demo_voter_last)
    as (vote & s' & Hrun & [_ Hg] & _); [done|done|exact (λ k s, reflexivity (R:=frame) s)|].
  exists vote, s'. split; [done|]. apply Hg. split; [exact demo_eligible|exact demo_candidate].
Defined.

Definition demo_reqs : list ((Z → Server.t → Server.t) * RequestVoteRequest.t) :=
  [(idle, demo_request 2 3); (idle, demo_request 2 2)].

Lemma demo_idle_keeps m : keeps_record m idle.
Proof. intros k s rt Hrt. by exists rt. Qed.

Lemma demo_reqs_serve :
  match (serve 0 demo_reqs demo_voter).1 with
  | Ok [vote1; vote2] => RequestVoteResponse.Granted vote1 = true
  | _ => False
  end.
Proof. by vm_compute. Qed.

Lemma demo_reqs_keep : Forall (λ r, keeps_record 0 r.1) demo_reqs.
Proof. repeat apply Forall_cons_2; try apply demo_idle_keeps. apply Forall_nil_2. Qed.

Lemma demo_reqs_candidates : Forall (λ r, RequestVoteRequest.CandidateId r.2 ≠ 0) demo_reqs.
Proof. by repeat apply Forall_cons_2. Qed.

Lemma demo_reqs_sorted : StronglySorted (λ a b, req_term a ≤ req_term b) demo_reqs.
Proof. by repeat (constructor || apply Forall_cons_2). Qed.

Lemma demo_reqs_terms : Forall (λ r, 0 ≤ req_term r) demo_reqs.
Proof. by repeat apply Forall_cons_2. Qed.

Lemma demo_voter_record : record_is demo_voter 0 0 0.
Proof. by exists (demo_rt 0 CANDIDATE). Qed.

Lemma one_vote_per_term_witness :
  match (serve 0 demo_reqs demo_voter).1 with
  | Ok [vote1; vote2] =>
    RequestVoteResponse.Granted vote1 = true ∧ (RequestVoteResponse.Granted vote2 = true → 3 = 2)
  | _ => False
  end.
Proof.
  generalize demo_reqs_serve.
  destruct (serve 0 demo_reqs demo_voter) as [[[|v1 [|v2 [|]]]|e|w] s'] eqn:Hrun;
    intros Hv; try (exfalso; exact Hv).
  split; [exact Hv|]. intros Hv2.
  exact (one_vote_per_term 0 demo_reqs demo_voter [v1; v2] s' 0 0 demo_reqs_keep
    demo_reqs_candidates demo_reqs_sorted demo_reqs_terms demo_voter_record Hrun 0%nat 1%nat idle
    (demo_request 2 3) idle (demo_request 2 2) v1 v2 eq_refl eq_refl eq_refl eq_refl
    Hv Hv2 eq_refl).
Defined.

Lemma RequestVote_empty_log_witness :
  RequestVote idle 0 (demo_request 2 3) (node 1 0 CANDIDATE 1 []) =
    (Panic nil_deref, node 1 0 CANDIDATE 1 []).
Proof.
  exact (RequestVote_empty_log idle 0 (demo_request 2 3) (node 1 0 CANDIDATE 1 [])
    (demo_rt 0 CANDIDATE) (demo_group 1) (conj eq_refl eq_refl) (demo_db_log 1 0 eq_refl)).
Defined.

Definition demo_own_ballot : RequestVoteResponse.t :=
  RequestVoteResponse.mk demo_group_id 1 1 1 1 false [].

Lemma lazy_vote_terminates_witness :
  polls idle 0 (demo_request 1 1) demo_own_ballot 0 demo_voter
    (lazy_vote idle 20 0 0 (demo_request 1 1) demo_own_ballot demo_voter).
Proof.
  exact (proj1 (lazy_vote_terminates idle 0 (demo_request 1 1) demo_own_ballot demo_voter 20 (le_n 20))).
Defined.

Lemma double_vote_witness :
  ∃ vote1 vote2 vote3 s',
    serve 0 [(idle, demo_request 5 2); (idle, demo_request 3 3); (idle, demo_request 5 3)] demo_voter =
      (Ok [vote1; vote2; vote3], s') ∧
    RequestVoteResponse.Granted vote1 = true ∧ RequestVoteResponse.CandidateId vote1 = 2 ∧
    RequestVoteResponse.Granted vote3 = true ∧ RequestVoteResponse.CandidateId vote3 = 3.
Proof.
  assert (keeps_group (W:=mem_world) 0 idle) as Hidle by (intros k s rt g Hg; split; [exact Hg|reflexivity]).
  apply (double_vote 0 demo_voter (demo_rt 0 CANDIDATE) (demo_group 1)
    (demo_entry 1 1 (genesis_hash demo_group_id)) idle idle idle (demo_request 5 2) (demo_request 3 3)
    (demo_request 5 3) demo_voter_group demo_voter_last); done.
Defined.
