(* ===== verification/Membership.v ===== *)
(** The membership functions of the replicated state machine and the calls that
    invoke them: [server/membership.go], with [CommitGroupLog] of
    [server/log_entries.go], and [RegisterRaftFunc] and [SendGroupInvitation] of
    [server/bftraft.go].

    A server's function table holds its own four functions and those of the
    application; the latter are the interface [RaftFns]. [RegHost], [NodeJoin]
    and [NewGroup] submit a command to the alpha group: what the client's
    [ExecCommand] answers is their argument [exec], and what other goroutines do
    to the server while they wait is [during_exec] and [during_wait]. *)
From S2P Require Export Lookups.

Definition NODE_JOIN : Z := 0.
Definition REG_NODE : Z := 1.
Definition NEW_CLIENT : Z := 2.
Definition NEW_GROUP : Z := 3.

Definition index_out_of_range : string := "runtime error: index out of range".

Section functions.
Context {W : World}.

(** The functions an application registers: they leave logs, the server's
    identity and the groups' records in place. *)
Class RaftFns := {
  user_apply : Z → bytes → LogEntry.t → MS bytes;
  user_apply_frame n arg entry : preserves frame (user_apply n arg entry)
}.

(** * The functions of the alpha group *)

Definition SMRegHost (arg : bytes) (entry : LogEntry.t) : MS bytes :=
  let '(node, ok) := unmarshal arg in
  if (ok : bool) then
    let node := Host.set_Online true (Host.set_Id (HashPublicKeyBytes (Host.PublicKey node)) node) in
    _ ← ignore (DB_Update (txn_write (λ txn, SaveHost txn node)));
    mret [1]
  else mret [0].

Definition SMNodeJoin (arg : bytes) (entry : LogEntry.t) : MS bytes :=
  let '(req, ok) := unmarshal arg in
  if (ok : bool) then
    cmd ← unwrap (LogEntry.Command entry);
    let node := CommandRequest.ClientId cmd in
    let groupId := NodeJoinGroupEntry.Group req in
    let peer := Peer.mk node groupId 0 0 in
    err ← try_ (DB_Update (
      h ← GetHost node;
      match h with
      | None => throw "cannot find node"
      | Some _ =>
        self ← gets Server.Id;
        if node =? self then mret tt
        else
          group ← GetGroup groupId;
          peers ← txn_read (λ txn, GetGroupPeersFromKV txn groupId);
          peers ← lift peers;
          group ← unwrap group;
          group ← load_group group;
          if RaftGroup.Replications group <=? Z.of_nat (size (peers : gmap Z Peer.t))
          then throw "exceed replications"
          else txn_write (λ txn, SavePeer txn peer)
      end));
    match err with
    | inl _ => mret [0]
    | inr _ =>
      meta ← GetOnboardGroup groupId;
      match meta with
      | Some meta =>
        node ← GetHostNTXN (CommandRequest.ClientId cmd);
        node ← unwrap node;
        let address := Host.ServerAddr node in
        rt ← load_rt meta;
        self ← gets Server.Id;
        let inv := GroupInvitation.mk groupId (RTGroup.Leader rt) self [] in
        signature ← server_sign (InvitationSignature inv);
        let inv := GroupInvitation.set_Signature signature inv in
        client ← GetClusterRPC address;
        if (client : bool) then
          _ ← call (Rpc_SendGroupInvitation address inv);
          _ ← update_rt meta (RTGroup.upd_GroupPeers <[Peer.Id peer := peer]>);
          mret [1]
        else mret [0]
      | None => mret [1]
      end
    end
  else mret [0].

Definition SMNewClient (arg : bytes) (entry : LogEntry.t) : MS bytes :=
  let '(client, ok) := unmarshal arg in
  if (ok : bool) then
    let client := Host.set_Id (HashPublicKeyBytes (Host.PublicKey client)) client in
    err ← try_ (SaveHostNTXN client);
    match err with inr _ => mret [1] | inl _ => mret [0] end
  else mret [0].

(** [s.PendingNewGroups[id] <- err] from a goroutine of its own: it never gets
    through when there is no such channel. *)
Definition send_pending (groupId : Z) (err : option string) : MS unit :=
  modify (Server.upd_PendingNewGroups (alter (λ c, c ++ [err]) groupId)).

(** The inner test of the transaction returns the nil error when [SavePeer]
    succeeded and [nil] when it did not. *)
Definition SMNewGroup (arg : bytes) (entry : LogEntry.t) : MS bytes :=
  cmd ← unwrap (LogEntry.Command entry);
  let hostId := CommandRequest.ClientId cmd in
  let '(group, ok) := unmarshal arg in
  if negb (ok : bool) then mret [0]
  else if (RaftGroup.Replications group <? 1) || (100 <? RaftGroup.Replications group)
  then mret [0]
  else
    let peer := Peer.mk hostId (RaftGroup.Id group) 0 0 in
    err ← try_ (DB_Update (
      existing ← GetGroup (RaftGroup.Id group);
      match existing with
      | Some _ => throw "group existed"
      | None =>
        _ ← txn_write (λ txn, SaveGroup txn (RaftGroup.set_Term 0 group));
        ignore (txn_write (λ txn, SavePeer txn peer))
      end));
    match err with
    | inr _ =>
      self ← gets Server.Id;
      _ ← (if self =? hostId then
             g ← new_group_ptr (RaftGroup.set_Term 0 group);
             meta ← NewRTGroup hostId {[ Peer.Id peer := peer ]} g LEADER;
             _ ← SetOnboardGroup meta;
             send_pending (RaftGroup.Id group) None
           else mret tt);
      mret (U64Bytes (LogEntry.Index entry))
    | inl e =>
      _ ← send_pending (RaftGroup.Id group) (Some e);
      mret [0]
    end.

(** * The function table *)

Context `{!RaftFns}.

Definition fn_apply (fn : raft_fn) : bytes → LogEntry.t → MS bytes :=
  match fn with
  | Fn_SMNodeJoin => SMNodeJoin
  | Fn_SMRegHost => SMRegHost
  | Fn_SMNewClient => SMNewClient
  | Fn_SMNewGroup => SMNewGroup
  | Fn_user n => user_apply n
  end.

Definition RegisterRaftFunc (func_id : Z) (fn : raft_fn) : MS unit :=
  modify (Server.upd_FuncReg <[func_id := fn]>).

Definition RegisterMembershipCommands : MS unit :=
  _ ← RegisterRaftFunc NODE_JOIN Fn_SMNodeJoin;
  _ ← RegisterRaftFunc REG_NODE Fn_SMRegHost;
  _ ← RegisterRaftFunc NEW_CLIENT Fn_SMNewClient;
  RegisterRaftFunc NEW_GROUP Fn_SMNewGroup.

(** Calling a function that is not in the table dereferences nil. *)
Definition CommitGroupLog (m : nat) (entry : LogEntry.t) : MS bytes :=
  cmd ← unwrap (LogEntry.Command entry);
  let funcId := CommandRequest.FuncId cmd in
  fn ← gets (λ s, Server.FuncReg s !! funcId);
  fn ← unwrap fn;
  fn_apply fn (CommandRequest.Arg cmd) entry.

(** * Calls into the alpha group *)

Definition RegHost (exec : Z → Z → bytes → outcome bytes) : MS unit :=
  key ← gets Server.SigningKey;
  publicKeyBytes ← lift (match pkix_marshal (PublicKeyFromPrivate key) with
                         | inr b => Ok b | inl e => Err e end);
  self ← gets Server.Id;
  opts ← gets Server.Opts;
  let host := Host.mk self 0 true (Options.Address opts) publicKeyBytes in
  hostData ← lift (proto_marshal host);
  _ ← ignore (SaveHostNTXN host);
  res ← lift (exec ALPHA_GROUP REG_NODE hostData);
  match (res : bytes) with
  | [] => panic index_out_of_range
  | r :: _ =>
    if r =? 0 then throw "remote error"
    else if r =? 1 then mret tt
    else throw "unexpected"
  end.

(** [s.GroupInvitations[inv.Group] <- inv] from a goroutine of its own. *)
Definition SendGroupInvitation (inv : GroupInvitation.t) : MS unit :=
  modify (Server.upd_GroupInvitations (alter (λ c, c ++ [inv]) (GroupInvitation.Group inv))).

(** The loop that receives invitations: the members that sent one, and the
    leader each named first. *)
Fixpoint receive_invitations (hostsMap : gset Z) (invs : list GroupInvitation.t)
    (invitations : gset Z) (invLeaders : list Z) : gset Z * list Z :=
  match invs with
  | [] => (invitations, invLeaders)
  | inv :: rest =>
    let node := GroupInvitation.Node inv in
    if decide (node ∈ hostsMap) then
      if decide (node ∈ invitations) then
        receive_invitations hostsMap rest invitations invLeaders
      else receive_invitations hostsMap rest ({[node]} ∪ invitations)
             (invLeaders ++ [GroupInvitation.Leader inv])
    else receive_invitations hostsMap rest invitations invLeaders
  end.

(** When the node would lead the group, [leader] is assigned where [role] should
    be. *)
Definition NodeJoin (exec : Z → Z → bytes → outcome bytes)
    (during_exec during_wait : Server.t → Server.t) (groupId : Z) : MS unit :=
  joinData ← lift (proto_marshal (NodeJoinGroupEntry.mk groupId));
  _ ← modify (Server.upd_GroupInvitations <[groupId := []]>);
  res ← lift (exec ALPHA_GROUP NODE_JOIN joinData);
  _ ← modify during_exec;
  match (res : bytes) with
  | [] => panic index_out_of_range
  | r :: _ =>
    if r =? 1 then
      hosts ← GetGroupHostsNTXN groupId;
      let hostsMap : gset Z := list_to_set (Host.Id <$> hosts) in
      let expectedResponse := ExpectedPlayers (Z.of_nat (size hostsMap)) in
      _ ← modify during_wait;
      invs ← gets (λ s, default [] (Server.GroupInvitations s !! groupId));
      let '(invitations, invLeaders) := receive_invitations hostsMap invs ∅ [] in
      if expectedResponse <=? Z.of_nat (size invitations) then
        group ← GetGroupNTXN groupId;
        self ← gets Server.Id;
        let peer := Peer.mk self groupId 0 0 in
        r ← try_ (DB_Update (
          groupPeers ← txn_read (λ txn, GetGroupPeersFromKV txn (Peer.Group peer));
          groupPeers ← lift groupPeers;
          _ ← txn_write (λ txn, SavePeer txn peer);
          mret (groupPeers : gmap Z Peer.t)));
        match r with
        | inr groupPeers =>
          let leader := PickMajority invLeaders in
          let groupPeers := <[self := peer]> groupPeers in
          let role := FOLLOWER in
          let leader := if leader =? self then LEADER else leader in
          group ← unwrap group;
          meta ← NewRTGroup leader groupPeers group role;
          SetOnboardGroup meta
        | inl _ => mret tt
        end
      else
        _ ← modify (Server.upd_GroupInvitations (delete groupId));
        throw "receive invitation timeout"
    else throw "remote error"
  end.

Definition NewGroup (exec : Z → Z → bytes → outcome bytes)
    (during_exec during_wait : Server.t → Server.t) (group : RaftGroup.t) : MS unit :=
  groupData ← lift (proto_marshal group);
  _ ← modify (Server.upd_PendingNewGroups <[RaftGroup.Id group := []]>);
  res ← lift (exec ALPHA_GROUP NEW_GROUP groupData);
  _ ← modify during_exec;
  if (1 <? length (res : bytes))%nat then
    _ ← modify during_wait;
    pending ← gets (λ s, Server.PendingNewGroups s !! RaftGroup.Id group);
    match pending with
    | Some (None :: _) => mret tt
    | Some (Some e :: _) => throw e
    | _ => throw "timeout"
    end
  else throw "remote error".
End functions.
