(* ===== verification/MembershipFacts.v ===== *)
(** What the membership functions do: they respect the frame of [Server.v], so
    that committing an entry never disturbs a log; and each against its
    contract. *)
From S2P Require Export Membership Voting Scenario.

Section facts.
Context {W : World} {F : RaftFns}.

(** * The frame *)

Lemma frame_SMRegHost arg entry : preserves frame (SMRegHost arg entry).
Proof. unfold SMRegHost. solve_frame. Qed.

Lemma frame_update_peers `{!Storing R} meta f : preserves R (update_rt meta (RTGroup.upd_GroupPeers f)).
Proof. by apply frame_update_rt. Qed.

Lemma frame_load_group `{!Storing R} g : preserves R (load_group g).
Proof. unfold load_group. solve_frame. Qed.

Lemma frame_throw_if `{!Storing R} {A} (b : bool) e (m : MS A) :
  preserves R m → preserves R (if b then throw e else m).
Proof. destruct b; [intros _; apply preserves_throw, _|done]. Qed.

Lemma frame_SMNodeJoin `{!Storing R} arg entry : preserves R (SMNodeJoin arg entry).
Proof.
  unfold SMNodeJoin, GetOnboardGroup, GetClusterRPC. solve_frame.
  - apply storing_update. unfold txn_read. solve_frame. apply frame_load_group.
  - apply frame_update_peers.
Qed.

Lemma frame_SMNewClient arg entry : preserves frame (SMNewClient arg entry).
Proof. unfold SMNewClient. solve_frame. Qed.

Lemma frame_SMNewGroup `{!Storing R} arg entry : preserves R (SMNewGroup arg entry).
Proof.
  pose proof (W_group_u64 arg) as Hu. unfold SMNewGroup, send_pending.
  destruct (unmarshal arg) as [group ok]. solve_frame.
  apply storing_update. solve_frame.
Qed.

Lemma frame_fn_apply fn arg entry : preserves frame (fn_apply fn arg entry).
Proof.
  destruct fn; [apply frame_SMNodeJoin|apply frame_SMRegHost|apply frame_SMNewClient
               |apply frame_SMNewGroup|apply user_apply_frame].
Qed.

Lemma frame_CommitGroupLog m entry : preserves frame (CommitGroupLog m entry).
Proof. unfold CommitGroupLog. solve_frame. apply frame_fn_apply. Qed.

(** * The store under the membership functions *)

Lemma SaveGroup_get txn txn' g :
  SaveGroup txn g = Ok txn' → GetGroupFromKV txn' (RaftGroup.Id g) = Some g.
Proof.
  unfold SaveGroup, proto_marshal, txn_set, GetGroupFromKV.
  destruct (marshal g) as [|b] eqn:Hm; [done|]. destruct (kv_set _ _ _) as [|d] eqn:Hs; [done|].
  intros [= <-]. rw (kv_get_set _ _ _ _ Hs). simpl. by rw (unmarshal_marshal _ _ Hm).
Qed.

Lemma SavePeer_GetGroup txn txn' p gid :
  SavePeer txn p = Ok txn' → GetGroupFromKV txn' gid = GetGroupFromKV txn gid.
Proof.
  unfold SavePeer, txn_set, GetGroupFromKV. destruct (proto_marshal p); [|done..].
  destruct (kv_set _ _ _) as [|d] eqn:Hs; [done|]. intros [= <-].
  assert (peers_prefix (Peer.Group p) ++ U64Bytes (Peer.Id p) ≠ group_key gid) as Hne.
  { intros Heq. pose proof (length_ComposeKeyPrefix gid GROUP_META) as H12. fold (group_key gid) in H12.
    rw -Heq length_app in H12. unfold peers_prefix in H12.
    rw (length_ComposeKeyPrefix (Peer.Group p) GROUP_PEERS) (length_U64Bytes (Peer.Id p)) in H12.
    discriminate H12. }
  by rw (kv_get_set_ne _ _ _ _ (group_key gid) Hs Hne).
Qed.

Lemma SaveGroup_peers txn txn' g gid t :
  SaveGroup txn g = Ok txn' → peers_at txn gid t → peers_at txn' gid t.
Proof.
  unfold SaveGroup, txn_set. destruct (proto_marshal g); [|done..].
  destruct (kv_set _ _ _) as [|d] eqn:Hs; [done|]. intros [= <-] [Ht Hi]. split; [|done].
  apply (table_set_other _ _ _ _ _ _ Ht Hs). unfold peers_prefix, group_key.
  rw -(app_nil_r (ComposeKeyPrefix _ GROUP_META)). by apply has_prefix_kinds.
Qed.

Lemma SaveHost_get txn txn' h :
  SaveHost txn h = Ok txn' →
  ∃ b, marshal h = inr b ∧ kv_get txn' (hosts_prefix ++ U64Bytes (Host.Id h)) = KVFound (Some b).
Proof.
  unfold SaveHost, proto_marshal, txn_set. destruct (marshal h) as [|b] eqn:Hm; [done|].
  destruct (kv_set _ _ _) as [|d] eqn:Hs; [done|]. intros [= <-]. exists b.
  split; [done|]. exact (kv_get_set _ _ _ _ Hs).
Qed.

Lemma GetGroup_absent s gid :
  sm_get (Server.Groups s) (id_key gid) = None → GetGroupFromKV (Server.DB s) gid = None →
  GetGroup gid s = (Ok None, s).
Proof.
  intros Hc Hd. unfold GetGroup, gets, txn_read, mbind, M_bind. rw Hc. unfold gets. by rw Hd.
Qed.

Lemma run_txn_write s f d :
  f (Server.DB s) = Ok d → txn_write f s = (Ok tt, Server.upd_DB (λ _, d) s).
Proof. intros Hf. unfold txn_write, gets, lift, modify, mbind, M_bind. by rw Hf. Qed.

(** A saved peer is what its group's peers are read back with; the peers of
    other groups, the groups and the logs stay as they were. *)
Theorem SavePeer_stores txn txn' peer t :
  peers_at txn (Peer.Group peer) t → is_u64 (Peer.Id peer) → is_u64 (Peer.Group peer) →
  SavePeer txn peer = Ok txn' →
  GetGroupPeersFromKV txn' (Peer.Group peer) = Ok (<[Peer.Id peer := peer]> t) ∧
  (∀ g t', is_u64 g → g ≠ Peer.Group peer → peers_at txn g t' → GetGroupPeersFromKV txn' g = Ok t') ∧
  (∀ g, GetGroupFromKV txn' g = GetGroupFromKV txn g) ∧
  (∀ g l, log_at txn g l → log_at txn' g l).
Proof.
  intros Ht Hu Hgu Hs. split; [|split; [|split]].
  - apply GetGroupPeers_at. exact (SavePeer_at _ _ _ _ _ Ht eq_refl Hu Hs).
  - intros g t' Hg Hne [Ht' Hi]. apply GetGroupPeers_at. split; [|done].
    revert Hs. unfold SavePeer, txn_set. destruct (proto_marshal peer); [|done..].
    destruct (kv_set _ _ _) as [|d] eqn:Hset; [done|]. intros [= <-].
    apply (table_set_other _ _ _ _ _ _ Ht' Hset). unfold peers_prefix.
    apply has_prefix_other; [by rw !length_ComposeKeyPrefix|].
    intros [_ Heq]%app_inj_1; [|by rw !length_U32Bytes]. by apply U64Bytes_inj in Heq.
  - intros g. exact (SavePeer_GetGroup _ _ _ g Hs).
  - intros g l Hl. revert Hs. unfold SavePeer, txn_set. destruct (proto_marshal peer); [|done..].
    destruct (kv_set _ _ _) as [|d] eqn:Hset; [done|]. intros [= <-].
    exact (log_at_set_other _ _ _ _ _ _ _ _ Hset ltac:(done) ltac:(done) Hl).
Qed.

(** * New groups *)

Definition creator_peer (group : RaftGroup.t) (hostId : Z) : Peer.t :=
  Peer.mk hostId (RaftGroup.Id group) 0 0.

(** The transaction of [SMNewGroup] for a group that does not exist. *)
Lemma new_group_txn s group hostId d1 d2 :
  sm_get (Server.Groups s) (id_key (RaftGroup.Id group)) = None →
  GetGroupFromKV (Server.DB s) (RaftGroup.Id group) = None →
  SaveGroup (Server.DB s) (RaftGroup.set_Term 0 group) = Ok d1 →
  (SavePeer d1 (creator_peer group hostId) = Ok d2 ∨
   (∃ e, SavePeer d1 (creator_peer group hostId) = Err e) ∧ d2 = d1) →
  kv_commits (Server.DB s) d2 = true →
  try_ (DB_Update (
    existing ← GetGroup (RaftGroup.Id group);
    match existing with
    | Some _ => throw "group existed"
    | None =>
      _ ← txn_write (λ txn, SaveGroup txn (RaftGroup.set_Term 0 group));
      ignore (txn_write (λ txn, SavePeer txn (creator_peer group hostId)))
    end)) s = (Ok (inr tt), Server.upd_DB (λ _, d2) s).
Proof.
  intros Hc Hd Hs1 Hs2 Hcommit. unfold try_, DB_Update.
  rw (bind_Ok _ _ _ _ _ (GetGroup_absent _ _ Hc Hd)).
  rw (bind_Ok _ _ _ _ _ (run_txn_write _ _ _ Hs1)).
  set (s1 := Server.upd_DB (λ _, d1) s).
  assert (ignore (txn_write (λ txn, SavePeer txn (creator_peer group hostId))) s1 =
    (Ok tt, Server.upd_DB (λ _, d2) s)) as Hrun.
  { unfold ignore, try_. destruct Hs2 as [Hs2|[[e Hs2] ->]].
    - unfold mbind, M_bind. by rw (run_txn_write s1 _ d2 Hs2).
    - unfold txn_write, gets, lift, mbind, M_bind. change (Server.DB s1) with d1. by rw Hs2. }
  rw Hrun. change (Server.DB (Server.upd_DB (λ _, d2) s)) with d2. by rw Hcommit.
Qed.

(** What the creator's server has on board afterwards. *)
Definition leads_new_group (s : Server.t) (group : RaftGroup.t) : Prop :=
  ∃ m rt, sm_get (Server.GroupsOnboard s) (id_key (RaftGroup.Id group)) = Some m ∧
    has_group s m rt (RaftGroup.set_Term 0 group) ∧
    RTGroup.Role rt = LEADER ∧ RTGroup.Leader rt = Server.Id s ∧
    RTGroup.GroupPeers rt = {[ Server.Id s := creator_peer group (Server.Id s) ]}.

Lemma run_new_group_ptr g s :
  new_group_ptr g s = (Ok (fresh_ptr (Server.raftgroups s)),
    set_group (fresh_ptr (Server.raftgroups s)) g s).
Proof. done. Qed.

Lemma run_NewRTGroup leader peers g role s :
  NewRTGroup leader peers g role s = (Ok (fresh_ptr (Server.rtgroups s)),
    set_rt (fresh_ptr (Server.rtgroups s))
      (RTGroup.mk leader 0 0 peers g (Server.now s + 60 * Second) role [] ∅ false) s).
Proof. done. Qed.

Lemma run_SetOnboardGroup s m rt g :
  has_group s m rt g →
  SetOnboardGroup m s =
    (Ok tt, Server.upd_GroupsOnboard (λ c, sm_set c (id_key (RaftGroup.Id g)) m) s).
Proof.
  intros Hg. unfold SetOnboardGroup. by rw (bind_Ok _ _ _ _ _ (run_group_of _ _ _ _ Hg)).
Qed.

Lemma run_lead_new_group s group :
  ∃ s', (g ← new_group_ptr (RaftGroup.set_Term 0 group);
         meta ← NewRTGroup (Server.Id s)
           {[ Peer.Id (creator_peer group (Server.Id s)) := creator_peer group (Server.Id s) ]}
           g LEADER;
         _ ← SetOnboardGroup meta;
         send_pending (RaftGroup.Id group) None) s = (Ok tt, s') ∧
    leads_new_group s' group ∧ Server.DB s' = Server.DB s ∧ Server.Id s' = Server.Id s.
Proof.
  rw (bind_Ok _ _ _ _ _ (run_new_group_ptr _ _)) (bind_Ok _ _ _ _ _ (run_NewRTGroup _ _ _ _ _)).
  set (s1 := set_rt _ _ _).
  set (rt := RTGroup.mk _ _ _ _ _ _ _ _ _ _) in s1.
  assert (has_group s1 (fresh_ptr (Server.rtgroups s)) rt (RaftGroup.set_Term 0 group)) as Hg.
  { split; apply lookup_insert_eq. }
  rw (bind_Ok _ _ _ _ _ (run_SetOnboardGroup _ _ _ _ Hg)).
  eexists. split; [reflexivity|]. split; [|done].
  exists (fresh_ptr (Server.rtgroups s)), rt. split; [apply sm_get_set|]. by split.
Qed.

(** C33. [SMNewGroup] with a free id and a replication from 1 to 100: the group
    starts in term 0 with its creator as the only peer, the creator's server has
    it on board as its leader, and the answer is the entry's index. *)
Theorem SMNewGroup_creates arg entry cmd group s d1 d2 :
  LogEntry.Command entry = Some cmd → unmarshal arg = (group, true) →
  1 ≤ RaftGroup.Replications group ≤ 100 →
  sm_get (Server.Groups s) (id_key (RaftGroup.Id group)) = None →
  GetGroupFromKV (Server.DB s) (RaftGroup.Id group) = None →
  peers_at (Server.DB s) (RaftGroup.Id group) ∅ → is_u64 (CommandRequest.ClientId cmd) →
  SaveGroup (Server.DB s) (RaftGroup.set_Term 0 group) = Ok d1 →
  SavePeer d1 (creator_peer group (CommandRequest.ClientId cmd)) = Ok d2 →
  kv_commits (Server.DB s) d2 = true →
  ∃ s', SMNewGroup arg entry s = (Ok (U64Bytes (LogEntry.Index entry)), s') ∧
    GetGroupFromKV (Server.DB s') (RaftGroup.Id group) = Some (RaftGroup.set_Term 0 group) ∧
    peers_at (Server.DB s') (RaftGroup.Id group)
      {[ CommandRequest.ClientId cmd := creator_peer group (CommandRequest.ClientId cmd) ]} ∧
    if decide (Server.Id s = CommandRequest.ClientId cmd) then leads_new_group s' group
    else Server.GroupsOnboard s' = Server.GroupsOnboard s.
Proof.
  intros Hc Harg Hrep Hcache Hdb Hpeers Hu Hs1 Hs2 Hcommit. unfold SMNewGroup. rw Hc.
  rw (bind_Ok _ _ _ _ _ (eq_refl : unwrap (Some cmd) s = (Ok cmd, s))) Harg. cbn [negb].
  destruct (Z.ltb_spec (RaftGroup.Replications group) 1); [lia|].
  destruct (Z.ltb_spec 100 (RaftGroup.Replications group)); [lia|]. cbn [orb].
  fold (creator_peer group (CommandRequest.ClientId cmd)).
  rw (bind_Ok _ _ _ _ _ (new_group_txn s group (CommandRequest.ClientId cmd) d1 d2 Hcache Hdb Hs1
    (or_introl Hs2) Hcommit)).
  set (s2 := Server.upd_DB (λ _, d2) s).
  assert (GetGroupFromKV d2 (RaftGroup.Id group) = Some (RaftGroup.set_Term 0 group)) as Hget.
  { rw (SavePeer_GetGroup _ _ _ _ Hs2). exact (SaveGroup_get _ _ _ Hs1). }
  assert (peers_at d2 (RaftGroup.Id group)
    {[ CommandRequest.ClientId cmd := creator_peer group (CommandRequest.ClientId cmd) ]}) as Hp.
  { exact (SavePeer_at _ _ (creator_peer group (CommandRequest.ClientId cmd)) (RaftGroup.Id group) ∅
      (SaveGroup_peers _ _ _ _ _ Hs1 Hpeers) eq_refl Hu Hs2). }
  rw (bind_Ok _ _ _ _ _ (eq_refl : gets Server.Id s2 = (Ok (Server.Id s), s2))).
  destruct (Z.eqb_spec (Server.Id s) (CommandRequest.ClientId cmd)) as [Heq|Hne].
  - rw -Heq. destruct (run_lead_new_group s2 group) as (s' & Hrun & Hleads & HDB & _).
    rw (bind_Ok _ _ _ _ _ Hrun). exists s'. split; [done|]. rw HDB.
    split; [done|]. split; [by rw Heq|]. by case_decide.
  - rw (bind_Ok _ _ _ _ _ (eq_refl : (mret tt : MS unit) s2 = (Ok tt, s2))).
    exists s2. split; [done|]. split; [done|]. split; [done|]. by case_decide.
Qed.

(** The error of saving the creator as a peer is lost: the group is created, and
    reported as created, with no peer on record. *)
Theorem SMNewGroup_loses_peer_error arg entry cmd group s d1 e :
  LogEntry.Command entry = Some cmd → unmarshal arg = (group, true) →
  1 ≤ RaftGroup.Replications group ≤ 100 →
  sm_get (Server.Groups s) (id_key (RaftGroup.Id group)) = None →
  GetGroupFromKV (Server.DB s) (RaftGroup.Id group) = None →
  Server.Id s ≠ CommandRequest.ClientId cmd →
  SaveGroup (Server.DB s) (RaftGroup.set_Term 0 group) = Ok d1 →
  SavePeer d1 (creator_peer group (CommandRequest.ClientId cmd)) = Err e →
  kv_commits (Server.DB s) d1 = true →
  SMNewGroup arg entry s =
    (Ok (U64Bytes (LogEntry.Index entry)), Server.upd_DB (λ _, d1) s).
Proof.
  intros Hc Harg Hrep Hcache Hdb Hne Hs1 Hs2 Hcommit. unfold SMNewGroup. rw Hc.
  rw (bind_Ok _ _ _ _ _ (eq_refl : unwrap (Some cmd) s = (Ok cmd, s))) Harg. cbn [negb].
  destruct (Z.ltb_spec (RaftGroup.Replications group) 1); [lia|].
  destruct (Z.ltb_spec 100 (RaftGroup.Replications group)); [lia|]. cbn [orb].
  fold (creator_peer group (CommandRequest.ClientId cmd)).
  rw (bind_Ok _ _ _ _ _ (new_group_txn s group (CommandRequest.ClientId cmd) d1 d1 Hcache Hdb Hs1
    (or_intror (conj (ex_intro _ e Hs2) eq_refl)) Hcommit)).
  set (s2 := Server.upd_DB (λ _, d1) s).
  rw (bind_Ok _ _ _ _ _ (eq_refl : gets Server.Id s2 = (Ok (Server.Id s), s2))).
  by destruct (Z.eqb_spec (Server.Id s) (CommandRequest.ClientId cmd)).
Qed.

(** * Joining a group *)

(** The record of a group that [GetGroup] answers with. *)
Definition known_group (s : Server.t) (gid : Z) : option RaftGroup.t :=
  match sm_get (Server.Groups s) (id_key gid) with
  | Some p => Server.raftgroups s !! p
  | None => GetGroupFromKV (Server.DB s) gid
  end.

Lemma GetGroup_known s gid g :
  known_group s gid = Some g →
  ∃ p s1, GetGroup gid s = (Ok (Some p), s1) ∧ Server.raftgroups s1 !! p = Some g ∧
    Server.DB s1 = Server.DB s ∧ Server.Id s1 = Server.Id s ∧
    Server.GroupsOnboard s1 = Server.GroupsOnboard s.
Proof.
  unfold known_group, GetGroup. intros Hk.
  rw (bind_Ok _ _ _ _ _ (eq_refl : gets (λ s, sm_get (Server.Groups s) (id_key gid)) s = _)).
  destruct (sm_get _ _) as [p|].
  - by exists p, s.
  - rw (bind_Ok _ _ _ _ _ (eq_refl : txn_read (λ txn, GetGroupFromKV txn gid) s = _)) Hk.
    rw (bind_Ok _ _ _ _ _ (run_new_group_ptr _ _)).
    eexists _, _. split; [reflexivity|]. split; [apply lookup_insert_eq|done].
Qed.

Definition same_db (s s' : Server.t) : Prop := Server.DB s' = Server.DB s.

#[local] Instance same_db_preorder : PreOrder same_db.
Proof. unfold same_db. split; [done|]. intros s1 s2 s3. congruence. Qed.

Lemma quiet_same_db {A} (p : MS A) : preserves quiet p → preserves same_db p.
Proof. intros Hp s. by destruct (Hp s) as (h & k & ->). Qed.

Lemma same_db_update_rt m f : preserves same_db (update_rt m f).
Proof. done. Qed.

(** What the transaction of [SMNodeJoin] leaves in the store. *)
Lemma join_txn s node gid g t s' (o : outcome unit) :
  known_group s gid = Some g → peers_at (Server.DB s) gid t → is_u64 node →
  DB_Update (
    h ← GetHost node;
    match h with
    | None => throw "cannot find node"
    | Some _ =>
      self ← gets Server.Id;
      if node =? self then mret tt
      else
        group ← GetGroup gid;
        peers ← txn_read (λ txn, GetGroupPeersFromKV txn gid);
        peers ← lift peers;
        group ← unwrap group;
        group ← load_group group;
        if RaftGroup.Replications group <=? Z.of_nat (size (peers : gmap Z Peer.t))
        then throw "exceed replications"
        else txn_write (λ txn, SavePeer txn (Peer.mk node gid 0 0))
    end) s = (o, s') →
  peers_at (Server.DB s') gid t ∨
  Z.of_nat (size t) < RaftGroup.Replications g ∧
  peers_at (Server.DB s') gid (<[node := Peer.mk node gid 0 0]> t).
Proof.
  intros Hk Ht Hu. unfold DB_Update.
  assert (GetHost node s = (Ok (read_host s node), cache_host s node)) as Hgh
    by (unfold cache_host; by rw GetHost_run).
  rw (bind_Ok _ _ _ _ _ Hgh).
  assert (known_group (cache_host s node) gid = Some g) as Hk0.
  { pose proof (quiet_GetHost node s) as (h & k & Hq). fold (cache_host s node) in Hq. by rw Hq. }
  destruct (read_host s node); [|intros [= <- <-]; by left].
  rw (bind_Ok _ _ _ _ _ (eq_refl : gets Server.Id (cache_host s node) = _)).
  pose proof (cache_host_DB s node) as HDB0. set (s0 := cache_host s node) in *.
  destruct (node =? Server.Id s0).
  { unfold mret, M_ret. destruct (kv_commits _ _); intros [= <- <-]; left; [by rw HDB0|done]. }
  destruct (GetGroup_known _ _ _ Hk0) as (p & s1 & Hrun & Hp & HDB1 & _).
  rw (bind_Ok _ _ _ _ _ Hrun).
  rw (bind_Ok _ _ _ _ _ (eq_refl : txn_read (λ txn, GetGroupPeersFromKV txn gid) s1 = _)).
  rw HDB1 HDB0 (GetGroupPeers_at _ _ _ Ht).
  rw (bind_Ok _ _ _ _ _ (eq_refl : (lift (Ok t) : MS _) s1 = (Ok t, s1))).
  rw (bind_Ok _ _ _ _ _ (eq_refl : (unwrap (Some p) : MS _) s1 = (Ok p, s1))).
  assert (load_group p s1 = (Ok g, s1)) as Hlg.
  { unfold load_group, get_state, unwrap, mbind, M_bind. by rw Hp. }
  rw (bind_Ok _ _ _ _ _ Hlg).
  destruct (Z.leb_spec (RaftGroup.Replications g) (Z.of_nat (size t))).
  { intros [= <- <-]. by left. }
  unfold txn_write, gets, lift, modify, mbind, M_bind.
  destruct (SavePeer (Server.DB s1) _) as [d|e|w] eqn:Hsave.
  - destruct (kv_commits _ _); intros [= <- <-]; [right|by left]. split; [lia|].
    rw HDB1 HDB0 in Hsave. exact (SavePeer_at _ _ (Peer.mk node gid 0 0) gid t Ht eq_refl Hu Hsave).
  - intros [= <- <-]. by left.
  - intros [= <- <-]. by left.
Qed.

(** C34. A member that executes the entry of a join never takes the group's peers in
    its store beyond the replication: whatever the outcome, they are those of before, or
    one more where there was room. That is what [SMNodeJoin] stores; the joining node
    itself saves its own peer, in [NodeJoin], without this test. *)
Theorem SMNodeJoin_bounded arg entry cmd req g t s o s' :
  LogEntry.Command entry = Some cmd → unmarshal arg = (req, true) →
  known_group s (NodeJoinGroupEntry.Group req) = Some g →
  peers_at (Server.DB s) (NodeJoinGroupEntry.Group req) t →
  is_u64 (CommandRequest.ClientId cmd) →
  SMNodeJoin arg entry s = (o, s') →
  ∃ t', peers_at (Server.DB s') (NodeJoinGroupEntry.Group req) t' ∧
    (t' = t ∨ t' = <[CommandRequest.ClientId cmd :=
                      Peer.mk (CommandRequest.ClientId cmd) (NodeJoinGroupEntry.Group req) 0 0]> t) ∧
    (Z.of_nat (size t) ≤ RaftGroup.Replications g →
     Z.of_nat (size t') ≤ RaftGroup.Replications g).
Proof.
  intros Hc Harg Hk Ht Hu. unfold SMNodeJoin. rw Harg Hc.
  rw (bind_Ok _ _ _ _ _ (eq_refl : unwrap (Some cmd) s = (Ok cmd, s))).
  set (gid := NodeJoinGroupEntry.Group req) in *. set (node := CommandRequest.ClientId cmd) in *.
  match goal with |- mbind ?k (try_ ?p) s = _ → _ =>
    destruct (p s) as [o1 s1] eqn:Hp; set (tail := k);
    assert (∀ r, preserves same_db (tail r)) as Htail
  end.
  { intros [e|u]; subst tail; cbv beta iota; unfold GetOnboardGroup, GetClusterRPC;
      solve_preserves; try done; apply quiet_same_db; auto with preserves. }
  apply (join_txn _ _ _ _ _ _ _ Hk Ht Hu) in Hp as Hdb.
  intros Hrun. assert (Server.DB s' = Server.DB s1) as HDB.
  { revert Hrun. unfold mbind, M_bind, try_. rw Hp. destruct o1 as [[]|e|w].
    - intros Hrun. specialize (Htail (inr tt) s1). by rw Hrun in Htail.
    - intros Hrun. specialize (Htail (inl e) s1). by rw Hrun in Htail.
    - by intros [= _ <-]. }
  rw HDB. destruct Hdb as [Hdb|[Hlt Hdb]].
  - exists t. split; [done|]. split; [by left|done].
  - eexists. split; [exact Hdb|]. split; [by right|]. intros _.
    rw map_size_insert. destruct (t !! node); simpl; lia.
Qed.

Lemma try_panics {A B} (p : MS A) (k : string + A → MS B) s w :
  (p s).1 = Panic w → (try_ p ≫= k) s = (Panic w, (p s).2).
Proof. unfold try_, mbind, M_bind. destruct (p s) as [o s1]. by intros [= ->]. Qed.

(** A command to join a group that does not exist brings down every node that
    applies it. *)
Theorem SMNodeJoin_unknown_group arg entry cmd req t s :
  LogEntry.Command entry = Some cmd → unmarshal arg = (req, true) →
  is_Some (read_host s (CommandRequest.ClientId cmd)) →
  CommandRequest.ClientId cmd ≠ Server.Id s →
  sm_get (Server.Groups s) (id_key (NodeJoinGroupEntry.Group req)) = None →
  GetGroupFromKV (Server.DB s) (NodeJoinGroupEntry.Group req) = None →
  peers_at (Server.DB s) (NodeJoinGroupEntry.Group req) t →
  (SMNodeJoin arg entry s).1 = Panic nil_deref.
Proof.
  intros Hc Harg [h Hh] Hne Hg Hdb Ht. unfold SMNodeJoin. rw Harg Hc.
  rw (bind_Ok _ _ _ _ _ (eq_refl : unwrap (Some cmd) s = (Ok cmd, s))).
  set (gid := NodeJoinGroupEntry.Group req) in *. set (node := CommandRequest.ClientId cmd) in *.
  match goal with |- (mbind _ (try_ ?p) s).1 = _ => assert ((p s).1 = Panic nil_deref) as Hp end.
  { unfold DB_Update.
    assert (GetHost node s = (Ok (Some h), cache_host s node)) as Hgh
      by (unfold cache_host; by rw GetHost_run Hh).
    rw (bind_Ok _ _ _ _ _ Hgh).
    pose proof (quiet_GetHost node s) as (hs & ks & Hq). fold (cache_host s node) in Hq.
    rw (bind_Ok _ _ _ _ _ (eq_refl : gets Server.Id (cache_host s node) = _)).
    rw Hq. change (Server.Id (Server.upd_Hosts _ _)) with (Server.Id s).
    rw (proj2 (Z.eqb_neq _ _) Hne). set (s0 := Server.upd_Hosts _ _).
    rw (bind_Ok _ _ _ _ _ (GetGroup_absent s0 gid Hg Hdb)).
    rw (bind_Ok _ _ _ _ _ (eq_refl : txn_read (λ txn, GetGroupPeersFromKV txn gid) s0 = _)).
    change (Server.DB s0) with (Server.DB s). rw (GetGroupPeers_at _ _ _ Ht).
    by rw (bind_Ok _ _ _ _ _ (eq_refl : (lift (Ok t) : MS _) s0 = (Ok t, s0))). }
  by rw (try_panics _ _ _ _ Hp).
Qed.

(** * Hosts *)

(** A registered host is stored under the hash of its own public key,
    whatever id it claimed, and marked online; the caches are not refreshed. *)
Theorem SMRegHost_registers arg entry node s d :
  unmarshal arg = (node, true) →
  let id := HashPublicKeyBytes (Host.PublicKey node) in
  let host := Host.set_Online true (Host.set_Id id node) in
  SaveHost (Server.DB s) host = Ok d → kv_commits (Server.DB s) d = true →
  SMRegHost arg entry s = (Ok [1], Server.upd_DB (λ _, d) s) ∧
  (sm_get (Server.Hosts s) (id_key id) = None →
   host_of (Server.upd_DB (λ _, d) s) id = Ok (Some host)) ∧
  (∀ old, sm_get (Server.Hosts s) (id_key id) = Some old →
   host_of (Server.upd_DB (λ _, d) s) id = Ok (Some old)).
Proof.
  intros Harg id host Hsave Hcommit. split; [|split].
  - unfold SMRegHost. rw Harg. fold id host.
    assert (ignore (DB_Update (txn_write (λ txn, SaveHost txn host))) s =
      (Ok tt, Server.upd_DB (λ _, d) s)) as Hrun.
    { unfold ignore, try_, DB_Update, mbind, M_bind. rw (run_txn_write _ _ _ Hsave).
      change (Server.DB (Server.upd_DB (λ _, d) s)) with d. by rw Hcommit. }
    by rw (bind_Ok _ _ _ _ _ Hrun).
  - intros Hc. rw host_of_eq. unfold read_host. simpl. rw Hc.
    destruct (SaveHost_get _ _ _ Hsave) as (b & Hm & Hg).
    change (Host.Id host) with id in Hg. rw Hg. by rw (unmarshal_marshal _ _ Hm).
  - intros old Hc. rw host_of_eq. unfold read_host. simpl. by rw Hc.
Qed.

(** Looking up hosts and keys and checking signatures fill caches, but change
    neither the database nor what any later lookup answers. *)
Theorem lookups_stable cmd id s :
  Forall (λ s', Server.DB s' = Server.DB s ∧ ∀ id',
      (GetHostNTXN id' s').1 = (GetHostNTXN id' s).1 ∧
      (GetHostPublicKey id' s').1 = (GetHostPublicKey id' s).1)
    [(GetHostNTXN id s).2; (GetHostPublicKey id s).2; (VerifyCommandSign cmd s).2].
Proof.
  assert (∀ s', same_answers s s' → Server.DB s' = Server.DB s ∧ ∀ id',
    (GetHostNTXN id' s').1 = (GetHostNTXN id' s).1 ∧
    (GetHostPublicKey id' s').1 = (GetHostPublicKey id' s).1) as Hsame.
  { intros s' [(h & k & Hq) Hh Hk]. split; [by rw Hq|]. intros id'. split; [|exact (Hk id')].
    specialize (Hh id'). rw !host_of_eq in Hh. by rw !GetHostNTXN_run. }
  apply Forall_cons_2; [|apply Forall_cons_2; [|apply Forall_cons_2; [|apply Forall_nil_2]]];
    apply Hsame.
  - apply same_answers_GetHostNTXN.
  - apply same_answers_GetHostPublicKey.
  - apply same_answers_VerifyCommandSign.
Qed.

(** * Invitations *)

Lemma receive_invitations_from hostsMap invs seen leaders :
  ∃ firsts, firsts `sublist_of` invs ∧
    NoDup (GroupInvitation.Node <$> firsts) ∧
    (∀ inv, inv ∈ firsts → GroupInvitation.Node inv ∈ hostsMap ∧ GroupInvitation.Node inv ∉ seen) ∧
    receive_invitations hostsMap invs seen leaders =
      (list_to_set (GroupInvitation.Node <$> firsts) ∪ seen,
       leaders ++ (GroupInvitation.Leader <$> firsts)) ∧
    ∀ inv, inv ∈ invs → GroupInvitation.Node inv ∈ hostsMap →
      GroupInvitation.Node inv ∈ (GroupInvitation.Node <$> firsts) ∨ GroupInvitation.Node inv ∈ seen.
Proof.
  revert seen leaders. induction invs as [|inv invs IH]; intros seen leaders.
  { exists []. split; [constructor|]. split; [constructor|].
    split; [by intros ? ?%not_elem_of_nil|]. split; [|by intros ? ?%not_elem_of_nil].
    simpl. rw app_nil_r. f_equal. set_solver. }
  cbn [receive_invitations]. destruct (decide (GroupInvitation.Node inv ∈ hostsMap)) as [Hin|Hnin];
    [destruct (decide (GroupInvitation.Node inv ∈ seen)) as [Hseen|Hnew]|].
  2: { destruct (IH ({[GroupInvitation.Node inv]} ∪ seen) (leaders ++ [GroupInvitation.Leader inv]))
         as (firsts & Hsub & Hnd & Hm & Hr & Hall).
    exists (inv :: firsts). split; [by constructor|]. split; [|split; [|split]].
    - rw fmap_cons. constructor; [|done]. intros (x & Hx & Hxin)%list_elem_of_fmap.
      destruct (Hm x Hxin) as [_ Hout]. set_solver.
    - intros x [->|Hx]%elem_of_cons; [done|]. destruct (Hm x Hx). set_solver.
    - rw Hr fmap_cons. f_equal; [set_solver|]. by rw fmap_cons -app_assoc.
    - intros x [->|Hx]%elem_of_cons Hh; [left; rw fmap_cons; left|].
      destruct (Hall x Hx Hh) as [?|[->%elem_of_singleton|?]%elem_of_union]; rw fmap_cons;
        [left; by right|left; left|by right]. }
  all: destruct (IH seen leaders) as (firsts & Hsub & Hnd & Hm & Hr & Hall); exists firsts;
    split; [by constructor|]; split; [done|]; split; [done|]; split; [done|];
    intros x [->|Hx]%elem_of_cons Hh; [try done; by right|by apply Hall].
Qed.

(** A node that joins hears each member once: of the invitations received,
    those that count are the first of each host of the group, and the leader it
    follows is the one that more than half of them named. *)
Theorem invitations_count_once hostsMap invs invitations leaders :
  receive_invitations hostsMap invs ∅ [] = (invitations, leaders) →
  ∃ firsts, firsts `sublist_of` invs ∧ NoDup (GroupInvitation.Node <$> firsts) ∧
    invitations = list_to_set (GroupInvitation.Node <$> firsts) ∧ invitations ⊆ hostsMap ∧
    (∀ inv, inv ∈ invs → GroupInvitation.Node inv ∈ hostsMap →
       GroupInvitation.Node inv ∈ invitations) ∧
    size invitations = length firsts ∧
    (PickMajority leaders ≠ 0 →
     (size invitations < 2 * length (filter (λ inv, GroupInvitation.Leader inv = PickMajority leaders)
       firsts))%nat).
Proof.
  intros Hrun. destruct (receive_invitations_from hostsMap invs ∅ [])
    as (firsts & Hsub & Hnd & Hm & Hr & Hall).
  rw Hrun in Hr. injection Hr as Hi Hl. rw union_empty_r_L in Hi.
  assert (size invitations = length firsts) as Hsize
    by (rw Hi size_list_to_set; [exact Hnd|apply length_fmap]).
  exists firsts. split; [done|]. split; [done|]. split; [done|]. split; [|split; [|split; [done|]]].
  - rw Hi. intros x (inv & -> & Hinv)%elem_of_list_to_set%list_elem_of_fmap. by apply Hm.
  - intros inv Hinv Hh. rw Hi elem_of_list_to_set. destruct (Hall inv Hinv Hh); [done|set_solver].
  - intros Hne. destruct (PickMajority_cases leaders) as [Hmaj|[? _]]; [|done].
    unfold has_majority in Hmaj. rw ExpectedPlayers_half in Hmaj; [lia|].
    assert (length leaders = size invitations) as Hlen by (rw Hl length_fmap; lia).
    assert (occurrences (PickMajority leaders) leaders =
      length (filter (λ inv, GroupInvitation.Leader inv = PickMajority leaders) firsts)) as Hocc.
    { generalize (PickMajority leaders). intros h. rw Hl. clear. unfold occurrences.
      induction firsts as [|f firsts IH]; [done|]. rw fmap_cons !filter_cons.
      destruct (decide (GroupInvitation.Leader f = h)); simpl; by rw IH. }
    rw -Hocc -Hlen. pose proof (Z.div_mod (Z.of_nat (length leaders)) 2 ltac:(lia)).
    pose proof (Z.mod_pos_bound (Z.of_nat (length leaders)) 2 ltac:(lia)). lia.
Qed.
End facts.

#[export] Hint Resolve frame_SMNodeJoin frame_SMNewGroup frame_load_group frame_CommitGroupLog
  : preserves.

(** * Witnesses *)

Lemma peers_at_empty g : peers_at ((∅ : memdb) : store) g ∅.
Proof. split; [apply table_at_empty|]. intros i p. by rw lookup_empty. Qed.

(** A server whose store is [d]. *)
Definition node_with (d : store) (n : Z) : Server.t :=
  Server.upd_DB (λ _, d) (node n n LEADER 1 []).

Definition unwrap_ok {A} (dflt : A) (o : outcome A) : A :=
  match o with Ok a => a | _ => dflt end.

Definition demo_new_group : RaftGroup.t := RaftGroup.mk 3 9 5.

Definition demo_new_group_entry : LogEntry.t :=
  LogEntry.mk 1 4 [] (Some (CommandRequest.mk ALPHA_GROUP 1 1 NEW_GROUP [] (print_group demo_new_group))).

Definition demo_saved_group : store :=
  unwrap_ok ((∅ : memdb) : store)
    (SaveGroup ((∅ : memdb) : store) (RaftGroup.set_Term 0 demo_new_group)).
Definition demo_saved_peer : store :=
  unwrap_ok ((∅ : memdb) : store) (SavePeer demo_saved_group (creator_peer demo_new_group 1)).

Lemma demo_SaveGroup :
  SaveGroup ((∅ : memdb) : store) (RaftGroup.set_Term 0 demo_new_group) = Ok demo_saved_group.
Proof. by vm_compute. Qed.
Lemma demo_SavePeer :
  SavePeer demo_saved_group (creator_peer demo_new_group 1) = Ok demo_saved_peer.
Proof. by vm_compute. Qed.
Lemma demo_no_group : GetGroupFromKV ((∅ : memdb) : store) 9 = None.
Proof. by vm_compute. Qed.
Lemma demo_group_parses : unmarshal (print_group demo_new_group) = (demo_new_group, true).
Proof. by vm_compute. Qed.
Lemma demo_not_cached : sm_get (Server.Groups (node_with ((∅ : memdb) : store) 1)) (id_key 9) = None.
Proof. by vm_compute. Qed.
Lemma one_u64 : is_u64 1.
Proof. unfold is_u64. lia. Qed.
Lemma three_replications : 1 ≤ RaftGroup.Replications demo_new_group ≤ 100.
Proof. simpl. lia. Qed.

Lemma SMNewGroup_creates_witness :
  ∃ s', SMNewGroup (print_group demo_new_group) demo_new_group_entry
      (node_with ((∅ : memdb) : store) 1) = (Ok (U64Bytes 4), s') ∧
    leads_new_group s' demo_new_group.
Proof.
  destruct (SMNewGroup_creates (print_group demo_new_group) demo_new_group_entry _ demo_new_group
    (node_with ((∅ : memdb) : store) 1) demo_saved_group demo_saved_peer eq_refl demo_group_parses
    three_replications demo_not_cached demo_no_group (peers_at_empty 9) one_u64
    demo_SaveGroup demo_SavePeer eq_refl) as (s' & Hrun & _ & _ & Hl).
  exists s'. split; [exact Hrun|exact Hl].
Defined.

(** Group 9 has room for three; the host 2 is known and none has joined. *)
Definition demo_join_db : store :=
  put (hosts_prefix ++ U64Bytes 2) (demo_host 2)
    (put (group_key 9) (RaftGroup.mk 3 9 0) ((∅ : memdb) : store)).

Definition demo_join_entry : LogEntry.t :=
  LogEntry.mk 1 4 [] (Some (CommandRequest.mk ALPHA_GROUP 2 1 NODE_JOIN [] [9])).

Lemma put_peers_at {A} `{Codec A} d k (a : A) g t :
  has_prefix (peers_prefix g) k = false → peers_at d g t → peers_at (put k a d) g t.
Proof.
  intros Hk [Ht Hi]. unfold put. destruct (marshal a); [done|].
  destruct (kv_set _ _ _) eqn:Hs; [done|]. split; [|done].
  exact (table_set_other _ _ _ _ _ _ Ht Hs Hk).
Qed.

Lemma demo_join_peers : peers_at demo_join_db 9 ∅.
Proof. apply put_peers_at, put_peers_at, peers_at_empty; by vm_compute. Qed.

Lemma demo_join_known : known_group (node_with demo_join_db 1) 9 = Some (RaftGroup.mk 3 9 0).
Proof. by vm_compute. Qed.
Lemma demo_join_parses : unmarshal [9] = (NodeJoinGroupEntry.mk 9, true).
Proof. by vm_compute. Qed.
Lemma two_u64 : is_u64 2.
Proof. unfold is_u64. lia. Qed.

Lemma SMNodeJoin_bounded_witness :
  ∃ o s' t', SMNodeJoin [9] demo_join_entry (node_with demo_join_db 1) = (o, s') ∧
    peers_at (Server.DB s') 9 t' ∧ Z.of_nat (size t') ≤ 3.
Proof.
  destruct (SMNodeJoin [9] demo_join_entry (node_with demo_join_db 1)) as [o s'] eqn:Hrun.
  destruct (SMNodeJoin_bounded [9] demo_join_entry _ (NodeJoinGroupEntry.mk 9) (RaftGroup.mk 3 9 0)
    ∅ (node_with demo_join_db 1) o s' eq_refl demo_join_parses demo_join_known demo_join_peers
    two_u64 Hrun) as (t' & Ht & _ & Hb).
  exists o, s', t'. split; [reflexivity|]. split; [exact Ht|]. apply Hb.
  rw map_size_empty. discriminate.
Defined.

(** The host that joins gets the record a run leaves behind. *)
Example SMNodeJoin_runs : (SMNodeJoin [9] demo_join_entry (node_with demo_join_db 1)).1 = Ok [1].
Proof. by vm_compute. Qed.

Definition demo_reg_host : Host.t := Host.mk 0 0 false "host" [5].
Definition demo_reg_saved : store :=
  unwrap_ok ((∅ : memdb) : store) (SaveHost ((∅ : memdb) : store)
    (Host.set_Online true (Host.set_Id (HashPublicKeyBytes [5]) demo_reg_host))).

Lemma demo_reg_parses : unmarshal (print_host demo_reg_host) = (demo_reg_host, true).
Proof. by vm_compute. Qed.
Lemma demo_SaveHost :
  SaveHost ((∅ : memdb) : store)
    (Host.set_Online true (Host.set_Id (HashPublicKeyBytes [5]) demo_reg_host)) = Ok demo_reg_saved.
Proof. by vm_compute. Qed.

Lemma SMRegHost_registers_witness :
  SMRegHost (print_host demo_reg_host) demo_new_group_entry (node_with ((∅ : memdb) : store) 1) =
    (Ok [1], node_with demo_reg_saved 1).
Proof.
  exact (proj1 (SMRegHost_registers (print_host demo_reg_host) demo_new_group_entry demo_reg_host
    (node_with ((∅ : memdb) : store) 1) demo_reg_saved demo_reg_parses demo_SaveHost eq_refl)).
Defined.

(** The host 2 is known, the group 9 is not. *)
Definition demo_lone_db : store := put (hosts_prefix ++ U64Bytes 2) (demo_host 2) ((∅ : memdb) : store).

Lemma demo_lone_peers : peers_at demo_lone_db 9 ∅.
Proof. apply put_peers_at, peers_at_empty. by vm_compute. Qed.
Lemma demo_lone_host : read_host (node_with demo_lone_db 1) 2 = Some (demo_host 2).
Proof. by vm_compute. Qed.
Lemma demo_lone_cache : sm_get (Server.Groups (node_with demo_lone_db 1)) (id_key 9) = None.
Proof. by vm_compute. Qed.
Lemma demo_lone_group : GetGroupFromKV demo_lone_db 9 = None.
Proof. by vm_compute. Qed.
Lemma two_is_not_one : 2 ≠ 1.
Proof. done. Qed.

Lemma SMNodeJoin_unknown_group_witness :
  (SMNodeJoin [9] demo_join_entry (node_with demo_lone_db 1)).1 = Panic nil_deref.
Proof.
  exact (SMNodeJoin_unknown_group [9] demo_join_entry _ (NodeJoinGroupEntry.mk 9) ∅
    (node_with demo_lone_db 1) eq_refl demo_join_parses (ex_intro _ _ demo_lone_host) two_is_not_one
    demo_lone_cache demo_lone_group demo_lone_peers).
Defined.

(** Two members name the leader 2; one of them twice, and 9 is not a member. *)
Definition demo_invitations : list GroupInvitation.t :=
  [GroupInvitation.mk 7 2 1 []; GroupInvitation.mk 7 9 9 []; GroupInvitation.mk 7 3 1 [];
   GroupInvitation.mk 7 2 2 []].

Lemma demo_invited :
  receive_invitations {[1; 2; 3]} demo_invitations ∅ [] = ({[1; 2]}, [2; 2]).
Proof. by vm_compute. Qed.

Lemma invitations_count_once_witness :
  ∃ firsts, firsts `sublist_of` demo_invitations ∧ size ({[1; 2]} : gset Z) = length firsts.
Proof.
  destruct (invitations_count_once (W:=mem_world) {[1; 2; 3]} demo_invitations {[1; 2]} [2; 2]
    demo_invited) as (firsts & Hs & _ & _ & _ & _ & Hl & _).
  exists firsts. split; [exact Hs|exact Hl].
Defined.

Lemma demo_seven_peers : peers_at demo_saved_group 7 ∅.
Proof. exact (SaveGroup_peers _ _ _ 7 ∅ demo_SaveGroup (peers_at_empty 7)). Qed.

Lemma demo_nine_peers : peers_at demo_saved_group 9 ∅.
Proof. exact (SaveGroup_peers _ _ _ 9 ∅ demo_SaveGroup (peers_at_empty 9)). Qed.

Lemma nine_u64 : is_u64 9 ∧ is_u64 7 ∧ 7 ≠ 9.
Proof. unfold is_u64. lia. Qed.

Lemma SavePeer_stores_witness :
  GetGroupPeersFromKV demo_saved_peer 9 = Ok {[ 1 := creator_peer demo_new_group 1 ]} ∧
  GetGroupPeersFromKV demo_saved_peer 7 = Ok ∅.
Proof.
  destruct (SavePeer_stores demo_saved_group demo_saved_peer (creator_peer demo_new_group 1) ∅
    demo_nine_peers one_u64 (proj1 nine_u64) demo_SavePeer) as (Hp & Ho & _).
  split; [exact Hp|].
  exact (Ho 7 ∅ (proj1 (proj2 nine_u64)) (proj2 (proj2 nine_u64)) demo_seven_peers).
Defined.
