(* ===== verification/Replication.v ===== *)
(** Log replication: [AppendEntries], [SendFollowersHeartbeat], [ApproveAppend]
    and [RPCGroupMembers] of [server/group.go], and [server/consensus.go], whose
    functions are stubs.

    A remote call made by a goroutine is recorded in the server's [calls]. The
    answers of the followers to a heartbeat are an argument, in order of arrival;
    an answer that is missing stands for a call that failed. *)
From S2P Require Export Membership Voting.

Section replication.
Context {W : World} `{!RaftFns}.

(** * [server/consensus.go] *)

Definition WaitLogApproved (m : nat) (logIndex : Z) : bool := true.

Definition prepareApproveChan (groupId logIndex : Z) : MS unit := mret tt.

Definition SetLogAppended (groupId logIndex : Z) (isApproved : bool) : MS unit := mret tt.

Definition PeerApprovedAppend (groupId logIndex peer : Z) (group_peers : list Peer.t)
    (isApproved : bool) : MS unit := mret tt.

(** * [AppendEntries], the follower's side *)

Definition not_existed : string := "host or group not existed on append entries".
Definition term_compare_failed (reqTerm groupTerm : Z) : string :=
  Sprint [AStr "cannot become a follower when append entries due term compare failed";
          AInt reqTerm; AStr "/"; AInt groupTerm].
Definition votes_failed : string := "cannot become a follower when append entries due to votes".
Definition leader_mismatch : string := "leader not matches when append entries".
Definition no_leader_key : string := "cannot get leader public key when append entries".

(** The loop over [i] from [nextLogIdx], bounded by a sum that may wrap; [Ok
    false] is the early return with the response as it is. *)
Fixpoint check_entries (entries : list LogEntry.t) (i bound : Z) (expectedHash : bytes)
    : MS bool :=
  match entries with
  | [] => mret true
  | entry :: rest =>
    if i <? bound then
      cmd ← unwrap (LogEntry.Command entry);
      let expectedHash :=
        LogHash expectedHash i (CommandRequest.FuncId cmd) (CommandRequest.Arg cmd) in
      if negb (LogEntry.Index entry =? i) || negb (bool_decide (LogEntry.Hash entry = expectedHash))
      then mret false
      else
        _ ← VerifyCommandSign cmd;
        check_entries rest (wrap64 (i + 1)) bound expectedHash
    else mret true
  end.

(** What the client of an entry is sent, when it can be reached. *)
Definition tell_client (m : nat) (groupId : Z) (cmd : CommandRequest.t) (client : Host.t)
    (result : bytes) : MS unit :=
  rpc ← GetClientRPC (Host.ServerAddr client);
  if (rpc : bool) then
    nodeId ← gets Server.Id;
    let reqId := CommandRequest.RequestId cmd in
    group ← group_of m;
    let signData := CommandSignData (RaftGroup.Id group) nodeId reqId result in
    signature ← server_sign signData;
    call (Rpc_ResponseCommand (Host.ServerAddr client)
      (CommandResult.mk groupId nodeId reqId signature result))
  else mret tt.

(** One round of the loop that appends, commits and answers the client. *)
Definition append_entry (m : nat) (groupId : Z) (response : AppendEntriesResponse.t)
    (entry : LogEntry.t) : MS AppendEntriesResponse.t :=
  _ ← (if WaitLogApproved m (LogEntry.Index entry)
       then ignore (DB_Update (ignore (GroupAppendEntry m entry))) else mret tt);
  cmd ← unwrap (LogEntry.Command entry);
  let clientId := CommandRequest.ClientId cmd in
  result ← CommitGroupLog m entry;
  client ← GetHostNTXN clientId;
  match client with
  | Some client =>
    _ ← tell_client m groupId cmd client result;
    let response := AppendEntriesResponse.set_Term (LogEntry.Term entry) response in
    let response := AppendEntriesResponse.set_Index (LogEntry.Index entry) response in
    let response := AppendEntriesResponse.set_Hash (LogEntry.Hash entry) response in
    signature ← server_sign (LogEntry.Hash entry);
    mret (AppendEntriesResponse.set_Signature signature response)
  | None => mret response
  end.

(** The entries of a request, once its leader is accepted. *)
Definition append_batch (m : nat) (groupId : Z) (req : AppendEntriesRequest.t)
    (response : AppendEntriesResponse.t) : MS AppendEntriesResponse.t :=
  match AppendEntriesRequest.Entries req with
  | [] => mret response
  | first :: _ =>
    let entries := AppendEntriesRequest.Entries req in
    lastLogIdx ← LastEntryIndexNTXN m;
    let nextLogIdx := wrap64 (lastLogIdx + 1) in
    lastLog ← LastLogEntryNTXN m;
    let lastLogTerm := match lastLog with Some e => LogEntry.Term e | None => 0 end in
    if (AppendEntriesRequest.PrevLogIndex req =? lastLogIdx) &&
       (LogEntry.Index first =? nextLogIdx)
    then
      if negb (AppendEntriesRequest.PrevLogTerm req =? lastLogTerm)
      then throw (Sprint [AStr no_leader_key; AInt (AppendEntriesRequest.PrevLogTerm req);
                          AInt lastLogTerm])
      else
        expectedHash ← LastEntryHashNTXN m;
        ok ← check_entries entries nextLogIdx
               (wrap64 (nextLogIdx + Z.of_nat (length entries))) expectedHash;
        if (ok : bool) then
          response ← fold_each (append_entry m groupId) entries response;
          mret (AppendEntriesResponse.set_Successed true response)
        else mret response
    else mret response
  end.

(** Whether the request's leader is, or becomes, the leader of this node. *)
Definition accept_leader (m : nat) (req : AppendEntriesRequest.t) : MS unit :=
  rt ← load_rt m;
  group ← group_of m;
  if (0 <? length (AppendEntriesRequest.QuorumVotes req))%nat &&
     negb (AppendEntriesRequest.LeaderId req =? RTGroup.Leader rt)
  then
    if AppendEntriesRequest.Term req <? RaftGroup.Term group
    then throw (term_compare_failed (AppendEntriesRequest.Term req) (RaftGroup.Term group))
    else
      ok ← BecomeFollower m req;
      if (ok : bool) then mret tt else throw votes_failed
  else if negb (AppendEntriesRequest.LeaderId req =? RTGroup.Leader rt)
  then throw leader_mismatch
  else mret tt.

(** The outcome of verifying the leader's signature is not used. *)
Definition AppendEntries (m : nat) (req : AppendEntriesRequest.t) : MS AppendEntriesResponse.t :=
  rt ← load_rt m;
  group ← load_group (RTGroup.Group rt);
  let groupId := RaftGroup.Id group in
  let leaderPeer := RTGroup.GroupPeers rt !! AppendEntriesRequest.LeaderId req in
  lastLogHash ← LastEntryHashNTXN m;
  lastEntryIndex ← LastEntryIndexNTXN m;
  signature ← server_sign lastLogHash;
  self ← gets Server.Id;
  let response := AppendEntriesResponse.mk (RaftGroup.Id group) (RaftGroup.Term group)
                    lastEntryIndex self false false lastLogHash signature in
  match leaderPeer with
  | None => throw not_existed
  | Some _ =>
    _ ← accept_leader m req;
    let response := AppendEntriesResponse.set_Convinced true response in
    rt ← load_rt m;
    leaderPublicKey ← GetHostPublicKey (RTGroup.Leader rt);
    match leaderPublicKey with
    | None => throw no_leader_key
    | Some leaderPublicKey =>
      group ← group_of m;
      let signData := AppendLogEntrySignData (RaftGroup.Id group) (RaftGroup.Term group)
        (AppendEntriesRequest.PrevLogIndex req) (AppendEntriesRequest.PrevLogTerm req) in
      _ ← lift (VerifySign (Some leaderPublicKey) (AppendEntriesRequest.Signature req) signData);
      t ← time_Now;
      _ ← update_rt m (RTGroup.upd_Timeout (λ _, t + 10 * Second));
      append_batch m groupId req response
    end
  end.

(** * [SendFollowersHeartbeat], the leader's side *)

(** One peer of the sending loop: [true] when a request was sent; [None] is the
    early return on a peer whose host is unknown. *)
Definition send_heartbeat (m : nat) (peerId : Z) (peer : Peer.t) : MS (option bool) :=
  self ← gets Server.Id;
  if negb (peerId =? self) then
    batch ← GroupUncommittedLogEntries m peer;
    let '(entries, prevEntry) := batch in
    node ← GetHostNTXN peerId;
    match node with
    | None => mret None
    | Some node =>
      rt ← load_rt m;
      let votes :=
        if default false (RTGroup.SendVotesForPeers rt !! self) then RTGroup.Votes rt else [] in
      group ← group_of m;
      let signData := AppendLogEntrySignData (RaftGroup.Id group) (RaftGroup.Term group)
        (LogEntry.Index prevEntry) (LogEntry.Term prevEntry) in
      signature ← server_sign signData;
      client ← GetClusterRPC (Host.ServerAddr node);
      if (client : bool) then
        _ ← call (Rpc_AppendEntries (Host.ServerAddr node)
          (AppendEntriesRequest.mk (RaftGroup.Id group) (RaftGroup.Term group) self
            (LogEntry.Index prevEntry) (LogEntry.Term prevEntry) signature votes entries));
        mret (Some true)
      else mret (Some false)
    end
  else mret (Some false).

(** The loop over the peers: how many requests were sent, [None] after the early
    return. *)
Fixpoint send_heartbeats (m : nat) (peers : list (Z * Peer.t)) (sentMsgs : nat)
    : MS (option nat) :=
  match peers with
  | [] => mret (Some sentMsgs)
  | (peerId, peer) :: rest =>
    sent ← send_heartbeat m peerId peer;
    match sent with
    | None => mret None
    | Some sent => send_heartbeats m rest (if (sent : bool) then S sentMsgs else sentMsgs)
    end
  end.

(** One answer; the peer it names need not be one of the group's. *)
Definition process_response (m : nat) (response : option AppendEntriesResponse.t) : MS unit :=
  match response with
  | None => mret tt
  | Some response =>
    let peerId := AppendEntriesResponse.Peer response in
    rt ← load_rt m;
    let peer := RTGroup.GroupPeers rt !! peerId in
    publicKey ← GetHostPublicKey peerId;
    match publicKey with
    | None => mret tt
    | Some publicKey =>
      _ ← lift (VerifySign (Some publicKey) (AppendEntriesResponse.Signature response)
                (AppendEntriesResponse.Hash response));
      peer ← unwrap peer;
      _ ← (if negb (AppendEntriesResponse.Index response =? Peer.MatchIndex peer) then
             let peer := Peer.set_MatchIndex (AppendEntriesResponse.Index response) peer in
             let peer := Peer.set_NextIndex (wrap64 (Peer.MatchIndex peer + 1)) peer in
             _ ← update_rt m (RTGroup.upd_GroupPeers
               (λ peers, <[Peer.Id peer := peer]> (<[peerId := peer]> peers)));
             ignore (DB_Update (txn_write (λ txn, SavePeer txn peer)))
           else mret tt);
      update_rt m (RTGroup.upd_SendVotesForPeers
        <[peerId := negb (AppendEntriesResponse.Convinced response)]>)
    end
  end.

Definition SendFollowersHeartbeat (m : nat)
    (replies : list (option AppendEntriesResponse.t)) : MS unit :=
  _ ← RefreshTimer m 1;
  rt ← load_rt m;
  sent ← send_heartbeats m (range_map (RTGroup.GroupPeers rt)) 0;
  match sent with
  | None => mret tt
  | Some sentMsgs =>
    for_each (λ i, process_response m (default None (replies !! i))) (seq 0 sentMsgs)
  end.

(** * Answers to other nodes *)

Definition ApproveAppend (m : nat) (req : AppendEntriesResponse.t)
    : MS ApproveAppendResponse.t :=
  self ← gets Server.Id;
  mret (ApproveAppendResponse.mk (AppendEntriesResponse.Group req) self
    (AppendEntriesResponse.Index req) false false true []).

Definition RPCGroupMembers (m : nat) : MS GroupMembersResponse.t :=
  rt ← load_rt m;
  members ← fold_each (λ members '(_, p),
    host ← GetHostNTXN (Peer.Id p);
    match host with
    | None => mret members
    | Some host => mret (members ++ [GroupMember.mk (Some host) (Some p)])
    end) (range_map (RTGroup.GroupPeers rt)) [];
  signature ← server_sign (GetMembersSignData members);
  lastEntry ← LastLogEntryNTXN m;
  mret (GroupMembersResponse.mk lastEntry members signature).
End replication.
