(* ===== verification/ReplicationFacts.v ===== *)
(** What replication guarantees: an accepted batch extends the follower's log by
    exactly its entries, a refused one leaves the log as it was, and the batch a
    leader sends brings the follower's log to the leader's. *)
From S2P Require Export Replication MembershipFacts VotingFacts LogFacts.

Section facts.
Context {W : World} {F : RaftFns}.

(** * The frame of the handlers *)

Lemma frame_ResetTerm `{!Storing R} m term : preserves R (ResetTerm m term).
Proof.
  unfold ResetTerm. solve_frame; try (by apply frame_update_rt); by apply frame_update_group.
Qed.

Lemma same_frame {A} (m : MS A) : preserves same_answers m → preserves frame m.
Proof. intros H s. apply quiet_frame, H. Qed.

Lemma frame_BecomeFollower `{!Storing R} m req : preserves R (BecomeFollower m req).
Proof.
  unfold BecomeFollower, ExpectedHonestPeers, check_vote. solve_frame;
    try (by apply frame_update_rt). apply frame_ResetTerm.
Qed.

Lemma frame_accept_leader `{!Storing R} m req : preserves R (accept_leader m req).
Proof. unfold accept_leader. solve_frame. apply frame_BecomeFollower. Qed.

Lemma frame_NTXN `{!Storing R} {A} (f : W_db → A) : preserves R (DB_View (txn_read f)).
Proof. apply frame_DB_View. unfold txn_read. solve_frame. Qed.

Lemma frame_LastEntryHashNTXN `{!Storing R} m : preserves R (LastEntryHashNTXN m).
Proof. unfold LastEntryHashNTXN. solve_frame. apply frame_NTXN. Qed.

Lemma frame_LastEntryIndexNTXN `{!Storing R} m : preserves R (LastEntryIndexNTXN m).
Proof. unfold LastEntryIndexNTXN. solve_frame. apply frame_NTXN. Qed.

(** * Logs under the handlers *)

(** [m] is the runtime record of the group [gid], whose log is [l]. *)
Record holds (s : Server.t) (m : nat) (gid : Z) (l : list LogEntry.t) : Prop := {
  holds_group : ∃ rt g, has_group s m rt g ∧ RaftGroup.Id g = gid;
  holds_id : is_u64 gid;
  holds_log : log_at (Server.DB s) gid l
}.

Lemma holds_frame s s' m gid l : frame s s' → holds s m gid l → holds s' m gid l.
Proof.
  intros [_ _ Hrt Hgr Hlog] [(rt & g & [Hm Hg] & Hid) Hu Hl]. split; [|done|auto].
  destruct (Hrt _ _ Hm) as (rt' & ? & Heq). rw -Heq in Hg.
  destruct (Hgr _ _ Hg) as (g' & ? & ?). exists rt', g'. split; [by split|congruence].
Qed.

Lemma holds_preserved {A} (p : MS A) s a s' m gid l :
  preserves frame p → p s = (a, s') → holds s m gid l → holds s' m gid l.
Proof. intros Hp Hrun. apply holds_frame. specialize (Hp s). by rw Hrun in Hp. Qed.

Lemma holds_group_of s m gid l :
  holds s m gid l → ∃ g, group_of m s = (Ok g, s) ∧ RaftGroup.Id g = gid.
Proof. intros [(rt & g & Hg & Hid) _ _]. exists g. by rw (run_group_of _ _ _ _ Hg). Qed.

(** The reads of the log. *)
Lemma run_log_read {A} (f : W_db → Z → A) s m rt g :
  has_group s m rt g →
  (g ← group_of m; DB_View (txn_read (λ txn, f txn (RaftGroup.Id g)))) s =
    (Ok (f (Server.DB s) (RaftGroup.Id g)), s).
Proof.
  intros Hg. rw (bind_Ok _ _ _ _ _ (run_group_of _ _ _ _ Hg)).
  unfold DB_View, txn_read, gets. by rw upd_DB_same.
Qed.

Lemma run_LastEntryIndex s m gid l :
  holds s m gid l → LastEntryIndexNTXN m s = (Ok (Z.of_nat (length l)), s).
Proof.
  intros [(rt & g & Hg & <-) _ Hl]. rw -(LastEntryIndex_at _ _ _ Hl).
  exact (run_log_read (λ txn, LastEntryIndex txn) _ _ _ _ Hg).
Qed.

Lemma run_LastEntryHash s m gid l :
  holds s m gid l → LastEntryHashNTXN m s = (Ok (tip gid l), s).
Proof.
  intros [(rt & g & Hg & <-) _ Hl]. rw -(LastEntryHash_at _ _ _ Hl).
  exact (run_log_read (λ txn, LastEntryHash txn) _ _ _ _ Hg).
Qed.

Lemma run_LastLogEntry s m gid l :
  holds s m gid l → LastLogEntryNTXN m s = (Ok (last l), s).
Proof.
  intros [(rt & g & Hg & <-) _ Hl]. rw -(LastLogEntry_at _ _ _ Hl).
  exact (run_log_read (λ txn, LastLogEntry txn) _ _ _ _ Hg).
Qed.

(** * The check of a batch *)

(** The entries are numbered from [i] and chained to [prev]. *)
Fixpoint batch_ok (i : Z) (prev : bytes) (entries : list LogEntry.t) : Prop :=
  match entries with
  | [] => True
  | e :: rest =>
    LogEntry.Index e = i ∧ entry_linked prev e ∧ batch_ok (i + 1) (LogEntry.Hash e) rest
  end.

Lemma check_entries_spec entries i h s b s' :
  0 ≤ i → i + Z.of_nat (length entries) < 2 ^ 64 →
  check_entries entries i (i + Z.of_nat (length entries)) h s = (Ok b, s') →
  same_answers s s' ∧ (b = true ↔ batch_ok i h entries).
Proof.
  revert i h s. induction entries as [|e entries IH]; intros i h s Hi Hlen.
  { intros [= <- <-]. by split; [reflexivity|]. }
  cbn [check_entries length batch_ok]. cbn [length] in Hlen.
  destruct (Z.ltb_spec i (i + Z.of_nat (S (length entries)))) as [_|?]; [|lia].
  intros (cmd & s1 & Hcmd & Hrun)%bind_Ok_inv.
  destruct (LogEntry.Command e) as [cmd'|] eqn:Hc; [|done]. injection Hcmd as <- <-.
  destruct (Z.eqb_spec (LogEntry.Index e) i) as [Hidx|Hidx]; cbn [negb orb] in Hrun; cycle 1.
  { injection Hrun as <- <-. split; [reflexivity|]. split; [done|]. by intros [? _]. }
  destruct (bool_decide_reflect (LogEntry.Hash e =
    LogHash h i (CommandRequest.FuncId cmd') (CommandRequest.Arg cmd'))) as [Hh|Hh];
    cbn [negb] in Hrun; cycle 1.
  { injection Hrun as <- <-. split; [reflexivity|]. split; [done|].
    intros (_ & (cmd & Hc' & Hh') & _). destruct Hh. rw Hh' Hidx. congruence. }
  apply bind_Ok_inv in Hrun as (v & s1 & Hv & Hrun).
  assert (wrap64 (i + 1) = i + 1) as Hw by (apply Z.mod_small; lia). rw Hw in Hrun.
  replace (i + Z.of_nat (S (length entries))) with (i + 1 + Z.of_nat (length entries)) in Hrun by lia.
  apply IH in Hrun as [Hs Hb]; [|lia..].
  assert (same_answers s s1) as Hs1.
  { pose proof (same_answers_VerifyCommandSign cmd' s) as Hq. by rw Hv in Hq. }
  split; [by transitivity s1|]. rw Hb -Hh. split; [|tauto]. intros ?. split; [done|]. split; [|done].
  exists cmd'. by rw Hidx.
Qed.

(** * Appending *)

Lemma holds_set_DB s m gid l l' d :
  holds s m gid l → log_at d gid l' → holds (Server.upd_DB (λ _, d) s) m gid l'.
Proof. intros [Hg Hu _] Hl. by split. Qed.

(** Storing one linked entry of the group. *)
Lemma run_store_entry s m gid l e cmd :
  reliable W → holds s m gid l →
  LogEntry.Command e = Some cmd → CommandRequest.Group cmd = gid →
  LogEntry.Index e = Z.of_nat (length l) + 1 → is_u64 (LogEntry.Index e) →
  entry_linked (tip gid l) e →
  ∃ d, let s' := Server.upd_DB (λ _, d) s in
    ignore (DB_Update (ignore (GroupAppendEntry m e))) s = (Ok tt, s') ∧
    holds s' m gid (l ++ [e]).
Proof.
  intros Hrel Hh Hc Hg Hi Hu (cmd' & Hc' & Hhash).
  assert (cmd' = cmd) as -> by congruence.
  destruct (holds_group_of _ _ _ _ Hh) as (g & Hrun & Hid).
  destruct (rel_entry _ Hrel e) as [b Hb].
  destruct (rel_set _ Hrel (Server.DB s) (LogEntryKey gid (LogEntry.Index e)) b) as [d Hd]; [done|].
  destruct (AppendEntryToLocal_next (Server.DB s) gid l (holds_log _ _ _ _ Hh) e cmd b d Hc Hg Hi Hu
    Hhash Hb Hd) as [Ha Hl].
  assert (GroupAppendEntry m e s = (Ok tt, Server.upd_DB (λ _, d) s)) as Happ.
  { unfold GroupAppendEntry. rw (bind_Ok _ _ _ _ _ Hrun) Hid.
    unfold txn_write, gets, lift, modify, mbind, M_bind. by rw Ha. }
  exists d. split; [|exact (holds_set_DB _ _ _ _ _ _ Hh Hl)].
  unfold ignore, try_, DB_Update, mbind, M_bind, mret, M_ret. rw Happ.
  by rw (rel_commit _ Hrel).
Qed.

(** An entry of another group stops the node. *)
Lemma run_store_foreign s m gid l e cmd :
  holds s m gid l → LogEntry.Command e = Some cmd → CommandRequest.Group cmd ≠ gid →
  ∃ w, ignore (DB_Update (ignore (GroupAppendEntry m e))) s = (Panic w, s).
Proof.
  intros Hh Hc Hg. destruct (holds_group_of _ _ _ _ Hh) as (g & Hrun & Hid).
  exists "log group id not match the actual group work on it".
  assert (GroupAppendEntry m e s =
    (Panic "log group id not match the actual group work on it", s)) as Happ.
  { unfold GroupAppendEntry. rw (bind_Ok _ _ _ _ _ Hrun) Hid.
    unfold txn_write, gets, lift, modify, mbind, M_bind, AppendEntryToLocal. rw Hc.
    by rw (proj2 (Z.eqb_neq _ _) Hg). }
  unfold ignore, try_, DB_Update, mbind, M_bind, mret, M_ret. by rw Happ upd_DB_same.
Qed.

(** The rest of a round, after the entry is stored. *)
Lemma frame_tell_client `{!Telling R} m groupId cmd client result :
  preserves R (tell_client m groupId cmd client result).
Proof. unfold tell_client, GetClientRPC. solve_frame. Qed.
#[local] Hint Resolve frame_tell_client : preserves.

Lemma frame_append_tail m groupId response entry cmd :
  preserves frame (
    result ← CommitGroupLog m entry;
    client ← GetHostNTXN (CommandRequest.ClientId cmd);
    match client with
    | Some client =>
      _ ← tell_client m groupId cmd client result;
      let response := AppendEntriesResponse.set_Term (LogEntry.Term entry) response in
      let response := AppendEntriesResponse.set_Index (LogEntry.Index entry) response in
      let response := AppendEntriesResponse.set_Hash (LogEntry.Hash entry) response in
      signature ← server_sign (LogEntry.Hash entry);
      mret (AppendEntriesResponse.set_Signature signature response)
    | None => mret response
    end : MS AppendEntriesResponse.t).
Proof. solve_frame. Qed.

Lemma append_entry_spec s s' m gid l e response response' :
  reliable W → holds s m gid l →
  LogEntry.Index e = Z.of_nat (length l) + 1 → is_u64 (LogEntry.Index e) →
  entry_linked (tip gid l) e →
  append_entry m gid response e s = (Ok response', s') →
  holds s' m gid (l ++ [e]) ∧
  AppendEntriesResponse.Convinced response' = AppendEntriesResponse.Convinced response.
Proof.
  intros Hrel Hh Hi Hu Hlink Hrun. pose proof Hlink as (cmd & Hc & _).
  unfold append_entry in Hrun. cbn [WaitLogApproved] in Hrun.
  destruct (decide (CommandRequest.Group cmd = gid)) as [Hg|Hg]; cycle 1.
  { destruct (run_store_foreign _ _ _ _ _ _ Hh Hc Hg) as [w Hw].
    apply bind_Ok_inv in Hrun as (u & s1 & H1 & _). by rw H1 in Hw. }
  destruct (run_store_entry _ _ _ _ _ _ Hrel Hh Hc Hg Hi Hu Hlink) as (d & H1 & Hh1).
  set (s1 := Server.upd_DB (λ _, d) s) in *.
  rw (bind_Ok _ _ _ _ _ H1) Hc in Hrun.
  rw (bind_Ok _ _ _ _ _ (eq_refl : unwrap (Some cmd) s1 = (Ok cmd, s1))) in Hrun.
  split.
  - exact (holds_preserved _ _ _ _ _ _ _ (frame_append_tail m gid response e cmd) Hrun Hh1).
  - apply bind_Ok_inv in Hrun as (r & s2 & _ & Hrun). apply bind_Ok_inv in Hrun as (c & s3 & _ & Hrun).
    destruct c as [c|]; [|by injection Hrun as <- <-].
    apply bind_Ok_inv in Hrun as (rpc & s4 & _ & Hrun). apply bind_Ok_inv in Hrun as (u & s5 & _ & Hrun).
    by injection Hrun as <- <-.
Qed.

Lemma tip_snoc gid l e : tip gid (l ++ [e]) = LogEntry.Hash e.
Proof. unfold tip. by rw last_snoc. Qed.

Lemma append_entries_spec entries s s' m gid l response response' :
  reliable W → holds s m gid l →
  Z.of_nat (length l + length entries) < 2 ^ 64 →
  batch_ok (Z.of_nat (length l) + 1) (tip gid l) entries →
  fold_each (append_entry m gid) entries response s = (Ok response', s') →
  holds s' m gid (l ++ entries) ∧
  AppendEntriesResponse.Convinced response' = AppendEntriesResponse.Convinced response.
Proof.
  intros Hrel. revert s l response. induction entries as [|e entries IH]; intros s l response Hh Hlen Hok Hrun.
  { injection Hrun as <- <-. by rw app_nil_r. }
  cbn [fold_each batch_ok] in *. destruct Hok as (Hi & Hlink & Hok).
  apply bind_Ok_inv in Hrun as (r1 & s1 & H1 & Hrun).
  cbn [length] in Hlen. assert (is_u64 (LogEntry.Index e)) as Hu by (unfold is_u64; lia).
  destruct (append_entry_spec s s1 m gid l e response r1 Hrel Hh Hi Hu Hlink H1) as [Hh1 Hc1].
  apply IH with (l := l ++ [e]) in Hrun as [Hh2 Hc2]; [|done|rw length_app; simpl; lia|].
  - rw -app_assoc in Hh2. split; [done|congruence].
  - rw tip_snoc length_app. simpl. by replace (Z.of_nat (length l + 1) + 1)
      with (Z.of_nat (length l) + 1 + 1) by lia.
Qed.

(** A batch that passes leaves a chained log chained. *)
Lemma batch_chained gid l entries i :
  chained gid l → batch_ok i (tip gid l) entries → chained gid (l ++ entries).
Proof.
  revert l i. induction entries as [|e entries IH]; intros l i Hl Hok.
  { by rw app_nil_r. }
  destruct Hok as (_ & Hlink & Hok).
  replace (l ++ e :: entries) with ((l ++ [e]) ++ entries) by (by rw -app_assoc).
  apply (IH _ (i + 1)); [by apply chained_snoc|]. by rw tip_snoc.
Qed.

(** * [AppendEntries] *)

Definition last_term (l : list LogEntry.t) : Z :=
  match last l with Some e => LogEntry.Term e | None => 0 end.

(** The request continues the log [l] of the group. *)
Record continues (gid : Z) (l : list LogEntry.t) (req : AppendEntriesRequest.t) : Prop := {
  continues_entries : AppendEntriesRequest.Entries req ≠ [];
  continues_index : AppendEntriesRequest.PrevLogIndex req = Z.of_nat (length l);
  continues_term : AppendEntriesRequest.PrevLogTerm req = last_term l;
  continues_batch :
    batch_ok (Z.of_nat (length l) + 1) (tip gid l) (AppendEntriesRequest.Entries req)
}.

Lemma append_batch_spec m gid req r s r' s' l :
  reliable W → holds s m gid l →
  Z.of_nat (length l + length (AppendEntriesRequest.Entries req)) < 2 ^ 64 - 1 →
  AppendEntriesResponse.Successed r = false →
  append_batch m gid req r s = (Ok r', s') →
  AppendEntriesResponse.Convinced r' = AppendEntriesResponse.Convinced r ∧
  (AppendEntriesResponse.Successed r' = true ↔ continues gid l req) ∧
  holds s' m gid
    (if AppendEntriesResponse.Successed r' then l ++ AppendEntriesRequest.Entries req else l).
Proof.
  intros Hrel Hh Hlen Hr Hrun. unfold append_batch in Hrun.
  destruct (AppendEntriesRequest.Entries req) as [|first rest] eqn:Hes.
  { injection Hrun as <- <-. rw Hr. split; [done|]. split; [|done]. split; [done|].
    by intros [? _ _ _]. }
  rw (bind_Ok _ _ _ _ _ (run_LastEntryIndex _ _ _ _ Hh)) in Hrun.
  rw (bind_Ok _ _ _ _ _ (run_LastLogEntry _ _ _ _ Hh)) in Hrun. cbn [length] in Hlen.
  assert (wrap64 (Z.of_nat (length l) + 1) = Z.of_nat (length l) + 1) as Hw
    by (apply Z.mod_small; lia).
  rw Hw in Hrun.
  destruct (Z.eqb_spec (AppendEntriesRequest.PrevLogIndex req) (Z.of_nat (length l))) as [Hpi|Hpi];
    cbn [andb] in Hrun; cycle 1.
  { injection Hrun as <- <-. rw Hr. split; [done|]. split; [|done]. split; [done|].
    by intros [_ ? _ _]. }
  destruct (Z.eqb_spec (LogEntry.Index first) (Z.of_nat (length l) + 1)) as [Hfi|Hfi]; cycle 1.
  { injection Hrun as <- <-. rw Hr. split; [done|]. split; [|done]. split; [done|].
    intros [_ _ _ Hb]. rw Hes in Hb. by destruct Hb. }
  fold (last_term l) in Hrun.
  destruct (Z.eqb_spec (AppendEntriesRequest.PrevLogTerm req) (last_term l)) as [Hpt|Hpt];
    cbn [negb] in Hrun; [|done].
  rw (bind_Ok _ _ _ _ _ (run_LastEntryHash _ _ _ _ Hh)) in Hrun.
  assert (wrap64 (Z.of_nat (length l) + 1 + Z.of_nat (length (first :: rest))) =
    Z.of_nat (length l) + 1 + Z.of_nat (length (first :: rest))) as Hw2
    by (apply Z.mod_small; simpl; lia).
  rw Hw2 in Hrun. apply bind_Ok_inv in Hrun as (ok & s1 & Hcheck & Hrun).
  apply check_entries_spec in Hcheck as [Hs1 Hok]; [|lia|simpl; lia].
  assert (holds s1 m gid l) as Hh1 by (eapply holds_frame; [apply quiet_frame, Hs1|done]).
  destruct ok.
  - apply bind_Ok_inv in Hrun as (r1 & s2 & Hfold & Hrun). injection Hrun as <- <-.
    destruct (append_entries_spec (first :: rest) s1 s2 m gid l r r1 Hrel Hh1) as [Hh2 Hc];
      [simpl; lia|by apply Hok|done|].
    split; [done|]. split; [|done]. split; [intros _|done].
    split; [by rw Hes|done|done|]. rw Hes. by apply Hok.
  - injection Hrun as <- <-. rw Hr. split; [done|]. split; [|done]. split; [done|].
    intros [_ _ _ Hb]. rw Hes in Hb. by apply Hok in Hb.
Qed.

Lemma accept_leader_holds m req s s' gid l :
  holds s m gid l → accept_leader m req s = (Ok tt, s') → holds s' m gid l.
Proof. intros Hh Hrun. exact (holds_preserved _ _ _ _ _ _ _ (frame_accept_leader m req) Hrun Hh). Qed.

(** What [AppendEntries] comes to once the leader is accepted; [r0] is the answer so far. *)
Lemma AppendEntries_batch m req s s' response gid l :
  holds s m gid l → AppendEntries m req s = (Ok response, s') →
  ∃ s1 r0, holds s1 m gid l ∧ append_batch m gid req r0 s1 = (Ok response, s') ∧
    AppendEntriesResponse.Successed r0 = false ∧ AppendEntriesResponse.Convinced r0 = true ∧
    AppendEntriesResponse.Index r0 = Z.of_nat (length l) ∧
    AppendEntriesResponse.Peer r0 = Server.Id s.
Proof.
  intros Hh Hrun. unfold AppendEntries in Hrun.
  destruct (holds_group _ _ _ _ Hh) as (rt & g & Hg & Hid).
  rw (bind_Ok _ _ _ _ _ (run_load_rt _ _ _ (proj1 Hg))) in Hrun.
  assert (load_group (RTGroup.Group rt) s = (Ok g, s)) as Hlg.
  { unfold load_group, get_state, unwrap, mbind, M_bind. by rw (proj2 Hg). }
  rw (bind_Ok _ _ _ _ _ Hlg) (bind_Ok _ _ _ _ _ (run_LastEntryHash _ _ _ _ Hh))
    (bind_Ok _ _ _ _ _ (run_LastEntryIndex _ _ _ _ Hh)) (bind_Ok _ _ _ _ _ (run_server_sign _ _))
    (bind_Ok _ _ _ _ _ (eq_refl : gets Server.Id s = (Ok (Server.Id s), s))) Hid in Hrun.
  destruct (RTGroup.GroupPeers rt !! _) as [peer|]; [|done].
  apply bind_Ok_inv in Hrun as ([] & s1 & Hacc & Hrun).
  apply (accept_leader_holds _ _ _ _ _ _ Hh) in Hacc as Hh1.
  destruct (holds_group _ _ _ _ Hh1) as (rt1 & g1 & Hg1 & Hid1).
  rw (bind_Ok _ _ _ _ _ (run_load_rt _ _ _ (proj1 Hg1))) in Hrun.
  apply bind_Ok_inv in Hrun as (key & s2 & Hkey & Hrun).
  assert (holds s2 m gid l) as Hh2.
  { refine (holds_preserved _ _ _ _ _ _ _ _ Hkey Hh1).
    apply preserves_quiet_frame, quiet_GetHostPublicKey. }
  destruct key as [key|]; [|done].
  destruct (holds_group_of _ _ _ _ Hh2) as (g2 & Hg2 & _).
  rw (bind_Ok _ _ _ _ _ Hg2) in Hrun. cbn [VerifySign] in Hrun.
  apply bind_Ok_inv in Hrun as (v & s3 & Hv & Hrun). injection Hv as <- <-.
  apply bind_Ok_inv in Hrun as (t & s3 & Ht & Hrun). injection Ht as <- <-.
  apply bind_Ok_inv in Hrun as (u & s3 & Hu & Hrun).
  eexists s3, _. split; [|by split; [exact Hrun|]].
  refine (holds_preserved _ _ _ _ _ _ _ _ Hu Hh2). by apply frame_update_rt.
Qed.

Lemma AppendEntries_cases m req s s' response gid l :
  reliable W → holds s m gid l →
  Z.of_nat (length l + length (AppendEntriesRequest.Entries req)) < 2 ^ 64 - 1 →
  AppendEntries m req s = (Ok response, s') →
  AppendEntriesResponse.Convinced response = true ∧
  (AppendEntriesResponse.Successed response = true ↔ continues gid l req) ∧
  holds s' m gid
    (if AppendEntriesResponse.Successed response
     then l ++ AppendEntriesRequest.Entries req else l).
Proof.
  intros Hrel Hh Hlen Hrun.
  destruct (AppendEntries_batch _ _ _ _ _ _ _ Hh Hrun) as (s1 & r0 & Hh1 & Hb & Hs & Hc & _).
  destruct (append_batch_spec _ _ _ _ _ _ _ _ Hrel Hh1 Hlen Hs Hb) as (H1 & H2).
  split; [congruence|exact H2].
Qed.

(** A refusal leaves the answer as it was: it reports the follower's last index. *)
Lemma append_batch_refuses m gid req r s r' s' :
  append_batch m gid req r s = (Ok r', s') → AppendEntriesResponse.Successed r' = false → r' = r.
Proof.
  unfold append_batch. intros Hrun Hs.
  destruct (AppendEntriesRequest.Entries req) as [|first rest]; [by injection Hrun as <- _|].
  apply bind_Ok_inv in Hrun as (i & s1 & _ & Hrun). apply bind_Ok_inv in Hrun as (e & s2 & _ & Hrun).
  destruct (_ && _); [|by injection Hrun as <- _]. destruct (negb _); [done|].
  apply bind_Ok_inv in Hrun as (h & s3 & _ & Hrun). apply bind_Ok_inv in Hrun as (ok & s4 & _ & Hrun).
  destruct ok; [|by injection Hrun as <- _].
  apply bind_Ok_inv in Hrun as (r1 & s5 & _ & Hrun). by injection Hrun as <- _.
Qed.

Lemma AppendEntries_refusal m req s s' response gid l :
  holds s m gid l → AppendEntries m req s = (Ok response, s') →
  AppendEntriesResponse.Successed response = false →
  AppendEntriesResponse.Index response = Z.of_nat (length l) ∧
  AppendEntriesResponse.Peer response = Server.Id s.
Proof.
  intros Hh Hrun Hs.
  destruct (AppendEntries_batch _ _ _ _ _ _ _ Hh Hrun) as (s1 & r0 & _ & Hb & _ & _ & Hi & Hp).
  by rw (append_batch_refuses _ _ _ _ _ _ _ Hb Hs).
Qed.

(** C1. A follower that answers without error extends its log by exactly the
    entries of the request when the request continues the log, and reports
    success then and only then; otherwise its log is what it was. *)
Theorem AppendEntries_appends m req s s' response gid l :
  reliable W → holds s m gid l → chained gid l →
  Z.of_nat (length l + length (AppendEntriesRequest.Entries req)) < 2 ^ 64 - 1 →
  AppendEntries m req s = (Ok response, s') →
  (AppendEntriesResponse.Successed response = true ↔ continues gid l req) ∧
  if AppendEntriesResponse.Successed response
  then holds s' m gid (l ++ AppendEntriesRequest.Entries req) ∧
       chained gid (l ++ AppendEntriesRequest.Entries req)
  else holds s' m gid l.
Proof.
  intros Hrel Hh Hch Hlen Hrun.
  destruct (AppendEntries_cases _ _ _ _ _ _ _ Hrel Hh Hlen Hrun) as (_ & Hiff & Hh').
  split; [done|]. destruct (AppendEntriesResponse.Successed response); [|done].
  split; [done|]. apply (batch_chained _ _ _ (Z.of_nat (length l) + 1)); [done|].
  by apply Hiff.
Qed.

(** * From the leader to the follower *)

Lemma batch_ok_drop gid l k :
  (∀ n e, l !! n = Some e → LogEntry.Index e = Z.of_nat n + 1) → chained gid l →
  (k ≤ length l)%nat → batch_ok (Z.of_nat k + 1) (tip gid (take k l)) (drop k l).
Proof.
  intros Hidx Hch Hk. remember (drop k l) as rest eqn:Hrest. revert k Hk Hrest.
  induction rest as [|e rest IH]; intros k Hk Hrest; [done|].
  assert (l !! k = Some e) as He by (by rw -(Nat.add_0_r k) -lookup_drop -Hrest).
  assert (take (S k) l = take k l ++ [e]) as Htk by (by apply take_S_r).
  split; [by apply Hidx|]. split.
  - rw -(take_drop (S k) l) in Hch. rw Htk in Hch.
    by apply chained_prefix, chained_snoc in Hch as [_ ?].
  - specialize (IH (S k)). rw Htk tip_snoc in IH.
    replace (Z.of_nat (S k) + 1) with (Z.of_nat k + 1 + 1) in IH by lia. apply IH.
    + apply lookup_lt_Some in He. lia.
    + by rw -Nat.add_1_r -drop_drop -Hrest.
Qed.

(** The leader's record of a follower whose log has [k] entries. *)
Definition tracks (peer : Peer.t) (k : nat) : Prop :=
  Peer.MatchIndex peer = Z.of_nat k ∧
  Peer.NextIndex peer = if decide (k = 0%nat) then 0 else Z.of_nat k + 1.

Lemma batch_of_tracked txn gid l peer k :
  log_at txn gid l → tracks peer k → (k ≤ length l)%nat →
  PeerUncommittedLogEntries txn gid peer =
    (drop k l, match last (take k l) with Some e => e | None => zero_entry end).
Proof.
  intros Hl [Hm Hn] Hk. rw (PeerUncommittedLogEntries_at _ _ _ _ Hl).
  unfold batch_prev, batch_start. rw Hn Hm. destruct k as [|k]; simpl.
  - done.
  - replace (Z.of_nat (S k) + 1 - 1) with (Z.of_nat (S k)) by lia. rw Nat2Z.id.
    destruct (Z.eqb_spec (Z.of_nat (S k) + 1) 0); [lia|]. cbn [andb]. f_equal.
    replace (S k - 1)%nat with k by lia.
    replace (Nat.min k (length l - 1)) with k by lia.
    destruct (lookup_lt_is_Some_2 l k ltac:(lia)) as [e He].
    rw (take_S_r _ _ _ He) last_snoc He. done.
Qed.

Lemma batch_continues txn gid l k entries prev req peer :
  log_at txn gid l → chained gid l → tracks peer k → (k < length l)%nat →
  PeerUncommittedLogEntries txn gid peer = (entries, prev) →
  AppendEntriesRequest.Entries req = entries →
  AppendEntriesRequest.PrevLogIndex req = LogEntry.Index prev →
  AppendEntriesRequest.PrevLogTerm req = LogEntry.Term prev →
  continues gid (take k l) req ∧ take k l ++ AppendEntriesRequest.Entries req = l.
Proof.
  intros Hl Hch Htr Hk Hb He Hi Ht. rw (batch_of_tracked _ _ _ _ _ Hl Htr) in Hb; [lia|].
  injection Hb as <- <-. rw He. split; [|apply take_drop]. split.
  - rw He. intros Hnil%(f_equal length). rw length_drop in Hnil. simpl in Hnil. lia.
  - rw Hi length_take Nat.min_l; [lia|]. destruct k as [|k]; [done|].
    destruct (lookup_lt_is_Some_2 l k ltac:(lia)) as [e Hlk].
    rw (take_S_r _ _ _ Hlk) last_snoc (log_index _ _ _ Hl _ _ Hlk). lia.
  - rw Ht. unfold last_term. by destruct (last (take k l)).
  - rw He length_take Nat.min_l; [lia|]. apply batch_ok_drop; [apply (log_index _ _ _ Hl)|done|lia].
Qed.

(** The request for one peer, and what one round of the sending loop comes to. *)
Record batch_for (gid : Z) (l : list LogEntry.t) (peer : Peer.t) (req : AppendEntriesRequest.t) : Prop := {
  batch_group : AppendEntriesRequest.Group req = gid;
  batch_entries : AppendEntriesRequest.Entries req = drop (batch_start (Peer.NextIndex peer)) l;
  batch_index : AppendEntriesRequest.PrevLogIndex req = LogEntry.Index (batch_prev l peer);
  batch_term : AppendEntriesRequest.PrevLogTerm req = LogEntry.Term (batch_prev l peer)
}.

(** Who a request says it is from: the leader's number and term, with the votes it was
    elected with while it owes them to itself. *)
Record speaks_for (m : nat) (s : Server.t) (req : AppendEntriesRequest.t) : Prop := {
  speaks_leader : AppendEntriesRequest.LeaderId req = Server.Id s;
  speaks_record rt g : has_group s m rt g →
    AppendEntriesRequest.Term req = RaftGroup.Term g ∧
    AppendEntriesRequest.QuorumVotes req =
      if default false (RTGroup.SendVotesForPeers rt !! Server.Id s) then RTGroup.Votes rt else []
}.

Lemma send_heartbeat_run m f peer s gid l :
  holds s m gid l → f ≠ Server.Id s →
  ∃ req, batch_for gid l peer req ∧ speaks_for m s req ∧
    send_heartbeat m f peer s =
      match read_host s f with
      | None => (Ok None, cache_host s f)
      | Some h =>
        if W_dial (Host.ServerAddr h)
        then (Ok (Some true), Server.upd_calls (cons (Rpc_AppendEntries (Host.ServerAddr h) req))
                (cache_host s f))
        else (Ok (Some false), cache_host s f)
      end.
Proof.
  intros Hh Hf. unfold send_heartbeat.
  rw (bind_Ok _ _ _ _ _ (eq_refl : gets Server.Id s = (Ok (Server.Id s), s))).
  rw (proj2 (Z.eqb_neq _ _) Hf). cbn [negb].
  destruct (holds_group _ _ _ _ Hh) as (rt & g & Hg & Hid).
  assert (GroupUncommittedLogEntries m peer s =
    (Ok (drop (batch_start (Peer.NextIndex peer)) l, batch_prev l peer), s)) as Hbatch.
  { unfold GroupUncommittedLogEntries. rw (bind_Ok _ _ _ _ _ (run_group_of _ _ _ _ Hg)).
    unfold DB_View, txn_read, gets. rw Hid upd_DB_same.
    by rw (PeerUncommittedLogEntries_at _ _ _ peer (holds_log _ _ _ _ Hh)). }
  rw (bind_Ok _ _ _ _ _ Hbatch) (bind_Ok _ _ _ _ _ (GetHostNTXN_run _ _)).
  pose proof (quiet_GetHost f s) as Hq. fold (cache_host s f) in Hq.
  pose proof (has_group_quiet _ _ _ _ _ Hq Hg) as Hg1.
  set (req sg := AppendEntriesRequest.mk (RaftGroup.Id g) (RaftGroup.Term g) (Server.Id s)
    (LogEntry.Index (batch_prev l peer)) (LogEntry.Term (batch_prev l peer)) sg
    (if default false (RTGroup.SendVotesForPeers rt !! Server.Id s) then RTGroup.Votes rt else [])
    (drop (batch_start (Peer.NextIndex peer)) l)).
  assert (∀ sg, batch_for gid l peer (req sg) ∧ speaks_for m s (req sg)) as Hreq.
  { intros sg. split; [by split|]. split; [done|]. intros rt' g' [Hm Hr].
    destruct Hg as [Hm' Hr']. rw Hm' in Hm. injection Hm as <-. rw Hr' in Hr. by injection Hr as <-. }
  destruct (read_host s f) as [h|]; [|by exists (req []); split; [apply Hreq|split; [apply Hreq|]]].
  rw (bind_Ok _ _ _ _ _ (run_load_rt _ _ _ (proj1 Hg1)))
    (bind_Ok _ _ _ _ _ (run_group_of _ _ _ _ Hg1)) (bind_Ok _ _ _ _ _ (run_server_sign _ _)).
  rw (bind_Ok _ _ _ _ _ (eq_refl : GetClusterRPC (Host.ServerAddr h) (cache_host s f) =
    (Ok (W_dial (Host.ServerAddr h)), _))).
  match goal with |- context [Sign ?k ?d] => exists (req (Sign k d)) end.
  split; [apply Hreq|]. split; [apply Hreq|]. by destruct (W_dial _).
Qed.

Lemma batch_for_continues txn gid l k req peer :
  log_at txn gid l → chained gid l → tracks peer k → (k < length l)%nat → batch_for gid l peer req →
  continues gid (take k l) req ∧ take k l ++ AppendEntriesRequest.Entries req = l.
Proof.
  intros Hl Hch Htr Hk [_ He Hi Ht].
  exact (batch_continues _ _ _ _ _ _ req _ Hl Hch Htr Hk (PeerUncommittedLogEntries_at _ _ _ peer Hl) He Hi Ht).
Qed.

(** The request a heartbeat sends to one peer. *)
Lemma send_heartbeat_call m peerId peer s s' gid l :
  holds s m gid l → send_heartbeat m peerId peer s = (Ok (Some true), s') →
  ∃ addr req, Server.calls s' = Rpc_AppendEntries addr req :: Server.calls s ∧
    batch_for gid l peer req.
Proof.
  intros Hh Hrun. destruct (decide (peerId = Server.Id s)) as [->|Hne].
  { unfold send_heartbeat in Hrun.
    rw (bind_Ok _ _ _ _ _ (eq_refl : gets Server.Id s = (Ok (Server.Id s), s))) in Hrun.
    by rw Z.eqb_refl in Hrun. }
  destruct (send_heartbeat_run m peerId peer s gid l Hh Hne) as (req & Hreq & _ & Heq).
  rw Heq in Hrun. destruct (read_host s peerId) as [h|]; [|done]. destruct (W_dial _); [|done].
  injection Hrun as <-. exists (Host.ServerAddr h), req. split; [|done]. cbn.
  pose proof (quiet_GetHost peerId s) as (hs & ks & Hq). fold (cache_host s peerId) in Hq. by rw Hq.
Qed.

(** C11. Replication: when the leader's record of a follower is right, the request
    that its heartbeat sends, if the follower answers it without error, makes the
    follower's log equal to the leader's. *)
Theorem heartbeat_syncs_follower mL peerId peer sL sL' m s gid l k :
  reliable W → holds sL mL gid l → chained gid l → Z.of_nat (length l) < 2 ^ 64 - 1 →
  holds s m gid (take k l) → tracks peer k → (k < length l)%nat →
  send_heartbeat mL peerId peer sL = (Ok (Some true), sL') →
  ∃ addr req, Server.calls sL' = Rpc_AppendEntries addr req :: Server.calls sL ∧
    ∀ response s', AppendEntries m req s = (Ok response, s') →
      AppendEntriesResponse.Successed response = true ∧ holds s' m gid l.
Proof.
  intros Hrel HhL Hch Hlen Hh Htr Hk Hsend.
  destruct (send_heartbeat_call _ _ _ _ _ _ _ HhL Hsend) as (addr & req & Hcall & Hreq).
  exists addr, req. split; [done|]. intros response s' Hrun.
  destruct (batch_for_continues _ _ _ _ req _ (holds_log _ _ _ _ HhL) Hch Htr Hk Hreq) as [Hcont Happ].
  assert (Z.of_nat (length (take k l) + length (AppendEntriesRequest.Entries req)) < 2 ^ 64 - 1)
    as Hlen' by (by rw -length_app Happ).
  destruct (AppendEntries_cases _ _ _ _ _ _ _ Hrel Hh Hlen' Hrun) as (_ & Hiff & Hh').
  apply Hiff in Hcont as Hs. rw Hs Happ in Hh'. done.
Qed.

(** * Who may append *)

Lemma accept_leader_cases m req s s' rt g :
  has_group s m rt g → accept_leader m req s = (Ok tt, s') →
  AppendEntriesRequest.LeaderId req = RTGroup.Leader rt ∧ s' = s ∨
  RaftGroup.Term g ≤ AppendEntriesRequest.Term req ∧
  BecomeFollower m req s = (Ok true, s').
Proof.
  intros Hg Hrun. unfold accept_leader in Hrun.
  rw (bind_Ok _ _ _ _ _ (run_load_rt _ _ _ (proj1 Hg)))
    (bind_Ok _ _ _ _ _ (run_group_of _ _ _ _ Hg)) in Hrun.
  destruct (Z.eqb_spec (AppendEntriesRequest.LeaderId req) (RTGroup.Leader rt)) as [Heq|Hne];
    cbn [negb] in Hrun.
  - rw andb_false_r in Hrun. injection Hrun as <-. by left.
  - right. destruct (0 <? _)%nat; [|done]. cbn [andb] in Hrun.
    destruct (Z.ltb_spec (AppendEntriesRequest.Term req) (RaftGroup.Term g)); [done|].
    apply bind_Ok_inv in Hrun as ([] & s1 & Hb & Hrun); [|done]. injection Hrun as <-. done.
Qed.

(** C18. A follower takes part in an append only with the leader it follows, or
    with a member that a quorum vouched for, in a term not before its own. *)
Theorem AppendEntries_needs_quorum m req s s' response rt g :
  has_group s m rt g → AppendEntries m req s = (Ok response, s') →
  is_Some (RTGroup.GroupPeers rt !! AppendEntriesRequest.LeaderId req) ∧
  (AppendEntriesRequest.LeaderId req = RTGroup.Leader rt ∨
   RaftGroup.Term g ≤ AppendEntriesRequest.Term req ∧
   ∃ voters, vouched s rt (RaftGroup.Id g) req voters).
Proof.
  intros Hg Hrun. unfold AppendEntries in Hrun.
  rw (bind_Ok _ _ _ _ _ (run_load_rt _ _ _ (proj1 Hg))) in Hrun.
  assert (load_group (RTGroup.Group rt) s = (Ok g, s)) as Hlg.
  { unfold load_group, get_state, unwrap, mbind, M_bind. by rw (proj2 Hg). }
  rw (bind_Ok _ _ _ _ _ Hlg) in Hrun.
  rw (bind_Ok _ _ _ _ _ (run_log_read (λ txn, LastEntryHash txn) _ _ _ _ Hg)) in Hrun.
  rw (bind_Ok _ _ _ _ _ (run_log_read (λ txn, LastEntryIndex txn) _ _ _ _ Hg)) in Hrun.
  rw (bind_Ok _ _ _ _ _ (run_server_sign _ _))
    (bind_Ok _ _ _ _ _ (eq_refl : gets Server.Id s = (Ok (Server.Id s), s))) in Hrun.
  destruct (RTGroup.GroupPeers rt !! _) as [peer|]; [|done]. split; [by exists peer|].
  apply bind_Ok_inv in Hrun as ([] & s1 & Hacc & _).
  destruct (accept_leader_cases _ _ _ _ _ _ Hg Hacc) as [[? _]|[? Hb]]; [by left|right].
  split; [done|]. by apply (BecomeFollower_cases _ _ _ _ _ _ _ Hg Hb).
Qed.

(** The programs [f a] may differ, as long as they do the same. *)
Lemma bind_ext {A B} (p : MS A) (f f' : A → MS B) s :
  (∀ a s, f a s = f' a s) → (p ≫= f) s = (p ≫= f') s.
Proof. intros Hf. rw /mbind /M_bind. by destruct (p s) as [[a|e|w] s1]. Qed.

Definition with_signature (signature : bytes) (req : AppendEntriesRequest.t) : AppendEntriesRequest.t :=
  AppendEntriesRequest.mk (AppendEntriesRequest.Group req) (AppendEntriesRequest.Term req)
    (AppendEntriesRequest.LeaderId req) (AppendEntriesRequest.PrevLogIndex req)
    (AppendEntriesRequest.PrevLogTerm req) signature (AppendEntriesRequest.QuorumVotes req)
    (AppendEntriesRequest.Entries req).

(** C24. A follower does the same with any signature on a request: whoever names the
    leader that the follower follows can append to its log. *)
Theorem AppendEntries_unauthenticated m req signature s :
  AppendEntries m (with_signature signature req) s = AppendEntries m req s.
Proof.
  unfold AppendEntries. do 6 (apply bind_ext; intros ? ?).
  destruct (RTGroup.GroupPeers _ !! AppendEntriesRequest.LeaderId req) as [p|] eqn:Hp;
    cbn [with_signature AppendEntriesRequest.LeaderId]; rw Hp; [|done].
  do 3 (apply bind_ext; intros ? ?). match goal with |- (match ?k with _ => _ end) _ = _ => destruct k end; [|done].
  apply bind_ext. intros ? ?. cbn [VerifySign]. reflexivity.
Qed.

(** * The leader's record of its followers *)

(** What the table of peers has after an answer about [peer]. *)
Definition reported_peer (response : AppendEntriesResponse.t) (peer : Peer.t) : Peer.t :=
  if AppendEntriesResponse.Index response =? Peer.MatchIndex peer then peer
  else
    let peer := Peer.set_MatchIndex (AppendEntriesResponse.Index response) peer in
    Peer.set_NextIndex (wrap64 (Peer.MatchIndex peer + 1)) peer.

Definition noted (response : AppendEntriesResponse.t) (peer : Peer.t) (peers : gmap Z Peer.t)
    : gmap Z Peer.t :=
  if AppendEntriesResponse.Index response =? Peer.MatchIndex peer then peers
  else <[Peer.Id peer := reported_peer response peer]>
    (<[AppendEntriesResponse.Peer response := reported_peer response peer]> peers).

Lemma reported_peer_id response peer : Peer.Id (reported_peer response peer) = Peer.Id peer.
Proof. unfold reported_peer. by case_match. Qed.

Lemma noted_lookup response peer peers :
  peers !! AppendEntriesResponse.Peer response = Some peer →
  Peer.Id peer = AppendEntriesResponse.Peer response →
  noted response peer peers !! AppendEntriesResponse.Peer response = Some (reported_peer response peer).
Proof.
  intros Hp Hid. unfold noted, reported_peer. case_match; [done|]. rw Hid. apply lookup_insert_eq.
Qed.

Lemma noted_other response peer peers i :
  i ≠ AppendEntriesResponse.Peer response → Peer.Id peer = AppendEntriesResponse.Peer response →
  noted response peer peers !! i = peers !! i.
Proof.
  intros Hne%not_eq_sym Hid. unfold noted. case_match; [done|]. by rw Hid !lookup_insert_ne.
Qed.

Lemma reported_tracks response peer k k0 :
  tracks peer k0 → AppendEntriesResponse.Index response = Z.of_nat k → is_u64 (Z.of_nat k + 1) →
  (k = 0%nat → k0 = 0%nat) → tracks (reported_peer response peer) k.
Proof.
  intros [Hm Hn] Hidx Hu Hzero. unfold reported_peer. rw Hidx Hm.
  destruct (Z.eqb_spec (Z.of_nat k) (Z.of_nat k0)) as [Heq|Hne].
  - assert (k = k0) as -> by lia. by split.
  - split; [done|]. cbn. rw decide_False; [lia|]. unfold wrap64. by rw Z.mod_small.
Qed.

(** Saving a peer changes no host and no key. *)
Lemma SavePeer_read_host s d p id :
  SavePeer (Server.DB s) p = Ok d → read_host (Server.upd_DB (λ _, d) s) id = read_host s id.
Proof.
  unfold SavePeer, proto_marshal, txn_set. destruct (marshal p) as [|b]; [done|].
  destruct (kv_set _ _ _) as [|d'] eqn:Hs; [done|]. intros [= ->]. unfold read_host. cbn.
  destruct (sm_get _ _); [done|]. rw (kv_get_set_ne _ _ _ _ (hosts_prefix ++ U64Bytes id) Hs); [|done].
  intros Heq%(f_equal (has_prefix hosts_prefix)). rw has_prefix_app in Heq.
  unfold hosts_prefix, peers_prefix in Heq. by rw has_prefix_kinds in Heq.
Qed.

Lemma read_key_same s s' :
  Server.NodePublicKeys s' = Server.NodePublicKeys s → (∀ id, read_host s' id = read_host s id) →
  ∀ id, read_key s' id = read_key s id.
Proof. intros Hk Hh id. unfold read_key. by rw Hk Hh. Qed.

(** Saving a peer, whatever comes of it. *)
Lemma run_save_peer s s' p :
  ignore (DB_Update (txn_write (λ txn, SavePeer txn p))) s = (Ok tt, s') →
  ∃ d, s' = Server.upd_DB (λ _, d) s ∧ ∀ id, read_host s' id = read_host s id.
Proof.
  unfold ignore, DB_Update, txn_write, try_, gets, lift, modify, mbind, M_bind.
  destruct (SavePeer _ _) as [d|e|w] eqn:Hs; simpl; [|intros [= <-]|done].
  - destruct (kv_commits _ _); intros [= <-]; eexists; (split; [reflexivity|]); [|done].
    intros id. exact (SavePeer_read_host s d p id Hs).
  - by eexists.
Qed.

(** What answers do not change. *)
Record untouched (s s' : Server.t) : Prop := {
  untouched_id : Server.Id s' = Server.Id s;
  untouched_calls : Server.calls s' = Server.calls s;
  untouched_host id : read_host s' id = read_host s id;
  untouched_key id : read_key s' id = read_key s id
}.

#[global] Instance untouched_preorder : PreOrder untouched.
Proof.
  split; [by intros s|]. intros s1 s2 s3 [I1 C1 H1 K1] [I2 C2 H2 K2]. split; congruence.
Qed.

Lemma untouched_same s s' : same_answers s s' → untouched s s'.
Proof.
  intros [(h & k & ->) Hh Hk]. split; [done..| |]; intros id.
  - specialize (Hh id). rw !host_of_eq in Hh. by injection Hh.
  - specialize (Hk id). by rw !key_of_eq in Hk.
Qed.

(** One answer, when its processing is not cut short. *)
Lemma process_response_run m s s' rt g r :
  has_group s m rt g → process_response m (Some r) s = (Ok tt, s') →
  ∃ rt', has_group s' m rt' g ∧ untouched s s' ∧
    match read_key s (AppendEntriesResponse.Peer r) with
    | Ok (Some _) => ∃ peer, RTGroup.GroupPeers rt !! AppendEntriesResponse.Peer r = Some peer ∧
        RTGroup.GroupPeers rt' = noted r peer (RTGroup.GroupPeers rt) ∧
        RTGroup.SendVotesForPeers rt' = <[AppendEntriesResponse.Peer r :=
          negb (AppendEntriesResponse.Convinced r)]> (RTGroup.SendVotesForPeers rt)
    | _ => rt' = rt
    end.
Proof.
  intros Hg Hrun. unfold process_response in Hrun. set (pid := AppendEntriesResponse.Peer r) in *.
  rw (bind_Ok _ _ _ _ _ (run_load_rt _ _ _ (proj1 Hg))) in Hrun.
  apply bind_Ok_inv in Hrun as (key & s1 & Hk & Hrun).
  pose proof (same_answers_GetHostPublicKey pid s) as Hsame. pose proof (key_of_eq s pid) as Hkey.
  unfold key_of in Hkey. rw Hk in Hkey, Hsame. cbn [fst snd] in Hkey, Hsame. rw -Hkey.
  pose proof (has_group_quiet _ _ _ _ _ (same_quiet _ _ Hsame) Hg) as Hg1.
  apply untouched_same in Hsame as Hu1. destruct key as [key|]; cycle 1.
  { injection Hrun as <-. by exists rt. }
  apply bind_Ok_inv in Hrun as (v & s2 & Hv & Hrun). injection Hv as _ <-.
  apply bind_Ok_inv in Hrun as (peer & s2 & Hpeer & Hrun).
  destruct (RTGroup.GroupPeers rt !! pid) as [p|] eqn:Hp; [|done]. injection Hpeer as <- <-.
  apply bind_Ok_inv in Hrun as ([] & s2 & H2 & Hrun).
  assert (∃ rt2, has_group s2 m rt2 g ∧ untouched s1 s2 ∧
    RTGroup.GroupPeers rt2 = noted r p (RTGroup.GroupPeers rt) ∧
    RTGroup.SendVotesForPeers rt2 = RTGroup.SendVotesForPeers rt) as (rt2 & Hg2 & Hu2 & Hpeers & Hvotes).
  { revert H2. unfold noted, reported_peer. fold pid.
    destruct (_ =? _) eqn:Hi; cbn [negb]; [intros [= <-]; by exists rt|].
    cbv zeta. set (p' := Peer.set_NextIndex _ _).
    destruct (run_update_rt _ _ _ _ (RTGroup.upd_GroupPeers
      (λ peers, <[Peer.Id p' := p']> (<[pid := p']> peers))) Hg1 eq_refl) as [Hr Hg2].
    intros H2. rw (bind_Ok _ _ _ _ _ Hr) in H2. apply run_save_peer in H2 as (d & -> & Hh).
    eexists. split; [exact (proj2 (has_group_DB d _ _ _ _) Hg2)|]. split; [|done]. split; [done..|exact Hh|].
    apply (read_key_same s1); [reflexivity|exact Hh]. }
  destruct (run_update_rt _ _ _ _ (RTGroup.upd_SendVotesForPeers
    <[pid := negb (AppendEntriesResponse.Convinced r)]>) Hg2 eq_refl) as [Hr Hg3].
  rw Hr in Hrun. injection Hrun as <-. eexists. split; [exact Hg3|]. split.
  - transitivity s1; [done|]. transitivity s2; [done|]. by split.
  - exists p. cbn. by rw Hvotes.
Qed.

(** An answer that reports [k] entries makes the leader's record of the peer
    right for [k], unless [k] is zero and the record was of a longer log. *)
Theorem process_response_tracks m s s' rt g response peer k k0 :
  has_group s m rt g →
  RTGroup.GroupPeers rt !! AppendEntriesResponse.Peer response = Some peer →
  Peer.Id peer = AppendEntriesResponse.Peer response →
  (∃ key, key_of s (AppendEntriesResponse.Peer response) = Ok (Some key)) →
  AppendEntriesResponse.Index response = Z.of_nat k → is_u64 (Z.of_nat k + 1) →
  tracks peer k0 → (k = 0%nat → k0 = 0%nat) →
  process_response m (Some response) s = (Ok tt, s') →
  ∃ rt' peer', Server.rtgroups s' !! m = Some rt' ∧
    RTGroup.GroupPeers rt' !! AppendEntriesResponse.Peer response = Some peer' ∧
    tracks peer' k ∧
    RTGroup.SendVotesForPeers rt' !! AppendEntriesResponse.Peer response =
      Some (negb (AppendEntriesResponse.Convinced response)).
Proof.
  intros Hg Hp Hpid [key Hkey] Hidx Hu [Htm Htn] Hzero Hrun.
  destruct (process_response_run _ _ _ _ _ _ Hg Hrun) as (rt' & Hg' & _ & Hcase).
  rw key_of_eq in Hkey. rw Hkey in Hcase. destruct Hcase as (peer1 & Hp1 & Hpeers & Hvotes).
  assert (peer1 = peer) as -> by congruence.
  exists rt', (reported_peer response peer). split; [apply Hg'|].
  rw Hpeers Hvotes lookup_insert_eq.
  split; [exact (noted_lookup response peer _ Hp Hpid)|]. split; [|done].
  exact (reported_tracks response peer k k0 (conj Htm Htn) Hidx Hu Hzero).
Qed.
End facts.

#[export] Hint Resolve frame_ResetTerm frame_BecomeFollower frame_accept_leader frame_tell_client frame_NTXN
  frame_LastEntryHashNTXN frame_LastEntryIndexNTXN : preserves.

(** A follower whose log is empty and whose record says so through an answer, so
    that the next index is one, is sent the first entry as the previous one: the
    request does not continue its log. *)
Theorem restarted_follower_is_stuck {W : World} txn gid l peer req entries prev :
  log_at txn gid l → l ≠ [] → Peer.NextIndex peer = 1 → Peer.MatchIndex peer = 0 →
  PeerUncommittedLogEntries txn gid peer = (entries, prev) →
  AppendEntriesRequest.PrevLogIndex req = LogEntry.Index prev →
  ¬ continues gid [] req.
Proof.
  intros Hl Hne Hn Hm Hb Hi [_ Hidx _ _]. rw (PeerUncommittedLogEntries_at _ _ _ _ Hl) in Hb.
  unfold batch_prev in Hb. rw Hn Hm in Hb. simpl in Hb. injection Hb as <- <-.
  destruct l as [|e l]; [done|]. rw Hi in Hidx. simpl in Hidx.
  rw (log_index _ _ _ Hl 0 e) in Hidx; [done|]. done.
Qed.

(** * Witnesses *)

(** An application whose function echoes its argument. *)
#[global] Program Instance demo_fns : RaftFns (W:=mem_world) :=
  { user_apply n arg entry := mret arg }.
Next Obligation. intros n arg entry s. reflexivity. Qed.

Lemma demo_holds self leader role term n :
  Z.of_nat n < 2 ^ 64 - 1 →
  holds (node self leader role term (demo_log n)) 0 demo_group_id (demo_log n).
Proof.
  intros Hn. split; [|done|exact (demo_db_log term n Hn)].
  exists (demo_rt leader role), (demo_group term). by split.
Qed.

Definition demo_leader : Server.t := node 1 1 LEADER 1 (demo_log 3).
Definition demo_follower : Server.t := node 2 1 FOLLOWER 1 (demo_log 1).

Definition demo_batch : AppendEntriesRequest.t :=
  AppendEntriesRequest.mk demo_group_id 1 1 1 1 [] [] (drop 1 (demo_log 3)).

Lemma demo_append_runs :
  match (AppendEntries 0 demo_batch demo_follower).1 with
  | Ok response => AppendEntriesResponse.Successed response = true
  | _ => False
  end.
Proof. by vm_compute. Qed.

Lemma demo_append_run :
  ∃ response s', AppendEntries 0 demo_batch demo_follower = (Ok response, s') ∧
    AppendEntriesResponse.Successed response = true.
Proof.
  generalize demo_append_runs.
  destruct (AppendEntries 0 demo_batch demo_follower) as [[r|e|w] s'];
    intros Hr; [|exfalso; exact Hr..].
  exists r, s'. split; [reflexivity|exact Hr].
Qed.

Lemma AppendEntries_appends_witness :
  ∃ s', holds s' 0 demo_group_id (demo_log 1 ++ drop 1 (demo_log 3)).
Proof.
  destruct demo_append_run as (r & s' & Hrun & Hr). exists s'.
  destruct (AppendEntries_appends 0 demo_batch demo_follower s' r demo_group_id (demo_log 1)
    mem_reliable (demo_holds 2 1 FOLLOWER 1 1 eq_refl) (demo_chain _ _ _ _) eq_refl Hrun)
    as [_ Hh].
  rw Hr in Hh. exact (proj1 Hh).
Defined.

Lemma AppendEntries_needs_quorum_witness :
  is_Some (demo_peers !! 1) ∧
  (1 = 1 ∨ 1 ≤ 1 ∧
   ∃ voters, vouched demo_follower (demo_rt 1 FOLLOWER) demo_group_id demo_batch voters).
Proof.
  destruct demo_append_run as (r & s' & Hrun & _).
  exact (AppendEntries_needs_quorum 0 demo_batch demo_follower s' r (demo_rt 1 FOLLOWER)
    (demo_group 1) (conj eq_refl eq_refl) Hrun).
Defined.

Definition demo_tracked : Peer.t := Peer.mk 2 demo_group_id 2 1.

Lemma demo_send_runs : (send_heartbeat 0 2 demo_tracked demo_leader).1 = Ok (Some true).
Proof. by vm_compute. Qed.

Lemma demo_send_run : ∃ s', send_heartbeat 0 2 demo_tracked demo_leader = (Ok (Some true), s').
Proof.
  exists (send_heartbeat 0 2 demo_tracked demo_leader).2. rw -demo_send_runs.
  apply surjective_pairing.
Qed.

Lemma demo_tracks : tracks demo_tracked 1.
Proof. by split. Qed.

Lemma heartbeat_syncs_follower_witness :
  ∃ addr req s',
    Server.calls s' = Rpc_AppendEntries addr req :: Server.calls demo_leader ∧
    ∀ response s'', AppendEntries 0 req demo_follower = (Ok response, s'') →
      AppendEntriesResponse.Successed response = true ∧ holds s'' 0 demo_group_id (demo_log 3).
Proof.
  destruct demo_send_run as [s' Hsend].
  destruct (heartbeat_syncs_follower 0 2 demo_tracked demo_leader s' 0 demo_follower demo_group_id
    (demo_log 3) 1 mem_reliable (demo_holds 1 1 LEADER 1 3 eq_refl) (demo_chain _ _ _ _)
    eq_refl (demo_holds 2 1 FOLLOWER 1 1 eq_refl) demo_tracks (le_n_S _ _ (le_S _ _ (le_n _))) Hsend)
    as (addr & req & Hcall & Hreq).
  exists addr, req, s'. split; [exact Hcall|exact Hreq].
Defined.

Definition demo_answer : AppendEntriesResponse.t :=
  AppendEntriesResponse.mk demo_group_id 1 3 2 true true [] [].

Lemma demo_key_2 : key_of demo_leader 2 = Ok (Some 2).
Proof. by vm_compute. Qed.

Lemma demo_tracks_fresh : tracks (demo_peer 2) 0.
Proof. by split. Qed.

Lemma demo_process_runs : (process_response 0 (Some demo_answer) demo_leader).1 = Ok tt.
Proof. by vm_compute. Qed.

Lemma process_response_tracks_witness :
  ∃ s' rt' peer', Server.rtgroups s' !! 0%nat = Some rt' ∧
    RTGroup.GroupPeers rt' !! 2 = Some peer' ∧ tracks peer' 3.
Proof.
  exists (process_response 0 (Some demo_answer) demo_leader).2.
  destruct (process_response_tracks 0 demo_leader
    (process_response 0 (Some demo_answer) demo_leader).2 (demo_rt 1 LEADER) (demo_group 1)
    demo_answer (demo_peer 2) 3 0 (conj eq_refl eq_refl) eq_refl eq_refl
    (ex_intro _ 2 demo_key_2) eq_refl (conj (Z.lt_le_incl 0 4 eq_refl) eq_refl) demo_tracks_fresh
    (λ H, False_ind _ (Nat.neq_succ_0 _ H)))
    as (rt' & peer' & Hrt & Hp & Ht & _).
  - rw -demo_process_runs. apply surjective_pairing.
  - exists rt', peer'. split; [exact Hrt|split; [exact Hp|exact Ht]].
Defined.

(** The leader's record of the follower 2 after it reported an empty log. *)
Definition demo_restarted : Peer.t := Peer.mk 2 demo_group_id 1 0.

Lemma demo_log_nonempty : demo_log 3 ≠ [].
Proof. done. Qed.

Lemma restarted_follower_is_stuck_witness :
  ∃ entries prev,
    PeerUncommittedLogEntries (demo_db 1 (demo_log 3)) demo_group_id demo_restarted = (entries, prev) ∧
    ¬ continues demo_group_id [] (AppendEntriesRequest.mk demo_group_id 1 1 (LogEntry.Index prev)
        (LogEntry.Term prev) [] [] entries).
Proof.
  destruct (PeerUncommittedLogEntries (demo_db 1 (demo_log 3)) demo_group_id demo_restarted)
    as [entries prev] eqn:Hb.
  exists entries, prev. split; [reflexivity|].
  exact (restarted_follower_is_stuck (demo_db 1 (demo_log 3)) demo_group_id (demo_log 3)
    demo_restarted (AppendEntriesRequest.mk demo_group_id 1 1 (LogEntry.Index prev)
      (LogEntry.Term prev) [] [] entries) entries prev (demo_db_log 1 3 eq_refl)
    demo_log_nonempty
    eq_refl eq_refl Hb eq_refl).
Defined.
