(* ===== verification/Election.v ===== *)
(** Elections and the time wheel: [BecomeCandidate] and [BecomeLeader] of
    [server/vote.go], [StartTimeWheel] of [server/group.go], and the observer of
    [server/observer.go].

    The answers to the remote calls are arguments, in order of arrival: votes
    with the member asked, and answers to the heartbeat or the pull. A vote that
    arrives after ten seconds is not in its list. *)
From S2P Require Export Replication.

Section election.
Context {W : World} `{!RaftFns}.

Definition BecomeLeader (m : nat) (replies : list (option AppendEntriesResponse.t)) : MS unit :=
  _ ← update_rt m (RTGroup.upd_Role (λ _, LEADER));
  self ← gets Server.Id;
  _ ← update_rt m (RTGroup.upd_Leader (λ _, self));
  group ← group_of m;
  _ ← ignore (DB_Update (txn_write (λ txn, SaveGroup txn group)));
  SendFollowersHeartbeat m replies.

(** The loop that starts one request per peer, itself included: the members
    that were asked. A peer without a host brings its goroutine down. *)
Definition ask_votes (request : RequestVoteRequest.t) (peers : list (Z * Peer.t))
    : MS (gset Z) :=
  fold_each (λ asked '(_, peer),
    let nodeId := Peer.Id peer in
    node ← GetHostNTXN nodeId;
    node ← unwrap node;
    client ← GetClusterRPC (Host.ServerAddr node);
    if (client : bool) then
      _ ← call (Rpc_RequestVote (Host.ServerAddr node) request);
      mret ({[nodeId]} ∪ asked)
    else mret asked) peers ∅.

(** One answer: whether it counts as a vote. *)
Definition take_vote (lastEntry : option LogEntry.t) (nodeId : Z)
    (voteResponse : RequestVoteResponse.t) : MS bool :=
  publicKey ← GetHostPublicKey nodeId;
  let signData := RequestVoteResponseSignData voteResponse in
  valid ← lift (VerifySign publicKey (RequestVoteResponse.Signature voteResponse) signData);
  if (valid : bool) then
    if RequestVoteResponse.Granted voteResponse then
      lastEntry ← unwrap lastEntry;
      mret (RequestVoteResponse.LogIndex voteResponse <=? LogEntry.Index lastEntry)
    else mret false
  else mret false.

(** The votes received when there are enough of them; [None] after the
    timeout. *)
Fixpoint collect_votes (lastEntry : option LogEntry.t) (expectedVotes : Z) (asked : gset Z)
    (replies : list (Z * RequestVoteResponse.t)) (votes : list RequestVoteResponse.t)
    : MS (option (list RequestVoteResponse.t)) :=
  match replies with
  | [] => mret None
  | (nodeId, voteResponse) :: rest =>
    if decide (nodeId ∈ asked) then
      counts ← take_vote lastEntry nodeId voteResponse;
      if (counts : bool) then
        let votes := votes ++ [voteResponse] in
        if expectedVotes <=? Z.of_nat (length votes) then mret (Some votes)
        else collect_votes lastEntry expectedVotes (asked ∖ {[nodeId]}) rest votes
      else collect_votes lastEntry expectedVotes (asked ∖ {[nodeId]}) rest votes
    else collect_votes lastEntry expectedVotes asked rest votes
  end.

(** [during] is what other goroutines do while the votes come in. The last line
    is the deferred call. *)
Definition BecomeCandidate (m : nat) (replies : list (Z * RequestVoteResponse.t))
    (during : Server.t → Server.t) (heartbeat_replies : list (option AppendEntriesResponse.t))
    : MS unit :=
  _ ← update_rt m (RTGroup.upd_Role (λ _, CANDIDATE));
  group ← group_of m;
  _ ← ResetTerm m (wrap64 (RaftGroup.Term group + 1));
  group ← group_of m;
  let term := RaftGroup.Term group in
  _ ← ignore (SaveGroupNTXN group);
  lastEntry ← LastLogEntryNTXN m;
  let lastIndex := match lastEntry with Some e => LogEntry.Index e | None => 0 end in
  let lastLogTerm := match lastEntry with Some e => LogEntry.Term e | None => 0 end in
  self ← gets Server.Id;
  let request := RequestVoteRequest.mk (RaftGroup.Id group) term lastIndex lastLogTerm self [] in
  signature ← server_sign (RequestVoteRequestSignData request);
  let request := RequestVoteRequest.set_Signature signature request in
  rt ← load_rt m;
  asked ← ask_votes request (range_map (RTGroup.GroupPeers rt));
  expectedVotes ← ExpectedHonestPeers m;
  _ ← modify during;
  adequateVotes ← collect_votes lastEntry expectedVotes asked replies [];
  _ ← (match adequateVotes with
       | Some votes =>
         _ ← update_rt m (RTGroup.upd_Votes (λ _, votes));
         rt ← load_rt m;
         if RTGroup.Role rt =? CANDIDATE then
           _ ← BecomeLeader m heartbeat_replies;
           RefreshTimer m 1
         else mret tt
       | None => mret tt
       end);
  RefreshTimer m 25.

(** * The observer *)

Definition pulled (reply : option (list LogEntry.t)) : FuncResult (list LogEntry.t) :=
  match reply with
  | Some entries =>
    mkFuncResult _ (Some entries)
      (match last entries with None => [1] | Some e => LogEntry.Hash e end)
  | None => mkFuncResult _ None []
  end.

Definition nil_assertion : string := "interface conversion: interface is nil".

(** The loop over the entries: it stops at the first that cannot be appended. *)
Fixpoint commit_pulled (m : nat) (entries : list LogEntry.t) : MS unit :=
  match entries with
  | [] => mret tt
  | entry :: rest =>
    err ← try_ (DB_Update (GroupAppendEntry m entry));
    match err with
    | inl _ => mret tt
    | inr _ => _ ← CommitGroupLog m entry; commit_pulled m rest
    end
  end.

(** [replies]: one per client, [None] after ten seconds, [Some None] for a call
    that failed. None of the clients is nil, so that the answers are awaited
    without blocking. *)
Definition PullAndCommitGroupLogs (m : nat)
    (replies : list (option (option (list LogEntry.t)))) : MS unit :=
  rt ← load_rt m;
  peerClients ← fold_each (λ peerClients '(_, peer),
    node ← GetHostNTXN (Peer.Id peer);
    node ← unwrap node;
    rpc ← GetClusterRPC (Host.ServerAddr node);
    mret (if (rpc : bool) then peerClients ++ [Host.ServerAddr node] else peerClients))
    (range_map (RTGroup.GroupPeers rt)) [];
  group ← group_of m;
  lastIndex ← LastEntryIndexNTXN m;
  let req := PullGroupLogsResuest.mk (RaftGroup.Id group) (wrap64 (lastIndex + 1)) in
  _ ← for_each (λ addr, call (Rpc_PullGroupLogs addr req)) peerClients;
  let answers := (λ i, pulled <$> default None (replies !! i)) <$> seq 0 (length peerClients) in
  match default None (MajorityResponse ((λ _, true) <$> peerClients) answers) with
  | None => panic nil_assertion
  | Some entries => commit_pulled m entries
  end.

(** * The time wheel *)

(** What the goroutines of a group see in one round. *)
Record round_input : Type := mk_input {
  in_votes : list (Z * RequestVoteResponse.t);
  in_during : Server.t → Server.t;
  in_answers : list (option AppendEntriesResponse.t);
  in_pulls : list (option (option (list LogEntry.t)))
}.

Definition follower_leads : string := "Follower is leader for group:".

(** One round of the loop. *)
Definition time_wheel (m : nat) (input : round_input) : MS unit :=
  rt ← load_rt m;
  t ← time_Now;
  if t <? RTGroup.Timeout rt then modify (Server.upd_now (Z.add (100 * Millisecond)))
  else if RTGroup.Role rt =? CANDIDATE then
    BecomeCandidate m (in_votes input) (in_during input) (in_answers input)
  else if RTGroup.Role rt =? FOLLOWER then
    self ← gets Server.Id;
    if RTGroup.Leader rt =? self then panic follower_leads
    else BecomeCandidate m (in_votes input) (in_during input) (in_answers input)
  else if RTGroup.Role rt =? LEADER then SendFollowersHeartbeat m (in_answers input)
  else if RTGroup.Role rt =? OBSERVER then
    _ ← PullAndCommitGroupLogs m (in_pulls input);
    RefreshTimer m 5
  else mret tt.
End election.
