(* ===== verification/ElectionFacts.v ===== *)
(** The steps of an election: the votes that a candidate collects, its own, which it
    refuses, and the timers; a new leader's first heartbeat is later than its followers'
    patience. *)
From S2P Require Export Election ReplicationFacts.

Section facts.
Context {W : World} {F : RaftFns}.

(** * Winning *)

(** A vote that a candidate with last entry [lastEntry] may count for the member
    [v]. *)
Record counted_vote (s : Server.t) (lastEntry : option LogEntry.t) (v : Z)
    (vote : RequestVoteResponse.t) : Prop := {
  counted_signed : ∃ key, key_of s v = Ok (Some key) ∧
    VerifySign (Some key) (RequestVoteResponse.Signature vote)
      (RequestVoteResponseSignData vote) = Ok true;
  counted_granted : RequestVoteResponse.Granted vote = true;
  counted_log : ∃ e, lastEntry = Some e ∧
    RequestVoteResponse.LogIndex vote ≤ LogEntry.Index e
}.

Lemma take_vote_spec lastEntry v vote s b s' :
  take_vote lastEntry v vote s = (Ok b, s') →
  same_answers s s' ∧ (b = true → counted_vote s lastEntry v vote).
Proof.
  intros Hrun. unfold take_vote in Hrun. apply bind_Ok_inv in Hrun as (key & s1 & Hk & Hrun).
  pose proof (same_answers_GetHostPublicKey v s) as Hs. rw Hk in Hs. cbn [snd] in Hs.
  assert (key_of s v = Ok key) as Hkey by (unfold key_of; by rw Hk).
  apply bind_Ok_inv in Hrun as (ok & s2 & Hok & Hrun). injection Hok as Hok <-.
  destruct ok; [|by injection Hrun as <- <-].
  destruct (RequestVoteResponse.Granted vote) eqn:Hg; [|by injection Hrun as <- <-].
  apply bind_Ok_inv in Hrun as (e & s2 & He & Hrun).
  destruct lastEntry as [e'|]; [|done]. injection He as <- <-. injection Hrun as <- <-.
  split; [done|]. intros Hle%Z.leb_le. split; [|done|by exists e'].
  destruct key as [key|]; [|done]. by exists key.
Qed.

Lemma collect_votes_spec lastEntry expected replies asked votes0 s votes s' :
  collect_votes lastEntry expected asked replies votes0 s = (Ok (Some votes), s') →
  same_answers s s' ∧ ∃ voters new, votes = votes0 ++ new ∧
    expected ≤ Z.of_nat (length votes) ∧ NoDup voters ∧
    Forall2 (λ v vote, v ∈ asked ∧ (v, vote) ∈ replies ∧ counted_vote s lastEntry v vote)
      voters new.
Proof.
  revert asked votes0 s. induction replies as [|[v vote] replies IH]; intros asked votes0 s Hrun;
    [done|].
  cbn [collect_votes] in Hrun. destruct (decide (v ∈ asked)) as [Hin|Hin]; cycle 1.
  { apply IH in Hrun as (Hs & voters & new & Hv & He & Hnd & HF). split; [done|].
    exists voters, new. split; [done|]. split; [done|]. split; [done|].
    eapply Forall2_impl; [exact HF|]. intros w x (? & ? & ?). split; [done|]. split; [by right|done]. }
  apply bind_Ok_inv in Hrun as (b & s1 & Ht & Hrun). apply take_vote_spec in Ht as [Hs1 Hb].
  assert (∀ votes1, collect_votes lastEntry expected (asked ∖ {[v]}) replies votes1 s1 =
      (Ok (Some votes), s') →
    same_answers s s' ∧ ∃ voters new, votes = votes1 ++ new ∧
      expected ≤ Z.of_nat (length votes) ∧ NoDup voters ∧ (v ∉ voters) ∧
      Forall2 (λ w x, w ∈ asked ∧ (w, x) ∈ (v, vote) :: replies ∧ counted_vote s lastEntry w x)
        voters new) as Hrest.
  { intros votes1 (Hs & voters & new & Hv & He & Hnd & HF)%IH. split; [by transitivity s1|].
    exists voters, new. split; [done|]. split; [done|]. split; [done|]. split.
    - intros (i & Hi)%list_elem_of_lookup. destruct (Forall2_lookup_l _ _ _ _ _ HF Hi)
        as (x & _ & Hx & _). set_solver.
    - eapply Forall2_impl; [exact HF|]. intros w x (? & ? & [(key & Hk & ?) ? ?]).
      split; [set_solver|]. split; [by right|]. split; [|done|done]. exists key.
      by rw -(same_key _ _ Hs1). }
  destruct b; [|apply Hrest in Hrun as (Hs & voters & new & Hv & He & Hnd & _ & HF);
    split; [done|]; exists voters, new; done].
  specialize (Hb eq_refl). destruct (Z.leb_spec expected (Z.of_nat (length (votes0 ++ [vote])))).
  - injection Hrun as <- <-. split; [done|]. exists [v], [vote].
    split; [done|]. split; [done|]. split; [apply NoDup_singleton|].
    constructor; [|constructor]. split; [done|]. split; [by left|done].
  - apply Hrest in Hrun as (Hs & voters & new & Hv & He & Hnd & Hnin & HF). split; [done|].
    exists (v :: voters), (vote :: new). split; [by rw Hv -app_assoc|]. split; [done|].
    split; [by constructor|]. constructor; [|done]. split; [done|]. split; [by left|done].
Qed.

(** * Its own vote *)

(** A candidate's own term is that of its request, so that it refuses it. *)
Lemma candidate_refuses_itself env m req s rt g vote s' :
  has_group s m rt g → RequestVoteRequest.Term req = RaftGroup.Term g →
  RequestVote env m req s = (Ok vote, s') → RequestVoteResponse.Granted vote = false.
Proof.
  intros Hg Ht. rw (RequestVote_run _ _ _ _ _ _ Hg).
  destruct (LastLogEntry _ _) as [e|]; [|done]. cbv zeta. unfold refuses.
  rw Ht Z.leb_refl. cbn [orb]. by intros [= <- <-].
Qed.

(** * Timers *)

Lemma group_of_cases m s :
  (∃ rt g, has_group s m rt g) ∨ ∃ w, group_of m s = (Panic w, s).
Proof.
  unfold has_group, group_of, load_rt, load_group, get_state, unwrap, mbind, M_bind.
  destruct (Server.rtgroups s !! m) as [rt|]; [|right; by eexists]. simpl.
  destruct (Server.raftgroups s !! RTGroup.Group rt) as [g|] eqn:Hg; [|right; by eexists].
  left. by exists rt, g.
Qed.

(** What a leader sends is cut from its log. *)
Lemma uncommitted_in_log txn gid l peer entries prev e :
  log_at txn gid l → PeerUncommittedLogEntries txn gid peer = (entries, prev) →
  e ∈ entries → e ∈ l.
Proof.
  intros Hl Hb He. rw (PeerUncommittedLogEntries_at _ _ _ _ Hl) in Hb. injection Hb as <- _.
  rw -(take_drop (batch_start (Peer.NextIndex peer)) l). apply elem_of_app. by right.
Qed.

(** The request carries entries of the group's log. *)
Lemma frame_send_batch m peerId peer entries prev s rt g :
  has_group s m rt g →
  PeerUncommittedLogEntries (Server.DB s) (RaftGroup.Id g) peer = (entries, prev) →
  ∀ nd self votes signature, frame s (Server.upd_calls (cons (Rpc_AppendEntries (Host.ServerAddr nd)
    (AppendEntriesRequest.mk (RaftGroup.Id g) (RaftGroup.Term g) self (LogEntry.Index prev)
      (LogEntry.Term prev) signature votes entries))) (cache_host s peerId)).
Proof.
  intros Hg Hb nd self votes signature. etrans; [apply quiet_frame, quiet_GetHost|].
  apply frame_call_append. simpl. intros l _ Hl e. fold (cache_host s peerId) in Hl.
  rw cache_host_DB in Hl. exact (uncommitted_in_log _ _ _ _ _ _ _ Hl Hb).
Qed.

Lemma frame_send_heartbeat `{!Storing R} m peerId peer : preserves R (send_heartbeat m peerId peer).
Proof.
  intros s. unfold send_heartbeat.
  rw (bind_Ok _ _ _ _ _ (eq_refl : gets Server.Id s = (Ok (Server.Id s), s))).
  destruct (negb (peerId =? Server.Id s)); [|reflexivity].
  destruct (group_of_cases m s) as [(rt & g & Hg)|[w Hw]]; cycle 1.
  { assert (GroupUncommittedLogEntries m peer s = (Panic w, s)) as Hp
      by exact (bind_Panic _ _ _ _ _ Hw).
    rw (bind_Panic _ _ _ _ _ Hp). reflexivity. }
  rw (bind_Ok _ _ _ _ _ (run_log_read (λ txn gid, PeerUncommittedLogEntries txn gid peer)
    _ _ _ _ Hg)).
  destruct (PeerUncommittedLogEntries _ _ _) as [entries prev] eqn:Hb.
  rw (bind_Ok _ _ _ _ _ (GetHostNTXN_run _ _)).
  pose proof (quiet_GetHost peerId s) as Hq. fold (cache_host s peerId) in Hq.
  assert (R s (cache_host s peerId)) as Hf by by apply framing_silent, quiet_silent.
  destruct (read_host s peerId) as [nd|]; [|done].
  pose proof (has_group_quiet _ _ _ _ _ Hq Hg) as Hg1.
  rw (bind_Ok _ _ _ _ _ (run_load_rt _ _ _ (proj1 Hg1)))
    (bind_Ok _ _ _ _ _ (run_group_of _ _ _ _ Hg1)) (bind_Ok _ _ _ _ _ (run_server_sign _ _)).
  rw (bind_Ok _ _ _ _ _ (eq_refl : GetClusterRPC _ _ = _)).
  destruct (W_dial _); [|done]. apply framing_silent.
  destruct (quiet_silent _ _ Hq) as [_ Hd Hr Ht Hc].
  split; [|exact Hd|exact Hr|exact Ht|by intros c Hin%Hc; right].
  exact (frame_send_batch _ _ _ _ _ _ _ _ Hg Hb _ _ _ _).
Qed.

Lemma frame_send_heartbeats `{!Storing R} m peers n : preserves R (send_heartbeats m peers n).
Proof.
  revert n. induction peers as [|[peerId peer] peers IH]; intros n; cbn [send_heartbeats].
  - apply preserves_ret, _.
  - apply preserves_bind; [apply _|apply frame_send_heartbeat|].
    intros [sent|]; [apply IH|apply preserves_ret, _].
Qed.

Lemma frame_process_response `{!Storing R} m response : preserves R (process_response m response).
Proof.
  unfold process_response. solve_frame; try (by apply frame_update_rt).
  apply storing_update, storing_SavePeer.
Qed.

Lemma frame_SendFollowersHeartbeat `{!Storing R} m replies : preserves R (SendFollowersHeartbeat m replies).
Proof.
  unfold SendFollowersHeartbeat. solve_frame; [apply frame_send_heartbeats|].
  apply frame_process_response.
Qed.

(** A heartbeat returns or panics. *)
Lemma errorless_group_of m : errorless (group_of m).
Proof. unfold group_of, load_rt, load_group. solve_errorless. Qed.

Lemma errorless_GetHostNTXN nodeId : errorless (GetHostNTXN nodeId).
Proof. intros s e. by rw GetHostNTXN_run. Qed.

Lemma errorless_GetHostPublicKey nodeId : errorless (GetHostPublicKey nodeId).
Proof.
  intros s e. rw GetHostPublicKey_run. cbn [fst]. unfold read_key. by repeat case_match.
Qed.

Lemma errorless_send_heartbeat m peerId peer : errorless (send_heartbeat m peerId peer).
Proof.
  unfold send_heartbeat, load_rt, server_sign, GetClusterRPC, call, GroupUncommittedLogEntries.
  solve_errorless; auto using errorless_group_of, errorless_GetHostNTXN. by intros s e.
Qed.

Lemma errorless_send_heartbeats m peers n : errorless (send_heartbeats m peers n).
Proof.
  revert n. induction peers as [|[peerId peer] peers IH]; intros n; cbn [send_heartbeats];
    solve_errorless; auto using errorless_send_heartbeat.
Qed.

Lemma errorless_SendFollowersHeartbeat m replies : errorless (SendFollowersHeartbeat m replies).
Proof.
  unfold SendFollowersHeartbeat, RefreshTimer, time_Now, next_rand, load_rt, update_rt. solve_errorless.
  - apply errorless_send_heartbeats.
  - unfold process_response, load_rt, update_rt. solve_errorless.
    apply errorless_GetHostPublicKey.
Qed.

Lemma frame_BecomeLeader `{!Storing R} m replies : preserves R (BecomeLeader m replies).
Proof.
  unfold BecomeLeader. solve_frame; try (by apply frame_update_rt).
  apply frame_SendFollowersHeartbeat.
Qed.

Lemma same_take_vote lastEntry v vote : preserves same_answers (take_vote lastEntry v vote).
Proof. unfold take_vote. solve_preserves. Qed.

Lemma same_collect_votes lastEntry expected asked replies votes :
  preserves same_answers (collect_votes lastEntry expected asked replies votes).
Proof.
  revert asked votes. induction replies as [|[v vote] replies IH]; intros asked votes;
    cbn [collect_votes]; [apply preserves_ret, _|].
  destruct (decide _); [|apply IH].
  apply preserves_bind; [apply _|apply same_take_vote|]. intros [].
  - cbv zeta. case_match; [apply preserves_ret, _|apply IH].
  - apply IH.
Qed.

Lemma frame_ask_votes `{!Storing R} request peers : preserves R (ask_votes request peers).
Proof. unfold ask_votes, GetClusterRPC. solve_frame. Qed.

(** [RefreshTimer] puts the timeout between half and one and a half times the
    factor in seconds from now, and does nothing else but draw a number. *)
Theorem RefreshTimer_range m mult s rt g :
  has_group s m rt g → 0 ≤ mult → 1500 * mult < 2 ^ 24 →
  ∃ t, RefreshTimer m mult s =
      (Ok tt, set_rt m (RTGroup.upd_Timeout (λ _, t) rt) (Server.upd_rands tail s)) ∧
    500 * mult * Millisecond ≤ t - Server.now s ≤ 1500 * mult * Millisecond.
Proof.
  intros Hg Hm Hm'. destruct (run_RefreshTimer _ _ _ _ mult Hg) as [Hr _].
  eexists. split; [exact Hr|].
  pose proof (RandomTimeout_range mult _ Hm Hm' (drawn_range (Server.rands s))).
  unfold Millisecond in *. lia.
Qed.

Lemma refreshed_25 m s s' rt g :
  has_group s m rt g → RefreshTimer m 25 s = (Ok tt, s') →
  ∃ rt', Server.rtgroups s' !! m = Some rt' ∧
    12500 * Millisecond ≤ RTGroup.Timeout rt' - Server.now s' ≤ 37500 * Millisecond.
Proof.
  intros Hg Hrun. destruct (run_RefreshTimer _ _ _ _ 25 Hg) as [Hr [Hm _]].
  rw Hr in Hrun. injection Hrun as <-. eexists. split; [exact Hm|].
  pose proof (RandomTimeout_range 25 _ ltac:(lia) ltac:(lia) (drawn_range (Server.rands s))).
  cbn. unfold Millisecond in *. lia.
Qed.

(** However an election ends, the candidate's next timeout is at least twelve
    and a half seconds away, because the deferred call comes last: a candidate
    that won sends its next heartbeat after the ten seconds its followers give
    it. *)
Theorem candidate_timer m replies during hb s s' rt g :
  has_group s m rt g → (∀ s, frame s (during s)) →
  BecomeCandidate m replies during hb s = (Ok tt, s') →
  ∃ rt', Server.rtgroups s' !! m = Some rt' ∧
    Server.now s' + 12500 * Millisecond ≤ RTGroup.Timeout rt'.
Proof.
  intros Hg Hd Hrun. unfold BecomeCandidate in Hrun.
  assert (∀ A (p : MS A) s1 a s2, preserves frame p → p s1 = (a, s2) → frame s s1 → frame s s2)
    as Hstep.
  { intros A p s1 a s2 Hp H1 Hs1. etrans; [exact Hs1|]. specialize (Hp s1). by rw H1 in Hp. }
  assert (∀ s1, frame s s1 → RefreshTimer m 25 s1 = (Ok tt, s') →
    ∃ rt', Server.rtgroups s' !! m = Some rt' ∧
      Server.now s' + 12500 * Millisecond ≤ RTGroup.Timeout rt')
    as Hend.
  { intros s1 [_ _ Hrt Hgr _] H1. destruct Hg as [Hm Hgp].
    destruct (Hrt _ _ Hm) as (rt1 & Hrt1 & Heq). rw -Heq in Hgp.
    destruct (Hgr _ _ Hgp) as (g1 & Hg1 & _).
    destruct (refreshed_25 m s1 s' rt1 g1 (conj Hrt1 Hg1) H1) as (rt' & Hrt' & Ht).
    exists rt'. split; [exact Hrt'|]. lia. }
  assert (frame s s) as Hs by reflexivity.
  repeat match type of Hrun with
  | (mbind _ ?p) _ = (Ok tt, s') =>
    let a := fresh "a" in let s1 := fresh "s" in let H1 := fresh "H" in
    apply bind_Ok_inv in Hrun as (a & s1 & H1 & Hrun);
    let Hp := fresh "Hp" in
    assert (preserves frame p) as Hp;
      [clear Hrun H1|apply (Hstep _ _ _ _ _ Hp H1) in Hs; clear Hp H1]
  end; [by apply frame_update_rt|..|exact (Hend _ Hs Hrun)].
  all: try (solve [solve_frame]).
  - apply frame_ask_votes.
  - unfold ExpectedHonestPeers. solve_frame.
  - by apply preserves_modify.
  - apply same_frame, same_collect_votes.
  - solve_frame; [by apply frame_update_rt|apply frame_BecomeLeader].
Qed.

(** ** The time wheel *)

Definition tick : Z := 100 * Millisecond.

Lemma time_wheel_sleeps m input s rt :
  Server.rtgroups s !! m = Some rt → Server.now s < RTGroup.Timeout rt →
  time_wheel m input s = (Ok tt, Server.upd_now (Z.add tick) s).
Proof.
  intros Hm Hlt. unfold time_wheel. rw (bind_Ok _ _ _ _ _ (run_load_rt _ _ _ Hm)).
  rw (bind_Ok _ _ _ _ _ (eq_refl : time_Now s = (Ok (Server.now s), s))).
  by rw (proj2 (Z.ltb_lt _ _) Hlt).
Qed.

End facts.

#[export] Hint Resolve frame_SendFollowersHeartbeat frame_BecomeLeader frame_ask_votes : preserves.

(** * Witnesses *)

Definition demo_last : option LogEntry.t := Some (demo_entry 1 1 (genesis_hash demo_group_id)).

Definition demo_replies : list (Z * RequestVoteResponse.t) :=
  [(2, demo_vote 2 1 1); (3, demo_vote 3 1 1)].

Lemma demo_candidate_runs :
  (BecomeCandidate 0 demo_replies (λ s, s) [] demo_voter).1 = Ok tt.
Proof. by vm_compute. Qed.

Lemma RefreshTimer_range_witness :
  ∃ t, 5000 * Millisecond ≤ t - Server.now demo_voter ≤ 15000 * Millisecond.
Proof.
  destruct (RefreshTimer_range 0 10 demo_voter (demo_rt 0 CANDIDATE) (demo_group 1)
    demo_voter_group (Z.lt_le_incl 0 10 eq_refl) eq_refl) as (t & _ & Ht).
  exists t. exact Ht.
Defined.

Lemma candidate_timer_witness :
  ∃ s' rt', BecomeCandidate 0 demo_replies (λ s, s) [] demo_voter = (Ok tt, s') ∧
    Server.now s' + 12500 * Millisecond ≤ RTGroup.Timeout rt'.
Proof.
  generalize demo_candidate_runs.
  destruct (BecomeCandidate 0 demo_replies (λ s, s) [] demo_voter) as [o s'] eqn:Hrun.
  intros Ho. cbn [fst] in Ho. rw Ho in Hrun.
  destruct (candidate_timer 0 demo_replies (λ s, s) [] demo_voter s' (demo_rt 0 CANDIDATE)
    (demo_group 1) demo_voter_group (λ s, reflexivity (R:=frame) s) Hrun) as (rt' & _ & Ht).
  exists s', rt'. split; [by rw Ho|exact Ht].
Defined.
