(* ===== verification/Node.v ===== *)
(** The server as its clients and peers see it: [server/bftraft.go]'s remote
    procedures, and the server's part of [server/alpha.go].

    The procedures of [Module RPC] have the names of the service; those that a
    group answers itself look the group up and pass the call on. *)
From S2P Require Export Election.

Module RPC.
Section rpc.
Context {W : World} `{!RaftFns}.

(** The leader's part of [ExecCommand]: the entry is built and appended in one
    transaction. *)
Definition append_command (m : nat) (cmd : CommandRequest.t) : MS LogEntry.t :=
  DB_Update (
    group ← group_of m;
    lastIndex ← txn_read (λ txn, LastEntryIndex txn (RaftGroup.Id group));
    lastHash ← txn_read (λ txn, LastEntryHash txn (RaftGroup.Id group));
    let index := wrap64 (lastIndex + 1) in
    let hash := LogHash lastHash index (CommandRequest.FuncId cmd) (CommandRequest.Arg cmd) in
    let logEntry := LogEntry.mk (RaftGroup.Term group) index hash (Some cmd) in
    _ ← GroupAppendEntry m logEntry;
    mret logEntry).

Definition sign_response (response : CommandResponse.t) : MS CommandResponse.t :=
  signature ← server_sign (CommandSignData (CommandResponse.Group response)
    (CommandResponse.NodeId response) (CommandResponse.RequestId response)
    (CommandResponse.Result response));
  mret (CommandResponse.set_Signature signature response).

(** After the entry: the followers are told, and the command is run. *)
Definition after_command (m : nat) (replies : list (option AppendEntriesResponse.t))
    (response : CommandResponse.t) (err : string + LogEntry.t) : MS CommandResponse.t :=
  match err with
  | inr logEntry =>
    _ ← SendFollowersHeartbeat m replies;
    rt ← load_rt m;
    if (size (RTGroup.GroupPeers rt) <? 2)%nat || WaitLogApproved m (LogEntry.Index logEntry)
    then
      result ← CommitGroupLog m logEntry;
      sign_response (CommandResponse.set_Result result response)
    else sign_response response
  | inl _ => sign_response response
  end.

(** [forward] is the answer of another node to the command, [replies] those of
    the followers to the heartbeat. *)
Definition ExecCommand (cmd : CommandRequest.t)
    (forward : string → CommandRequest.t → outcome CommandResponse.t)
    (replies : list (option AppendEntriesResponse.t)) : MS CommandResponse.t :=
  let group_id := CommandRequest.Group cmd in
  self ← gets Server.Id;
  signature ← server_sign (CommandSignData group_id self (CommandRequest.RequestId cmd) []);
  let response :=
    CommandResponse.mk group_id 0 self (CommandRequest.RequestId cmd) signature [] in
  m ← GetOnboardGroup group_id;
  leads ← (match m with
           | Some m => rt ← load_rt m; mret (RTGroup.Leader rt =? self)
           | None => mret false
           end);
  match m, (leads : bool) with
  | Some m, true =>
    host ← GetHostNTXN (CommandRequest.ClientId cmd);
    let isRegNewNode :=
      match host with Some _ => false | None => true end &&
      (group_id =? ALPHA_GROUP) && (CommandRequest.FuncId cmd =? REG_NODE) in
    ok ← (if isRegNewNode then mret true else VerifyCommandSign cmd);
    if (ok : bool) then
      let response := CommandResponse.set_LeaderId self response in
      err ← try_ (append_command m cmd);
      after_command m replies response err
    else sign_response response
  | _, _ =>
    host ← (match m with
            | Some m => rt ← load_rt m; GetHostNTXN (RTGroup.Leader rt)
            | None =>
              DB_View (
                peers ← txn_read (λ txn, GetGroupPeersFromKV txn group_id);
                peers ← lift peers;
                match range_map (peers : gmap Z Peer.t) with
                | (id, _) :: _ => GetHost id
                | [] => mret None
                end)
            end);
    host ← unwrap host;
    c ← GetClusterRPC (Host.ServerAddr host);
    if (c : bool) then
      _ ← call (Rpc_ExecCommand (Host.ServerAddr host) cmd);
      lift (forward (Host.ServerAddr host) cmd)
    else sign_response response
  end.

Definition AppendEntries (req : AppendEntriesRequest.t) : MS AppendEntriesResponse.t :=
  self ← gets Server.Id;
  groupMeta ← GetOnboardGroup (AppendEntriesRequest.Group req);
  match groupMeta with
  | None => throw (Sprint [AStr "cannot append, group "; AInt (AppendEntriesRequest.Group req);
                           AStr " not on "; AInt self])
  | Some groupMeta => Replication.AppendEntries groupMeta req
  end.

Definition ApproveAppend (req : AppendEntriesResponse.t) : MS ApproveAppendResponse.t :=
  groupMeta ← GetOnboardGroup (AppendEntriesResponse.Group req);
  match groupMeta with
  | None => throw "cannot find the group"
  | Some groupMeta => Replication.ApproveAppend groupMeta req
  end.

Definition RequestVote (env : Z → Server.t → Server.t) (req : RequestVoteRequest.t)
    : MS RequestVoteResponse.t :=
  meta ← GetOnboardGroup (RequestVoteRequest.Group req);
  match meta with
  | None => throw "cannot find the group"
  | Some meta => Voting.RequestVote env meta req
  end.

Definition GroupHosts (groupId : Z) : MS GroupNodesResponse.t :=
  result ← GetGroupHostsNTXN groupId;
  signature ← server_sign (NodesSignData result);
  mret (GroupNodesResponse.mk result signature).

Definition GroupMembers (groupId : Z) : MS GroupMembersResponse.t :=
  meta ← GetOnboardGroup groupId;
  match meta with
  | None => throw "cannot find group"
  | Some meta => RPCGroupMembers meta
  end.

Definition GetGroupContent (groupId : Z) : MS RaftGroup.t :=
  group ← GetGroupNTXN groupId;
  match group with
  | None => throw "cannot find group"
  | Some group => load_group group
  end.

Definition PullGroupLogs (req : PullGroupLogsResuest.t) : MS (list (option LogEntry.t)) :=
  result ← DB_View (txn_read (λ txn,
    Log.PullGroupLogs txn (PullGroupLogsResuest.Group req) (PullGroupLogsResuest.Index req)));
  lift result.

Definition GetGroupLeader (groupId : Z) : MS GroupLeader.t := GroupLeader groupId.

Definition SendGroupInvitation (inv : GroupInvitation.t) : MS unit :=
  Membership.SendGroupInvitation inv.
End rpc.
End RPC.

Section alpha.
Context {W : World} `{!RaftFns}.

(** * [server/alpha.go] *)

(** [log.Fatal] ends the process. The result is what the client's list of alpha
    nodes is reset to. *)
Definition ColdStart : MS (list string) :=
  self ← gets Server.Id;
  opts ← gets Server.Opts;
  key ← gets Server.SigningKey;
  let alphaGroup := RaftGroup.mk 32 ALPHA_GROUP 0 in
  let thisPeer := Peer.mk self ALPHA_GROUP 0 0 in
  let publicKey :=
    match pkix_marshal (PublicKeyFromPrivate key) with inr b => b | inl _ => [] end in
  let thisHost := Host.mk self 0 true (Options.Address opts) publicKey in
  err ← try_ (DB_Update (
    _ ← txn_write (λ txn, SaveGroup txn alphaGroup);
    _ ← txn_write (λ txn, SavePeer txn thisPeer);
    txn_write (λ txn, SaveHost txn thisHost)));
  match err with
  | inl e => panic ("cannot save to cold start:" +:+ e)
  | inr _ =>
    g ← new_group_ptr alphaGroup;
    newMeta ← NewRTGroup self {[ Peer.Id thisPeer := thisPeer ]} g LEADER;
    _ ← update_rt newMeta (RTGroup.upd_Role (λ _, LEADER));
    _ ← SetOnboardGroup newMeta;
    mret [Options.Address opts]
  end.

Definition members_result (reply : option GroupMembersResponse.t)
    : FuncResult GroupMembersResponse.t :=
  match reply with
  | Some res =>
    mkFuncResult _ (Some res) (GetMembersSignData (GroupMembersResponse.Members res))
  | None => mkFuncResult _ None []
  end.

Definition content_result (reply : option RaftGroup.t) : FuncResult RaftGroup.t :=
  match reply with
  | Some res =>
    match marshal res with
    | inr data => mkFuncResult _ (Some res) data
    | inl _ => mkFuncResult _ None []
    end
  | None => mkFuncResult _ None []
  end.

(** The answers of [n] clients: [None] after ten seconds, [Some None] for a call
    that failed. *)
Definition answers_of {A B} (f : option A → FuncResult B) (n : nat)
    (replies : list (option (option A))) : list (option (FuncResult B)) :=
  (λ i, f <$> default None (replies !! i)) <$> seq 0 n.

(** Whether [id] is a member; a member without a peer is dereferenced. *)
Fixpoint is_member (id : Z) (members : list GroupMember.t) : MS bool :=
  match members with
  | [] => mret false
  | m :: rest =>
    peer ← unwrap (GroupMember.Peer m);
    if Peer.Id peer =? id then mret true else is_member id rest
  end.

(** One round of the loop that stores the members; saving a nil peer or host is an
    error that is dropped like the others. *)
Definition save_member (member : GroupMember.t) : MS unit :=
  _ ← (match GroupMember.Peer member with
       | Some peer => ignore (txn_write (λ txn, SavePeer txn peer))
       | None => mret tt
       end);
  match GroupMember.Host member with
  | Some host => ignore (txn_write (λ txn, SaveHost txn host))
  | None => mret tt
  end.

(** [SyncAlphaGroup] at the server, once its client has given it [alphaRPCs]: they are
    asked for the members, then for the group. [Some] of a list is what the cold start
    resets the client's alpha nodes to. *)
Definition sync_alpha (alphaRPCs : list string)
    (members_replies : list (option (option GroupMembersResponse.t)))
    (content_replies : list (option (option RaftGroup.t))) : MS (option (list string)) :=
  let n := length alphaRPCs in
  let clients := repeat true n in
  let res := default None (MajorityResponse clients (answers_of members_result n members_replies)) in
  match res with
  | None => addrs ← ColdStart; mret (Some addrs)
  | Some alphaMemberRes =>
    let members := GroupMembersResponse.Members alphaMemberRes in
    self ← gets Server.Id;
    isAlphaMember ← is_member self members;
    let lastEntry := GroupMembersResponse.LastEntry alphaMemberRes in
    group ← GetGroupNTXN ALPHA_GROUP;
    if (isAlphaMember : bool) then
      match group with
      | None => panic "Alpha member cannot find alpha group"
      | Some _ => mret None
      end
    else
      group ← (match group with
               | Some group => mret (Some group)
               | None =>
                 let res := default None
                   (MajorityResponse clients (answers_of content_result n content_replies)) in
                 match res with
                 | Some g => p ← new_group_ptr g; mret (Some p)
                 | None => mret None
                 end
               end);
      match group with
      | None => panic "cannot generate alpha group from cluster"
      | Some group =>
        _ ← update_group group (RaftGroup.set_Term
              (match lastEntry with None => 0 | Some e => LogEntry.Index e end));
        g ← load_group group;
        _ ← ignore (DB_Update (
          _ ← ignore (txn_write (λ txn, SaveGroup txn g));
          for_each save_member members));
        mret None
      end
  end.

(** * [GetServer] *)

(** The server before it has looked at its database. *)
Definition new_server (id : Z) (opts : Options.t) (db : W_db) (key : PrivateKey)
    (now : Z) (rands : list Z) : Server.t :=
  Server.mk id opts db ∅ sm_empty ∅ ∅ sm_empty sm_empty sm_empty key ∅ ∅ now rands [].
End alpha.
