(* ===== verification/NodeFacts.v ===== *)
(** What a node does for its clients and observers: a leader turns a command
    into the next entry of its log, only for a client whose signature verifies
    or a host that registers; and the signature on a result is that of a
    command. *)
From S2P Require Export Node ElectionFacts.

Section facts.
Context {W : World} {F : RaftFns}.

(** The entry a leader builds for a command. *)
Definition next_entry (g : RaftGroup.t) (l : list LogEntry.t) (cmd : CommandRequest.t)
    : LogEntry.t :=
  let index := Z.of_nat (length l) + 1 in
  LogEntry.mk (RaftGroup.Term g) index
    (LogHash (tip (RaftGroup.Id g) l) index (CommandRequest.FuncId cmd) (CommandRequest.Arg cmd))
    (Some cmd).

Lemma append_command_run m cmd s rt g l :
  reliable W → has_group s m rt g → holds s m (RaftGroup.Id g) l →
  CommandRequest.Group cmd = RaftGroup.Id g → Z.of_nat (length l) + 1 < 2 ^ 64 →
  ∃ d, let s' := Server.upd_DB (λ _, d) s in
    RPC.append_command m cmd s = (Ok (next_entry g l cmd), s') ∧
    holds s' m (RaftGroup.Id g) (l ++ [next_entry g l cmd]).
Proof.
  intros Hrel Hg Hh Hgrp Hlen. set (e := next_entry g l cmd).
  assert (is_u64 (LogEntry.Index e)) as Hu by (unfold is_u64; simpl; lia).
  destruct (rel_entry _ Hrel e) as [b Hb].
  destruct (rel_set _ Hrel (Server.DB s) (LogEntryKey (RaftGroup.Id g) (LogEntry.Index e)) b)
    as [d Hd]; [done|].
  destruct (AppendEntryToLocal_next (Server.DB s) _ l (holds_log _ _ _ _ Hh) e cmd b d eq_refl Hgrp
    eq_refl Hu eq_refl Hb Hd) as [Ha Hl].
  assert (GroupAppendEntry m e s = (Ok tt, Server.upd_DB (λ _, d) s)) as Happ.
  { unfold GroupAppendEntry. rw (bind_Ok _ _ _ _ _ (run_group_of _ _ _ _ Hg)).
    unfold txn_write, gets, lift, modify, mbind, M_bind. by rw Ha. }
  exists d. split; [|exact (holds_set_DB _ _ _ _ _ _ Hh Hl)].
  unfold RPC.append_command, DB_Update. rw (bind_Ok _ _ _ _ _ (run_group_of _ _ _ _ Hg)).
  unfold txn_read.
  rw (bind_Ok _ _ _ _ _ (eq_refl : gets (λ s, LastEntryIndex (Server.DB s) (RaftGroup.Id g)) s = _)).
  rw (bind_Ok _ _ _ _ _ (eq_refl : gets (λ s, LastEntryHash (Server.DB s) (RaftGroup.Id g)) s = _)).
  rw (LastEntryIndex_at _ _ _ (holds_log _ _ _ _ Hh)) (LastEntryHash_at _ _ _ (holds_log _ _ _ _ Hh)).
  assert (wrap64 (Z.of_nat (length l) + 1) = Z.of_nat (length l) + 1) as Hw
    by (apply Z.mod_small; lia).
  rw Hw. fold (next_entry g l cmd). fold e. rw (bind_Ok _ _ _ _ _ Happ).
  unfold mret, M_ret. by rw (rel_commit _ Hrel).
Qed.

Lemma sign_response_run response s :
  ∃ signature, RPC.sign_response response s =
    (Ok (CommandResponse.set_Signature signature response), s).
Proof. by eexists. Qed.

(** The clients a leader serves. *)
Definition authorised (s : Server.t) (cmd : CommandRequest.t) : Prop :=
  (∃ key, key_of s (CommandRequest.ClientId cmd) = Ok (Some key) ∧
    VerifySign (Some key) (CommandRequest.Signature cmd) (ExecCommandSignData cmd) = Ok true) ∨
  (read_host s (CommandRequest.ClientId cmd) = None ∧
   CommandRequest.Group cmd = ALPHA_GROUP ∧ CommandRequest.FuncId cmd = REG_NODE).

Lemma VerifyCommandSign_spec cmd s b s' :
  VerifyCommandSign cmd s = (Ok b, s') →
  b = true ↔ ∃ key, key_of s (CommandRequest.ClientId cmd) = Ok (Some key) ∧
    VerifySign (Some key) (CommandRequest.Signature cmd) (ExecCommandSignData cmd) = Ok true.
Proof.
  intros Hrun. unfold VerifyCommandSign in Hrun.
  apply bind_Ok_inv in Hrun as (key & s1 & Hk & Hrun).
  assert (key_of s (CommandRequest.ClientId cmd) = Ok key) as -> by (unfold key_of; by rw Hk).
  destruct key as [key|]; [|injection Hrun as <- _; by split; [|intros (key & ? & _)]].
  injection Hrun as Hv _. split; [|intros (key' & [= <-] & Hv')].
  - intros ->. exists key. split; [done|]. simpl. by rw Hv.
  - injection Hv' as Hv'. congruence.
Qed.

(** The leader's test of a command, after it has looked up the client. *)
Lemma authorise_spec cmd s ok s1 :
  (if match read_host s (CommandRequest.ClientId cmd) with Some _ => false | None => true end &&
      (CommandRequest.Group cmd =? ALPHA_GROUP) && (CommandRequest.FuncId cmd =? REG_NODE)
   then mret true else VerifyCommandSign cmd) (cache_host s (CommandRequest.ClientId cmd)) =
    (Ok ok, s1) →
  same_answers s s1 ∧ (ok = true ↔ authorised s cmd).
Proof.
  pose proof (same_answers_GetHost (CommandRequest.ClientId cmd) s) as Hs0.
  fold (cache_host s (CommandRequest.ClientId cmd)) in Hs0. set (s0 := cache_host s _) in *.
  destruct (_ && _ && _) eqn:Hreg; intros Hok.
  - injection Hok as <- <-. split; [done|]. split; [intros _; right|done].
    apply andb_true_iff in Hreg as [[Hr Ha%Z.eqb_eq]%andb_true_iff Hf%Z.eqb_eq].
    split; [by destruct (read_host s _)|done].
  - pose proof (same_answers_VerifyCommandSign cmd s0) as Hv. rw Hok in Hv. cbn [snd] in Hv.
    split; [by transitivity s0|]. rw (VerifyCommandSign_spec _ _ _ _ Hok) (same_key _ _ Hs0).
    split; [by left|]. intros [?|(Hh & Hg & Hf)]; [done|]. rw Hh Hg Hf in Hreg. done.
Qed.

(** An answer to a command that was appended keeps the log and names the leader. *)
Lemma after_command_holds m replies response e s r s' gid l :
  holds s m gid l → RPC.after_command m replies response (inr e) s = (Ok r, s') →
  holds s' m gid l ∧ CommandResponse.RequestId r = CommandResponse.RequestId response ∧
  CommandResponse.LeaderId r = CommandResponse.LeaderId response.
Proof.
  intros Hh Hrun. apply bind_Ok_inv in Hrun as (u & s3 & H3 & Hrun).
  apply (holds_preserved _ _ _ _ _ _ _ (frame_SendFollowersHeartbeat _ _) H3) in Hh.
  apply bind_Ok_inv in Hrun as (rt3 & s4 & H4 & Hrun).
  assert (s4 = s3) as ->.
  { unfold load_rt, get_state, unwrap, mbind, M_bind in H4.
    destruct (Server.rtgroups s3 !! m); [|done]. by injection H4. }
  cbn [WaitLogApproved] in Hrun. rw orb_true_r in Hrun.
  apply bind_Ok_inv in Hrun as (result & s5 & H5 & Hrun).
  apply (holds_preserved _ _ _ _ _ _ _ (frame_CommitGroupLog _ _) H5) in Hh.
  match type of Hrun with RPC.sign_response ?r _ = _ =>
    destruct (sign_response_run r s5) as [sg Hsg] end.
  rw Hsg in Hrun. by injection Hrun as <- <-.
Qed.

(** C17. A command sent to the leader of its group, when it is answered without
    error, has become the next entry of the leader's log, correctly chained, if its
    client is authorised: its signature verifies with the key the leader knows for it,
    or it registers a host that the leader does not know. If its client is not, it has
    left the log alone. *)
Theorem ExecCommand_appends cmd forward replies s s' response m rt g l :
  reliable W → holds s m (RaftGroup.Id g) l → has_group s m rt g → chained (RaftGroup.Id g) l →
  CommandRequest.Group cmd = RaftGroup.Id g → Z.of_nat (length l) + 1 < 2 ^ 64 →
  sm_get (Server.GroupsOnboard s) (id_key (RaftGroup.Id g)) = Some m →
  RTGroup.Leader rt = Server.Id s →
  RPC.ExecCommand cmd forward replies s = (Ok response, s') →
  CommandResponse.RequestId response = CommandRequest.RequestId cmd ∧
  ((authorised s cmd ∧ CommandResponse.LeaderId response = Server.Id s ∧
    holds s' m (RaftGroup.Id g) (l ++ [next_entry g l cmd]) ∧
    chained (RaftGroup.Id g) (l ++ [next_entry g l cmd])) ∨
   (¬ authorised s cmd ∧ CommandResponse.LeaderId response = 0 ∧
    CommandResponse.Result response = [] ∧ holds s' m (RaftGroup.Id g) l)).
Proof.
  intros Hrel Hh Hg Hch Hgrp Hlen Honb Hlead Hrun. unfold RPC.ExecCommand in Hrun.
  rw (bind_Ok _ _ _ _ _ (eq_refl : gets Server.Id s = (Ok (Server.Id s), s)))
    (bind_Ok _ _ _ _ _ (run_server_sign _ _)) in Hrun.
  assert (GetOnboardGroup (CommandRequest.Group cmd) s = (Ok (Some m), s)) as Hob
    by (unfold GetOnboardGroup, gets; by rw Hgrp Honb).
  rw (bind_Ok _ _ _ _ _ Hob) in Hrun.
  rw (bind_Ok _ _ _ _ _ (bind_Ok _ _ _ _ _ (run_load_rt _ _ _ (proj1 Hg)))) in Hrun.
  rw Hlead Z.eqb_refl in Hrun.
  rw (bind_Ok _ _ _ _ _ (GetHostNTXN_run _ _)) in Hrun.
  apply bind_Ok_inv in Hrun as (ok & s1 & Hok & Hrun).
  apply authorise_spec in Hok as [Hs1 Hauth].
  assert (holds s1 m (RaftGroup.Id g) l) as Hh1
    by exact (holds_frame _ _ _ _ _ (quiet_frame _ _ (same_quiet _ _ Hs1)) Hh).
  assert (has_group s1 m rt g) as Hg1 by exact (has_group_quiet _ _ _ _ _ (same_quiet _ _ Hs1) Hg).
  destruct ok; cycle 1.
  { destruct (sign_response_run (CommandResponse.mk (CommandRequest.Group cmd) 0 (Server.Id s)
      (CommandRequest.RequestId cmd) (Sign (Server.SigningKey s) (CommandSignData
        (CommandRequest.Group cmd) (Server.Id s) (CommandRequest.RequestId cmd) [])) []) s1)
      as [sg Hsg].
    rw Hsg in Hrun. injection Hrun as <- <-. split; [done|]. right.
    split; [intros Ha; discriminate (proj2 Hauth Ha)|done]. }
  destruct (append_command_run m cmd s1 rt g l Hrel Hg1 Hh1 Hgrp Hlen) as (d & Ha & Hh2).
  set (s2 := Server.upd_DB (λ _, d) s1) in *.
  assert (try_ (RPC.append_command m cmd) s1 = (Ok (inr (next_entry g l cmd)), s2)) as Htry
    by (unfold try_; by rw Ha).
  rw (bind_Ok _ _ _ _ _ Htry) in Hrun.
  destruct (after_command_holds _ _ _ _ _ _ _ _ _ Hh2 Hrun) as (Hh' & -> & ->).
  split; [done|]. left. split; [by apply Hauth|]. split; [done|]. split; [done|].
  apply chained_snoc. split; [done|]. by exists cmd.
Qed.

(** Results and commands are signed alike: the signature of a node on a result
    of eight bytes or more is that of a command in the node's own name, with the
    function and argument that the result spells out. *)
Theorem result_signature_is_command response s r s' f arg :
  RPC.sign_response response s = (Ok r, s') →
  CommandResponse.Result response = U64Bytes f ++ arg →
  VerifySign (Some (PublicKeyFromPrivate (Server.SigningKey s)))
    (CommandResponse.Signature r)
    (ExecCommandSignData (CommandRequest.mk (CommandResponse.Group response)
      (CommandResponse.NodeId response) (CommandResponse.RequestId response) f
      (CommandResponse.Signature r) arg)) = Ok true.
Proof.
  intros Hrun Hres. injection Hrun as <- _. unfold ExecCommandSignData. cbn [
    CommandRequest.Group CommandRequest.ClientId CommandRequest.RequestId CommandRequest.FuncId
    CommandRequest.Arg]. rw -Hres. apply VerifySign_Sign.
Qed.

(** * The first node *)

(** The records of a node that starts a network. *)
Definition alpha_group : RaftGroup.t := RaftGroup.mk 32 ALPHA_GROUP 0.
Definition first_peer (s : Server.t) : Peer.t := Peer.mk (Server.Id s) ALPHA_GROUP 0 0.
Definition first_host (s : Server.t) : Host.t :=
  Host.mk (Server.Id s) 0 true (Options.Address (Server.Opts s))
    (match pkix_marshal (PublicKeyFromPrivate (Server.SigningKey s)) with
     | inr b => b | inl _ => [] end).

Lemma SaveHost_other txn txn' h k :
  SaveHost txn h = Ok txn' → k ≠ hosts_prefix ++ U64Bytes (Host.Id h) → kv_get txn' k = kv_get txn k.
Proof.
  unfold SaveHost, txn_set. destruct (proto_marshal h); [|done..].
  destruct (kv_set _ _ _) as [|d] eqn:Hs; [done|]. intros [= <-] Hne.
  apply (kv_get_set_ne _ _ _ _ _ Hs). congruence.
Qed.

Lemma SaveHost_group txn txn' h gid :
  SaveHost txn h = Ok txn' → GetGroupFromKV txn' gid = GetGroupFromKV txn gid.
Proof.
  intros Hs. unfold GetGroupFromKV. rw (SaveHost_other _ _ _ (group_key gid) Hs); [|done].
  intros Heq. pose proof (length_ComposeKeyPrefix gid GROUP_META) as H12. fold (group_key gid) in H12.
  rw Heq length_app in H12. unfold hosts_prefix in H12.
  rw (length_ComposeKeyPrefix HOST_LIST_GROUP HOST_LIST) (length_U64Bytes (Host.Id h)) in H12.
  discriminate H12.
Qed.

Lemma SaveHost_peers txn txn' h gid t :
  SaveHost txn h = Ok txn' → peers_at txn gid t → peers_at txn' gid t.
Proof.
  unfold SaveHost, txn_set. destruct (proto_marshal h); [|done..].
  destruct (kv_set _ _ _) as [|d] eqn:Hs; [done|]. intros [= <-] [Ht Hi]. split; [|done].
  apply (table_set_other _ _ _ _ _ _ Ht Hs). unfold peers_prefix, hosts_prefix.
  by apply has_prefix_kinds.
Qed.

Lemma cold_start_run s d1 d2 d3 :
  peers_at (Server.DB s) ALPHA_GROUP ∅ → is_u64 (Server.Id s) →
  SaveGroup (Server.DB s) alpha_group = Ok d1 → SavePeer d1 (first_peer s) = Ok d2 →
  SaveHost d2 (first_host s) = Ok d3 → kv_commits (Server.DB s) d3 = true →
  ∃ s' m rt, ColdStart s = (Ok [Options.Address (Server.Opts s)], s') ∧
    GetGroupFromKV (Server.DB s') ALPHA_GROUP = Some alpha_group ∧
    peers_at (Server.DB s') ALPHA_GROUP {[ Server.Id s := first_peer s ]} ∧
    SaveHost d2 (first_host s) = Ok (Server.DB s') ∧
    sm_get (Server.GroupsOnboard s') (id_key ALPHA_GROUP) = Some m ∧
    has_group s' m rt alpha_group ∧ RTGroup.Role rt = LEADER ∧
    RTGroup.Leader rt = Server.Id s ∧
    RTGroup.GroupPeers rt = {[ Server.Id s := first_peer s ]} ∧
    Server.Id s' = Server.Id s ∧ Server.FuncReg s' = Server.FuncReg s.
Proof.
  intros Hp Hu H1 H2 H3 Hc. unfold ColdStart.
  rw (bind_Ok _ _ _ _ _ (eq_refl : gets Server.Id s = _))
    (bind_Ok _ _ _ _ _ (eq_refl : gets Server.Opts s = _))
    (bind_Ok _ _ _ _ _ (eq_refl : gets Server.SigningKey s = _)).
  fold alpha_group (first_peer s) (first_host s).
  assert (try_ (DB_Update (
    _ ← txn_write (λ txn, SaveGroup txn alpha_group);
    _ ← txn_write (λ txn, SavePeer txn (first_peer s));
    txn_write (λ txn, SaveHost txn (first_host s)))) s = (Ok (inr tt), Server.upd_DB (λ _, d3) s))
    as Hrun.
  { unfold try_, DB_Update. rw (bind_Ok _ _ _ _ _ (run_txn_write s _ _ H1)).
    rw (bind_Ok _ _ _ _ _ (run_txn_write (Server.upd_DB (λ _, d1) s) _ _ H2)).
    rw (run_txn_write (Server.upd_DB (λ _, d2) (Server.upd_DB (λ _, d1) s)) _ _ H3).
    cbn [Server.DB Server.upd_DB]. by rw Hc. }
  rw (bind_Ok _ _ _ _ _ Hrun). cbv beta iota.
  rw (bind_Ok _ _ _ _ _ (run_new_group_ptr _ _)) (bind_Ok _ _ _ _ _ (run_NewRTGroup _ _ _ _ _)).
  set (s1 := set_rt _ _ _). set (rt := RTGroup.mk _ _ _ _ _ _ _ _ _ _) in s1.
  set (m := fresh_ptr _) in s1.
  assert (has_group s1 m rt alpha_group) as Hg by (split; apply lookup_insert_eq).
  destruct (run_update_rt _ _ _ _ (RTGroup.upd_Role (λ _, LEADER)) Hg eq_refl) as [Hr Hg2].
  rw (bind_Ok _ _ _ _ _ Hr) (bind_Ok _ _ _ _ _ (run_SetOnboardGroup _ _ _ _ Hg2)).
  eexists _, m, _. split; [reflexivity|]. split; [|split; [|split; [|split; [|split]]]].
  - etrans; [exact (SaveHost_group _ _ _ ALPHA_GROUP H3)|].
    rw (SavePeer_GetGroup _ _ _ ALPHA_GROUP H2). exact (SaveGroup_get _ _ _ H1).
  - apply (SaveHost_peers _ _ _ _ _ H3).
    exact (SavePeer_at _ _ (first_peer s) ALPHA_GROUP ∅ (SaveGroup_peers _ _ _ _ _ H1 Hp) eq_refl Hu H2).
  - exact H3.
  - apply sm_get_set.
  - exact Hg2.
  - done.
Qed.
(** A cold start leaves the node leading the alpha group alone: the group, in
    term 0, the node as its only peer and its host record are stored, the group
    is on board with the node as leader, and the node is its own bootstrap. *)
Theorem ColdStart_bootstraps s d1 d2 d3 :
  peers_at (Server.DB s) ALPHA_GROUP ∅ → is_u64 (Server.Id s) →
  SaveGroup (Server.DB s) alpha_group = Ok d1 → SavePeer d1 (first_peer s) = Ok d2 →
  SaveHost d2 (first_host s) = Ok d3 → kv_commits (Server.DB s) d3 = true →
  ∃ s' m rt, ColdStart s = (Ok [Options.Address (Server.Opts s)], s') ∧
    GetGroupFromKV (Server.DB s') ALPHA_GROUP = Some alpha_group ∧
    peers_at (Server.DB s') ALPHA_GROUP {[ Server.Id s := first_peer s ]} ∧
    SaveHost d2 (first_host s) = Ok (Server.DB s') ∧
    sm_get (Server.GroupsOnboard s') (id_key ALPHA_GROUP) = Some m ∧
    has_group s' m rt alpha_group ∧ RTGroup.Role rt = LEADER ∧
    RTGroup.Leader rt = Server.Id s ∧
    RTGroup.GroupPeers rt = {[ Server.Id s := first_peer s ]}.
Proof.
  intros Hp Hu H1 H2 H3 Hc.
  destruct (cold_start_run s d1 d2 d3 Hp Hu H1 H2 H3 Hc) as
    (s' & m & rt & ? & ? & ? & ? & ? & ? & ? & ? & ? & _). by exists s', m, rt.
Qed.
End facts.

(** * Witnesses *)

(** A command of the client 1 with its signature. *)
Definition demo_signed (n : Z) : CommandRequest.t :=
  CommandRequest.set_Signature (Sign (W:=mem_world) 1 (ExecCommandSignData (demo_cmd n))) (demo_cmd n).

Definition no_forward : string → CommandRequest.t → outcome CommandResponse.t :=
  λ _ _, Err "not forwarded".

Lemma demo_exec_runs :
  match (RPC.ExecCommand (demo_signed 4) no_forward [] demo_leader).1 with
  | Ok response => CommandResponse.LeaderId response = 1
  | _ => False
  end.
Proof. by vm_compute. Qed.

Lemma demo_leader_group : has_group demo_leader 0 (demo_rt 1 LEADER) (demo_group 1).
Proof. by split. Qed.

Lemma demo_leader_onboard : sm_get (Server.GroupsOnboard demo_leader) (id_key 7) = Some 0%nat.
Proof. by vm_compute. Qed.

Lemma ExecCommand_appends_witness :
  ∃ response s', RPC.ExecCommand (demo_signed 4) no_forward [] demo_leader = (Ok response, s') ∧
    holds s' 0 demo_group_id
      (demo_log 3 ++ [next_entry (demo_group 1) (demo_log 3) (demo_signed 4)]).
Proof.
  generalize demo_exec_runs.
  destruct (RPC.ExecCommand (demo_signed 4) no_forward [] demo_leader) as [[r|e|w] s'] eqn:Hrun;
    intros Hr; [|exfalso; exact Hr..].
  exists r, s'. split; [reflexivity|].
  destruct (ExecCommand_appends (demo_signed 4) no_forward [] demo_leader s' r 0 (demo_rt 1 LEADER)
    (demo_group 1) (demo_log 3) mem_reliable (demo_holds 1 1 LEADER 1 3 eq_refl) demo_leader_group
    (demo_chain _ _ _ _) eq_refl eq_refl demo_leader_onboard eq_refl Hrun)
    as [_ [(_ & _ & Hh & _)|(_ & Hz & _)]].
  - exact Hh.
  - exfalso. rw Hr in Hz. discriminate Hz.
Defined.

Definition demo_result : CommandResponse.t :=
  CommandResponse.mk 7 1 2 9 [] (U64Bytes 3 ++ [5]).

Lemma result_signature_is_command_witness :
  ∃ signature, VerifySign (W:=mem_world) (Some 1) signature
    (ExecCommandSignData (CommandRequest.mk 7 2 9 3 signature [5])) = Ok true.
Proof.
  exists (Sign (W:=mem_world) 1 (CommandSignData 7 2 9 (U64Bytes 3 ++ [5]))).
  exact (result_signature_is_command demo_result demo_leader
    (CommandResponse.set_Signature (Sign (W:=mem_world) 1 (CommandSignData 7 2 9 (U64Bytes 3 ++ [5])))
      demo_result) demo_leader 3 [5] eq_refl eq_refl).
Defined.

Definition demo_blank : Server.t := node_with ((∅ : memdb) : store) 1.
Definition demo_cold1 : store :=
  unwrap_ok ((∅ : memdb) : store) (SaveGroup ((∅ : memdb) : store) alpha_group).
Definition demo_cold2 : store :=
  unwrap_ok ((∅ : memdb) : store) (SavePeer demo_cold1 (first_peer demo_blank)).
Definition demo_cold3 : store :=
  unwrap_ok ((∅ : memdb) : store) (SaveHost demo_cold2 (first_host demo_blank)).

Lemma demo_cold_group : SaveGroup ((∅ : memdb) : store) alpha_group = Ok demo_cold1.
Proof. by vm_compute. Qed.
Lemma demo_cold_peer : SavePeer demo_cold1 (first_peer demo_blank) = Ok demo_cold2.
Proof. by vm_compute. Qed.
Lemma demo_cold_host : SaveHost demo_cold2 (first_host demo_blank) = Ok demo_cold3.
Proof. by vm_compute. Qed.

Lemma ColdStart_bootstraps_witness :
  ∃ s', ColdStart demo_blank = (Ok ["1"], s') ∧
    GetGroupFromKV (Server.DB s') ALPHA_GROUP = Some alpha_group.
Proof.
  destruct (ColdStart_bootstraps demo_blank demo_cold1 demo_cold2 demo_cold3
    (peers_at_empty ALPHA_GROUP) one_u64 demo_cold_group demo_cold_peer demo_cold_host eq_refl)
    as (s' & m & rt & Hrun & Hg & _).
  exists s'. split; [exact Hrun|exact Hg].
Defined.
