(* ===== verification/CatchUp.v ===== *)
(** How a follower that has fallen behind catches up: from the first heartbeat the leader
    learns where the follower is, and the second brings it to the leader's log, whatever
    the leader took the follower's log to be before. *)
From S2P Require Export NodeFacts.

Section catch_up.
Context {W : World} {F : RaftFns}.
Context (m : nat) (gid : Z) (l : list LogEntry.t).

(** * The leader's sending loop *)

(** What sending leaves as it is. *)
Record kept (s s' : Server.t) : Prop := {
  kept_id : Server.Id s' = Server.Id s;
  kept_rt : Server.rtgroups s' = Server.rtgroups s;
  kept_groups : Server.raftgroups s' = Server.raftgroups s;
  kept_DB : Server.DB s' = Server.DB s;
  kept_host id : read_host s' id = read_host s id;
  kept_key id : read_key s' id = read_key s id
}.

#[global] Instance kept_preorder : PreOrder kept.
Proof using. split; [by intros s|]. intros s1 s2 s3 [] []. split; congruence. Qed.

Lemma kept_holds s s' : kept s s' → holds s m gid l → holds s' m gid l.
Proof using.
  intros [_ Hr Hg Hd _ _] [(rt & g & [H1 H2] & Hid) Hu Hl]. split; [|done|by rw Hd].
  exists rt, g. split; [|done]. split; [by rw Hr|by rw Hg].
Qed.

Lemma kept_cache s f calls :
  kept s (Server.upd_calls (λ _, calls) (cache_host s f)).
Proof using.
  pose proof (untouched_same _ _ (same_answers_GetHost f s)) as [Hi _ Hh Hk].
  pose proof (quiet_GetHost f s) as (hs & ks & Hq).
  change (GetHost f s).2 with (cache_host s f) in *. split.
  - exact Hi.
  - by rw Hq.
  - by rw Hq.
  - exact (cache_host_DB s f).
  - exact Hh.
  - exact Hk.
Qed.

Lemma cache_host_calls s f : Server.calls (cache_host s f) = Server.calls s.
Proof using.
  pose proof (quiet_GetHost f s) as (hs & ks & Hq). fold (cache_host s f) in Hq. by rw Hq.
Qed.

Lemma upd_calls_same (s : Server.t) : Server.upd_calls (λ _, Server.calls s) s = s.
Proof using. by destruct s. Qed.

(** The requests of a heartbeat: each is a batch of the log. *)
Definition batches (new : list rpc) : Prop := ∀ c, c ∈ new →
  ∃ addr req peer, c = Rpc_AppendEntries addr req ∧ batch_for gid l peer req.

Lemma batches_app new new' : batches new → batches new' → batches (new ++ new').
Proof using. intros H1 H2 c [?|?]%elem_of_app; auto. Qed.

Lemma send_heartbeat_kept f peer s :
  holds s m gid l → (f ≠ Server.Id s → is_Some (read_host s f)) →
  ∃ new s', send_heartbeat m f peer s = (Ok (Some (0 <? length new)%nat), s') ∧ kept s s' ∧
    Server.calls s' = new ++ Server.calls s ∧ (length new ≤ 1)%nat ∧ batches new ∧
    ∀ h, f ≠ Server.Id s → read_host s f = Some h → W_dial (Host.ServerAddr h) = true →
      ∃ req, Rpc_AppendEntries (Host.ServerAddr h) req ∈ new ∧ batch_for gid l peer req.
Proof using.
  intros Hh Hknown. destruct (decide (f = Server.Id s)) as [->|Hne].
  { exists [], s. unfold send_heartbeat.
    rw (bind_Ok _ _ _ _ _ (eq_refl : gets Server.Id s = (Ok (Server.Id s), s))) Z.eqb_refl.
    split; [done|]. split; [done|]. split; [done|]. split; [simpl; lia|].
    split; [by intros c ?%not_elem_of_nil|done]. }
  destruct (send_heartbeat_run m f peer s gid l Hh Hne) as (req & Hreq & _ & Hrun).
  destruct (Hknown Hne) as [h Hf]. rw Hf in Hrun. destruct (W_dial _) eqn:Hd.
  - exists [Rpc_AppendEntries (Host.ServerAddr h) req]. eexists. split; [exact Hrun|].
    split; [|split; [|split; [done|split]]].
    + exact (kept_cache s f (Rpc_AppendEntries (Host.ServerAddr h) req :: Server.calls (cache_host s f))).
    + cbn. by rw cache_host_calls.
    + intros c ->%list_elem_of_singleton. by exists (Host.ServerAddr h), req, peer.
    + intros h' _ Hf' _. assert (h' = h) as -> by congruence. exists req.
      split; [by apply list_elem_of_singleton|done].
  - exists []. eexists. split; [exact Hrun|]. split; [|split; [|split; [simpl; lia|split]]].
    + rw -(upd_calls_same (cache_host s f)). apply kept_cache.
    + exact (cache_host_calls s f).
    + by intros c ?%not_elem_of_nil.
    + intros h' _ Hf' Hd'. assert (h' = h) as -> by congruence. congruence.
Qed.

Lemma send_heartbeats_kept peers n s :
  holds s m gid l → (∀ f p, (f, p) ∈ peers → f ≠ Server.Id s → is_Some (read_host s f)) →
  ∃ new s', send_heartbeats m peers n s = (Ok (Some (n + length new)%nat), s') ∧ kept s s' ∧
    Server.calls s' = new ++ Server.calls s ∧ batches new ∧
    ∀ f p h, (f, p) ∈ peers → f ≠ Server.Id s → read_host s f = Some h →
      W_dial (Host.ServerAddr h) = true →
      ∃ req, Rpc_AppendEntries (Host.ServerAddr h) req ∈ new ∧ batch_for gid l p req.
Proof using.
  revert n s. induction peers as [|[i q] peers IH]; intros n s Hh Hknown.
  { exists [], s. rw Nat.add_0_r. split; [done|]. split; [done|]. split; [done|].
    split; [by intros c ?%not_elem_of_nil|by intros f p h ?%not_elem_of_nil]. }
  destruct (send_heartbeat_kept i q s Hh (Hknown i q ltac:(by left)))
    as (new1 & s1 & Hrun1 & Hk1 & Hc1 & Hlen1 & Hb1 & Hf1).
  destruct (IH (if (0 <? length new1)%nat then S n else n) s1 (kept_holds _ _ Hk1 Hh))
    as (new2 & s2 & Hrun2 & Hk2 & Hc2 & Hb2 & Hf2).
  { intros f p Hin. rw (kept_id _ _ Hk1) (kept_host _ _ Hk1). apply (Hknown f p). by right. }
  exists (new2 ++ new1), s2. split; [|split; [by transitivity s1|split; [by rw Hc2 Hc1 app_assoc|
    split; [by apply batches_app|]]]].
  - cbn [send_heartbeats]. rw (bind_Ok _ _ _ _ _ Hrun1) Hrun2 length_app.
    do 3 f_equal. destruct new1 as [|c [|]]; simpl in *; lia.
  - intros f p h [[= -> ->]|Hin]%elem_of_cons Hne Hh' Hd.
    + destruct (Hf1 h Hne Hh' Hd) as (req & Hin & Hreq). exists req.
      split; [apply elem_of_app; by right|done].
    + rw -(kept_id _ _ Hk1) in Hne. rw -(kept_host _ _ Hk1) in Hh'.
      destruct (Hf2 f p h Hin Hne Hh' Hd) as (req & Hin' & Hreq). exists req.
      split; [apply elem_of_app; by left|done].
Qed.

(** * The answers *)

(** The leader's table: records under their own ids. *)
Definition in_place (peers : gmap Z Peer.t) : Prop := ∀ i p, peers !! i = Some p → Peer.Id p = i.

Lemma noted_in_place r peer peers :
  in_place peers → peers !! AppendEntriesResponse.Peer r = Some peer →
  in_place (noted r peer peers) ∧ dom (noted r peer peers) = dom peers.
Proof using.
  intros Hw Hp. pose proof (Hw _ _ Hp) as Hid. unfold noted. case_match; [done|]. rw Hid. split.
  - intros i p. destruct (decide (AppendEntriesResponse.Peer r = i)) as [<-|Hne].
    + rw lookup_insert_eq. intros [= <-]. by rw reported_peer_id.
    + rw !lookup_insert_ne //. apply Hw.
  - rw insert_insert_eq dom_insert_L. apply elem_of_dom_2 in Hp. set_solver.
Qed.

Context (f : Z).

(** The leader knows the follower [f] under [peer] and can read its answers. *)
Record follows_up (g : RaftGroup.t) (peers : gset Z) (peer : Peer.t) (s : Server.t) : Prop := {
  up_group : ∃ rt, has_group s m rt g ∧ in_place (RTGroup.GroupPeers rt) ∧
    dom (RTGroup.GroupPeers rt) = peers ∧ RTGroup.GroupPeers rt !! f = Some peer;
  up_key : ∃ key, read_key s f = Ok (Some key)
}.

Lemma process_one g peers peer r s s' :
  follows_up g peers peer s → process_response m (Some r) s = (Ok tt, s') →
  untouched s s' ∧
  follows_up g peers
    (if decide (AppendEntriesResponse.Peer r = f) then reported_peer r peer else peer) s'.
Proof using.
  intros [(rt & Hg & Hw & Hdom & Hp) [key Hkey]] Hrun.
  destruct (process_response_run _ _ _ _ _ _ Hg Hrun) as (rt' & Hg' & Hu & Hcase).
  split; [done|]. split; [exists rt'|exists key; by rw (untouched_key _ _ Hu)].
  split; [done|]. destruct (decide _) as [Heq|Hne].
  - rw Heq Hkey in Hcase. destruct Hcase as (p & Hp' & Hpeers & _).
    assert (p = peer) as -> by congruence. rw -Heq in Hp.
    destruct (noted_in_place r peer _ Hw Hp) as [Hw' Hd'].
    rw Hpeers Hd'. split; [done|]. split; [done|]. rw -Heq.
    exact (noted_lookup r peer _ Hp (Hw _ _ Hp)).
  - destruct (read_key s (AppendEntriesResponse.Peer r)) as [[key'|]|e|w]; [|by subst rt'..].
    destruct Hcase as (p & Hp' & Hpeers & _). destruct (noted_in_place r p _ Hw Hp') as [Hw' Hd'].
    rw Hpeers Hd'. split; [done|]. split; [done|].
    by rw (noted_other r p _ f (not_eq_sym Hne) (Hw _ _ Hp')).
Qed.

(** Answers to the requests: what the record of [f] becomes. *)
Definition report (peer : Peer.t) (reply : option AppendEntriesResponse.t) : Peer.t :=
  match reply with
  | Some r => if decide (AppendEntriesResponse.Peer r = f) then reported_peer r peer else peer
  | None => peer
  end.

Lemma process_all g peers (replies : list (option AppendEntriesResponse.t)) is_ : ∀ peer s s',
  follows_up g peers peer s →
  for_each (λ i, process_response m (default None (replies !! i))) is_ s = (Ok tt, s') →
  untouched s s' ∧ follows_up g peers (foldl report peer ((λ i, default None (replies !! i)) <$> is_)) s'.
Proof using.
  induction is_ as [|i is_ IH]; intros peer s s' Hup; [by intros [= <-]|].
  cbn [for_each fmap list_fmap foldl]. intros ([] & s1 & H1 & Hrun)%bind_Ok_inv.
  destruct (default None (replies !! i)) as [r|] eqn:Hr.
  - destruct (process_one g peers peer r s s1 Hup H1) as [Hu1 Hup1].
    destruct (IH _ _ _ Hup1 Hrun) as [Hu2 Hup2]. split; [by transitivity s1|done].
  - injection H1 as <-. exact (IH _ _ _ Hup Hrun).
Qed.

(** When all that [f] says is that it has [k] entries, and it says so, the record is
    right. *)
Lemma report_tracks (replies : list (option AppendEntriesResponse.t)) k k0 peer :
  (0 < k)%nat → is_u64 (Z.of_nat k + 1) → tracks peer k0 →
  (∀ r, Some r ∈ replies → AppendEntriesResponse.Peer r = f →
    AppendEntriesResponse.Index r = Z.of_nat k) →
  (k0 = k ∨ ∃ r, Some r ∈ replies ∧ AppendEntriesResponse.Peer r = f) →
  tracks (foldl report peer replies) k.
Proof using.
  intros Hk Hu. revert peer k0. induction replies as [|o replies IH]; intros peer k0 Htr Hall Hsome.
  { destruct Hsome as [->|(r & ?%not_elem_of_nil & _)]; done. }
  cbn [foldl].
  assert ((∃ r, o = Some r ∧ AppendEntriesResponse.Peer r = f) ∨
    ¬ ∃ r, o = Some r ∧ AppendEntriesResponse.Peer r = f) as [(r & -> & Hr)|Hno].
  { destruct o as [r|]; [|right; by intros (r & ? & _)].
    destruct (decide (AppendEntriesResponse.Peer r = f)); [left; by exists r|right].
    by intros (r' & [= <-] & ?). }
  - cbn [report]. rw decide_True //. apply (IH _ k); [|intros r' Hin; apply Hall; by right|by left].
    apply (reported_tracks r peer k k0 Htr); [apply Hall; [by left|done]|done|lia].
  - assert (report peer o = peer) as ->.
    { destruct o as [r|]; [|done]. cbn [report]. rw decide_False //. intros Hr. apply Hno. by exists r. }
    apply (IH _ k0 Htr); [intros r' Hin; apply Hall; by right|].
    destruct Hsome as [?|(r & [<-|Hin]%elem_of_cons & Hr)]; [by left| |right; by exists r].
    destruct Hno. by exists r.
Qed.

(** * A heartbeat *)

(** The leader holds the log, knows the hosts of its peers, and reaches [f] at [h]. *)
Record in_touch (g : RaftGroup.t) (peers : gset Z) (peer : Peer.t) (h : Host.t) (s : Server.t) : Prop := {
  touch_holds : holds s m gid l;
  touch_up : follows_up g peers peer s;
  touch_hosts i : i ∈ peers → i ≠ Server.Id s → is_Some (read_host s i);
  touch_other : f ≠ Server.Id s;
  touch_host : read_host s f = Some h;
  touch_dial : W_dial (Host.ServerAddr h) = true
}.

(** The requests sent between two states, and the answers awaited for them. *)
Definition sent (s s' : Server.t) (new : list rpc) : Prop := Server.calls s' = new ++ Server.calls s.

Definition awaited (new : list rpc) (replies : list (option AppendEntriesResponse.t))
    : list (option AppendEntriesResponse.t) :=
  (λ i, default None (replies !! i)) <$> seq 0 (length new).

(** The first round of a heartbeat: the timer, and the table that is looped over. *)
Lemma heartbeat_start g peers peer s A (k : RTGroup.t → MS A) :
  holds s m gid l → follows_up g peers peer s →
  ∃ s1 rt, kept (set_rt m rt s) s1 ∧ Server.calls s1 = Server.calls s ∧ holds s1 m gid l ∧
    has_group s1 m rt g ∧
    in_place (RTGroup.GroupPeers rt) ∧ dom (RTGroup.GroupPeers rt) = peers ∧
    RTGroup.GroupPeers rt !! f = Some peer ∧
    (_ ← RefreshTimer m 1; rt ← load_rt m; k rt) s = k rt s1.
Proof using.
  intros Hh [(rt & Hg & Hw & Hdom & Hp) _]. destruct (run_RefreshTimer s m rt g 1 Hg) as [Hr Hg1].
  cbv zeta in Hr, Hg1. set (rt1 := RTGroup.upd_Timeout _ rt) in *.
  exists (set_rt m rt1 (Server.upd_rands tail s)), rt1. split; [by split|].
  split; [done|]. split; [refine (holds_preserved _ _ _ _ _ _ _ _ Hr Hh); solve_frame|].
  do 4 (split; [done|]).
  by rw (bind_Ok _ _ _ _ _ Hr) (bind_Ok _ _ _ _ _ (run_load_rt _ _ _ (proj1 Hg1))).
Qed.

Lemma heartbeat_run g peers peer h replies s s' :
  in_touch g peers peer h s → SendFollowersHeartbeat m replies s = (Ok tt, s') →
  ∃ new, sent s s' new ∧ batches new ∧
    (∃ req, Rpc_AppendEntries (Host.ServerAddr h) req ∈ new ∧ batch_for gid l peer req) ∧
    in_touch g peers (foldl report peer (awaited new replies)) h s'.
Proof using.
  intros [Hh Hup Hhosts Hne Hhost Hd] Hrun.
  assert (holds s' m gid l) as Hh'
    by exact (holds_preserved _ _ _ _ _ _ _ (frame_SendFollowersHeartbeat m replies) Hrun Hh).
  unfold SendFollowersHeartbeat in Hrun. pose proof Hup as [_ [key Hkey]].
  match type of Hrun with (_ ← RefreshTimer m 1; rt ← load_rt m; @?k rt) s = _ =>
    destruct (heartbeat_start g peers peer s _ k Hh Hup) as
      (s1 & rt & Hk1 & Hc1 & Hh1 & Hg1 & Hw & Hdom & Hp & Heq); rw Heq in Hrun; clear Heq end.
  pose proof (kept_id _ _ Hk1 : Server.Id s1 = Server.Id s) as Hid.
  pose proof (kept_host _ _ Hk1 : ∀ id, read_host s1 id = read_host s id) as Hrh.
  pose proof (kept_key _ _ Hk1 : ∀ id, read_key s1 id = read_key s id) as Hrk.
  destruct (send_heartbeats_kept (range_map (RTGroup.GroupPeers rt)) 0 s1 Hh1)
    as (new & s2 & Hrun2 & Hk2 & Hc2 & Hb & Hreq).
  { intros i p Hin%elem_of_range_map. rw Hid Hrh. apply Hhosts. rw -Hdom. by apply elem_of_dom_2 in Hin. }
  rw (bind_Ok _ _ _ _ _ Hrun2) in Hrun. cbn [Nat.add] in Hrun.
  assert (follows_up g peers peer s2) as Hup2.
  { split; [|exists key; by rw (kept_key _ _ Hk2) Hrk]. exists rt.
    split; [|done]. destruct Hg1 as [H1 H2]. split; [by rw (kept_rt _ _ Hk2)|by rw (kept_groups _ _ Hk2)]. }
  destruct (process_all g peers replies (seq 0 (length new)) peer s2 s' Hup2 Hrun) as [Hu Hup'].
  exists new. split; [|split; [done|split]].
  - unfold sent. by rw (untouched_calls _ _ Hu) Hc2 Hc1.
  - apply (Hreq f peer h); [by apply elem_of_range_map|by rw Hid|by rw Hrh|done].
  - split; [done|exact Hup'|..].
    + intros i Hi. rw (untouched_id _ _ Hu) (untouched_host _ _ Hu) (kept_id _ _ Hk2) (kept_host _ _ Hk2) Hid Hrh.
      by apply Hhosts.
    + by rw (untouched_id _ _ Hu) (kept_id _ _ Hk2) Hid.
    + by rw (untouched_host _ _ Hu) (kept_host _ _ Hk2) Hrh.
    + done.
Qed.

(** * The follower *)

Context (Hrel : reliable W) (Hch : chained gid l) (Hlen : 2 * Z.of_nat (length l) < 2 ^ 64 - 1).

(** A batch of the leader's log continues a first part of it with all the rest or not at
    all, and the answer to one that does not tells where the follower is. *)
Lemma follower_takes d m' k p req s r s' :
  log_at d gid l → (k ≤ length l)%nat → holds s m' gid (take k l) → batch_for gid l p req →
  AppendEntries m' req s = (Ok r, s') →
  holds s' m' gid l ∨
  holds s' m' gid (take k l) ∧ AppendEntriesResponse.Index r = Z.of_nat k ∧
  AppendEntriesResponse.Peer r = Server.Id s ∧ ¬ continues gid (take k l) req.
Proof using Hrel Hlen.
  intros Hl Hk Hh [_ He _ _] Hrun. set (j := batch_start (Peer.NextIndex p)) in *.
  destruct (AppendEntries_cases m' req s s' r gid (take k l) Hrel Hh ltac:(rw He length_take length_drop; lia) Hrun)
    as (_ & Hiff & Hh').
  destruct (AppendEntriesResponse.Successed r) eqn:Hs.
  - left. destruct (proj1 Hiff eq_refl) as [Hne _ _ Hb]. rw He in Hne, Hb, Hh'.
    destruct (drop j l) as [|e rest] eqn:Hd; [done|]. destruct Hb as [Hi _].
    assert (l !! j = Some e) as Hj by (by rw -(Nat.add_0_r j) -lookup_drop Hd).
    rw (log_index _ _ _ Hl _ _ Hj) length_take in Hi. assert (j = k) as -> by lia. by rw -Hd take_drop in Hh'.
  - right. destruct (AppendEntries_refusal _ _ _ _ _ _ _ Hh Hrun Hs) as [Hi Hp].
    split; [done|]. rw Hi length_take. split; [lia|]. split; [done|]. by intros ?%Hiff.
Qed.

(** A log that has all entries stays. *)
Lemma follower_stays d m' p req s r s' :
  log_at d gid l → holds s m' gid l → batch_for gid l p req → AppendEntries m' req s = (Ok r, s') → holds s' m' gid l.
Proof using Hrel Hlen.
  intros Hl Hh Hb Hrun. rw -{1}(firstn_all l) in Hh.
  destruct (follower_takes d m' (length l) p req s r s' Hl (le_n _) Hh Hb Hrun) as [?|(H' & _)]; [done|].
  by rw firstn_all in H'.
Qed.

(** C12. Catching up: whatever length the leader's record gives the log of a follower,
    two heartbeats that reach the follower and are answered bring a follower that has a
    first part of the leader's log, other than the empty one, to all of it: if the first
    finds it elsewhere, its answer says where. The leader knows the follower's host and
    key and can reach it, and no other answer in the follower's name comes in. *)
Theorem two_heartbeats_catch_up g peers peer h k k0 sL replies1 sL1 new1 replies2 sL2
    m' s addr1 req1 r1 s1 :
  in_touch g peers peer h sL → tracks peer k0 →
  Server.Id s = f → holds s m' gid (take k l) → (0 < k ≤ length l)%nat →
  SendFollowersHeartbeat m replies1 sL = (Ok tt, sL1) → sent sL sL1 new1 →
  Rpc_AppendEntries addr1 req1 ∈ new1 → AppendEntries m' req1 s = (Ok r1, s1) →
  Some r1 ∈ awaited new1 replies1 →
  (∀ r, Some r ∈ awaited new1 replies1 → AppendEntriesResponse.Peer r = f → r = r1) →
  SendFollowersHeartbeat m replies2 sL1 = (Ok tt, sL2) →
  ∃ new2 req2, sent sL1 sL2 new2 ∧ Rpc_AppendEntries (Host.ServerAddr h) req2 ∈ new2 ∧
    ∀ r2 s2, AppendEntries m' req2 s1 = (Ok r2, s2) → holds s2 m' gid l.
Proof using Hrel Hch Hlen.
  intros Htouch Htr Hid Hh Hk Hrun1 Hsent1 Hreq1 Happ1 Hin1 Hall1 Hrun2.
  pose proof (holds_log _ _ _ _ (touch_holds _ _ _ _ _ Htouch)) as Hlog.
  destruct (heartbeat_run g peers peer h replies1 sL sL1 Htouch Hrun1)
    as (new & Hsent & Hb1 & _ & Htouch1).
  assert (new = new1) as -> by (unfold sent in *; rw Hsent1 in Hsent; by apply app_inv_tail in Hsent).
  destruct (Hb1 _ Hreq1) as (a & q & p1 & [= -> ->] & Hbatch1).
  destruct (heartbeat_run g peers _ h replies2 sL1 sL2 Htouch1 Hrun2)
    as (new2 & Hsent2 & _ & (req2 & Hreq2 & Hbatch2) & _).
  exists new2, req2. split; [done|]. split; [done|]. intros r2 s2 Happ2.
  destruct (follower_takes _ m' k p1 q s r1 s1 Hlog ltac:(lia) Hh Hbatch1 Happ1)
    as [Hfull|(Hh1 & Hi1 & Hp1 & _)]; [exact (follower_stays _ m' _ req2 s1 r2 s2 Hlog Hfull Hbatch2 Happ2)|].
  destruct (decide (k = length l)) as [->|Hne].
  { rw firstn_all in Hh1. exact (follower_stays _ m' _ req2 s1 r2 s2 Hlog Hh1 Hbatch2 Happ2). }
  assert (tracks (foldl report peer (awaited new1 replies1)) k) as Htr1.
  { apply (report_tracks _ k k0 peer); [lia|unfold is_u64; lia|done| |right; exists r1; by rw Hp1].
    intros r Hr Hf. by rw (Hall1 r Hr Hf). }
  destruct (follower_takes _ m' k _ req2 s1 r2 s2 Hlog ltac:(lia) Hh1 Hbatch2 Happ2) as [?|(_ & _ & _ & Hno)];
    [done|].
  destruct Hno. apply (batch_for_continues (Server.DB sL1) gid l k req2
    (foldl report peer (awaited new1 replies1)));
    [exact (holds_log _ _ _ _ (touch_holds _ _ _ _ _ Htouch1))|done|done|lia|done].
Qed.
End catch_up.

(** * Witness

    The leader of three entries takes its followers' logs to be empty; the follower 2 has
    one entry. *)
Definition request_to (addr : string) (calls : list rpc) : option AppendEntriesRequest.t :=
  head (omap (λ c, match c with
    | Rpc_AppendEntries a req => if decide (a = addr) then Some req else None
    | _ => None end) calls).

Lemma request_to_in addr calls req :
  request_to addr calls = Some req → Rpc_AppendEntries addr req ∈ calls.
Proof.
  unfold request_to. destruct (omap _ _) as [|r rs] eqn:Ho; [done|]. intros [= ->].
  assert (req ∈ omap (λ c, match c with
    | Rpc_AppendEntries a req => if decide (a = addr) then Some req else None
    | _ => None end) calls) as Hin by (rw Ho; by left).
  apply list_elem_of_omap in Hin as (c & Hin & Hc). destruct c; try done.
  case_decide as Hd; [|done]. injection Hc as ->. by rw Hd in Hin.
Qed.

Definition behind_sent : Server.t := (SendFollowersHeartbeat 0 [] demo_leader).2.

Definition behind_req : AppendEntriesRequest.t := default demo_batch (request_to "2" (Server.calls behind_sent)).

Definition behind_answer : outcome AppendEntriesResponse.t * Server.t := AppendEntries 0 behind_req demo_follower.

Definition behind_reply : AppendEntriesResponse.t :=
  match behind_answer.1 with Ok r => r | _ => demo_answer end.

Definition behind_first : outcome unit * Server.t :=
  SendFollowersHeartbeat 0 [Some behind_reply; None] demo_leader.

Definition behind_second : outcome unit * Server.t := SendFollowersHeartbeat 0 [] behind_first.2.

Example behind_runs :
  (match behind_answer.1 with Ok r => AppendEntriesResponse.Index r | _ => 0 end,
   behind_first.1, length (Server.calls behind_first.2), behind_second.1) = (1, Ok tt, 2%nat, Ok tt).
Proof. by vm_compute. Qed.

Lemma behind_first_run : behind_first = (Ok tt, behind_first.2).
Proof. assert (behind_first.1 = Ok tt) as <- by (by vm_compute). apply surjective_pairing. Qed.

Lemma behind_second_run : behind_second = (Ok tt, behind_second.2).
Proof. assert (behind_second.1 = Ok tt) as <- by (by vm_compute). apply surjective_pairing. Qed.

Lemma behind_answer_run : behind_answer = (Ok behind_reply, behind_answer.2).
Proof. assert (behind_answer.1 = Ok behind_reply) as <- by (by vm_compute). apply surjective_pairing. Qed.

Lemma behind_requested : request_to "2" (Server.calls behind_first.2) = Some behind_req.
Proof. by vm_compute. Qed.

Lemma behind_awaited : awaited (Server.calls behind_first.2) [Some behind_reply; None] = [Some behind_reply; None].
Proof.
  unfold awaited. assert (length (Server.calls behind_first.2) = 2%nat) as -> by (by vm_compute). done.
Qed.

Lemma behind_touch :
  in_touch 0 demo_group_id (demo_log 3) 2 (demo_group 1) {[1; 2; 3]} (demo_peer 2) (demo_host 2) demo_leader.
Proof.
  assert (∀ i, i ∈ ({[1; 2; 3]} : gset Z) → i = 1 ∨ i = 2 ∨ i = 3) as Hin by set_solver.
  split.
  - exact (demo_holds 1 1 LEADER 1 3 eq_refl).
  - split; [|exists 2; by vm_compute]. exists (demo_rt 1 LEADER). split; [by split|].
    assert (RTGroup.GroupPeers (demo_rt 1 LEADER) =
      <[1 := demo_peer 1]> (<[2 := demo_peer 2]> {[ 3 := demo_peer 3 ]})) as -> by (by vm_compute).
    split; [|split; [set_solver|done]].
    intros i p [[<- <-]|[_ [[<- <-]|[_ [<- <-]%lookup_singleton_Some]]%lookup_insert_Some]]%lookup_insert_Some;
      done.
  - intros i Hi _. exists (demo_host i). destruct (Hin i Hi) as [-> | [-> | ->]]; by vm_compute.
  - done.
  - by vm_compute.
  - by vm_compute.
Qed.

Lemma only_some {A} (x y : A) : Some x ∈ [Some y; None] → x = y.
Proof. by intros [[= ->]|[?|?%not_elem_of_nil]%elem_of_cons]%elem_of_cons. Qed.

Lemma two_heartbeats_catch_up_witness :
  ∃ new2 req2, sent behind_first.2 behind_second.2 new2 ∧
    Rpc_AppendEntries "2" req2 ∈ new2 ∧
    ∀ r2 s2, AppendEntries 0 req2 behind_answer.2 = (Ok r2, s2) → holds s2 0 demo_group_id (demo_log 3).
Proof.
  apply (two_heartbeats_catch_up 0 demo_group_id (demo_log 3) 2 mem_reliable (demo_chain _ _ _ _) eq_refl
    (demo_group 1) {[1; 2; 3]} (demo_peer 2) (demo_host 2) 1 0 demo_leader [Some behind_reply; None]
    behind_first.2 (Server.calls behind_first.2) [] behind_second.2 0 demo_follower "2" behind_req
    behind_reply behind_answer.2 behind_touch demo_tracks_fresh).
  - reflexivity.
  - exact (demo_holds 2 1 FOLLOWER 1 1 eq_refl).
  - split; [apply Nat.lt_0_1|apply (Nat.le_add_r 1 2)].
  - exact behind_first_run.
  - symmetry. apply app_nil_r.
  - exact (request_to_in _ _ _ behind_requested).
  - exact behind_answer_run.
  - rw behind_awaited. by left.
  - rw behind_awaited. intros r Hr _. exact (only_some r behind_reply Hr).
  - exact behind_second_run.
Defined.
