(* ===== verification/Growth.v ===== *)
(** How a node's log moves, whatever a handler's outcome: an append request adds a
    first part of its entries, a command adds one entry at most, and every other
    handler respects [frame]. *)
From S2P Require Export NodeFacts.

Section growth.
Context {W : World} {F : RaftFns}.

(** * A log on the move

    [moves m gid l' s s']: the node has got from [s] to [s'], where the log of the
    group is [l'], and the entries it has sent meanwhile are of [l']. *)
Record moves (m : nat) (gid : Z) (l' : list LogEntry.t) (s s' : Server.t) : Prop := {
  moves_holds : holds s' m gid l';
  moves_sent addr req : Rpc_AppendEntries addr req ∈ Server.calls s' →
    AppendEntriesRequest.Group req = gid →
    Rpc_AppendEntries addr req ∈ Server.calls s ∨
    (∀ e, e ∈ AppendEntriesRequest.Entries req → e ∈ l')
}.

Lemma moves_frame m gid l s s' : frame s s' → holds s m gid l → moves m gid l s s'.
Proof.
  intros Hf Hh. split; [exact (holds_frame _ _ _ _ _ Hf Hh)|].
  intros addr req Hin Hg. exact (frame_sent _ _ Hf _ _ _ _ (holds_id _ _ _ _ Hh)
    (holds_log _ _ _ _ Hh) Hin Hg).
Qed.

Lemma moves_trans m gid l1 l2 s1 s2 s3 :
  l1 ⊆ l2 → moves m gid l1 s1 s2 → moves m gid l2 s2 s3 → moves m gid l2 s1 s3.
Proof.
  intros Hl [H1 S1] [H2 S2]. split; [done|]. intros addr req Hin Hg.
  destruct (S2 _ _ Hin Hg) as [Hin1|?]; [|by right].
  destruct (S1 _ _ Hin1 Hg) as [?|Hsub]; [by left|right]. intros e He. by apply Hl, Hsub.
Qed.

(** [grows m gid l p Q]: from a state with the log [l], [p] leaves a log that
    satisfies [Q], on every path. *)
Definition grows {A} (m : nat) (gid : Z) (l : list LogEntry.t) (p : MS A)
    (Q : list LogEntry.t → Prop) : Prop :=
  ∀ s, holds s m gid l → ∃ l', Q l' ∧ l `prefix_of` l' ∧ moves m gid l' s (p s).2.

Lemma grows_frame {A} m gid l (p : MS A) (Q : list LogEntry.t → Prop) :
  preserves frame p → Q l → grows m gid l p Q.
Proof. intros Hp HQ s Hh. exists l. split; [done|]. split; [done|]. by apply moves_frame. Qed.

Lemma prefix_subseteq (l1 l2 : list LogEntry.t) : l1 `prefix_of` l2 → l1 ⊆ l2.
Proof. intros [k ->] e He. apply elem_of_app. by left. Qed.

(** The log does not move before [f]. *)
Lemma grows_after {A B} m gid l (p : MS A) (f : A → MS B) Q :
  preserves frame p → Q l → (∀ a, grows m gid l (f a) Q) → grows m gid l (p ≫= f) Q.
Proof.
  intros Hp HQ Hf s Hh. pose proof (moves_frame m gid l _ _ (Hp s) Hh) as Hm.
  rw /mbind /M_bind. destruct (p s) as [[a|e|w] s1]; simpl in *; cycle 1.
  { by exists l. } { by exists l. }
  destruct (Hf a s1 (moves_holds _ _ _ _ _ Hm)) as (l' & HQ' & Hl & Hm').
  exists l'. split; [done|]. split; [done|].
  exact (moves_trans _ _ _ _ _ _ _ (prefix_subseteq _ _ Hl) Hm Hm').
Qed.

(** The log does not move after [p]. *)
Lemma grows_before {A B} m gid l (p : MS A) (f : A → MS B) Q :
  grows m gid l p Q → (∀ a, preserves frame (f a)) → grows m gid l (p ≫= f) Q.
Proof.
  intros Hp Hf s Hh. destruct (Hp s Hh) as (l' & HQ & Hl & Hm). exists l'.
  rw /mbind /M_bind. destruct (p s) as [[a|e|w] s1]; simpl in *; [|done..].
  split; [done|]. split; [done|]. apply (moves_trans _ _ _ _ _ s1 _ (reflexivity l') Hm).
  apply moves_frame; [apply Hf|exact (moves_holds _ _ _ _ _ Hm)].
Qed.

(** * Handlers that leave every log alone *)

Lemma frame_modify_env (f : Server.t → Server.t) : (∀ s, frame s (f s)) → preserves frame (modify f).
Proof. intros Hf s. apply Hf. Qed.

Lemma frame_lazy_vote `{!Storing R} env fuel n m req vote :
  (∀ k s, R s (env k s)) → preserves R (lazy_vote env fuel n m req vote).
Proof.
  intros He. revert n vote. induction fuel as [|fuel IH]; intros n vote; cbn [lazy_vote].
  - apply preserves_ret, _.
  - solve_frame; try (by apply frame_update_rt). apply He.
Qed.

Lemma frame_RequestVote `{!Storing R} env m req :
  (∀ k s, R s (env k s)) → preserves R (RequestVote env m req).
Proof.
  intros He. unfold RequestVote. solve_frame. by apply frame_lazy_vote.
Qed.

Lemma frame_collect_votes `{!Storing R} lastEntry expected asked replies votes :
  preserves R (collect_votes lastEntry expected asked replies votes).
Proof. apply framing_quiet. intros s. apply same_collect_votes. Qed.

Lemma frame_BecomeCandidate `{!Storing R} m replies during hb :
  (∀ s, R s (during s)) → preserves R (BecomeCandidate m replies during hb).
Proof.
  intros Hd. unfold BecomeCandidate, ExpectedHonestPeers. solve_frame;
    first [by apply frame_update_rt|apply Hd|apply frame_collect_votes].
Qed.

Lemma frame_time_wheel `{!Storing R} m input s :
  (∀ s, R s (in_during input s)) →
  (∀ rt, Server.rtgroups s !! m = Some rt → RTGroup.Role rt ≠ OBSERVER) →
  R s (time_wheel m input s).2.
Proof.
  intros Hd Hr. unfold time_wheel.
  destruct (Server.rtgroups s !! m) as [rt|] eqn:Hm; cycle 1.
  { unfold load_rt, get_state, unwrap, mbind, M_bind. rw Hm. reflexivity. }
  rw (bind_Ok _ _ _ _ _ (run_load_rt _ _ _ Hm)). specialize (Hr rt eq_refl).
  generalize s. change (preserves R
    (t ← time_Now;
     if t <? RTGroup.Timeout rt then modify (Server.upd_now (Z.add (100 * Millisecond)))
     else if RTGroup.Role rt =? CANDIDATE then
       BecomeCandidate m (in_votes input) (in_during input) (in_answers input)
     else if RTGroup.Role rt =? FOLLOWER then
       self ← gets Server.Id;
       if RTGroup.Leader rt =? self then panic follower_leads
       else BecomeCandidate m (in_votes input) (in_during input) (in_answers input)
     else if RTGroup.Role rt =? LEADER then SendFollowersHeartbeat m (in_answers input)
     else if RTGroup.Role rt =? OBSERVER then
       _ ← PullAndCommitGroupLogs m (in_pulls input);
       RefreshTimer m 5
     else mret tt)).
  rw (proj2 (Z.eqb_neq _ _) Hr). unfold time_Now.
  solve_frame; by apply frame_BecomeCandidate.
Qed.

(** * An append request *)

(** The log after a request: a first part of its entries was added, none unless the
    request continues the log. *)
Definition extended (gid : Z) (l : list LogEntry.t) (req : AppendEntriesRequest.t)
    (l' : list LogEntry.t) : Prop :=
  l' = l ∨ continues gid l req ∧ ∃ n, l' = l ++ take n (AppendEntriesRequest.Entries req).

Lemma grows_append_entry m gid l e response :
  reliable W → LogEntry.Index e = Z.of_nat (length l) + 1 → is_u64 (LogEntry.Index e) →
  entry_linked (tip gid l) e →
  ∀ s, holds s m gid l →
    moves m gid (l ++ [e]) s (append_entry m gid response e s).2 ∨
    moves m gid l s (append_entry m gid response e s).2 ∧
    ∃ w s', append_entry m gid response e s = (Panic w, s').
Proof.
  intros Hrel Hi Hu Hlink s Hh. pose proof Hlink as (cmd & Hc & _).
  unfold append_entry. cbn [WaitLogApproved].
  destruct (decide (CommandRequest.Group cmd = gid)) as [Hg|Hg]; cycle 1.
  { right. destruct (run_store_foreign _ _ _ _ _ _ Hh Hc Hg) as [w Hw].
    rw (bind_Panic _ _ _ _ _ Hw). split; [by apply moves_frame; [reflexivity|]|by eexists _, _]. }
  left. destruct (run_store_entry _ _ _ _ _ _ Hrel Hh Hc Hg Hi Hu Hlink) as (d & H1 & Hh1).
  rw (bind_Ok _ _ _ _ _ H1) Hc. set (s1 := Server.upd_DB (λ _, d) s) in *.
  rw (bind_Ok _ _ _ _ _ (eq_refl : unwrap (Some cmd) s1 = (Ok cmd, s1))).
  apply (moves_trans _ _ (l ++ [e]) _ _ s1); [done| |].
  - split; [done|]. intros addr req Hin _. by left.
  - apply moves_frame; [|done]. exact (frame_append_tail m gid response e cmd s1).
Qed.

Lemma grows_append_entries m gid entries :
  reliable W → ∀ l response,
  Z.of_nat (length l + length entries) < 2 ^ 64 →
  batch_ok (Z.of_nat (length l) + 1) (tip gid l) entries →
  grows m gid l (fold_each (append_entry m gid) entries response)
    (λ l', ∃ n, l' = l ++ take n entries).
Proof.
  intros Hrel. induction entries as [|e entries IH]; intros l response Hlen Hok.
  { apply grows_frame; [apply preserves_ret, _|]. exists O. by rw app_nil_r. }
  intros s Hh. cbn [fold_each batch_ok length] in *. destruct Hok as (Hi & Hlink & Hok).
  assert (is_u64 (LogEntry.Index e)) as Hu by (unfold is_u64; lia).
  destruct (grows_append_entry m gid l e response Hrel Hi Hu Hlink s Hh) as [Hm|[Hm (w & s' & Hw)]];
    cycle 1.
  { rw (bind_Panic _ _ _ _ _ Hw). rw Hw in Hm. exists l. split; [exists O; by rw app_nil_r|done]. }
  assert (batch_ok (Z.of_nat (length (l ++ [e])) + 1) (tip gid (l ++ [e])) entries) as Hok'.
  { rw tip_snoc length_app. simpl. by replace (Z.of_nat (length l + 1) + 1)
      with (Z.of_nat (length l) + 1 + 1) by lia. }
  rw /mbind /M_bind. destruct (append_entry m gid response e s) as [[r|er|w] s1]; simpl in Hm;
    cycle 1. 1-2: exists (l ++ [e]); split; [by exists 1%nat|split; [by eexists|done]].
  destruct (IH (l ++ [e]) r ltac:(rw length_app; simpl; lia) Hok' s1 (moves_holds _ _ _ _ _ Hm))
    as (l' & [n ->] & Hp & Hm').
  exists ((l ++ [e]) ++ take n entries). split; [exists (S n); by rw -app_assoc|].
  split; [rw -app_assoc; by eexists|].
  exact (moves_trans _ _ _ _ _ _ _ (prefix_subseteq _ _ Hp) Hm Hm').
Qed.

Lemma quiet_check_entries entries i bound h : preserves quiet (check_entries entries i bound h).
Proof.
  revert i h. induction entries as [|e entries IH]; intros i h; cbn [check_entries]; solve_preserves.
Qed.

(** A request is read-only, or gets to the loop over a batch that continues the log. *)
Lemma append_batch_cases m gid req r l s :
  holds s m gid l →
  Z.of_nat (length l + length (AppendEntriesRequest.Entries req)) < 2 ^ 64 - 1 →
  silent s (append_batch m gid req r s).2 ∨
  continues gid l req ∧ ∃ s1, quiet s s1 ∧ append_batch m gid req r s =
    (fold_each (append_entry m gid) (AppendEntriesRequest.Entries req) r ≫=
      λ response, mret (AppendEntriesResponse.set_Successed true response)) s1.
Proof.
  intros Hh. unfold append_batch.
  destruct (AppendEntriesRequest.Entries req) as [|first rest] eqn:Hes; [intros _; left; reflexivity|].
  intros Hlen. cbn [length] in Hlen.
  rw (bind_Ok _ _ _ _ _ (run_LastEntryIndex _ _ _ _ Hh))
    (bind_Ok _ _ _ _ _ (run_LastLogEntry _ _ _ _ Hh)).
  assert (wrap64 (Z.of_nat (length l) + 1) = Z.of_nat (length l) + 1) as ->
    by (apply Z.mod_small; lia).
  destruct (Z.eqb_spec (AppendEntriesRequest.PrevLogIndex req) (Z.of_nat (length l))) as [Hpi|_];
    cbn [andb]; [|left; reflexivity].
  destruct (Z.eqb_spec (LogEntry.Index first) (Z.of_nat (length l) + 1)) as [Hfi|_]; [|left; reflexivity].
  fold (last_term l).
  destruct (Z.eqb_spec (AppendEntriesRequest.PrevLogTerm req) (last_term l)) as [Hpt|_];
    cbn [negb]; [|left; reflexivity].
  rw (bind_Ok _ _ _ _ _ (run_LastEntryHash _ _ _ _ Hh)).
  assert (wrap64 (Z.of_nat (length l) + 1 + Z.of_nat (length (first :: rest))) =
    Z.of_nat (length l) + 1 + Z.of_nat (length (first :: rest))) as ->
    by (apply Z.mod_small; simpl; lia).
  destruct (check_entries (first :: rest) (Z.of_nat (length l) + 1)
    (Z.of_nat (length l) + 1 + Z.of_nat (length (first :: rest))) (tip gid l) s) as [o s1] eqn:Hcheck.
  assert (quiet s s1) as Hq by (change s1 with (o, s1).2; rw -Hcheck; apply quiet_check_entries).
  rw {1 3}/mbind {1 3}/M_bind Hcheck.
  destruct o as [[]|er|w]; [|left; by apply quiet_silent..].
  right. apply check_entries_spec in Hcheck as [_ Hok]; [|lia|simpl; lia].
  split; [split; [by rw Hes|done|done|]; rw Hes; by apply Hok|]. by exists s1.
Qed.

(** Up to the batch itself, a request is read-only for the log. *)
Lemma grows_append_batch m gid req r l :
  reliable W →
  Z.of_nat (length l + length (AppendEntriesRequest.Entries req)) < 2 ^ 64 - 1 →
  grows m gid l (append_batch m gid req r) (extended gid l req).
Proof.
  intros Hrel Hlen s Hh.
  destruct (append_batch_cases m gid req r l s Hh Hlen) as [Hs|(Hc & s1 & Hq & ->)].
  { exists l. split; [by left|]. split; [done|]. apply moves_frame; [apply Hs|done]. }
  pose proof (moves_frame _ _ _ _ _ (quiet_frame _ _ Hq) Hh) as Hm.
  destruct (grows_before m gid l (fold_each (append_entry m gid) (AppendEntriesRequest.Entries req) r)
    (λ response, mret (AppendEntriesResponse.set_Successed true response)) _
    (grows_append_entries m gid (AppendEntriesRequest.Entries req) Hrel l r ltac:(lia)
      (continues_batch _ _ _ Hc))
    (λ a, preserves_ret _ _) s1 (moves_holds _ _ _ _ _ Hm)) as (l' & [n ->] & Hp & Hm').
  exists (l ++ take n (AppendEntriesRequest.Entries req)). split; [right; split; [done|by exists n]|].
  split; [done|]. exact (moves_trans _ _ _ _ _ _ _ (prefix_subseteq _ _ Hp) Hm Hm').
Qed.

(** The entries that a request adds, whatever its outcome. *)
Lemma grows_AppendEntries m gid req l :
  reliable W →
  Z.of_nat (length l + length (AppendEntriesRequest.Entries req)) < 2 ^ 64 - 1 →
  grows m gid l (AppendEntries m req) (extended gid l req).
Proof.
  intros Hrel Hlen s Hh. destruct (holds_group _ _ _ _ Hh) as (rt & g & Hg & Hid).
  assert (extended gid l req l) as Hrefl by by left.
  unfold AppendEntries. rw (bind_Ok _ _ _ _ _ (run_load_rt _ _ _ (proj1 Hg))).
  assert (load_group (RTGroup.Group rt) s = (Ok g, s)) as Hlg.
  { unfold load_group, get_state, unwrap, mbind, M_bind. by rw (proj2 Hg). }
  rw (bind_Ok _ _ _ _ _ Hlg) Hid. clear Hlg. revert s Hh Hg.
  match goal with |- ∀ s, holds s m gid l → _ → ∃ l', _ ∧ _ ∧ moves m gid l' s (?p s).2 =>
    cut (grows m gid l p (extended gid l req)); [intros HH s Hh _; exact (HH s Hh)|] end.
  repeat lazymatch goal with
  | |- grows _ _ _ (append_batch _ _ _ _) _ => by apply grows_append_batch
  | |- grows _ _ _ (match ?x with _ => _ end) _ => destruct x
  | |- grows _ _ _ (throw _) _ => apply grows_frame; [apply preserves_throw, _|done]
  | |- grows _ _ _ (_ ≫= _) _ => apply grows_after; [|done|intros ?]
  end.
  all: try (by apply frame_update_rt).
  all: solve_frame.
Qed.

(** * A command *)

(** The log after a command: unchanged, or with the command's entry when the node
    leads the group. *)
Definition commanded (s : Server.t) (m : nat) (l : list LogEntry.t) (cmd : CommandRequest.t)
    (l' : list LogEntry.t) : Prop :=
  l' = l ∨ ∃ rt g, has_group s m rt g ∧ RTGroup.Leader rt = Server.Id s ∧
    l' = l ++ [next_entry g l cmd].

Lemma frame_sign_response `{!Storing R} response : preserves R (RPC.sign_response response).
Proof. unfold RPC.sign_response. solve_frame. Qed.

Lemma frame_after_command m replies response err :
  preserves frame (RPC.after_command m replies response err).
Proof. unfold RPC.after_command. solve_frame; apply frame_sign_response. Qed.

(** Without a record of its group, a command is passed on. *)
Lemma silent_forward cmd forward replies s :
  sm_get (Server.GroupsOnboard s) (id_key (CommandRequest.Group cmd)) = None →
  silent s (RPC.ExecCommand cmd forward replies s).2.
Proof.
  intros Hm. unfold RPC.ExecCommand.
  rw (bind_Ok _ _ _ _ _ (eq_refl : gets Server.Id s = (Ok (Server.Id s), s)))
    (bind_Ok _ _ _ _ _ (run_server_sign _ _))
    (bind_Ok _ _ _ _ _ (eq_refl : GetOnboardGroup (CommandRequest.Group cmd) s = (Ok _, s))) Hm.
  match goal with |- silent s (?p s).2 => cut (preserves silent p); [intros HH; exact (HH s)|] end.
  unfold GetClusterRPC. solve_frame. apply frame_DB_View. unfold txn_read. solve_frame.
Qed.

(** A command is read-only, or gets to the leader's part. *)
Lemma ExecCommand_cases cmd forward replies s m rt g :
  has_group s m rt g → sm_get (Server.GroupsOnboard s) (id_key (CommandRequest.Group cmd)) = Some m →
  silent s (RPC.ExecCommand cmd forward replies s).2 ∨
  RTGroup.Leader rt = Server.Id s ∧ ∃ s1 response, quiet s s1 ∧
    RPC.ExecCommand cmd forward replies s =
      (try_ (RPC.append_command m cmd) ≫= RPC.after_command m replies response) s1.
Proof.
  intros Hg Honb.
  assert (∀ {A} (p : MS A), preserves silent p → silent s (p s).2) as Hstay by auto.
  unfold RPC.ExecCommand.
  rw (bind_Ok _ _ _ _ _ (eq_refl : gets Server.Id s = (Ok (Server.Id s), s)))
    (bind_Ok _ _ _ _ _ (run_server_sign _ _))
    (bind_Ok _ _ _ _ _ (eq_refl : GetOnboardGroup (CommandRequest.Group cmd) s = (Ok _, s))) Honb
    (bind_Ok _ _ _ _ _ (bind_Ok _ _ _ _ _ (run_load_rt _ _ _ (proj1 Hg)))).
  destruct (Z.eqb_spec (RTGroup.Leader rt) (Server.Id s)) as [Hlead|_]; cycle 1.
  { left. apply Hstay. unfold GetClusterRPC. solve_frame. }
  rw (bind_Ok _ _ _ _ _ (GetHostNTXN_run _ _)).
  pose proof (quiet_GetHost (CommandRequest.ClientId cmd) s) as Hq.
  fold (cache_host s (CommandRequest.ClientId cmd)) in Hq.
  set (s0 := cache_host s (CommandRequest.ClientId cmd)) in *.
  assert (∃ o s1, (if match read_host s (CommandRequest.ClientId cmd) with
      Some _ => false | None => true end && (CommandRequest.Group cmd =? ALPHA_GROUP) &&
      (CommandRequest.FuncId cmd =? REG_NODE)
    then mret true else VerifyCommandSign cmd) s0 = (o, s1) ∧ quiet s0 s1) as (o & s1 & Hok & Hq1).
  { eexists _, _. split; [apply surjective_pairing|].
    destruct (_ && _ && _); [reflexivity|apply quiet_VerifyCommandSign]. }
  assert (quiet s s1) as Hq' by (by transitivity s0).
  destruct o as [ok|er|w]; [rw !(bind_Ok _ _ _ _ _ Hok)|left; rw (bind_Err _ _ _ _ _ Hok)
    |left; rw (bind_Panic _ _ _ _ _ Hok)]; [|by apply quiet_silent..].
  destruct ok; [|left; by apply quiet_silent]. right. split; [done|]. exists s1, (CommandResponse.set_LeaderId (Server.Id s) (CommandResponse.mk
    (CommandRequest.Group cmd) 0 (Server.Id s) (CommandRequest.RequestId cmd)
    (Sign (Server.SigningKey s) (CommandSignData (CommandRequest.Group cmd) (Server.Id s)
      (CommandRequest.RequestId cmd) [])) [])).
  split; [done|reflexivity].
Qed.

Lemma moves_append_command {B} m cmd (f : string + LogEntry.t → MS B) s rt g l :
  reliable W → has_group s m rt g → holds s m (RaftGroup.Id g) l →
  CommandRequest.Group cmd = RaftGroup.Id g → Z.of_nat (length l) + 1 < 2 ^ 64 →
  (∀ e, preserves frame (f (inr e))) →
  moves m (RaftGroup.Id g) (l ++ [next_entry g l cmd]) s ((try_ (RPC.append_command m cmd) ≫= f) s).2.
Proof.
  intros Hrel Hg Hh Hgrp Hlen Hf.
  destruct (append_command_run m cmd s rt g l Hrel Hg Hh Hgrp Hlen) as (d & Ha & Hh2).
  assert (try_ (RPC.append_command m cmd) s = (Ok (inr (next_entry g l cmd)), Server.upd_DB (λ _, d) s))
    as Htry by (unfold try_; by rw Ha).
  rw (bind_Ok _ _ _ _ _ Htry).
  apply (moves_trans _ _ (l ++ [next_entry g l cmd]) _ _ (Server.upd_DB (λ _, d) s)); [done| |].
  - split; [done|]. intros addr req Hin _. by left.
  - apply moves_frame; [apply Hf|done].
Qed.

Lemma grows_ExecCommand cmd forward replies m gid l s :
  reliable W → CommandRequest.Group cmd = gid → Z.of_nat (length l) + 1 < 2 ^ 64 →
  holds s m gid l → sm_get (Server.GroupsOnboard s) (id_key gid) = Some m →
  ∃ l', commanded s m l cmd l' ∧ l `prefix_of` l' ∧
    moves m gid l' s (RPC.ExecCommand cmd forward replies s).2.
Proof.
  intros Hrel <- Hlen Hh Honb. destruct (holds_group _ _ _ _ Hh) as (rt & g & Hg & Hid).
  destruct (ExecCommand_cases cmd forward replies s m rt g Hg Honb)
    as [Hs|(Hlead & s1 & response & Hq & ->)].
  { exists l. split; [by left|]. split; [done|]. apply moves_frame; [apply Hs|done]. }
  pose proof (moves_frame _ _ _ _ _ (quiet_frame _ _ Hq) Hh) as Hm. rw -Hid in Hm Hh |- *.
  exists (l ++ [next_entry g l cmd]). split; [right; by exists rt, g|]. split; [by eexists|].
  apply (moves_trans _ _ l _ _ s1); [set_solver|done|].
  apply (moves_append_command m cmd _ s1 rt g l Hrel (has_group_quiet _ _ _ _ _ Hq Hg)
    (moves_holds _ _ _ _ _ Hm) ltac:(done) Hlen).
  intros e. apply frame_after_command.
Qed.

(** The procedures a node serves besides [AppendEntries] and [ExecCommand]. *)
Lemma frame_GetGroupNTXN `{!Framing R} groupId : preserves R (GetGroupNTXN groupId).
Proof. apply frame_DB_View, frame_GetGroup. Qed.

Lemma frame_GetGroupHostsNTXN `{!Storing R} groupId : preserves R (GetGroupHostsNTXN groupId).
Proof. apply frame_DB_View, framing_quiet, quiet_GetGroupHosts. Qed.

Lemma frame_GroupHosts `{!Storing R} groupId : preserves R (RPC.GroupHosts groupId).
Proof. unfold RPC.GroupHosts. solve_frame. apply frame_GetGroupHostsNTXN. Qed.

Lemma frame_GroupMembers `{!Storing R} groupId : preserves R (RPC.GroupMembers groupId).
Proof. unfold RPC.GroupMembers, GetOnboardGroup, RPCGroupMembers. solve_frame. Qed.

Lemma frame_GetGroupContent `{!Storing R} groupId : preserves R (RPC.GetGroupContent groupId).
Proof.
  unfold RPC.GetGroupContent. solve_frame. apply frame_GetGroupNTXN.
Qed.

Lemma frame_PullGroupLogs `{!Storing R} req : preserves R (RPC.PullGroupLogs req).
Proof. unfold RPC.PullGroupLogs. solve_frame. Qed.

Lemma frame_GetGroupLeader `{!Storing R} groupId : preserves R (RPC.GetGroupLeader groupId).
Proof.
  unfold RPC.GetGroupLeader, GroupLeader, GetOnboardGroup. solve_frame.
  apply frame_DB_View. solve_frame. apply frame_next_rand.
Qed.

Lemma frame_SendGroupInvitation `{!Storing R} inv : preserves R (RPC.SendGroupInvitation inv).
Proof.
  unfold RPC.SendGroupInvitation, SendGroupInvitation. solve_frame.
Qed.

Lemma frame_rpc_RequestVote `{!Storing R} env req :
  (∀ k s, R s (env k s)) → preserves R (RPC.RequestVote env req).
Proof.
  intros He. unfold RPC.RequestVote, GetOnboardGroup. solve_frame. by apply frame_RequestVote.
Qed.

Lemma frame_ApproveAppend `{!Storing R} req : preserves R (RPC.ApproveAppend req).
Proof. unfold RPC.ApproveAppend, GetOnboardGroup, ApproveAppend. solve_frame. Qed.
End growth.
