(* ===== verification/Groups.v ===== *)
(** Several groups at one node: a handler that is about one group leaves the logs of
    the others alone, and calls about a group reach the record of that group. *)
From S2P Require Export Growth.

Section groups.
Context {W : World} {F : RaftFns}.

(** * The other groups

    The record [m] is another group's than [gid]. *)
Definition foreign (m : nat) (gid : Z) (s : Server.t) : Prop :=
  ∃ rt g, has_group s m rt g ∧ RaftGroup.Id g ≠ gid.

(** What work on the record [m] leaves alone when it is another group's. *)
Record apart (m : nat) (gid : Z) (s s' : Server.t) : Prop := {
  apart_boards : boards s → boards s';
  apart_foreign : foreign m gid s → foreign m gid s';
  apart_log l : boards s → foreign m gid s → is_u64 gid →
    log_at (Server.DB s) gid l → log_at (Server.DB s') gid l;
  apart_sent l addr req : boards s → foreign m gid s → is_u64 gid →
    log_at (Server.DB s) gid l →
    Rpc_AppendEntries addr req ∈ Server.calls s' → AppendEntriesRequest.Group req = gid →
    Rpc_AppendEntries addr req ∈ Server.calls s ∨
    (∀ e, e ∈ AppendEntriesRequest.Entries req → e ∈ l)
}.

#[export] Instance apart_preorder m gid : PreOrder (apart m gid).
Proof.
  split.
  - intros s. split; eauto.
  - intros s1 s2 s3 [B1 F1 L1 C1] [B2 F2 L2 C2]. split; [auto..|].
    intros l addr req Hb Hf Hu Hl Hin Hg. destruct (C2 l addr req) as [?|?]; eauto.
Qed.

Lemma frame_apart m gid s s' : frame s s' → apart m gid s s'.
Proof.
  intros Hf. split.
  - apply (frame_boards _ _ Hf).
  - intros (rt & g & [Hm Hg] & Hne). destruct (frame_rt _ _ Hf _ _ Hm) as (rt' & Hm' & Heq).
    rw -Heq in Hg. destruct (frame_group _ _ Hf _ _ Hg) as (g' & Hg' & Hid).
    exists rt', g'. split; [by split|congruence].
  - intros l _ _ Hu Hl. exact (frame_log _ _ Hf _ _ Hu Hl).
  - intros l addr req _ _ Hu Hl Hin Hg. exact (frame_sent _ _ Hf _ _ _ _ Hu Hl Hin Hg).
Qed.

Lemma preserves_frame_apart {A} m gid (p : MS A) :
  preserves frame p → preserves (apart m gid) p.
Proof. intros Hp s. apply frame_apart, Hp. Qed.

#[export] Instance apart_storing m gid : Storing (apart m gid).
Proof.
  split; [split; [apply _|by intros s s' [Hf _ _]; apply frame_apart]| |
    intros ?; apply preserves_frame_apart, storing_SaveGroup
   |intros ?; apply preserves_frame_apart, storing_SavePeer].
  intros A fn H s. specialize (H s). unfold DB_Update.
  destruct (fn s) as [[a|e|w] s']; simpl in *; [case_match; [done|]|..];
    destruct H as [H1 H2 H3 H4]; split; simpl; eauto; intros ?%H1; auto.
Qed.

#[export] Instance apart_telling m gid : Telling (apart m gid).
Proof. split; [apply _|]. intros addr r. apply preserves_frame_apart, telling_call. Qed.

(** An entry is stored in the log of its record's group. *)
Lemma apart_GroupAppendEntry m gid e : preserves (apart m gid) (GroupAppendEntry m e).
Proof.
  intros s. unfold GroupAppendEntry.
  destruct (group_of_cases m s) as [(rt & g & Hg)|[w Hw]]; cycle 1.
  { rw (bind_Panic _ _ _ _ _ Hw). reflexivity. }
  rw (bind_Ok _ _ _ _ _ (run_group_of _ _ _ _ Hg)).
  unfold txn_write, gets, lift, modify, mbind, M_bind.
  destruct (AppendEntryToLocal _ _ _) as [d| |] eqn:Hd; simpl; [|reflexivity..].
  split; simpl; eauto. intros l [Hu _] (rt' & g' & Hg' & Hne) Hgid [Ht Hi]. split; [|done].
  assert (g' = g) as ->.
  { destruct Hg as [Hm Hp], Hg' as [Hm' Hp']. rw Hm in Hm'. injection Hm' as <-. congruence. }
  apply (AppendEntryToLocal_other _ _ _ _ _ _ Hd); [|done]. intros i. unfold LogEntryKey, log_prefix.
  apply has_prefix_kind; [done|exact (Hu _ _ (proj2 Hg))|done..|]. congruence.
Qed.

Lemma apart_CommitGroupLog m gid m' e : preserves (apart m gid) (CommitGroupLog m' e).
Proof. apply preserves_frame_apart, frame_CommitGroupLog. Qed.

Lemma apart_append_entry m gid groupId response e :
  preserves (apart m gid) (append_entry m groupId response e).
Proof.
  unfold append_entry, GetClusterRPC. solve_frame; try apply apart_CommitGroupLog.
  apply storing_update. solve_frame. apply apart_GroupAppendEntry.
Qed.

Lemma apart_AppendEntries m gid req : preserves (apart m gid) (AppendEntries m req).
Proof.
  unfold AppendEntries, append_batch. solve_frame; try (by apply frame_update_rt);
    first [apply framing_quiet, quiet_check_entries|apply apart_append_entry].
Qed.

Lemma apart_append_command m gid cmd : preserves (apart m gid) (RPC.append_command m cmd).
Proof.
  unfold RPC.append_command, txn_read. apply storing_update. solve_frame. apply apart_GroupAppendEntry.
Qed.

(** A command works on the record of its group, if there is one. *)
Lemma apart_ExecCommand gid cmd forward replies s :
  match sm_get (Server.GroupsOnboard s) (id_key (CommandRequest.Group cmd)) with
  | Some m => apart m gid s (RPC.ExecCommand cmd forward replies s).2
  | None => frame s (RPC.ExecCommand cmd forward replies s).2
  end.
Proof.
  destruct (sm_get _ _) as [m|] eqn:Hm; [|exact (silent_frame _ _ (silent_forward _ _ _ _ Hm))].
  unfold RPC.ExecCommand, RPC.after_command.
  rw (bind_Ok _ _ _ _ _ (eq_refl : gets Server.Id s = (Ok (Server.Id s), s)))
    (bind_Ok _ _ _ _ _ (run_server_sign _ _))
    (bind_Ok _ _ _ _ _ (eq_refl : GetOnboardGroup (CommandRequest.Group cmd) s = (Ok _, s))) Hm.
  match goal with |- apart m gid s (?p s).2 =>
    cut (preserves (apart m gid) p); [intros HH; exact (HH s)|] end. unfold GetClusterRPC. solve_frame;
    first [apply apart_append_command|apply apart_CommitGroupLog].
Qed.

(** The record that the server has on board for a group. *)
Lemma on_board_record s g m :
  boards s → is_u64 g → sm_get (Server.GroupsOnboard s) (id_key g) = Some m →
  ∃ rt gr, has_group s m rt gr ∧ RaftGroup.Id gr = g.
Proof.
  intros [Hu Hk] Hg (rt & gr & Hm & Hgr & Hkey)%Hk. exists rt, gr. split; [done|].
  symmetry. apply id_key_inj; [done|exact (Hu _ _ Hgr)|done].
Qed.

(** * Handlers and the logs of a node

    The node has got from [s] to [s'], where the log of [gid] is [l'], and what it has
    sent meanwhile to members of [gid] are entries of [l']. *)
Record moved (gid : Z) (l' : list LogEntry.t) (s s' : Server.t) : Prop := {
  moved_boards : boards s';
  moved_log : log_at (Server.DB s') gid l';
  moved_sent addr req : Rpc_AppendEntries addr req ∈ Server.calls s' →
    AppendEntriesRequest.Group req = gid →
    Rpc_AppendEntries addr req ∈ Server.calls s ∨
    (∀ e, e ∈ AppendEntriesRequest.Entries req → e ∈ l')
}.

Context (gid : Z) (Hgid : is_u64 gid).

Lemma moved_frame l s s' :
  boards s → log_at (Server.DB s) gid l → frame s s' → moved gid l s s'.
Proof using Hgid.
  intros Hb Hl Hf. split; [exact (frame_boards _ _ Hf Hb)|exact (frame_log _ _ Hf _ _ Hgid Hl)|].
  intros addr req Hin Hg. exact (frame_sent _ _ Hf _ _ _ _ Hgid Hl Hin Hg).
Qed.

Lemma moved_apart m l s s' :
  boards s → foreign m gid s → log_at (Server.DB s) gid l → apart m gid s s' → moved gid l s s'.
Proof using Hgid.
  intros Hb Hm Hl Ha. split; [exact (apart_boards _ _ _ _ Ha Hb)|
    exact (apart_log _ _ _ _ Ha _ Hb Hm Hgid Hl)|].
  intros addr req Hin Hg. exact (apart_sent _ _ _ _ Ha _ _ _ Hb Hm Hgid Hl Hin Hg).
Qed.

Lemma moved_moves m l s s' :
  boards s → apart m gid s s' → moves m gid l s s' → moved gid l s s'.
Proof using.
  intros Hb Ha [Hh Hs]. split; [exact (apart_boards _ _ _ _ Ha Hb)|apply (holds_log _ _ _ _ Hh)|done].
Qed.

Lemma moved_AppendEntries req s l :
  reliable W → boards s → is_u64 (AppendEntriesRequest.Group req) → log_at (Server.DB s) gid l →
  (AppendEntriesRequest.Group req = gid →
    Z.of_nat (length l + length (AppendEntriesRequest.Entries req)) < 2 ^ 64 - 1) →
  ∃ l', (l' = l ∨ AppendEntriesRequest.Group req = gid ∧ extended gid l req l') ∧
    l `prefix_of` l' ∧ moved gid l' s (RPC.AppendEntries req s).2.
Proof using Hgid.
  intros Hrel Hb Hu Hl Hroom. unfold RPC.AppendEntries.
  rw (bind_Ok _ _ _ _ _ (eq_refl : gets Server.Id s = (Ok (Server.Id s), s)))
    (bind_Ok _ _ _ _ _ (eq_refl : GetOnboardGroup (AppendEntriesRequest.Group req) s = (Ok _, s))).
  destruct (sm_get _ _) as [m|] eqn:Hm; cycle 1.
  { exists l. split; [by left|]. split; [done|]. apply moved_frame; [done..|reflexivity]. }
  destruct (on_board_record _ _ _ Hb Hu Hm) as (rt & g & Hg & Hid).
  pose proof (apart_AppendEntries m gid req s) as Ha.
  destruct (decide (AppendEntriesRequest.Group req = gid)) as [Heq|Hne].
  - rw Heq in Hid. assert (holds s m gid l) as Hh by (split; [by exists rt, g|done..]).
    destruct (grows_AppendEntries m gid req l Hrel (Hroom Heq) s Hh) as (l' & He & Hp & Hmv).
    exists l'. split; [by right|]. split; [done|]. exact (moved_moves _ _ _ _ Hb Ha Hmv).
  - exists l. split; [by left|]. split; [done|]. apply (moved_apart m); [done| |done..].
    exists rt, g. split; [done|congruence].
Qed.

Lemma moved_ExecCommand cmd forward replies s l :
  reliable W → boards s → is_u64 (CommandRequest.Group cmd) → log_at (Server.DB s) gid l →
  (CommandRequest.Group cmd = gid → Z.of_nat (length l) + 1 < 2 ^ 64) →
  ∃ l', (l' = l ∨ CommandRequest.Group cmd = gid ∧ ∃ m,
      sm_get (Server.GroupsOnboard s) (id_key gid) = Some m ∧ commanded s m l cmd l') ∧
    l `prefix_of` l' ∧ moved gid l' s (RPC.ExecCommand cmd forward replies s).2.
Proof using Hgid.
  intros Hrel Hb Hu Hl Hroom.
  pose proof (apart_ExecCommand gid cmd forward replies s) as Ha.
  destruct (sm_get _ _) as [m|] eqn:Hm; cycle 1.
  { exists l. split; [by left|]. split; [done|]. by apply moved_frame. }
  destruct (on_board_record _ _ _ Hb Hu Hm) as (rt & g & Hg & Hid).
  destruct (decide (CommandRequest.Group cmd = gid)) as [Heq|Hne].
  - rw Heq in Hid. rw Heq in Hm. assert (holds s m gid l) as Hh by (split; [by exists rt, g|done..]).
    destruct (grows_ExecCommand cmd forward replies m gid l s Hrel Heq (Hroom Heq) Hh Hm)
      as (l' & Hc & Hp & Hmv).
    exists l'. split; [right; split; [done|by exists m]|]. split; [done|].
    exact (moved_moves _ _ _ _ Hb Ha Hmv).
  - exists l. split; [by left|]. split; [done|]. apply (moved_apart m); [done| |done..].
    exists rt, g. split; [done|congruence].
Qed.
End groups.
