(* ===== verification/Cluster.v ===== *)
(** The nodes of a network together.

    A cluster is the servers by their identity, members of any number of groups. It
    moves when one node runs a handler: an append request that some node has sent
    reaches it, possibly late, twice or out of order; a client's command reaches it; or
    it does anything else, which [frame] covers ([Growth.v] has the handlers that
    respect it). Requests are taken from the [calls] of the nodes: a request that claims
    to be from a member was made by a member.

    [Spec] is what a replicated log promises: one sequence of entries, and how far
    each node has got in it. *)
From S2P Require Export Groups.

Module Spec.
Record t : Type := mk { log : list LogEntry.t; pos : gmap Z nat }.

Section spec.
Context (gid : Z).

(** A node learns more of the log, or nothing; or a node that knows all of it adds
    an entry, linked to the last one. *)
Inductive step : relation t :=
| learn a i k k' :
    pos a !! i = Some k → (k ≤ k' ≤ length (log a))%nat →
    step a (mk (log a) (<[i := k']> (pos a)))
| append a i e :
    pos a !! i = Some (length (log a)) →
    LogEntry.Index e = Z.of_nat (length (log a)) + 1 → entry_linked (tip gid (log a)) e →
    step a (mk (log a ++ [e]) (<[i := S (length (log a))]> (pos a))).
End spec.

(** The node knows all of the log. *)
Definition top (i : Z) (a : t) : Prop := pos a !! i = Some (length (log a)).

(** Every node has the same log. *)
Definition init (nodes : gset Z) (l : list LogEntry.t) : t :=
  mk l (gset_to_gmap (length l) nodes).
End Spec.

Section cluster.
Context {W : World} {F : RaftFns}.

Abbreviation cluster := (gmap Z Server.t).

(** What happens at a node. *)
Inductive event : Type :=
| Ev_local (i : Z)
| Ev_append (i : Z) (req : AppendEntriesRequest.t)
| Ev_command (i : Z) (cmd : CommandRequest.t)
    (forward : string → CommandRequest.t → outcome CommandResponse.t)
    (replies : list (option AppendEntriesResponse.t)).

(** Some node has sent the request. *)
Definition sent (c : cluster) (req : AppendEntriesRequest.t) : Prop :=
  ∃ j s addr, c !! j = Some s ∧ Rpc_AppendEntries addr req ∈ Server.calls s.

(** Indices of the group [gid] stay below their bound with [n] entries more. *)
Definition room (gid : Z) (s : Server.t) (n : nat) : Prop :=
  ∀ l, log_at (Server.DB s) gid l → Z.of_nat (length l + n) < 2 ^ 64 - 1.

Inductive step (c : cluster) : event → cluster → Prop :=
| step_local i s s' :
    c !! i = Some s → frame s s' → step c (Ev_local i) (<[i := s']> c)
| step_append i s req :
    c !! i = Some s → sent c req → is_u64 (AppendEntriesRequest.Group req) →
    room (AppendEntriesRequest.Group req) s (length (AppendEntriesRequest.Entries req)) →
    step c (Ev_append i req) (<[i := (RPC.AppendEntries req s).2]> c)
| step_command i s cmd forward replies :
    c !! i = Some s → is_u64 (CommandRequest.Group cmd) → room (CommandRequest.Group cmd) s 1 →
    step c (Ev_command i cmd forward replies)
      (<[i := (RPC.ExecCommand cmd forward replies s).2]> c).

Definition any_step (c c' : cluster) : Prop := ∃ ev, step c ev c'.

(** * One group *)

Context (gid : Z).

(** The node takes the group's commands as its leader. *)
Definition leads (s : Server.t) : Prop :=
  ∃ m rt, sm_get (Server.GroupsOnboard s) (id_key gid) = Some m ∧
    Server.rtgroups s !! m = Some rt ∧ RTGroup.Leader rt = Server.Id s.

(** No node's log is longer than that of [s]. *)
Definition up_to_date (c : cluster) (s : Server.t) : Prop :=
  ∀ l j sj lj, log_at (Server.DB s) gid l → c !! j = Some sj →
    log_at (Server.DB sj) gid lj → (length lj ≤ length l)%nat.

(** Whoever takes a command of the group as its leader is up to date. *)
Definition led_well (c : cluster) (ev : event) : Prop :=
  match ev with
  | Ev_command i cmd _ _ => CommandRequest.Group cmd = gid →
      ∀ s, c !! i = Some s → leads s → up_to_date c s
  | _ => True
  end.

Definition led_step (c c' : cluster) : Prop := ∃ ev, step c ev c' ∧ led_well c ev.

(** Nobody but [L] takes commands of the group as its leader. *)
Definition led_by (L : Z) (c : cluster) (ev : event) : Prop :=
  match ev with
  | Ev_command i cmd _ _ => CommandRequest.Group cmd = gid →
      ∀ s, c !! i = Some s → leads s → i = L
  | _ => True
  end.

Definition sole_step (L : Z) (c c' : cluster) : Prop := ∃ ev, step c ev c' ∧ led_by L c ev.

(** Nobody takes commands of the group as its leader. *)
Definition unled (c : cluster) (ev : event) : Prop :=
  match ev with
  | Ev_command i cmd _ _ => CommandRequest.Group cmd = gid →
      ∀ s, c !! i = Some s → ¬ leads s
  | _ => True
  end.

Definition unled_step (c c' : cluster) : Prop := ∃ ev, step c ev c' ∧ unled c ev.

(** A group at its start: the nodes have the same log and have sent nothing. *)
Record starts (c : cluster) (l : list LogEntry.t) : Prop := {
  starts_id : is_u64 gid;
  starts_node i s : c !! i = Some s → boards s ∧ log_at (Server.DB s) gid l;
  starts_some : c ≠ ∅;
  starts_chained : chained gid l;
  starts_quiet req : sent c req → AppendEntriesRequest.Group req ≠ gid
}.

(** The cluster implements the state of the specification. *)
Record implements (c : cluster) (a : Spec.t) : Prop := {
  impl_id : is_u64 gid;
  impl_dom : dom (Spec.pos a) = dom c;
  impl_node i s : c !! i = Some s → ∃ l, l `prefix_of` Spec.log a ∧
    Spec.pos a !! i = Some (length l) ∧ boards s ∧ log_at (Server.DB s) gid l;
  impl_top : ∃ i s, c !! i = Some s ∧ Spec.top i a;
  impl_chained : chained gid (Spec.log a);
  impl_sent req : sent c req → AppendEntriesRequest.Group req = gid →
    ∀ e, e ∈ AppendEntriesRequest.Entries req → e ∈ Spec.log a
}.
End cluster.
