(* ===== verification/ClusterFacts.v ===== *)
(** What the nodes of a group achieve together, whatever goes on in other groups: they
    implement the replicated log of [Spec], as long as whoever takes a command as the
    leader is up to date; then any two nodes' logs agree as far as both go. Without
    that proviso a node's log still only grows. *)
From S2P Require Export Cluster.

Section facts.
Context {W : World} {F : RaftFns}.
Context (gid : Z).

Lemma step_command_inv c i cmd forward replies c' :
  step c (Ev_command i cmd forward replies) c' →
  ∃ s, c !! i = Some s ∧ is_u64 (CommandRequest.Group cmd) ∧ room (CommandRequest.Group cmd) s 1 ∧
    c' = <[i := (RPC.ExecCommand cmd forward replies s).2]> c.
Proof. inversion 1 as [| |? s]; subst. by exists s. Qed.

(** * Logs *)

Lemma log_at_unique txn g l1 l2 : log_at txn g l1 → log_at txn g l2 → l1 = l2.
Proof.
  intros H1 H2. apply list_eq. intros n.
  assert (∀ l l' e, log_at txn g l → log_at txn g l' → l !! n = Some e → l' !! n = Some e) as Hsub.
  { intros l l' e Hl Hl' He. rw -(log_map_nth l) in He. rw -(log_map_nth l').
    destruct (table_row _ _ _ (log_table _ _ _ Hl) _ _ He) as (Hu & b & Hb & Hp).
    destruct (table_found _ _ _ _ _ (log_table _ _ _ Hl') Hu Hb) as (e' & b' & He' & [= <-] & Hp').
    rw He'. congruence. }
  apply option_eq. intros e. split; apply Hsub; done.
Qed.

(** A batch of entries of a log is a stretch of it. *)
Lemma batch_stretch log entries i prev :
  (∀ n e, log !! n = Some e → LogEntry.Index e = Z.of_nat n + 1) →
  (∀ e, e ∈ entries → e ∈ log) → batch_ok (Z.of_nat i + 1) prev entries →
  entries `prefix_of` drop i log.
Proof.
  intros Hidx. revert i prev. induction entries as [|e entries IH]; intros i prev Hin Hok.
  { by eexists. }
  destruct Hok as (Hi & _ & Hok).
  assert (log !! i = Some e) as He.
  { destruct (list_elem_of_lookup_1 log e) as [n Hn]; [apply Hin; by left|].
    rw (Hidx _ _ Hn) in Hi. by assert (n = i) as -> by lia. }
  rw (drop_S _ _ _ He). apply prefix_cons. apply (IH (S i) (LogEntry.Hash e)).
  - intros e' He'. apply Hin. by right.
  - by replace (Z.of_nat (S i) + 1) with (Z.of_nat i + 1 + 1) by lia.
Qed.

Lemma extended_stretch log l req l' :
  (∀ n e, log !! n = Some e → LogEntry.Index e = Z.of_nat n + 1) →
  l `prefix_of` log → (∀ e, e ∈ AppendEntriesRequest.Entries req → e ∈ log) →
  extended gid l req l' → l' `prefix_of` log.
Proof.
  intros Hidx [rest ->] Hin [->|[Hc [n ->]]]; [by eexists|].
  destruct (batch_stretch _ _ _ _ Hidx Hin (continues_batch _ _ _ Hc)) as [rest' Hrest].
  rw drop_app_length in Hrest. apply prefix_app. rw Hrest.
  apply prefix_app_r. apply prefix_take.
Qed.

(** * The simulation *)

(** A step of one node whose log, of the log [log'] of the specification, is [l']. *)
Lemma implements_move c a i s s' l log' l' :
  implements gid c a → c !! i = Some s → log_at (Server.DB s) gid l →
  Spec.log a `prefix_of` log' → l `prefix_of` l' → l' `prefix_of` log' → chained gid log' →
  (log' = Spec.log a ∨ l' = log') → moved gid l' s s' →
  implements gid (<[i := s']> c) (Spec.mk log' (<[i := length l']> (Spec.pos a))).
Proof.
  intros [Hid Hdom Hnode (j & sj & Hj & Htop) Hch Hsent] Hi Hs Hlog Hl Hl' Hch' Hor [Hb' Hd' Hs'].
  split; unfold Spec.top in *; cbn [Spec.log Spec.pos].
  - done.
  - rw !dom_insert_L. congruence.
  - intros k sk Hk. destruct (decide (i = k)) as [<-|Hne].
    + rw lookup_insert_eq in Hk. injection Hk as <-. exists l'. by rw lookup_insert_eq.
    + rw lookup_insert_ne in Hk; [done|]. rw lookup_insert_ne; [done|].
      destruct (Hnode k sk Hk) as (lk & ? & ? & ?). exists lk. split; [by transitivity (Spec.log a)|done].
  - destruct (decide (l' = log')) as [->|Hne]; [exists i, s'; by rw !lookup_insert_eq|].
    destruct Hor as [->|?]; [|done]. exists j, sj.
    assert (i ≠ j) as Hij; [|by rw !lookup_insert_ne].
    intros <-. destruct (Hnode i sj Hj) as (lj & Hlj & Hpos & _ & Hdj). assert (sj = s) as -> by congruence.
    assert (lj = l) as -> by exact (log_at_unique _ _ _ _ Hdj Hs).
    rw Htop in Hpos. injection Hpos as Hlen.
    destruct Hne, Hl as [r1 ->], Hl' as [r2 Heq].
    rw Heq !length_app in Hlen. assert (r2 = []) as -> by (destruct r2; simpl in *; [done|lia]).
    by rw Heq app_nil_r.
  - done.
  - intros req (k & sk & addr & Hk & Hin) Hg e He. destruct (decide (i = k)) as [<-|Hne].
    + rw lookup_insert_eq in Hk. injection Hk as <-.
      destruct (Hs' addr req Hin Hg) as [Hold|Hsub].
      * apply (prefix_subseteq _ _ Hlog). apply (Hsent req); [|done..]. by exists i, s, addr.
      * by apply (prefix_subseteq _ _ Hl'), Hsub.
    + rw lookup_insert_ne in Hk; [done|]. apply (prefix_subseteq _ _ Hlog).
      apply (Hsent req); [|done..]. by exists k, sk, addr.
Qed.

(** The entries of the specification's log are numbered. *)
Lemma implements_index c a n e :
  implements gid c a → Spec.log a !! n = Some e → LogEntry.Index e = Z.of_nat n + 1.
Proof.
  intros [_ _ Hnode (i & s & Hi & Htop) _ _] He.
  destruct (Hnode i s Hi) as (l & [r Hr] & Hpos & _ & Hl). rw Htop in Hpos. injection Hpos as Hlen.
  rw Hr length_app in Hlen. assert (r = []) as -> by (destruct r; simpl in *; [done|lia]).
  rw Hr app_nil_r in He. exact (log_index _ _ _ Hl _ _ He).
Qed.

Lemma prefix_full (l log : list LogEntry.t) :
  l `prefix_of` log → (length log ≤ length l)%nat → l = log.
Proof.
  intros [r ->] Hlen. rw length_app in Hlen. destruct r; simpl in Hlen; [by rw app_nil_r|lia].
Qed.

Lemma learn_same a i k :
  Spec.pos a !! i = Some k → (k ≤ length (Spec.log a))%nat →
  Spec.step gid a (Spec.mk (Spec.log a) (<[i := k]> (Spec.pos a))).
Proof. intros Hp Hk. by apply (Spec.learn _ a i k k). Qed.

Lemma top_learn L a i k k' :
  Spec.pos a !! i = Some k → (k ≤ k' ≤ length (Spec.log a))%nat →
  Spec.top L a → Spec.top L (Spec.mk (Spec.log a) (<[i := k']> (Spec.pos a))).
Proof.
  unfold Spec.top. cbn [Spec.log Spec.pos]. intros Hp Hk Ht. destruct (decide (i = L)) as [->|Hne].
  - rw lookup_insert_eq. rw Hp in Ht. injection Ht as ->. f_equal. lia.
  - by rw lookup_insert_ne.
Qed.

(** The node learns of the log, or of nothing. *)
Lemma simulates_learn c a i s s' l l' :
  implements gid c a → c !! i = Some s → Spec.pos a !! i = Some (length l) →
  log_at (Server.DB s) gid l → l `prefix_of` l' → l' `prefix_of` Spec.log a → moved gid l' s s' →
  ∃ a', Spec.step gid a a' ∧ implements gid (<[i := s']> c) a' ∧
    Spec.log a' = Spec.log a ∧ ∀ L, Spec.top L a → Spec.top L a'.
Proof.
  intros Himp Hi Hpos Hl Hll Hl' Hm.
  assert (length l ≤ length l' ≤ length (Spec.log a))%nat as Hlen by (by split; apply prefix_length).
  exists (Spec.mk (Spec.log a) (<[i := length l']> (Spec.pos a))).
  split; [by apply (Spec.learn gid a i (length l))|].
  split; [|split; [done|intros L; by apply (top_learn L a i (length l))]].
  apply (implements_move c a i s s' l (Spec.log a) l' Himp Hi Hl); try done;
    [apply (impl_chained _ _ _ Himp)|by left].
Qed.

(** The node adds an entry as an up-to-date leader. *)
Lemma simulates_append c a i s s' m rt g cmd :
  implements gid c a → c !! i = Some s → Spec.top i a → log_at (Server.DB s) gid (Spec.log a) →
  has_group s m rt g → RaftGroup.Id g = gid →
  moved gid (Spec.log a ++ [next_entry g (Spec.log a) cmd]) s s' →
  ∃ a', Spec.step gid a a' ∧ implements gid (<[i := s']> c) a' ∧ Spec.top i a'.
Proof.
  intros Himp Hi Htop Hl Hg Hid Hm. set (e := next_entry g (Spec.log a) cmd) in *.
  assert (entry_linked (tip gid (Spec.log a)) e) as Hlink by (exists cmd; by rw -Hid).
  exists (Spec.mk (Spec.log a ++ [e]) (<[i := S (length (Spec.log a))]> (Spec.pos a))).
  split; [by apply (Spec.append gid a i e)|]. split; cycle 1.
  { unfold Spec.top. cbn [Spec.log Spec.pos]. rw lookup_insert_eq length_app. f_equal. simpl. lia. }
  replace (S (length (Spec.log a))) with (length (Spec.log a ++ [e])) by (rw length_app; simpl; lia).
  apply (implements_move c a i s s' (Spec.log a) _ _ Himp Hi Hl); try done; [by eexists..| |by right].
  apply chained_snoc. split; [apply (impl_chained _ _ _ Himp)|done].
Qed.

(** A node that is up to date has all of the log. *)
Lemma up_to_date_top c a i s l :
  implements gid c a → c !! i = Some s → log_at (Server.DB s) gid l → up_to_date gid c s →
  l = Spec.log a ∧ Spec.top i a.
Proof.
  intros Himp Hi Hl Hup.
  destruct (impl_node _ _ _ Himp i s Hi) as (l' & Hp & Hpos & _ & Hl2).
  assert (l' = l) as -> by exact (log_at_unique _ _ _ _ Hl2 Hl).
  destruct (impl_top _ _ _ Himp) as (j & sj & Hj & Htop).
  destruct (impl_node _ _ _ Himp j sj Hj) as (lj & Hlj & Hposj & _ & Hdj).
  rw Htop in Hposj. injection Hposj as Hlen. pose proof (Hup l j sj lj Hl Hj Hdj) as Hle.
  assert (l = Spec.log a) as -> by (apply prefix_full; [done|lia]). done.
Qed.

Lemma step_simulates c c' a ev :
  reliable W → implements gid c a → step c ev c' → led_well gid c ev →
  ∃ a', Spec.step gid a a' ∧ implements gid c' a' ∧
    (∀ L, led_by gid L c ev → Spec.top L a → Spec.top L a') ∧
    (unled gid c ev → Spec.log a' = Spec.log a).
Proof.
  intros Hrel Himp Hstep Hled. pose proof (impl_id _ _ _ Himp) as Hid.
  destruct Hstep as [i s s' Hi Hf|i s req Hi Hsent Hg Hroom|i s cmd forward replies Hi Hg Hroom];
    destruct (impl_node _ _ _ Himp i s Hi) as (l & Hp & Hpos & Hb & Hl).
  - destruct (simulates_learn c a i s s' l l Himp Hi Hpos Hl ltac:(done) Hp) as (a' & ? & ? & ? & ?);
      [by apply moved_frame|by exists a'; auto 6].
  - destruct (moved_AppendEntries gid Hid req s l Hrel Hb Hg Hl) as (l' & Hext & Hll & Hm).
    { intros <-. pose proof (Hroom l Hl). lia. }
    assert (l' `prefix_of` Spec.log a) as Hl'.
    { destruct Hext as [->|[Heq Hext]]; [done|].
      apply (extended_stretch (Spec.log a) l req l'); [by intros n e; apply (implements_index c)|done| |done].
      exact (impl_sent _ _ _ Himp req Hsent Heq). }
    destruct (simulates_learn c a i s _ l l' Himp Hi Hpos Hl Hll Hl' Hm) as (a' & ? & ? & ? & ?).
    exists a'; auto 6.
  - destruct (moved_ExecCommand gid Hid cmd forward replies s l Hrel Hb Hg Hl) as (l' & Hext & Hll & Hm).
    { intros <-. pose proof (Hroom l Hl). lia. }
    destruct Hext as [->|(Heq & m & Hon & [->|(rt & g & Hgrp & Hlead & ->)])].
    1-2: destruct (simulates_learn c a i s _ l l Himp Hi Hpos Hl ltac:(done) Hp Hm) as (a' & ? & ? & ? & ?);
      exists a'; by auto 6.
    assert (leads gid s) as Hleads by (exists m, rt; by destruct Hgrp).
    destruct (up_to_date_top c a i s l Himp Hi Hl (Hled Heq s Hi Hleads)) as [-> Htop].
    destruct (on_board_record s gid m Hb Hid Hon) as (rt' & g' & Hgrp' & Hgid).
    assert (g' = g) as ->.
    { destruct Hgrp as [Hr Hgr], Hgrp' as [Hr' Hgr']. rw Hr in Hr'. injection Hr' as <-. congruence. }
    destruct (simulates_append c a i s _ m rt g cmd Himp Hi Htop Hl Hgrp Hgid Hm) as (a' & ? & ? & Htop').
    exists a'. split; [done|]. split; [done|]. split; [intros L HL _; by rw -(HL Heq s Hi Hleads)|].
    intros Hun. by destruct (Hun Heq s Hi).
Qed.

Lemma starts_implements c l :
  starts gid c l → implements gid c (Spec.init (dom c) l).
Proof.
  intros [Hid Hn Hne Hch Hq]. split; cbn [Spec.init Spec.log Spec.pos].
  - done.
  - apply dom_gset_to_gmap.
  - intros i s Hi. exists l. split; [done|]. split; [|by apply (Hn i)].
    apply lookup_gset_to_gmap_Some. split; [|done]. by apply elem_of_dom_2 in Hi.
  - destruct (map_choose c Hne) as (i & s & Hi). exists i, s. split; [done|].
    apply lookup_gset_to_gmap_Some. split; [|done]. by apply elem_of_dom_2 in Hi.
  - done.
  - intros req Hs Hg. by destruct (Hq req Hs).
Qed.

Lemma implements_reached c0 c l :
  reliable W → starts gid c0 l → rtc (led_step gid) c0 c →
  ∃ a, rtc (Spec.step gid) (Spec.init (dom c0) l) a ∧ implements gid c a.
Proof.
  intros Hrel Hst Hrun. apply starts_implements in Hst. revert Hst.
  generalize (Spec.init (dom c0) l) as a. induction Hrun as [c|c c1 c2 (ev & Hs & Hl) _ IH]; intros a Ha.
  - exists a. split; [apply rtc_refl|done].
  - destruct (step_simulates c c1 a ev Hrel Ha Hs Hl) as (a1 & Hs1 & Ha1 & _).
    destruct (IH a1 Ha1) as (a2 & Hr & Ha2). exists a2. split; [by apply (rtc_l _ _ a1)|done].
Qed.

(** C2. The nodes of a group implement the replicated log, whatever they do in other
    groups: if, whenever a leader takes a command of the group, no node's log is longer
    than its own, every run of the cluster is one of the specification, whose state it
    implements: each node has a first part of the one log, as long as the specification
    says. *)
Theorem cluster_refines c0 c l :
  reliable W → starts gid c0 l → rtc (led_step gid) c0 c →
  ∃ a, rtc (Spec.step gid) (Spec.init (dom c0) l) a ∧ implements gid c a.
Proof. apply implements_reached. Qed.

Lemma prefixes_agree c0 c l i j si sj li lj :
  reliable W → starts gid c0 l → rtc (led_step gid) c0 c →
  c !! i = Some si → c !! j = Some sj →
  log_at (Server.DB si) gid li → log_at (Server.DB sj) gid lj →
  li `prefix_of` lj ∨ lj `prefix_of` li.
Proof.
  intros Hrel Hst Hrun Hi Hj Hli Hlj.
  destruct (implements_reached c0 c l Hrel Hst Hrun) as (a & _ & Ha).
  destruct (impl_node _ _ _ Ha i si Hi) as (li' & Hpi & _ & _ & Hdi).
  destruct (impl_node _ _ _ Ha j sj Hj) as (lj' & Hpj & _ & _ & Hdj).
  rw (log_at_unique _ _ _ _ Hli Hdi) (log_at_unique _ _ _ _ Hlj Hdj).
  exact (prefix_weak_total _ _ _ Hpi Hpj).
Qed.

(** In every state such a cluster gets to, two nodes' logs never disagree: one
    is a first part of the other. *)
Theorem logs_agree c0 c l i j si sj li lj :
  reliable W → starts gid c0 l → rtc (led_step gid) c0 c →
  c !! i = Some si → c !! j = Some sj →
  log_at (Server.DB si) gid li → log_at (Server.DB sj) gid lj →
  (li `prefix_of` lj ∨ lj `prefix_of` li) ∧ chained gid li.
Proof.
  intros Hrel Hst Hrun Hi Hj Hli Hlj.
  split; [exact (prefixes_agree c0 c l i j si sj li lj Hrel Hst Hrun Hi Hj Hli Hlj)|].
  destruct (implements_reached c0 c l Hrel Hst Hrun) as (a & _ & Ha).
  destruct (impl_node _ _ _ Ha i si Hi) as (li' & [r Hr] & _ & _ & Hdi).
  rw (log_at_unique _ _ _ _ Hli Hdi). pose proof (impl_chained _ _ _ Ha) as Hch. rw Hr in Hch.
  exact (chained_prefix _ _ _ Hch).
Qed.

(** A node that has all of the log is up to date. *)
Lemma top_up_to_date c a i s :
  implements gid c a → c !! i = Some s → Spec.top i a → up_to_date gid c s.
Proof.
  intros Ha Hi Ht li j sj lj Hli Hj Hlj.
  destruct (impl_node _ _ _ Ha i s Hi) as (li' & Hp & Hpos & _ & Hdi).
  rw (log_at_unique _ _ _ _ Hli Hdi). rw Ht in Hpos. injection Hpos as <-.
  destruct (impl_node _ _ _ Ha j sj Hj) as (lj' & Hpj & _ & _ & Hdj).
  rw (log_at_unique _ _ _ _ Hlj Hdj). by apply prefix_length.
Qed.

Lemma sole_led_well L c a ev :
  implements gid c a → Spec.top L a → led_by gid L c ev → led_well gid c ev.
Proof.
  intros Ha Ht Hl. destruct ev as [i|i req|i cmd forward replies]; [done..|].
  intros Hg s Hi Hlead. pose proof (Hl Hg s Hi Hlead) as ->. exact (top_up_to_date c a L s Ha Hi Ht).
Qed.

(** With one leader at a time and no other before it, the proviso holds. *)
Lemma sole_leader_led_well L c0 c l :
  reliable W → starts gid c0 l → is_Some (c0 !! L) → rtc (sole_step gid L) c0 c →
  rtc (led_step gid) c0 c ∧ ∃ a, implements gid c a ∧ Spec.top L a.
Proof.
  intros Hrel Hst HL Hrun.
  assert (∃ a, implements gid c0 a ∧ Spec.top L a) as (a & Ha & Ht).
  { exists (Spec.init (dom c0) l). split; [by apply starts_implements|].
    apply lookup_gset_to_gmap_Some. split; [by apply elem_of_dom|done]. }
  clear Hst HL. revert a Ha Ht.
  induction Hrun as [c|c c1 c2 (ev & Hs & Hl) _ IH]; intros a Ha Ht.
  { split; [apply rtc_refl|by exists a]. }
  pose proof (sole_led_well L c a ev Ha Ht Hl) as Hw.
  destruct (step_simulates c c1 a ev Hrel Ha Hs Hw) as (a1 & _ & Ha1 & Hkeep & _).
  destruct (IH a1 Ha1 (Hkeep L Hl Ht)) as [Hr Hex]. split; [|done].
  apply (rtc_l _ _ c1); [by exists ev|done].
Qed.

(** When a single member takes the group's commands, every other member's log is
    a first part of its log, in every state the cluster gets to. *)
Theorem followers_follow L c0 c l i si sL li lL :
  reliable W → starts gid c0 l → rtc (sole_step gid L) c0 c →
  c !! L = Some sL → c !! i = Some si → is_Some (c0 !! L) →
  log_at (Server.DB si) gid li → log_at (Server.DB sL) gid lL →
  li `prefix_of` lL ∧ chained gid lL.
Proof.
  intros Hrel Hst Hrun HcL Hi HL Hli HlL.
  destruct (sole_leader_led_well L c0 c l Hrel Hst HL Hrun) as (_ & a & Ha & Ht).
  destruct (impl_node _ _ _ Ha i si Hi) as (li' & Hpi & _ & _ & Hdi).
  destruct (impl_node _ _ _ Ha L sL HcL) as (lL' & HpL & HposL & _ & HdL).
  rw (log_at_unique _ _ _ _ Hli Hdi) (log_at_unique _ _ _ _ HlL HdL).
  rw Ht in HposL. injection HposL as Hlen.
  assert (lL' = Spec.log a) as -> by (apply prefix_full; [done|lia]).
  split; [done|]. apply (impl_chained _ _ _ Ha).
Qed.

Lemma logs_grow c c' ev i s l :
  reliable W → step c ev c' → c !! i = Some s → boards s → is_u64 gid →
  log_at (Server.DB s) gid l →
  ∃ s' l', c' !! i = Some s' ∧ boards s' ∧ log_at (Server.DB s') gid l' ∧ l `prefix_of` l'.
Proof.
  intros Hrel Hstep Hi Hb Hid Hl.
  assert (∀ j s1 s2, c !! j = Some s1 →
    (s1 = s → ∃ l', l `prefix_of` l' ∧ moved gid l' s1 s2) →
    ∃ s' l', <[j := s2]> c !! i = Some s' ∧ boards s' ∧ log_at (Server.DB s') gid l' ∧
      l `prefix_of` l') as Hset.
  { intros j s1 s2 Hj Hm. destruct (decide (j = i)) as [->|Hne].
    - destruct (Hm ltac:(congruence)) as (l' & Hp & [Hb' Hl' _]).
      exists s2, l'. by rw lookup_insert_eq.
    - exists s, l. by rw lookup_insert_ne. }
  destruct Hstep as [j s1 s2 Hj Hf|j s1 req Hj _ Hg Hroom|j s1 cmd forward replies Hj Hg Hroom];
    apply (Hset j s1 _ Hj); intros ->.
  - exists l. split; [done|]. by apply moved_frame.
  - destruct (moved_AppendEntries gid Hid req s l Hrel Hb Hg Hl) as (l' & _ & Hp & Hm);
      [intros <-; pose proof (Hroom l Hl); lia|by exists l'].
  - destruct (moved_ExecCommand gid Hid cmd forward replies s l Hrel Hb Hg Hl) as (l' & _ & Hp & Hm);
      [intros <-; pose proof (Hroom l Hl); lia|by exists l'].
Qed.

Lemma logs_grow_run ca cb i s l :
  reliable W → rtc any_step ca cb → ca !! i = Some s → boards s → is_u64 gid →
  log_at (Server.DB s) gid l →
  ∃ s' l', cb !! i = Some s' ∧ boards s' ∧ log_at (Server.DB s') gid l' ∧ l `prefix_of` l'.
Proof.
  intros Hrel Hr. revert s l. induction Hr as [|c1 c2 c3 [ev Hstep] _ IH]; intros s l Hi Hb Hid Hl.
  { by exists s, l. }
  destruct (logs_grow c1 c2 ev i s l Hrel Hstep Hi Hb Hid Hl) as (s2 & l2 & Hi2 & Hb2 & Hl2 & Hp).
  destruct (IH s2 l2 Hi2 Hb2 Hid Hl2) as (s' & l' & ? & ? & ? & ?). exists s', l'.
  split; [done|]. split; [done|]. split; [done|]. by transitivity l2.
Qed.
End facts.

(** A command that made the log longer by one is in it. *)
Lemma command_taken cmd forward replies s l :
  CommandRequest.Group cmd = demo_group_id → Z.of_nat (length l) + 1 < 2 ^ 64 →
  holds s 0 demo_group_id l → sm_get (Server.GroupsOnboard s) (id_key demo_group_id) = Some 0%nat →
  LastEntryIndex (Server.DB (RPC.ExecCommand cmd forward replies s).2) demo_group_id =
    Z.of_nat (length l) + 1 →
  ∃ g, log_at (Server.DB (RPC.ExecCommand cmd forward replies s).2) demo_group_id
    (l ++ [next_entry g l cmd]).
Proof.
  intros Hg Hlen Hh Hb Hidx.
  destruct (grows_ExecCommand cmd forward replies 0 demo_group_id l s mem_reliable Hg Hlen Hh Hb)
    as (l' & Hcmd & _ & Hm).
  pose proof (holds_log _ _ _ _ (moves_holds _ _ _ _ _ Hm)) as Hl'.
  rw (LastEntryIndex_at _ _ _ Hl') in Hidx.
  destruct Hcmd as [->|(rt & g & _ & _ & ->)]; [lia|]. by exists g.
Qed.

(** * Two members of a new group

    The first leads and takes the command [cmd], and its heartbeat brings the entry to
    the second. *)
Section pair.
Context (start : Z → Server.t) (cmd : CommandRequest.t).

Definition pair_c0 : gmap Z Server.t := <[1 := start 1]> {[ 2 := start 2 ]}.
Definition pair_command : event := Ev_command 1 cmd no_forward [].
Definition pair_led : Server.t := (RPC.ExecCommand cmd no_forward [] (start 1)).2.
Definition pair_c1 : gmap Z Server.t := <[1 := pair_led]> pair_c0.

Definition first_append (calls : list rpc) : option AppendEntriesRequest.t :=
  match calls with Rpc_AppendEntries _ req :: _ => Some req | _ => None end.

Definition pair_sent : AppendEntriesRequest.t :=
  default demo_batch (first_append (Server.calls pair_led)).

Definition pair_told : Server.t := (RPC.AppendEntries pair_sent (start 2)).2.
Definition pair_c2 : gmap Z Server.t := <[2 := pair_told]> pair_c1.

Lemma is_Some_bool {A} (o : option A) :
  match o with Some _ => true | None => false end = true → is_Some o.
Proof using. destruct o; [by eexists|done]. Qed.

(** What makes it a run: the leader tells the second member one entry of the group. *)
Record paired : Prop := {
  paired_boards n : boards (start n);
  paired_log n : log_at (Server.DB (start n)) demo_group_id [];
  paired_quiet n : Server.calls (start n) = [];
  paired_cmd : CommandRequest.Group cmd = demo_group_id;
  paired_sent : is_Some (first_append (Server.calls pair_led));
  paired_group : AppendEntriesRequest.Group pair_sent = demo_group_id;
  paired_length : length (AppendEntriesRequest.Entries pair_sent) = 1%nat
}.

Context (Hp : paired).

Lemma pair_node i s : pair_c0 !! i = Some s → ∃ n, s = start n.
Proof using.
  unfold pair_c0. intros [[_ <-]|[_ [_ <-]%lookup_singleton_Some]]%lookup_insert_Some; by eexists.
Qed.

Lemma pair_start_log n l : log_at (Server.DB (start n)) demo_group_id l → l = [].
Proof using Hp. intros Hl. exact (log_at_unique _ _ _ _ Hl (paired_log Hp n)). Qed.

Lemma pair_starts : starts demo_group_id pair_c0 [].
Proof using Hp.
  split; [done| | |done|].
  - intros i s [n ->]%pair_node. split; [apply (paired_boards Hp)|apply (paired_log Hp)].
  - intros Hc%(f_equal (lookup 1)). unfold pair_c0 in Hc. by rw lookup_insert_eq lookup_empty in Hc.
  - intros req (j & s & addr & [n ->]%pair_node & Hin) _. rw (paired_quiet Hp n) in Hin.
    exact (not_elem_of_nil _ Hin).
Qed.

Lemma pair_step1 : step pair_c0 pair_command pair_c1.
Proof using Hp.
  unfold pair_c1, pair_led, pair_command.
  apply (step_command pair_c0 1 (start 1) cmd no_forward []).
  - apply lookup_insert_eq.
  - rw (paired_cmd Hp). done.
  - rw (paired_cmd Hp). by intros l ->%pair_start_log.
Qed.

Lemma pair_led_well : led_well demo_group_id pair_c0 pair_command.
Proof using Hp.
  intros _ s _ _ l j sj lj _ [n ->]%pair_node ->%pair_start_log. apply Nat.le_0_l.
Qed.

Lemma pair_sent_sent : sent pair_c1 pair_sent.
Proof using Hp.
  unfold pair_sent. destruct (paired_sent Hp) as [req Hreq]. rw Hreq. cbn [default].
  destruct (Server.calls pair_led) as [|[] rest] eqn:Hc; try discriminate Hreq.
  injection Hreq as ->.
  eexists 1, pair_led, _. split; [apply lookup_insert_eq|]. rw Hc. apply list_elem_of_here.
Qed.

Lemma pair_first : pair_c2 !! 1 = Some pair_led.
Proof using.
  unfold pair_c2. etrans; [by apply (lookup_insert_ne _ 2 1)|]. apply lookup_insert_eq.
Qed.

Lemma pair_second : pair_c1 !! 2 = Some (start 2) ∧ pair_c2 !! 2 = Some pair_told.
Proof using.
  split; [|apply lookup_insert_eq]. unfold pair_c1, pair_c0.
  etrans; [by apply (lookup_insert_ne _ 1 2)|].
  etrans; [by apply (lookup_insert_ne _ 1 2)|]. apply lookup_singleton_eq.
Qed.

Lemma pair_step2 : step pair_c1 (Ev_append 2 pair_sent) pair_c2.
Proof using Hp.
  unfold pair_c2, pair_told. apply (step_append pair_c1 2 (start 2) pair_sent).
  - apply pair_second.
  - exact pair_sent_sent.
  - rw (paired_group Hp). done.
  - rw (paired_group Hp) (paired_length Hp). by intros l ->%pair_start_log.
Qed.

Lemma pair_runs : rtc (led_step demo_group_id) pair_c0 pair_c2.
Proof using Hp.
  apply (rtc_l _ _ pair_c1).
  - exists pair_command. split; [exact pair_step1|exact pair_led_well].
  - apply rtc_once. eexists. split; [exact pair_step2|exact I].
Qed.

Lemma pair_sole_runs : rtc (sole_step demo_group_id 1) pair_c0 pair_c2.
Proof using Hp.
  apply (rtc_l _ _ pair_c1).
  - exists pair_command. split; [exact pair_step1|]. by intros _ s _ _.
  - apply rtc_once. eexists. split; [exact pair_step2|exact I].
Qed.
End pair.

Definition demo_start (n : Z) : Server.t := node n 1 (if n =? 1 then LEADER else FOLLOWER) 1 (demo_log 0).

Abbreviation demo_c0 := (pair_c0 demo_start).
Abbreviation demo_led := (pair_led demo_start (demo_signed 4)).
Abbreviation demo_c1 := (pair_c1 demo_start (demo_signed 4)).
Abbreviation demo_told := (pair_told demo_start (demo_signed 4)).
Abbreviation demo_c2 := (pair_c2 demo_start (demo_signed 4)).

Lemma demo_start_holds n : holds (demo_start n) 0 demo_group_id [].
Proof. exact (demo_holds n 1 (if n =? 1 then LEADER else FOLLOWER) 1 0 eq_refl). Qed.

Lemma node_boards self leader role term l : boards (node self leader role term l).
Proof.
  split; unfold node; cbn [Server.raftgroups Server.GroupsOnboard Server.rtgroups].
  - by intros p g [_ <-]%lookup_singleton_Some.
  - intros key m. destruct (decide (id_key demo_group_id = key)) as [<-|Hne].
    + rw sm_get_set. intros [= <-]. by eexists _, _.
    + by rw sm_get_set_ne //.
Qed.

Lemma demo_start_boards n : boards (demo_start n).
Proof. apply node_boards. Qed.

Lemma demo_group_u64 : is_u64 demo_group_id.
Proof. done. Qed.

Lemma demo_paired : paired demo_start (demo_signed 4).
Proof.
  split.
  - exact demo_start_boards.
  - intros n. exact (holds_log _ _ _ _ (demo_start_holds n)).
  - reflexivity.
  - reflexivity.
  - apply is_Some_bool. by vm_compute.
  - by vm_compute.
  - by vm_compute.
Qed.

(** The entry is in both logs. *)
Lemma demo_told_index : LastEntryIndex (Server.DB demo_told) demo_group_id = 1.
Proof. by vm_compute. Qed.

Lemma demo_led_index : LastEntryIndex (Server.DB demo_led) demo_group_id = 1.
Proof. by vm_compute. Qed.

Lemma one_entry (l : list LogEntry.t) i : i = Z.of_nat (length l) → i = 1 → length l = 1%nat.
Proof. lia. Qed.

Lemma cluster_refines_witness :
  ∃ a, rtc (Spec.step demo_group_id) (Spec.init (dom demo_c0) []) a ∧
    implements demo_group_id demo_c2 a.
Proof.
  exact (cluster_refines demo_group_id demo_c0 demo_c2 [] mem_reliable (pair_starts _ _ demo_paired)
    (pair_runs _ _ demo_paired)).
Defined.

Lemma logs_agree_witness :
  ∃ l1 l2, log_at (Server.DB demo_led) demo_group_id l1 ∧
    log_at (Server.DB demo_told) demo_group_id l2 ∧
    length l1 = 1%nat ∧ length l2 = 1%nat ∧ (l1 `prefix_of` l2 ∨ l2 `prefix_of` l1).
Proof.
  destruct (implements_reached demo_group_id demo_c0 demo_c2 [] mem_reliable (pair_starts _ _ demo_paired)
    (pair_runs _ _ demo_paired)) as (a & _ & Ha).
  destruct (impl_node _ _ _ Ha 1 demo_led (pair_first _ _)) as (l1 & _ & _ & _ & H1).
  destruct (impl_node _ _ _ Ha 2 demo_told (proj2 (pair_second _ _))) as (l2 & _ & _ & _ & H2).
  exists l1, l2. split; [exact H1|]. split; [exact H2|].
  split; [|split].
  - exact (one_entry _ _ (LastEntryIndex_at _ _ _ H1) demo_led_index).
  - exact (one_entry _ _ (LastEntryIndex_at _ _ _ H2) demo_told_index).
  - exact (proj1 (logs_agree demo_group_id demo_c0 demo_c2 [] 1 2 demo_led demo_told l1 l2
      mem_reliable (pair_starts _ _ demo_paired) (pair_runs _ _ demo_paired) (pair_first _ _) (proj2 (pair_second _ _))
      H1 H2)).
Defined.

Lemma followers_follow_witness :
  ∃ l1 l2, log_at (Server.DB demo_led) demo_group_id l1 ∧
    log_at (Server.DB demo_told) demo_group_id l2 ∧ l2 `prefix_of` l1.
Proof.
  destruct (implements_reached demo_group_id demo_c0 demo_c2 [] mem_reliable (pair_starts _ _ demo_paired)
    (pair_runs _ _ demo_paired)) as (a & _ & Ha).
  destruct (impl_node _ _ _ Ha 1 demo_led (pair_first _ _)) as (l1 & _ & _ & _ & H1).
  destruct (impl_node _ _ _ Ha 2 demo_told (proj2 (pair_second _ _))) as (l2 & _ & _ & _ & H2).
  exists l1, l2. split; [exact H1|]. split; [exact H2|].
  exact (proj1 (followers_follow demo_group_id 1 demo_c0 demo_c2 [] 2 demo_told demo_led
    l2 l1 mem_reliable (pair_starts _ _ demo_paired) (pair_sole_runs _ _ demo_paired) (pair_first _ _) (proj2 (pair_second _ _))
    (ex_intro _ (demo_start 1) (lookup_insert_eq _ _ _)) H2
    H1)).
Defined.
