(* ===== verification/Handlers.v ===== *)
(** What a node may do to its logs, handler by handler: all that a process runs once it
    has started, in any order, with any arguments and any outcome, and what other
    goroutines do while a handler waits. *)
From S2P Require Export ClusterFacts.

Section handlers.
Context {W : World} {F : RaftFns}.

(** * The handlers

    [handler meanwhile] is one call of a handler, with [meanwhile] what runs in the
    rounds in which it waits. Requests and answers are any: nobody need have sent them.
    The logs stay below the bound of their indices, and the group's role is one that the
    code gives it: no code gives OBSERVER. *)
Inductive handler (meanwhile : relation Server.t) : relation Server.t :=
| handle_AppendEntries req s :
    is_u64 (AppendEntriesRequest.Group req) →
    room (AppendEntriesRequest.Group req) s (length (AppendEntriesRequest.Entries req)) →
    handler meanwhile s (RPC.AppendEntries req s).2
| handle_ExecCommand cmd forward replies s :
    is_u64 (CommandRequest.Group cmd) → room (CommandRequest.Group cmd) s 1 →
    handler meanwhile s (RPC.ExecCommand cmd forward replies s).2
| handle_RequestVote env req s :
    (∀ k s, meanwhile s (env k s)) → handler meanwhile s (RPC.RequestVote env req s).2
| handle_time_wheel m input s :
    (∀ s, meanwhile s (in_during input s)) →
    (∀ rt, Server.rtgroups s !! m = Some rt → RTGroup.Role rt ≠ OBSERVER) →
    handler meanwhile s (time_wheel m input s).2
| handle_ApproveAppend req s : handler meanwhile s (RPC.ApproveAppend req s).2
| handle_PullGroupLogs req s : handler meanwhile s (RPC.PullGroupLogs req s).2
| handle_GroupHosts groupId s : handler meanwhile s (RPC.GroupHosts groupId s).2
| handle_GroupMembers groupId s : handler meanwhile s (RPC.GroupMembers groupId s).2
| handle_GetGroupContent groupId s : handler meanwhile s (RPC.GetGroupContent groupId s).2
| handle_GetGroupLeader groupId s : handler meanwhile s (RPC.GetGroupLeader groupId s).2
| handle_SendGroupInvitation inv s : handler meanwhile s (RPC.SendGroupInvitation inv s).2
| handle_RegHost exec s : handler meanwhile s (RegHost exec s).2
| handle_NodeJoin exec during_exec during_wait groupId s :
    (∀ s, meanwhile s (during_exec s)) → (∀ s, meanwhile s (during_wait s)) →
    handler meanwhile s (NodeJoin exec during_exec during_wait groupId s).2
| handle_NewGroup exec during_exec during_wait group s :
    (∀ s, meanwhile s (during_exec s)) → (∀ s, meanwhile s (during_wait s)) →
    handler meanwhile s (NewGroup exec during_exec during_wait group s).2.

(** Handlers inside handlers, to any depth: while one waits, others run. *)
Fixpoint runs (depth : nat) : relation Server.t :=
  match depth with
  | O => rtc (handler eq)
  | S depth => rtc (handler (runs depth))
  end.

(** * Growth *)

(** The records on board are kept, and every log grows at its end. *)
Record grown (s s' : Server.t) : Prop := {
  grown_boards : boards s → boards s';
  grown_log gid l : boards s → is_u64 gid → log_at (Server.DB s) gid l →
    ∃ l', l `prefix_of` l' ∧ log_at (Server.DB s') gid l'
}.

#[export] Instance grown_preorder : PreOrder grown.
Proof.
  split; [split; eauto|]. intros s1 s2 s3 [B1 L1] [B2 L2]. split; [auto|].
  intros gid l Hb Hu Hl. destruct (L1 gid l Hb Hu Hl) as (l1 & Hp1 & Hl1).
  destruct (L2 gid l1 (B1 Hb) Hu Hl1) as (l2 & Hp2 & Hl2).
  exists l2. split; [by transitivity l1|done].
Qed.

Lemma frame_grown s s' : frame s s' → grown s s'.
Proof.
  intros Hf. split; [apply (frame_boards _ _ Hf)|]. intros gid l _ Hu Hl.
  exists l. split; [done|]. exact (frame_log _ _ Hf _ _ Hu Hl).
Qed.

Lemma preserves_grown {A} (p : MS A) : preserves frame p → preserves grown p.
Proof. intros Hp s. apply frame_grown, Hp. Qed.

#[export] Instance grown_storing : Storing grown.
Proof.
  split; [split; [apply _|by intros s s' [Hf _ _ _]; apply frame_grown]| |
    intros ?; apply preserves_grown, storing_SaveGroup
   |intros ?; apply preserves_grown, storing_SavePeer].
  intros A fn H s. specialize (H s). unfold DB_Update.
  destruct (fn s) as [[a|e|w] s']; simpl in *; [case_match; [done|]|..];
    destruct H as [H1 H2]; split; simpl; eauto; intros ?%H1; auto.
Qed.

Lemma grown_of s s' :
  (∀ gid l, boards s → is_u64 gid → log_at (Server.DB s) gid l →
    ∃ l', l `prefix_of` l' ∧ moved gid l' s s') →
  (boards s → boards s') → grown s s'.
Proof.
  intros Hall Hb. split; [done|]. intros gid l Hbs Hu Hl.
  destruct (Hall gid l Hbs Hu Hl) as (l' & Hp & Hm). exists l'.
  split; [done|]. exact (moved_log _ _ _ _ Hm).
Qed.

(** An append request and a command, about whatever group. *)
Lemma grown_AppendEntries req s :
  reliable W → is_u64 (AppendEntriesRequest.Group req) →
  room (AppendEntriesRequest.Group req) s (length (AppendEntriesRequest.Entries req)) →
  grown s (RPC.AppendEntries req s).2.
Proof.
  intros Hrel Hg Hroom. apply grown_of.
  - intros gid l Hb Hu Hl.
    destruct (moved_AppendEntries gid Hu req s l Hrel Hb Hg Hl) as (l' & _ & Hp & Hm); [|by exists l'].
    intros Heq. rw Heq in Hroom. exact (Hroom l Hl).
  - unfold RPC.AppendEntries.
    rw (bind_Ok _ _ _ _ _ (eq_refl : gets Server.Id s = (Ok (Server.Id s), s)))
      (bind_Ok _ _ _ _ _ (eq_refl : GetOnboardGroup (AppendEntriesRequest.Group req) s = (Ok _, s))).
    destruct (sm_get _ _) as [m|]; [|done]. apply (apart_AppendEntries m 0 req s).
Qed.

Lemma grown_ExecCommand cmd forward replies s :
  reliable W → is_u64 (CommandRequest.Group cmd) → room (CommandRequest.Group cmd) s 1 →
  grown s (RPC.ExecCommand cmd forward replies s).2.
Proof.
  intros Hrel Hg Hroom. apply grown_of.
  - intros gid l Hb Hu Hl.
    destruct (moved_ExecCommand gid Hu cmd forward replies s l Hrel Hb Hg Hl)
      as (l' & _ & Hp & Hm); [|by exists l'].
    intros Heq. rw Heq in Hroom. pose proof (Hroom l Hl). lia.
  - pose proof (apart_ExecCommand 0 cmd forward replies s) as Ha.
    destruct (sm_get _ _) as [m|]; [apply Ha|apply (frame_boards _ _ Ha)].
Qed.

Lemma frame_RegHost exec : preserves frame (RegHost exec).
Proof. unfold RegHost. solve_frame. Qed.

Lemma frame_NodeJoin `{!Storing R} exec during_exec during_wait groupId :
  (∀ s, R s (during_exec s)) → (∀ s, R s (during_wait s)) →
  preserves R (NodeJoin exec during_exec during_wait groupId).
Proof.
  intros He Hw. unfold NodeJoin. solve_frame;
    first [apply He|apply Hw|apply frame_GetGroupHostsNTXN|apply frame_GetGroupNTXN
          |apply storing_update; solve_frame].
Qed.

Lemma frame_NewGroup `{!Storing R} exec during_exec during_wait group :
  (∀ s, R s (during_exec s)) → (∀ s, R s (during_wait s)) →
  preserves R (NewGroup exec during_exec during_wait group).
Proof. intros He Hw. unfold NewGroup. solve_frame; first [apply He|apply Hw]. Qed.

(** Every handler is an append request, a command, or respects what the rest does. *)
Lemma handler_cases `{!Storing R} meanwhile s s' :
  (∀ s s', frame s s' → R s s') → (∀ s s', meanwhile s s' → R s s') → handler meanwhile s s' →
  (∃ req, is_u64 (AppendEntriesRequest.Group req) ∧
    room (AppendEntriesRequest.Group req) s (length (AppendEntriesRequest.Entries req)) ∧
    s' = (RPC.AppendEntries req s).2) ∨
  (∃ cmd forward replies, is_u64 (CommandRequest.Group cmd) ∧ room (CommandRequest.Group cmd) s 1 ∧
    s' = (RPC.ExecCommand cmd forward replies s).2) ∨
  R s s'.
Proof.
  intros Hf Hm [];
    [left; eexists; split; [eassumption|by split]|
     right; left; eexists _, _, _; split; [eassumption|by split]|right; right..].
  - apply frame_rpc_RequestVote. auto.
  - apply frame_time_wheel; auto.
  - apply frame_ApproveAppend.
  - apply frame_PullGroupLogs.
  - apply frame_GroupHosts.
  - apply frame_GroupMembers.
  - apply frame_GetGroupContent.
  - apply frame_GetGroupLeader.
  - apply frame_SendGroupInvitation.
  - apply Hf, frame_RegHost.
  - apply frame_NodeJoin; auto.
  - apply frame_NewGroup; auto.
Qed.

(** A handler at a node is a step of the cluster, while others respect [frame] and an
    append request was sent by someone. *)
Lemma handler_steps meanwhile c i s s' :
  (∀ s s', meanwhile s s' → frame s s') → c !! i = Some s → handler meanwhile s s' →
  any_step c (<[i := s']> c) ∨
  ∃ req, s' = (RPC.AppendEntries req s).2 ∧ (sent c req → any_step c (<[i := s']> c)).
Proof.
  intros Hm Hi Hh. destruct (handler_cases (R:=frame) meanwhile s s' ltac:(done) Hm Hh)
    as [(req & Hu & Hr & ->)|[(cmd & fw & rs & Hu & Hr & ->)|Hf]].
  - right. exists req. split; [done|]. intros Hs. exists (Ev_append i req). by apply step_append.
  - left. exists (Ev_command i cmd fw rs). by apply step_command.
  - left. exists (Ev_local i). by apply (step_local c i s).
Qed.

Lemma grown_handler meanwhile s s' :
  reliable W → (∀ s s', meanwhile s s' → grown s s') → handler meanwhile s s' → grown s s'.
Proof.
  intros Hrel Hm Hh. destruct (handler_cases (R:=grown) meanwhile s s' frame_grown Hm Hh)
    as [(req & Hu & Hr & ->)|[(cmd & fw & rs & Hu & Hr & ->)|Hg]];
    [by apply grown_AppendEntries|by apply grown_ExecCommand|done].
Qed.

Lemma grown_rtc (R : relation Server.t) s s' :
  (∀ s s', R s s' → grown s s') → rtc R s s' → grown s s'.
Proof.
  intros HR. induction 1 as [|s1 s2 s3 H1 _ IH]; [reflexivity|]. transitivity s2; [exact (HR _ _ H1)|exact IH].
Qed.

Lemma grown_runs depth s s' : reliable W → runs depth s s' → grown s s'.
Proof.
  intros Hrel. revert s s'. induction depth as [|depth IH]; intros s s'; apply grown_rtc;
    intros s1 s2; apply (grown_handler _ _ _ Hrel).
  - intros s3 s4 Heq. rw Heq. reflexivity.
  - exact IH.
Qed.

(** C4. Whatever a node that has started runs, no entry of any log that it has is ever
    removed or replaced. It runs any sequence of its handlers, with any requests, forged
    and repeated ones too, any answers of others, any outcome, errors and panics
    included, and any of these handlers again while one of them waits. The functions an
    application registers leave logs alone, as [RaftFns] asks; not covered are the pull
    of an observer, which no code makes a node, and the start of the process. *)
Theorem logs_only_grow depth gid l s s' :
  reliable W → runs depth s s' → boards s → is_u64 gid → log_at (Server.DB s) gid l →
  boards s' ∧ ∃ l', log_at (Server.DB s') gid l' ∧ l `prefix_of` l'.
Proof.
  intros Hrel Hrun Hb Hu Hl. destruct (grown_runs depth s s' Hrel Hrun) as [Hb' Hg].
  split; [auto|]. destruct (Hg gid l Hb Hu Hl) as (l' & Hp & Hl'). by exists l'.
Qed.
End handlers.

(** * Witness: an append request that arrives while a voter waits *)
Definition small_log (s : Server.t) : bool :=
  LastEntryIndex (Server.DB s) demo_group_id <? 2 ^ 63.

Definition append_meanwhile (k : Z) (s : Server.t) : Server.t :=
  if (k =? 0) && small_log s then (RPC.AppendEntries demo_batch s).2 else s.

Lemma append_meanwhile_runs k s : runs 0 s (append_meanwhile k s).
Proof.
  unfold append_meanwhile. destruct (_ && _) eqn:Hc; [|apply rtc_refl].
  apply andb_true_iff in Hc as [_ Hsmall%Z.ltb_lt]. apply rtc_once, handle_AppendEntries; [done|].
  intros l Hl. change (AppendEntriesRequest.Group demo_batch) with demo_group_id in Hl.
  rw (LastEntryIndex_at _ _ _ Hl) in Hsmall.
  assert (length (AppendEntriesRequest.Entries demo_batch) = 2%nat) as -> by (by vm_compute). lia.
Qed.

Definition waiting_voter : Server.t := (RPC.RequestVote append_meanwhile (demo_request 2 1) demo_follower).2.

Lemma waiting_voter_runs : runs 1 demo_follower waiting_voter.
Proof. apply rtc_once, handle_RequestVote, append_meanwhile_runs. Qed.

Example waiting_voter_log :
  (LastEntryIndex (Server.DB demo_follower) demo_group_id,
   LastEntryIndex (Server.DB waiting_voter) demo_group_id) = (1, 3).
Proof. by vm_compute. Qed.

Lemma logs_only_grow_witness :
  boards waiting_voter ∧ ∃ l', log_at (Server.DB waiting_voter) demo_group_id l' ∧ demo_log 1 `prefix_of` l'.
Proof.
  exact (logs_only_grow 1 demo_group_id (demo_log 1) demo_follower waiting_voter mem_reliable
    waiting_voter_runs (node_boards 2 1 FOLLOWER 1 (demo_log 1)) demo_group_u64
    (holds_log _ _ _ _ (demo_holds 2 1 FOLLOWER 1 1 eq_refl))).
Defined.
