(* ===== verification/Observer.v ===== *)
(** The observer: it asks for the entry after its last one, but a pull is answered with
    the entries after the one asked for, so that it misses one and can append none of the
    others. Through pulls alone its log never grows. *)
From S2P Require Export Handlers MajorityFacts.

Section observer.
Context {W : World} {F : RaftFns}.
Context (m : nat) (gid : Z) (lo : list LogEntry.t).

(** What the observer asks for. *)
Definition pull_request : PullGroupLogsResuest.t :=
  PullGroupLogsResuest.mk gid (wrap64 (Z.of_nat (length lo) + 1)).

(** What is left of a pull once the members are asked. *)
Definition take_answers (addrs : list string) (replies : list (option (option (list LogEntry.t))))
    : MS unit :=
  let answers := (λ i, pulled <$> default None (replies !! i)) <$> seq 0 (length addrs) in
  match default None (MajorityResponse ((λ _, true) <$> addrs) answers) with
  | None => panic nil_assertion
  | Some entries => commit_pulled m entries
  end.

Lemma record_pulls addrs req s :
  for_each (λ addr, call (Rpc_PullGroupLogs addr req)) addrs s =
    (Ok tt, Server.upd_calls (app (rev ((λ a, Rpc_PullGroupLogs a req) <$> addrs))) s).
Proof.
  revert s. induction addrs as [|a addrs IH]; intros s; [by destruct s|]. cbn [for_each].
  rw (bind_Ok _ _ _ _ _ (eq_refl : call (Rpc_PullGroupLogs a req) s = (Ok tt, _))) IH.
  destruct s. unfold Server.upd_calls. cbn. by rw -app_assoc.
Qed.

Lemma pull_parts replies s :
  holds s m gid lo →
  (∃ o s1, PullAndCommitGroupLogs m replies s = (o, s1) ∧ (∀ u, o ≠ Ok u) ∧ quiet s s1) ∨
  ∃ addrs s1, quiet s s1 ∧
    let s2 := Server.upd_calls (app (rev ((λ a, Rpc_PullGroupLogs a pull_request) <$> addrs))) s1 in
    PullAndCommitGroupLogs m replies s = take_answers addrs replies s2.
Proof.
  intros Hh. destruct (holds_group _ _ _ _ Hh) as (rt & g & Hg & Hid). unfold PullAndCommitGroupLogs.
  rw (bind_Ok _ _ _ _ _ (run_load_rt _ _ _ (proj1 Hg))).
  match goal with |- context [mbind _ (fold_each ?f ?l ?a)] => pose (ask := fold_each f l a) end.
  assert (preserves quiet ask) as Hask by (unfold ask, GetClusterRPC; solve_preserves).
  specialize (Hask s). destruct (ask s) as [[addrs|e|w] s1] eqn:Hrun; cbn [snd] in Hask;
    [right|left; eexists _, s1..].
  - pose proof (holds_frame _ _ _ _ _ (quiet_frame _ _ Hask) Hh) as Hh1.
    destruct (holds_group_of _ _ _ _ Hh1) as (g1 & Hg1 & Hid1).
    exists addrs, s1. split; [done|].
    rw (bind_Ok _ _ _ _ _ Hrun) (bind_Ok _ _ _ _ _ Hg1)
      (bind_Ok _ _ _ _ _ (run_LastEntryIndex _ _ _ _ Hh1)) Hid1.
    by rw (bind_Ok _ _ _ _ _ (record_pulls _ _ _)).
  - split; [exact (bind_Err _ _ _ _ _ Hrun)|done].
  - split; [exact (bind_Panic _ _ _ _ _ Hrun)|done].
Qed.

(** A longer log of the group. *)
Record extends (l : list LogEntry.t) : Prop := {
  extends_prefix : lo `prefix_of` l;
  extends_chained : chained gid l;
  extends_short : Z.of_nat (length l) < 2 ^ 64 - 1;
  extends_group e : e ∈ l → command_group e = Some gid
}.

(** What a member whose log extends the observer's answers. *)
Definition answers (req : PullGroupLogsResuest.t) (entries : list LogEntry.t) : Prop :=
  ∃ sv l sv', log_at (Server.DB sv) gid l ∧ extends l ∧
    RPC.PullGroupLogs req sv = (Ok (Some <$> entries), sv').

(** The cases in which a hash does not tell where the log ends. *)
Definition confused : Prop := ∃ l e, extends l ∧ l !! S (length lo) = Some e ∧
  (tip gid lo = tip gid (take (S (length lo)) l) ∨
   hash_collision (tip gid lo) (tip gid (take (S (length lo)) l)) e e).

Lemma answers_drop entries :
  is_u64 gid → answers pull_request entries → ∃ l, extends l ∧ entries = drop (S (length lo)) l ∧
    ∀ i e, l !! i = Some e → LogEntry.Index e = Z.of_nat i + 1.
Proof.
  intros Hu (sv & l & sv' & Hl & Hex & Hrun). exists l. split; [done|].
  pose proof (prefix_length _ _ (extends_prefix _ Hex)) as Hle. pose proof (extends_short _ Hex) as Hlen.
  split; [|exact (log_index _ _ _ Hl)].
  unfold RPC.PullGroupLogs in Hrun. apply bind_Ok_inv in Hrun as (r & s1 & H1 & Hrun).
  injection H1 as <- <-. injection Hrun as Hrun _. unfold pull_request in Hrun. cbn in Hrun.
  assert (wrap64 (Z.of_nat (length lo) + 1) = Z.of_nat (length lo) + 1) as Hw
    by (unfold wrap64; apply Z.mod_small; lia).
  rw Hw (PullGroupLogs_at _ _ _ _ Hl) in Hrun; [unfold is_u64; lia|lia|].
  injection Hrun as Hrun. apply (inj (fmap Some)) in Hrun. rw -Hrun. f_equal. lia.
Qed.

Lemma commit_pulled_skips entries s :
  holds s m gid lo → answers pull_request entries →
  commit_pulled m entries s = (Ok tt, s) ∨ confused.
Proof.
  intros Hh Ha. destruct (answers_drop _ (holds_id _ _ _ _ Hh) Ha) as (l & Hex & -> & Hidx).
  destruct (drop (S (length lo)) l) as [|e rest] eqn:Hd; [by left|].
  assert (l !! S (length lo) = Some e) as He by (by rw -(Nat.add_0_r (S (length lo))) -lookup_drop Hd).
  assert (lo = take (length lo) l) as Hlo.
  { destruct (extends_prefix _ Hex) as [k ->]. by rw take_app_length. }
  destruct (skipped_entry_refused (Server.DB s) gid l (length lo) e (extends_chained _ Hex)
    (extends_short _ Hex)) as [Href|Hc]; [by rw -Hlo; apply (holds_log _ _ _ _ Hh)|done|done|
    exact (extends_group _ Hex _ (list_elem_of_lookup_2 _ _ _ He))| |].
  - left. destruct (holds_group_of _ _ _ _ Hh) as (g & Hg & Hid).
    assert (try_ (DB_Update (GroupAppendEntry m e)) s = (Ok (inl "Log entry hash mismatch"), s)) as Hrun.
    { unfold try_, DB_Update, GroupAppendEntry. rw (bind_Ok _ _ _ _ _ Hg) Hid.
      unfold txn_write, gets, lift, mbind, M_bind. rw Href. by rw upd_DB_same. }
    cbn [commit_pulled]. by rw (bind_Ok _ _ _ _ _ Hrun).
  - right. exists l, e. split; [done|]. split; [done|]. by rw -Hlo in Hc.
Qed.

Lemma take_answers_skips addrs replies s :
  holds s m gid lo →
  (∀ entries, Some (Some entries) ∈ replies → addrs ≠ [] → answers pull_request entries) →
  (take_answers addrs replies s).2 = s ∨ confused.
Proof.
  intros Hh Hrep. unfold take_answers. cbv zeta. set (given := _ <$> seq 0 (length addrs)).
  destruct (default None (MajorityResponse _ given)) as [entries|] eqn:Hm; [|by left].
  assert (∃ fr, fr ∈ timed <$> given ∧ Result _ fr = Some entries) as (fr & Hfr & Hres).
  { unfold MajorityResponse in Hm. case_decide; [|done]. cbn [default] in Hm.
    pose proof (pick_response_given (timed <$> given)) as Hp. simpl in Hm. by rw Hm in Hp. }
  apply list_elem_of_fmap in Hfr as (o & -> & (i & -> & Hi)%list_elem_of_fmap).
  destruct (default None (replies !! i)) as [r|] eqn:Hr; [|done].
  destruct (replies !! i) as [x|] eqn:Hx; [|done]. cbn in Hr. subst x.
  destruct r as [entries'|]; [|done]. injection Hres as ->.
  destruct (commit_pulled_skips entries s Hh) as [->|?]; [|by left|by right].
  apply Hrep; [by apply list_elem_of_lookup_2 in Hx|]. intros ->. by apply not_elem_of_nil in Hi.
Qed.

(** What a turn of the time wheel asks for: its requests are recorded before the first
    answer is read, so that they are those of the turn in which no answer comes. *)
Definition asks (s : Server.t) (req : PullGroupLogsResuest.t) : Prop :=
  ∃ addr sent, Rpc_PullGroupLogs addr req ∈ sent ∧
    Server.calls (time_wheel m (mk_input [] id [] []) s).2 = sent ++ Server.calls s.

(** A turn of an observer whose pulls are answered by members that have all that it
    has; a member may also be silent, or fail. *)
Definition turn (s s' : Server.t) : Prop :=
  role_at s m = OBSERVER ∧ ∃ input o, time_wheel m input s = (o, s') ∧
    ∀ entries, Some (Some entries) ∈ in_pulls input → ∃ req, asks s req ∧ answers req entries.

Lemma time_wheel_observes input s rt :
  Server.rtgroups s !! m = Some rt → RTGroup.Role rt = OBSERVER →
  time_wheel m input s =
    if Server.now s <? RTGroup.Timeout rt then (Ok tt, Server.upd_now (Z.add tick) s)
    else (_ ← PullAndCommitGroupLogs m (in_pulls input); RefreshTimer m 5) s.
Proof.
  intros Hm Hrole. unfold time_wheel. rw (bind_Ok _ _ _ _ _ (run_load_rt _ _ _ Hm)).
  rw (bind_Ok _ _ _ _ _ (eq_refl : time_Now s = (Ok (Server.now s), s))) Hrole.
  by destruct (_ <? _).
Qed.

Lemma no_answers addrs s : take_answers addrs [] s = (Panic nil_assertion, s).
Proof.
  unfold take_answers. cbv zeta. set (given := _ <$> seq 0 (length addrs)).
  destruct (MajorityResponse _ given) as [o|] eqn:Hm; [|done]. cbn [default].
  unfold MajorityResponse in Hm. case_decide; [|done]. injection Hm as <-.
  pose proof (pick_response_given (timed <$> given)) as Hp. destruct (pick_response _) as [v|]; [|done].
  destruct Hp as (fr & (x & -> & (i & -> & _)%list_elem_of_fmap)%list_elem_of_fmap & Hr).
  by rw lookup_nil in Hr.
Qed.

(** The only request is the one for the entry after the last. *)
Lemma asks_next s rt req :
  holds s m gid lo → Server.rtgroups s !! m = Some rt → RTGroup.Role rt = OBSERVER →
  asks s req → req = pull_request.
Proof.
  intros Hh Hm Hrole (addr & sent & Hin & Hcalls). rw (time_wheel_observes _ _ _ Hm Hrole) in Hcalls.
  assert (∀ s', Server.calls s' = Server.calls s → Server.calls s' = sent ++ Server.calls s →
    req = pull_request) as Hnone.
  { intros s' Hs Hs'. rw Hs in Hs'. apply (app_inv_tail _ [] sent) in Hs' as <-.
    by apply not_elem_of_nil in Hin. }
  destruct (_ <? _); [exact (Hnone _ eq_refl Hcalls)|]. cbn [in_pulls] in Hcalls.
  destruct (pull_parts [] s Hh) as [(o & s1 & Hrun & Ho & (h & k & ->))|(addrs & s1 & (h & k & ->) & Hrun)].
  - destruct o as [u|e|w]; [by destruct (Ho u)|rw (bind_Err _ _ _ _ _ Hrun) in Hcalls
      |rw (bind_Panic _ _ _ _ _ Hrun) in Hcalls]; exact (Hnone _ eq_refl Hcalls).
  - cbv zeta in Hrun. rw no_answers in Hrun. rw (bind_Panic _ _ _ _ _ Hrun) in Hcalls. apply app_inv_tail in Hcalls as <-.
    apply list_elem_of_In, in_rev, list_elem_of_In, list_elem_of_fmap in Hin as (a & [= _ ->] & _).
    reflexivity.
Qed.

Lemma turn_holds s s' : holds s m gid lo → turn s s' → holds s' m gid lo ∨ confused.
Proof.
  intros Hh (Hrole & input & o & Hrun & Hans). unfold role_at in Hrole.
  destruct (Server.rtgroups s !! m) as [rt|] eqn:Hm; [|done].
  assert (∀ entries, Some (Some entries) ∈ in_pulls input → answers pull_request entries) as Hpulls.
  { intros entries (req & Hreq & Ha)%Hans. by rw -(asks_next s rt req). }
  rw (time_wheel_observes _ _ _ Hm Hrole) in Hrun.
  destruct (_ <? _); [injection Hrun as _ <-; left; by destruct Hh|].
  destruct (PullAndCommitGroupLogs m (in_pulls input) s) as [o1 s1] eqn:Hpull.
  assert (holds s1 m gid lo ∨ confused) as [Hh1|?]; [|left|by right].
  - destruct (pull_parts (in_pulls input) s Hh) as [(o2 & s2 & Hp & _ & Hq)|(addrs & s2 & Hq & Hp)].
    + rw Hp in Hpull. injection Hpull as _ <-. left. exact (holds_frame _ _ _ _ _ (quiet_frame _ _ Hq) Hh).
    + pose proof (holds_frame _ _ _ _ _ (quiet_frame _ _ Hq) Hh) as Hh2. cbv zeta in Hp. rw Hp in Hpull.
      set (s3 := Server.upd_calls _ s2) in *. assert (holds s3 m gid lo) as Hh3 by (by destruct Hh2).
      destruct (take_answers_skips addrs (in_pulls input) s3 Hh3 (λ e He _, Hpulls e He)) as [Ht|?];
        [|by right]. rw Hpull in Ht. left. cbn [snd] in Ht. by rw Ht.
  - destruct o1 as [u|e|w].
    + rw (bind_Ok _ _ _ _ _ Hpull) in Hrun.
      exact (holds_preserved _ _ _ _ _ _ _ (frame_RefreshTimer m 5) Hrun Hh1).
    + rw (bind_Err _ _ _ _ _ Hpull) in Hrun. by injection Hrun as _ <-.
    + rw (bind_Panic _ _ _ _ _ Hpull) in Hrun. by injection Hrun as _ <-.
Qed.

End observer.

(** * Witness

    An observer with one entry and three members with three: it is sent the third. *)
Definition observer : Server.t := node 1 1 OBSERVER 1 (demo_log 1).

Definition observed : Server.t := node 2 1 FOLLOWER 1 (demo_log 3).

Definition observer_input : round_input :=
  mk_input [] id [] (replicate 3 (Some (Some (drop 2 (demo_log 3))))).

Definition observer_request : PullGroupLogsResuest.t := PullGroupLogsResuest.mk demo_group_id 2.

Lemma observer_asks : asks (W:=mem_world) 0 observer observer_request.
Proof.
  exists "2", (Server.calls (time_wheel 0 (mk_input [] id [] []) observer).2).
  split; [|symmetry; apply app_nil_r].
  assert (existsb (λ c, match c with
    | Rpc_PullGroupLogs addr req => bool_decide (addr = "2"%string ∧ req = observer_request)
    | _ => false end) (Server.calls (time_wheel 0 (mk_input [] id [] []) observer).2) = true) as H
    by (by vm_compute).
  apply existsb_exists in H as (c & Hin & Hc). destruct c as [? ?|? ?|? ?|? ?|? ?|addr req]; try discriminate Hc.
  apply bool_decide_eq_true in Hc as [-> ->]. by apply list_elem_of_In.
Qed.

Lemma observed_extends : extends demo_group_id (demo_log 1) (demo_log 3).
Proof.
  split; [by exists (drop 1 (demo_log 3))|apply demo_chain|done|].
  intros e He. repeat (apply elem_of_cons in He as [->|He]; [reflexivity|]). by apply not_elem_of_nil in He.
Qed.

Lemma observed_answers :
  answers (W:=mem_world) demo_group_id (demo_log 1) observer_request (drop 2 (demo_log 3)).
Proof.
  exists observed, (demo_log 3), (RPC.PullGroupLogs observer_request observed).2.
  split; [exact (demo_db_log 1 3 eq_refl)|]. split; [exact observed_extends|].
  assert ((RPC.PullGroupLogs observer_request observed).1 = Ok (Some <$> drop 2 (demo_log 3))) as <-
    by (by vm_compute). apply surjective_pairing.
Qed.

