(* ===== verification/Machine.v ===== *)
(** State machines that the log drives.

    [Machine] is what a state machine on a server promises: its state is a view of the
    server which the writes of other parts leave alone, and committing an entry moves
    it by [apply], with [output] as the result. What [Replication] makes of any such
    machine is proved against that promise: the state of every node is what its log
    makes of the state it started with, and what it tells the clients are outputs of
    entries of its log, signed. *)
From S2P Require Export ClusterFacts.

Section machine.
Context {W : World} {F : RaftFns}.

(** * The promise *)

Definition keeping {T} (view : T → Server.t → Prop) (s s' : Server.t) : Prop :=
  ∀ t, view t s → view t s'.

(** [output] says nothing of a result that is no function of state and entry. *)
Class Machine (T : Type) := {
  view : T → Server.t → Prop;
  apply : T → LogEntry.t → T;
  output : T → LogEntry.t → option bytes;
  machine_telling :: Telling (keeping view);
  machine_append m e : preserves (keeping view) (GroupAppendEntry m e);
  machine_commit m e t s : view t s → view (apply t e) (CommitGroupLog m e s).2;
  machine_output m e t s v :
    view t s → output t e = Some v → (CommitGroupLog m e s).1 = Ok v
}.

(** Who signs, and what clients were told. *)
Definition signer (s : Server.t) : Z * PrivateKey := (Server.Id s, Server.SigningKey s).

Lemma frame_signer s s' : frame s s' → signer s' = signer s.
Proof. intros Hf. unfold signer. by rw (frame_id _ _ Hf) (frame_key _ _ Hf). Qed.

Definition untold (s s' : Server.t) : Prop := told s' = told s ∧ signer s' = signer s.

#[export] Instance untold_preorder : PreOrder untold.
Proof. split; [done|]. intros s1 s2 s3 [] []. split; congruence. Qed.

Lemma untold_txn_write f : preserves untold (txn_write f).
Proof.
  intros s. unfold txn_write, gets, lift, modify, mbind, M_bind. by destruct (f (Server.DB s)).
Qed.

#[export] Instance untold_storing : Storing untold.
Proof.
  split; [split; [apply _|]| |intros ?; apply untold_txn_write..].
  { intros s s' [Hf _ _ Ht _]. split; [done|by apply frame_signer]. }
  intros A fn H s. specialize (H s). unfold DB_Update.
  destruct (fn s) as [[a|e|w] s']; [case_match|..]; done.
Qed.

(** The functions of the application tell clients nothing by themselves. *)
Definition user_untold : Prop := ∀ n arg e s, told (user_apply n arg e s).2 = told s.

Lemma untold_SaveHost h : preserves untold (txn_write (λ txn, SaveHost txn h)).
Proof. apply untold_txn_write. Qed.

Lemma untold_CommitGroupLog m e : user_untold → preserves untold (CommitGroupLog m e).
Proof.
  intros Hu. unfold CommitGroupLog. apply (preserves_bind _); [solve_frame|intros cmd].
  apply (preserves_bind _); [solve_frame|intros fn]. apply (preserves_bind _); [solve_frame|intros []].
  all: cbn [fn_apply]; unfold SMRegHost, SMNewClient, SaveHostNTXN.
  - apply frame_SMNodeJoin.
  - solve_frame. apply storing_update, untold_SaveHost.
  - solve_frame. apply storing_update, untold_SaveHost.
  - apply frame_SMNewGroup.
  - intros s. split; [apply Hu|apply frame_signer, user_apply_frame].
Qed.

Lemma untold_GroupAppendEntry m e : preserves untold (GroupAppendEntry m e).
Proof. unfold GroupAppendEntry. solve_frame. apply untold_txn_write. Qed.
End machine.

Section driven.
Context {W : World} {F : RaftFns} {T : Type} {Mch : Machine T}.
Context (t0 : T) (gid : Z).

(** The state that a log leads to. *)
Definition run (l : list LogEntry.t) : T := foldl apply t0 l.

Lemma run_snoc l e : run (l ++ [e]) = apply (run l) e.
Proof using. unfold run. by rw foldl_app. Qed.

(** * Answers

    A result that an entry of the log has, and the server's signature on it. *)
Definition result_of (l : list LogEntry.t) (r : CommandResult.t) : Prop :=
  ∃ k e cmd, l !! k = Some e ∧ LogEntry.Command e = Some cmd ∧
    CommandResult.RequestId r = CommandRequest.RequestId cmd ∧
    ∀ v, output (run (take k l)) e = Some v → CommandResult.Result r = v.

Definition signed_by (s : Server.t) (r : CommandResult.t) : Prop :=
  CommandResult.NodeId r = Server.Id s ∧
  VerifySign (Some (PublicKeyFromPrivate (Server.SigningKey s))) (CommandResult.Signature r)
    (CommandSignData gid (CommandResult.NodeId r) (CommandResult.RequestId r) (CommandResult.Result r))
  = Ok true.

Lemma result_of_prefix l l' r : l `prefix_of` l' → result_of l r → result_of l' r.
Proof using.
  intros [x ->] (k & e & cmd & Hk & Hc & Hr & Hv). pose proof (lookup_lt_Some _ _ _ Hk).
  exists k, e, cmd. rw take_app_le; [lia|]. by rw lookup_app_l.
Qed.

Definition answered (l : list LogEntry.t) (s : Server.t) : Prop := ∀ addr r,
  (addr, r) ∈ told s → CommandResult.Group r = gid → result_of l r ∧ signed_by s r.

(** What the machine's users leave alone: its state, and the answers of the group. *)
Record keeps (s s' : Server.t) : Prop := {
  keeps_view : keeping view s s';
  keeps_told addr r : (addr, r) ∈ told s' → CommandResult.Group r = gid → (addr, r) ∈ told s;
  keeps_signer : signer s' = signer s
}.

#[export] Instance keeps_preorder : PreOrder keeps.
Proof using.
  split; [intros s; split; [by intros t|done..]|]. intros s1 s2 s3 [V1 T1 S1] [V2 T2 S2].
  split; [intros t Ht; by apply V2, V1| |congruence]. intros addr r Hin Hg. by apply T1; [apply T2|].
Qed.

Lemma keeps_of {A} (p : MS A) :
  preserves (keeping view) p → preserves untold p → preserves keeps p.
Proof using. intros Hv Ht s. destruct (Ht s) as [Htold Hs]. split; [apply Hv| |done]. rw Htold. auto. Qed.

#[export] Instance keeps_storing : Storing keeps.
Proof using.
  split.
  - split; [apply _|]. intros s s' Hs. split; [by apply framing_silent| |by apply frame_signer, Hs].
    by rw (silent_told _ _ Hs).
  - intros A fn H s. destruct (H s) as [_ Ht Hs].
    split; [apply (storing_update (R:=keeping view)); intros s'; apply H|..];
      revert Ht Hs; unfold DB_Update; destruct (fn s) as [[a|e|w] s']; try case_match; auto.
  - intros group. apply keeps_of; apply storing_SaveGroup.
  - intros peer. apply keeps_of; apply storing_SavePeer.
Qed.

Lemma keeps_GroupAppendEntry m e : preserves keeps (GroupAppendEntry m e).
Proof using. apply keeps_of; [apply machine_append|apply untold_GroupAppendEntry]. Qed.

Lemma keeps_store_entry m e : preserves keeps (ignore (DB_Update (ignore (GroupAppendEntry m e)))).
Proof using. solve_frame. apply storing_update. solve_frame. apply keeps_GroupAppendEntry. Qed.

Lemma keeps_append_command m cmd : preserves keeps (RPC.append_command m cmd).
Proof using.
  unfold RPC.append_command, txn_read. apply storing_update. solve_frame. apply keeps_GroupAppendEntry.
Qed.

(** * The log, the machine and the answers together *)

Record recorded (m : nat) (l : list LogEntry.t) (s : Server.t) : Prop := {
  recorded_holds : holds s m gid l;
  recorded_view : view (run l) s;
  recorded_answered : answered l s
}.

Lemma answered_kept l s s' : keeps s s' → answered l s → answered l s'.
Proof using.
  intros Hk Ha addr r Hin Hg. pose proof (keeps_signer _ _ Hk) as [= Hid Hkey]. destruct (Ha addr r (keeps_told _ _ Hk _ _ Hin Hg) Hg) as [Hr Hs].
  split; [done|]. unfold signed_by. by rw Hid Hkey.
Qed.

Lemma recorded_kept m l s s' :
  frame s s' → keeps s s' → recorded m l s → recorded m l s'.
Proof using.
  intros Hf Hk [Hh Ht Ha]. split; [exact (holds_frame _ _ _ _ _ Hf Hh)|by apply Hk|].
  by apply (answered_kept _ s).
Qed.

Lemma recorded_silent m l s s' : silent s s' → recorded m l s → recorded m l s'.
Proof using. intros Hs. apply recorded_kept; by apply framing_silent. Qed.

(** After a commit, the server is told about nothing but its answers. *)
Lemma recorded_after {A B} m l (p : MS A) (f : A → MS B) s :
  recorded m l (p s).2 → (∀ a, preserves silent (f a)) → recorded m l ((p ≫= f) s).2.
Proof using.
  intros Hp Hf. rw /mbind /M_bind. destruct (p s) as [[a|e|w] s1]; [|done..].
  exact (recorded_silent _ _ _ _ (Hf a s1) Hp).
Qed.

Context (Hrel : reliable W) (Huser : user_untold).

(** An entry in the log, committed. *)
Lemma recorded_commit m l e s s1 :
  recorded m l s → keeps s s1 → holds s1 m gid (l ++ [e]) →
  recorded m (l ++ [e]) (CommitGroupLog m e s1).2 ∧
  ∀ v, output (run l) e = Some v → (CommitGroupLog m e s1).1 = Ok v.
Proof using Huser.
  intros Hs Hk Hh1. pose proof (keeps_view _ _ Hk _ (recorded_view _ _ _ Hs)) as Hv.
  split; [|intros v Hout; exact (machine_output m e _ _ _ Hv Hout)]. split.
  - exact (holds_frame _ _ _ _ _ (frame_CommitGroupLog m e s1) Hh1).
  - rw run_snoc. by apply machine_commit.
  - intros addr r Hin Hg. rw (proj1 (untold_CommitGroupLog m e Huser s1)) in Hin.
    pose proof (frame_CommitGroupLog m e s1) as Hf.
    destruct (answered_kept _ _ _ Hk (recorded_answered _ _ _ Hs) addr r Hin Hg) as [Hr Hby].
    split; [by apply (result_of_prefix l); [eexists|]|]. unfold signed_by.
    by rw (frame_id _ _ Hf) (frame_key _ _ Hf).
Qed.

(** The client is told the result of the last entry. *)
Lemma recorded_tell_client m l e cmd client result s :
  LogEntry.Command e = Some cmd → (∀ v, output (run l) e = Some v → result = v) →
  recorded m (l ++ [e]) s → recorded m (l ++ [e]) (tell_client m gid cmd client result s).2.
Proof using.
  intros Hc Hres Hs. destruct (holds_group _ _ _ _ (recorded_holds _ _ _ Hs)) as (rt & g & Hg & Hid).
  unfold tell_client. rw (bind_Ok _ _ _ _ _ (eq_refl : GetClientRPC _ s = _)).
  destruct (W_dial _); [|done].
  rw (bind_Ok _ _ _ _ _ (eq_refl : gets Server.Id s = (Ok (Server.Id s), s)))
    (bind_Ok _ _ _ _ _ (run_group_of _ _ _ _ Hg)) (bind_Ok _ _ _ _ _ (run_server_sign _ _)) Hid.
  match goal with |- context [CommandResult.mk gid ?a ?b ?c ?d] => set (r := CommandResult.mk gid a b c d) end.
  destruct Hs as [Hh Hv Ha].
  pose proof (telling_call (R:=frame) (Host.ServerAddr client) r s) as Hf.
  split; [exact (holds_frame _ _ _ _ _ Hf Hh)|exact (telling_call (R:=keeping view) _ r s _ Hv)|].
  intros addr r' [[= -> ->]|Hin]%elem_of_cons Hg'; [|by apply (Ha addr)]. split.
  - exists (length l), e, cmd. rw take_app_length. by rw list_lookup_middle.
  - split; [done|]. unfold r. cbn [CommandResult.Signature CommandResult.NodeId CommandResult.RequestId
      CommandResult.Result]. apply VerifySign_Sign.
Qed.

(** * Append requests *)

Lemma recorded_append_entry m l e reply s :
  LogEntry.Index e = Z.of_nat (length l) + 1 → is_u64 (LogEntry.Index e) →
  entry_linked (tip gid l) e → recorded m l s →
  recorded m (l ++ [e]) (append_entry m gid reply e s).2 ∨
  recorded m l (append_entry m gid reply e s).2 ∧ ∃ w s', append_entry m gid reply e s = (Panic w, s').
Proof using Hrel Huser.
  intros Hi Hu Hlink Hs. pose proof (recorded_holds _ _ _ Hs) as Hh.
  pose proof Hlink as (cmd & Hc & _). unfold append_entry. cbn [WaitLogApproved].
  destruct (decide (CommandRequest.Group cmd = gid)) as [Hg|Hg]; cycle 1.
  { right. destruct (run_store_foreign _ _ _ _ _ _ Hh Hc Hg) as [w Hw].
    rw (bind_Panic _ _ _ _ _ Hw). split; [done|by eexists _, _]. }
  left. destruct (run_store_entry _ _ _ _ _ _ Hrel Hh Hc Hg Hi Hu Hlink) as (d & H1 & Hh1).
  pose proof (keeps_store_entry m e s) as Hk. rw H1 in Hk. cbn [snd] in Hk.
  rw (bind_Ok _ _ _ _ _ H1) Hc. set (s1 := Server.upd_DB (λ _, d) s) in *.
  rw (bind_Ok _ _ _ _ _ (eq_refl : unwrap (Some cmd) s1 = (Ok cmd, s1))).
  destruct (recorded_commit m l e s s1 Hs) as [Hs2 Hout]; [done..|].
  destruct (CommitGroupLog m e s1) as [[result|er|w] s2] eqn:Hcommit; cbn [fst snd] in *;
    [rw (bind_Ok _ _ _ _ _ Hcommit)|by rw (bind_Err _ _ _ _ _ Hcommit)|by rw (bind_Panic _ _ _ _ _ Hcommit)].
  rw (bind_Ok _ _ _ _ _ (GetHostNTXN_run _ _)).
  pose proof (recorded_silent _ _ _ _ (quiet_silent _ _ (quiet_GetHost (CommandRequest.ClientId cmd) s2)) Hs2)
    as Hs3. destruct (read_host s2 _) as [client|]; [|done].
  apply recorded_after; [|intros ?; solve_frame].
  apply (recorded_tell_client m l e cmd client result); [done| |exact Hs3].
  intros v Hv. specialize (Hout v Hv). congruence.
Qed.

Lemma recorded_append_entries m entries : ∀ l reply s,
  Z.of_nat (length l + length entries) < 2 ^ 64 →
  batch_ok (Z.of_nat (length l) + 1) (tip gid l) entries → recorded m l s →
  ∃ l', recorded m l' (fold_each (append_entry m gid) entries reply s).2.
Proof using Hrel Huser.
  induction entries as [|e entries IH]; intros l reply s Hlen Hok Hs.
  { by exists l. }
  cbn [fold_each batch_ok length] in *. destruct Hok as (Hi & Hlink & Hok).
  assert (is_u64 (LogEntry.Index e)) as Hu by (unfold is_u64; lia).
  destruct (recorded_append_entry m l e reply s Hi Hu Hlink Hs) as [Hm|[Hm (w & s' & Hw)]]; cycle 1.
  { rw (bind_Panic _ _ _ _ _ Hw). rw Hw in Hm. by exists l. }
  rw /mbind /M_bind. destruct (append_entry m gid reply e s) as [[r|er|w] s1]; simpl in Hm;
    [|by exists (l ++ [e])..].
  apply (IH (l ++ [e])); [rw length_app; simpl; lia| |done]. rw tip_snoc length_app. simpl.
  by replace (Z.of_nat (length l + 1) + 1) with (Z.of_nat (length l) + 1 + 1) by lia.
Qed.

Lemma recorded_append_batch m req r l s :
  Z.of_nat (length l + length (AppendEntriesRequest.Entries req)) < 2 ^ 64 - 1 →
  recorded m l s → ∃ l', recorded m l' (append_batch m gid req r s).2.
Proof using Hrel Huser.
  intros Hlen Hs.
  destruct (append_batch_cases m gid req r l s (recorded_holds _ _ _ Hs) Hlen)
    as [Hsil|(Hc & s1 & Hq & ->)].
  { exists l. exact (recorded_silent _ _ _ _ Hsil Hs). }
  destruct (recorded_append_entries m (AppendEntriesRequest.Entries req) l r s1)
    as [l' Hl']; [lia|exact (continues_batch _ _ _ Hc)
    |exact (recorded_silent _ _ _ _ (quiet_silent _ _ Hq) Hs)|].
  exists l'. apply recorded_after; [exact Hl'|]. intros a. solve_frame.
Qed.

(** [p] leaves them in step, on every path. *)
Definition in_step {A} (m : nat) (l : list LogEntry.t) (p : MS A) : Prop :=
  ∀ s, recorded m l s → ∃ l', recorded m l' (p s).2.

Lemma in_step_kept {A} m l (p : MS A) : preserves frame p → preserves keeps p → in_step m l p.
Proof using. intros Hf Hk s Hs. exists l. exact (recorded_kept _ _ _ _ (Hf s) (Hk s) Hs). Qed.

Lemma in_step_after {A B} m l (p : MS A) (f : A → MS B) :
  preserves frame p → preserves keeps p → (∀ a, in_step m l (f a)) → in_step m l (p ≫= f).
Proof using.
  intros Hp Hk Hf s Hs. pose proof (recorded_kept _ _ _ _ (Hp s) (Hk s) Hs) as Hs1.
  rw /mbind /M_bind. destruct (p s) as [[a|e|w] s1]; [exact (Hf a s1 Hs1)|by exists l..].
Qed.

Lemma recorded_AppendEntries m req l s :
  Z.of_nat (length l + length (AppendEntriesRequest.Entries req)) < 2 ^ 64 - 1 →
  recorded m l s → ∃ l', recorded m l' (AppendEntries m req s).2.
Proof using Hrel Huser.
  intros Hlen Hs.
  destruct (holds_group _ _ _ _ (recorded_holds _ _ _ Hs)) as (rt & g & Hg & Hid).
  unfold AppendEntries. rw (bind_Ok _ _ _ _ _ (run_load_rt _ _ _ (proj1 Hg))).
  assert (load_group (RTGroup.Group rt) s = (Ok g, s)) as Hlg.
  { unfold load_group, get_state, unwrap, mbind, M_bind. by rw (proj2 Hg). }
  rw (bind_Ok _ _ _ _ _ Hlg) Hid. clear Hlg Hg. revert s Hs.
  match goal with |- ∀ s, recorded m l s → ∃ l', recorded m l' (?p s).2 =>
    change (in_step m l p) end.
  repeat lazymatch goal with
  | |- in_step _ _ (append_batch _ _ _ _) => by intros s Hs; apply (recorded_append_batch _ _ _ l)
  | |- in_step _ _ (match ?x with _ => _ end) => destruct x
  | |- in_step _ _ (throw _) => apply in_step_kept; apply preserves_throw, _
  | |- in_step _ _ (_ ≫= _) => apply in_step_after; [| |intros ?]
  end.
  all: try (by apply frame_update_rt). all: solve_frame.
Qed.

(** * Commands *)

Definition panics {A} (o : outcome A) : bool := match o with Panic _ => true | _ => false end.

(** What the leader answers is the entry's output. *)
Definition answers_output (l : list LogEntry.t) (e : LogEntry.t) (o : outcome CommandResponse.t) : Prop :=
  ∀ response v, o = Ok response → output (run l) e = Some v → CommandResponse.Result response = v.

(** The leader commits after it has told its followers, if that did not panic. *)
Lemma recorded_after_command m l e replies response s s0 :
  recorded m l s0 → keeps s0 s → holds s m gid (l ++ [e]) →
  panics (RPC.after_command m replies response (inr e) s).1 = false →
  recorded m (l ++ [e]) (RPC.after_command m replies response (inr e) s).2 ∧
  answers_output l e (RPC.after_command m replies response (inr e) s).1.
Proof using Huser.
  intros Hs Hk Hh. unfold RPC.after_command. cbn [WaitLogApproved].
  pose proof (frame_SendFollowersHeartbeat (R:=frame) m replies s) as Hf.
  pose proof (frame_SendFollowersHeartbeat (R:=keeps) m replies s) as Hk1.
  destruct (SendFollowersHeartbeat m replies s) as [o s1] eqn:Hhb. cbn [snd] in Hf, Hk1.
  assert (∀ er, o ≠ Err er) as Hne
    by (intros er ->; apply (errorless_SendFollowersHeartbeat m replies s er); by rw Hhb).
  destruct o as [u|er|w]; [rw (bind_Ok _ _ _ _ _ Hhb)|by destruct (Hne er)|by rw (bind_Panic _ _ _ _ _ Hhb)].
  destruct (holds_group _ _ _ _ (holds_frame _ _ _ _ _ Hf Hh)) as (rt & g & Hg & _).
  rw (bind_Ok _ _ _ _ _ (run_load_rt _ _ _ (proj1 Hg))) orb_true_r. intros Hp.
  destruct (recorded_commit m l e s0 s1 Hs) as [Hs2 Hout]; 
    [by transitivity s|exact (holds_frame _ _ _ _ _ Hf Hh)|].
  split.
  - apply recorded_after; [exact Hs2|]. intros result. unfold RPC.sign_response. solve_frame.
  - intros r v Hr Hv. specialize (Hout v Hv). revert Hr. rw /mbind /M_bind.
    destruct (CommitGroupLog m e s1) as [o s2]. cbn [fst] in Hout. rw Hout. by intros [= <-].
Qed.

(** The log after a command, and the answer when it has got longer. *)
Definition command_recorded (l : list LogEntry.t) (cmd : CommandRequest.t)
    (o : outcome CommandResponse.t) (l' : list LogEntry.t) : Prop :=
  l' = l ∨ ∃ g, l' = l ++ [next_entry g l cmd] ∧ answers_output l (next_entry g l cmd) o.

Lemma recorded_ExecCommand cmd forward replies m l s :
  CommandRequest.Group cmd = gid → Z.of_nat (length l) + 1 < 2 ^ 64 → recorded m l s →
  sm_get (Server.GroupsOnboard s) (id_key gid) = Some m →
  panics (RPC.ExecCommand cmd forward replies s).1 = false →
  ∃ l', recorded m l' (RPC.ExecCommand cmd forward replies s).2 ∧
    command_recorded l cmd (RPC.ExecCommand cmd forward replies s).1 l'.
Proof using Hrel Huser.
  intros Hcmd Hlen Hs Honb.
  destruct (holds_group _ _ _ _ (recorded_holds _ _ _ Hs)) as (rt & g & Hg & Hid).
  rw -Hcmd in Honb.
  destruct (ExecCommand_cases cmd forward replies s m rt g Hg Honb)
    as [Hsil|(_ & s1 & response & Hq & ->)].
  { exists l. split; [exact (recorded_silent _ _ _ _ Hsil Hs)|by left]. }
  pose proof (recorded_silent _ _ _ _ (quiet_silent _ _ Hq) Hs) as Hs1.
  pose proof (recorded_holds _ _ _ Hs1) as Hh1. rw -Hid in Hh1.
  destruct (append_command_run m cmd s1 rt g l Hrel (has_group_quiet _ _ _ _ _ Hq Hg)
    Hh1 ltac:(congruence) Hlen) as (d & Ha & Hh2).
  pose proof (keeps_append_command m cmd s1) as Hk. rw Ha in Hk. cbn [snd] in Hk.
  assert (try_ (RPC.append_command m cmd) s1 = (Ok (inr (next_entry g l cmd)), Server.upd_DB (λ _, d) s1))
    as Htry by (unfold try_; by rw Ha).
  rw (bind_Ok _ _ _ _ _ Htry). intros Hp. rw Hid in Hh2.
  destruct (recorded_after_command m l (next_entry g l cmd) replies response
    (Server.upd_DB (λ _, d) s1) s1 Hs1 Hk Hh2 Hp) as [Hs3 Hout].
  exists (l ++ [next_entry g l cmd]). split; [exact Hs3|]. right. by exists g.
Qed.

(** * Other groups

    The functions are a server's, whatever the group: an entry of another group is
    harmless when the machine does not move on it. *)
Definition harmless (e : LogEntry.t) : Prop := ∀ t, apply t e = t.

Definition harmless_cmd (cmd : CommandRequest.t) : Prop :=
  ∀ e, LogEntry.Command e = Some cmd → harmless e.

Lemma keeps_CommitGroupLog m e : harmless e → preserves keeps (CommitGroupLog m e).
Proof using Huser.
  intros He. apply keeps_of; [|by apply untold_CommitGroupLog].
  intros s t Ht. pose proof (machine_commit m e t s Ht) as Hc. by rw He in Hc.
Qed.

Lemma keeps_tell_client m g cmd client result :
  g ≠ gid → preserves keeps (tell_client m g cmd client result).
Proof using.
  intros Hne. unfold tell_client, GetClientRPC. solve_frame. intros s. split.
  - apply telling_call.
  - by intros addr r [[= -> ->]|Hin]%elem_of_cons Hg.
  - done.
Qed.

Lemma keeps_AppendEntries m req s rt g :
  has_group s m rt g → RaftGroup.Id g ≠ gid →
  Forall harmless (AppendEntriesRequest.Entries req) → keeps s (AppendEntries m req s).2.
Proof using Huser.
  intros Hg Hne He.
  assert (∀ r entries, Forall harmless entries →
    preserves keeps (fold_each (append_entry m (RaftGroup.Id g)) entries r)) as Hfold.
  { intros r entries Hes. revert r. induction Hes as [|e entries Hh _ IH]; intros r; cbn [fold_each].
    - solve_frame.
    - apply (preserves_bind _); [|exact IH]. unfold append_entry. cbn [WaitLogApproved].
      solve_frame; [apply storing_update; solve_frame; apply keeps_GroupAppendEntry
        |by apply keeps_CommitGroupLog|by apply keeps_tell_client]. }
  unfold AppendEntries, append_batch. rw (bind_Ok _ _ _ _ _ (run_load_rt _ _ _ (proj1 Hg))).
  assert (load_group (RTGroup.Group rt) s = (Ok g, s)) as Hlg.
  { unfold load_group, get_state, unwrap, mbind, M_bind. by rw (proj2 Hg). }
  rw (bind_Ok _ _ _ _ _ Hlg). clear Hlg Hg.
  match goal with |- keeps s (?p s).2 => cut (preserves keeps p); [intros HH; exact (HH s)|] end.
  destruct (AppendEntriesRequest.Entries req) as [|e rest].
  all: repeat first [progress intros|apply Hfold, He|by apply frame_update_rt
    |apply framing_quiet, quiet_check_entries|apply (preserves_bind _)
    |match goal with |- preserves _ (match ?x with _ => _ end) => destruct x end|progress solve_frame].
Qed.

Lemma append_command_command m cmd s e s' :
  RPC.append_command m cmd s = (Ok e, s') → LogEntry.Command e = Some cmd.
Proof using.
  unfold RPC.append_command. match goal with |- DB_Update ?f s = _ → _ => set (fn := f) end.
  intros Hrun. assert (∃ s1, fn s = (Ok e, s1)) as [s1 H1].
  { revert Hrun. unfold DB_Update. destruct (fn s) as [[a|?|?] s1]; [|done..].
    case_match; [|done]. intros [= <- _]. by eexists. }
  unfold fn in H1. apply bind_Ok_inv in H1 as (group & ? & _ & H1).
  apply bind_Ok_inv in H1 as (li & ? & _ & H1). apply bind_Ok_inv in H1 as (lh & ? & _ & H1).
  apply bind_Ok_inv in H1 as (u & ? & _ & H1). by injection H1 as <- _.
Qed.

Lemma keeps_ExecCommand cmd forward replies s :
  boards s → is_u64 (CommandRequest.Group cmd) → harmless_cmd cmd →
  keeps s (RPC.ExecCommand cmd forward replies s).2.
Proof using Huser.
  intros Hb Hu Hcmd.
  destruct (sm_get (Server.GroupsOnboard s) (id_key (CommandRequest.Group cmd))) as [m|] eqn:Hm; cycle 1.
  { apply framing_silent. exact (silent_forward _ _ _ _ Hm). }
  destruct (on_board_record _ _ _ Hb Hu Hm) as (rt & g & Hg & _).
  destruct (ExecCommand_cases cmd forward replies s m rt g Hg Hm)
    as [Hsil|(_ & s1 & response & Hq & ->)]; [by apply framing_silent|].
  etrans; [exact (framing_silent _ _ (quiet_silent _ _ Hq))|].
  pose proof (keeps_append_command m cmd s1) as Hk. rw /mbind /M_bind /try_.
  destruct (RPC.append_command m cmd s1) as [[e|er|w] s2] eqn:Ha; [|done..].
  etrans; [exact Hk|]. generalize s2. change (preserves keeps (RPC.after_command m replies response (inr e))).
  unfold RPC.after_command, RPC.sign_response. solve_frame. apply keeps_CommitGroupLog, Hcmd.
  exact (append_command_command _ _ _ _ _ Ha).
Qed.
End driven.
