(* ===== verification/Delivery.v ===== *)
(** The state machines of a cluster. On every node the machine is where the node's log
    takes it, and every result that a client is told is the output of an entry of that
    log, signed by the node. In a cluster that is led well, nodes with logs of one length
    are in one state, and all nodes tell the client of a command the same result. *)
From S2P Require Export Machine.

Section facts.
Context {W : World} {F : RaftFns} {T : Type} {Mch : Machine T}.
Context (t0 : T) (gid : Z).

Abbreviation recorded := (recorded t0 gid).
Abbreviation keeps := (keeps gid).
Abbreviation answered := (answered t0 gid).
Abbreviation result_of := (result_of t0).

(** * One node

    [tracks]: log, machine and answers are in step, whatever the node has on board. *)
Record tracks (l : list LogEntry.t) (s : Server.t) : Prop := {
  tracks_boards : boards s;
  tracks_log : log_at (Server.DB s) gid l;
  tracks_view : view (run t0 l) s;
  tracks_answered : answered l s
}.

Lemma tracks_kept l s s' : is_u64 gid → frame s s' → keeps s s' → tracks l s → tracks l s'.
Proof using.
  intros Hu Hf Hk [Hb Hl Ht Ha].
  split; [exact (frame_boards _ _ Hf Hb)|exact (frame_log _ _ Hf _ _ Hu Hl)|by apply Hk|].
  by apply (answered_kept _ _ _ s).
Qed.

Lemma tracks_recorded m l s rt g :
  is_u64 gid → has_group s m rt g → RaftGroup.Id g = gid → tracks l s → recorded m l s.
Proof using. intros Hu Hg Hid [_ Hl Ht Ha]. split; [split; [by exists rt, g|done..]|done..]. Qed.

Lemma recorded_tracks m l s : boards s → recorded m l s → tracks l s.
Proof using. intros Hb [Hh Ht Ha]. split; [done|apply (holds_log _ _ _ _ Hh)|done..]. Qed.

(** A handler for another group that leaves machine and answers alone. *)
Lemma tracks_moved l s s' :
  tracks l s → keeps s s' → moved gid l s s' → tracks l s'.
Proof using.
  intros [_ _ Ht Ha] Hk [Hb' Hl' _]. split; [done|done|by apply Hk|].
  by apply (answered_kept _ _ _ s).
Qed.

Context (Hrel : reliable W) (Huser : user_untold) (Hid : is_u64 gid).

Lemma tracks_AppendEntries req l s :
  is_u64 (AppendEntriesRequest.Group req) →
  (AppendEntriesRequest.Group req = gid ∨ Forall harmless (AppendEntriesRequest.Entries req)) →
  (AppendEntriesRequest.Group req = gid →
    Z.of_nat (length l + length (AppendEntriesRequest.Entries req)) < 2 ^ 64 - 1) →
  tracks l s → ∃ l', tracks l' (RPC.AppendEntries req s).2.
Proof using Hrel Huser Hid.
  intros Hu Hharm Hroom Hs. pose proof Hs as [Hb Hl _ _].
  destruct (moved_AppendEntries gid Hid req s l Hrel Hb Hu Hl Hroom) as (l' & Hor & _ & Hmv).
  revert Hmv. unfold RPC.AppendEntries.
  rw (bind_Ok _ _ _ _ _ (eq_refl : gets Server.Id s = (Ok (Server.Id s), s)))
    (bind_Ok _ _ _ _ _ (eq_refl : GetOnboardGroup (AppendEntriesRequest.Group req) s = (Ok _, s))).
  destruct (sm_get _ _) as [m|] eqn:Hm; [intros Hmv|by exists l].
  destruct (on_board_record _ _ _ Hb Hu Hm) as (rt & g & Hg & Hgid).
  destruct (decide (AppendEntriesRequest.Group req = gid)) as [Heq|Hne].
  - rw Heq in Hgid.
    destruct (recorded_AppendEntries t0 gid Hrel Huser m req l s (Hroom Heq)
      (tracks_recorded _ _ _ _ _ Hid Hg Hgid Hs)) as [l'' Hl''].
    exists l''. exact (recorded_tracks _ _ _ (moved_boards _ _ _ _ Hmv) Hl'').
  - exists l. destruct Hor as [->|[? _]]; [|done]. destruct Hharm as [?|Hharm]; [done|].
    apply (tracks_moved l s); [done| |done].
    apply (keeps_AppendEntries gid Huser m req s rt g Hg); [congruence|done].
Qed.

Lemma tracks_ExecCommand cmd forward replies l s :
  is_u64 (CommandRequest.Group cmd) →
  (if decide (CommandRequest.Group cmd = gid)
   then panics (RPC.ExecCommand cmd forward replies s).1 = false else harmless_cmd cmd) →
  (CommandRequest.Group cmd = gid → Z.of_nat (length l) + 1 < 2 ^ 64) →
  tracks l s → ∃ l', tracks l' (RPC.ExecCommand cmd forward replies s).2 ∧
    (CommandRequest.Group cmd = gid →
      command_recorded t0 l cmd (RPC.ExecCommand cmd forward replies s).1 l').
Proof using Hrel Huser Hid.
  intros Hu Htidy Hroom Hs. pose proof Hs as [Hb Hl _ _].
  destruct (moved_ExecCommand gid Hid cmd forward replies s l Hrel Hb Hu Hl Hroom)
    as (l' & Hor & _ & Hmv). case_decide as Heq; cycle 1.
  { exists l. split; [|done]. destruct Hor as [->|[? _]]; [|done].
    apply (tracks_moved l s); [done| |done]. by apply keeps_ExecCommand. }
  destruct (sm_get (Server.GroupsOnboard s) (id_key (CommandRequest.Group cmd))) as [m|] eqn:Hm; cycle 1.
  { pose proof (silent_forward cmd forward replies s Hm) as Hsil. exists l. split; [|by left].
    exact (tracks_kept _ _ _ Hid (framing_silent _ _ Hsil) (framing_silent _ _ Hsil) Hs). }
  destruct (on_board_record _ _ _ Hb Hu Hm) as (rt & g & Hg & Hgid). rw Heq in Hm Hgid.
  destruct (recorded_ExecCommand t0 gid Hrel Huser cmd forward replies m l s Heq (Hroom Heq)
    (tracks_recorded _ _ _ _ _ Hid Hg Hgid Hs) Hm Htidy) as (l'' & Hl'' & Hcmd).
  exists l''. split; [exact (recorded_tracks _ _ _ (moved_boards _ _ _ _ Hmv) Hl'')|done].
Qed.

(** * The cluster

    The machine moves for the group [gid] only, and no leader of it panics between
    storing an entry and committing it. *)
Definition tidy (c : gmap Z Server.t) (ev : event) (c' : gmap Z Server.t) : Prop :=
  match ev with
  | Ev_local i => ∀ s s', c !! i = Some s → c' !! i = Some s' → keeps s s'
  | Ev_append i req => AppendEntriesRequest.Group req = gid ∨
      Forall harmless (AppendEntriesRequest.Entries req)
  | Ev_command i cmd forward replies => ∀ s, c !! i = Some s →
      if decide (CommandRequest.Group cmd = gid)
      then panics (RPC.ExecCommand cmd forward replies s).1 = false else harmless_cmd cmd
  end.

Definition tidy_step (c c' : gmap Z Server.t) : Prop := ∃ ev, step c ev c' ∧ tidy c ev c'.

Definition tidy_led_step (c c' : gmap Z Server.t) : Prop :=
  ∃ ev, step c ev c' ∧ tidy c ev c' ∧ led_well gid c ev.

Lemma tidy_led_tidy c c' : tidy_led_step c c' → tidy_step c c'.
Proof using. intros (ev & Hs & Ht & _). by exists ev. Qed.

Lemma tidy_led_any c c' : tidy_led_step c c' → any_step c c'.
Proof using. intros (ev & Hs & _). by exists ev. Qed.

Lemma tidy_led_led c c' : tidy_led_step c c' → led_step gid c c'.
Proof using. intros (ev & Hs & _ & Hl). by exists ev. Qed.

Definition all_track (c : gmap Z Server.t) : Prop := ∀ i s, c !! i = Some s → ∃ l, tracks l s.

Lemma all_track_step c c' : tidy_step c c' → all_track c → all_track c'.
Proof using Hrel Huser Hid.
  intros (ev & Hstep & Htidy) Hc.
  assert (∀ j s1 s2, c !! j = Some s1 → (∀ l, tracks l s1 → ∃ l', tracks l' s2) →
    all_track (<[j := s2]> c)) as Hset.
  { intros j s1 s2 Hj Hm i s [[<- <-]|[_ Hi]]%lookup_insert_Some; [|by apply (Hc i)].
    destruct (Hc j s1 Hj) as [l Hl]. by apply (Hm l). }
  destruct Hstep as [j s1 s2 Hj Hf|j s1 req Hj _ Hg Hroom|j s1 cmd forward replies Hj Hg Hroom];
    apply (Hset j s1 _ Hj); intros l Hl.
  - exists l. apply (tracks_kept _ s1); [done..| |done].
    exact (Htidy s1 s2 Hj (lookup_insert_eq _ _ _)).
  - apply (tracks_AppendEntries req l); [done..| |done].
    intros Heq. apply Hroom. rw Heq. apply (tracks_log _ _ Hl).
  - destruct (tracks_ExecCommand cmd forward replies l s1) as (l' & Hl' & _);
      [done|exact (Htidy s1 Hj)| |done|by exists l'].
    intros Heq. assert (Z.of_nat (length l + 1) < 2 ^ 64 - 1); [|lia].
    apply Hroom. rw Heq. apply (tracks_log _ _ Hl).
Qed.

Lemma all_track_run c0 c : rtc tidy_step c0 c → all_track c0 → all_track c.
Proof using Hrel Huser Hid.
  induction 1 as [|c1 c2 c3 Hs _ IH]; [done|]. intros H1. apply IH. by apply (all_track_step c1).
Qed.

Lemma all_track_log c i s l : all_track c → c !! i = Some s → log_at (Server.DB s) gid l → tracks l s.
Proof using.
  intros Hc Hi Hl. destruct (Hc i s Hi) as [l' Hl']. by rw (log_at_unique _ _ _ _ Hl (tracks_log _ _ Hl')).
Qed.
End facts.

Section theorems.
Context {W : World} {F : RaftFns} {T : Type} {Mch : Machine T}.
Context (t0 : T) (gid : Z).

(** C7. The state of the machine of a node is what the node's own log makes of the
    state it started with, and what the node tells the clients of the group are outputs
    of entries of that log, under its own signature; whatever becomes of messages, and
    whoever leads. The steps are those in which the entries of other groups leave the
    machine alone, no command of the group makes its leader panic between storing and
    committing it, and what else a node does leaves the machine and its answers alone:
    where the program does not keep to this, as when a command's function panics, the
    stored entry is never executed. *)
Theorem machines_follow_log c0 c i s l :
  reliable W → user_untold → is_u64 gid → all_track t0 gid c0 → rtc (tidy_step gid) c0 c →
  c !! i = Some s → log_at (Server.DB s) gid l →
  view (run t0 l) s ∧
  ∀ addr r, (addr, r) ∈ told s → CommandResult.Group r = gid → result_of t0 l r ∧ signed_by gid s r.
Proof.
  intros Hrel Huser Hid H0 Hrun Hi Hl.
  pose proof (all_track_run t0 gid Hrel Huser Hid c0 c Hrun H0) as Hc.
  destruct (all_track_log t0 gid c i s l Hc Hi Hl) as [_ _ Hv Ha]. by split.
Qed.

(** In a cluster that is led well, two nodes whose logs are of one length have
    their machines in one state, and a node that is ahead has got there from the
    other's state by its further entries. *)
Theorem machines_agree c0 c l0 i j si sj li lj :
  reliable W → user_untold → starts gid c0 l0 → all_track t0 gid c0 → rtc (tidy_led_step gid) c0 c →
  c !! i = Some si → c !! j = Some sj →
  log_at (Server.DB si) gid li → log_at (Server.DB sj) gid lj → (length li ≤ length lj)%nat →
  ∃ t, view t si ∧ view (foldl apply t (drop (length li) lj)) sj ∧ (length li = length lj → view t sj).
Proof.
  intros Hrel Huser Hst H0 Hrun Hi Hj Hli Hlj Hlen.
  pose proof (starts_id _ _ _ Hst) as Hid.
  pose proof (rtc_subrel _ _ _ _ (tidy_led_led gid) Hrun) as Hled.
  pose proof (all_track_run t0 gid Hrel Huser Hid c0 c
    (rtc_subrel _ _ _ _ (tidy_led_tidy gid) Hrun) H0) as Hc.
  destruct (all_track_log t0 gid c i si li Hc Hi Hli) as [_ _ Hvi _].
  destruct (all_track_log t0 gid c j sj lj Hc Hj Hlj) as [_ _ Hvj _].
  assert (li `prefix_of` lj) as [x ->].
  { destruct (prefixes_agree gid c0 c l0 i j si sj li lj Hrel Hst Hled Hi Hj Hli Hlj) as [?|Hp]; [done|].
    by rw (prefix_full lj li Hp Hlen). }
  exists (run t0 li). split; [done|]. rw drop_app_length length_app. unfold run in Hvj.
  rw foldl_app in Hvj. split; [done|].
  intros Heq. assert (x = []) as -> by (destruct x; [done|simpl in Heq; lia]). done.
Qed.

End theorems.
