(* ===== verification/Directory.v ===== *)
(** The network's directory as a state machine: the table of hosts, which the entries
    that [SMRegHost] and [SMNewClient] apply write.

    [hosts_at] is the table in a store, [apply_host] what one entry does to it, and
    [directory] what a log does; [hosts_machine] shows that the handlers keep the
    promise of [Machine]. *)
From S2P Require Export Delivery.

Section directory.
Context {W : World} {F : RaftFns}.

(** * The table of hosts *)

Definition hosts_at (txn : W_db) (t : gmap Z Host.t) : Prop := table_at hosts_prefix txn t.

Lemma hosts_set_other txn txn' t g kind r data :
  kv_set txn (ComposeKeyPrefix g kind ++ r) data = inr txn' → is_u32 kind → kind ≠ HOST_LIST →
  hosts_at txn t → hosts_at txn' t.
Proof.
  intros Hs Hk Hne Ht. apply (table_set_other _ _ _ _ _ _ Ht Hs). unfold hosts_prefix.
  by apply has_prefix_kinds.
Qed.

Lemma SaveGroup_hosts txn txn' group t :
  SaveGroup txn group = Ok txn' → hosts_at txn t → hosts_at txn' t.
Proof.
  unfold SaveGroup, txn_set, group_key. destruct (proto_marshal group); [|done..].
  destruct (kv_set _ _ _) eqn:Hs; [done|]. intros [= <-].
  rw -(app_nil_r (ComposeKeyPrefix _ _)) in Hs.
  exact (hosts_set_other _ _ _ _ _ _ _ Hs ltac:(done) ltac:(done)).
Qed.

Lemma SavePeer_hosts txn txn' peer t :
  SavePeer txn peer = Ok txn' → hosts_at txn t → hosts_at txn' t.
Proof.
  unfold SavePeer, txn_set. destruct (proto_marshal peer); [|done..].
  destruct (kv_set _ _ _) eqn:Hs; [done|]. intros [= <-].
  exact (hosts_set_other _ _ _ _ _ _ _ Hs ltac:(done) ltac:(done)).
Qed.

Lemma AppendEntryToLocal_hosts txn txn' g e t :
  AppendEntryToLocal txn g e = Ok txn' → hosts_at txn t → hosts_at txn' t.
Proof.
  intros Ha Ht. apply (AppendEntryToLocal_other _ _ _ _ _ _ Ha); [|done].
  intros i. unfold LogEntryKey, hosts_prefix, log_prefix. by apply has_prefix_kinds.
Qed.

Lemma SaveHost_run txn h t :
  reliable W → is_u64 (Host.Id h) → hosts_at txn t →
  ∃ txn', SaveHost txn h = Ok txn' ∧ hosts_at txn' (<[Host.Id h := h]> t).
Proof.
  intros Hrel Hu Ht. destruct (rel_host _ Hrel h) as [b Hb].
  destruct (rel_set _ Hrel txn (hosts_prefix ++ U64Bytes (Host.Id h)) b) as [txn' Hs]; [done|].
  exists txn'. split; [|exact (table_set _ _ _ _ _ _ _ Ht Hu Hb Hs)].
  unfold SaveHost, proto_marshal, txn_set. by rw Hb Hs.
Qed.

(** * What an entry does to it *)

(** The record that a command registers; [SMNewClient]'s host is not online. *)
Definition registered (fn : raft_fn) (arg : bytes) : option Host.t :=
  let '(node, ok) := unmarshal arg in
  if (ok : bool) then
    let node := Host.set_Id (HashPublicKeyBytes (Host.PublicKey node)) node in
    match fn with
    | Fn_SMRegHost => Some (Host.set_Online true node)
    | Fn_SMNewClient => Some node
    | _ => None
    end
  else None.

(** The functions on a server. *)
Context (reg : gmap Z raft_fn).

Definition command_host (cmd : CommandRequest.t) : option Host.t :=
  fn ← reg !! CommandRequest.FuncId cmd;
  registered fn (CommandRequest.Arg cmd).

Definition entry_host (e : LogEntry.t) : option Host.t := LogEntry.Command e ≫= command_host.

Definition apply_host (t : gmap Z Host.t) (e : LogEntry.t) : gmap Z Host.t :=
  match entry_host e with Some h => <[Host.Id h := h]> t | None => t end.

Definition directory (t0 : gmap Z Host.t) (l : list LogEntry.t) : gmap Z Host.t :=
  foldl apply_host t0 l.

Lemma directory_snoc t0 l e : directory t0 (l ++ [e]) = apply_host (directory t0 l) e.
Proof. unfold directory. by rw foldl_app. Qed.

Lemma directory_app t0 l l' : directory t0 (l ++ l') = directory (directory t0 l) l'.
Proof. unfold directory. apply foldl_app. Qed.

(** * The machine

    The server's functions are [reg], and its table is [t]. *)
Record tabled (t : gmap Z Host.t) (s : Server.t) : Prop := {
  tabled_reg : Server.FuncReg s = reg;
  tabled_hosts : hosts_at (Server.DB s) t
}.

Lemma tabled_txn_write f :
  (∀ txn txn' t, f txn = Ok txn' → hosts_at txn t → hosts_at txn' t) →
  preserves (keeping tabled) (txn_write f).
Proof.
  intros Hf s. unfold txn_write, gets, lift, modify, mbind, M_bind.
  destruct (f (Server.DB s)) as [d| |] eqn:Hd; simpl; [|by intros t..].
  intros t [Hr Ht]. split; simpl; eauto.
Qed.

#[export] Instance tabled_preorder : PreOrder (keeping tabled).
Proof. split; [by intros s t|]. intros s1 s2 s3 H1 H2 t Ht. auto. Qed.

#[export] Instance tabled_storing : Storing (keeping tabled).
Proof.
  split.
  - split; [apply _|]. intros s s' [_ Hd Hr _] t [? ?]. split; congruence.
  - intros A fn H s. specialize (H s). unfold DB_Update.
    destruct (fn s) as [[a|e|w] s']; simpl in *; [case_match; [done|]|..];
      intros t [Hr Ht]; destruct (H t) as [Hr' _]; by split.
  - intros group. apply tabled_txn_write. eauto using SaveGroup_hosts.
  - intros peer. apply tabled_txn_write. eauto using SavePeer_hosts.
Qed.

Lemma tabled_telling : Telling (keeping tabled).
Proof. split; [apply _|]. intros addr r s t [? ?]. by split. Qed.

Lemma tabled_GroupAppendEntry m e : preserves (keeping tabled) (GroupAppendEntry m e).
Proof.
  unfold GroupAppendEntry. solve_frame. apply tabled_txn_write. eauto using AppendEntryToLocal_hosts.
Qed.

(** What the functions of the application leave alone. *)
Definition user_keeps : Prop := ∀ n arg e, preserves (keeping tabled) (user_apply n arg e).

(** What a commit answers, when the table alone decides it. *)
Definition host_answer (e : LogEntry.t) : option bytes :=
  cmd ← LogEntry.Command e;
  fn ← reg !! CommandRequest.FuncId cmd;
  match fn with
  | Fn_SMRegHost | Fn_SMNewClient =>
    Some (if (unmarshal (A:=Host.t) (CommandRequest.Arg cmd)).2 then [1] else [0])
  | _ => None
  end.

(** * Commits *)

Lemma save_host_run s h t :
  reliable W → is_u64 (Host.Id h) → hosts_at (Server.DB s) t →
  ∃ d, DB_Update (txn_write (λ txn, SaveHost txn h)) s = (Ok tt, Server.upd_DB (λ _, d) s) ∧
    hosts_at d (<[Host.Id h := h]> t).
Proof.
  intros Hrel Hu Ht. destruct (SaveHost_run _ h t Hrel Hu Ht) as (d & Hs & Hd). exists d.
  split; [|done]. unfold DB_Update. rw (run_txn_write s _ _ Hs). cbn [Server.DB Server.upd_DB].
  by rw (rel_commit _ Hrel).
Qed.

(** Whatever a commit's outcome, the table is what the entry makes of it. *)
Lemma commit_directory m e s t :
  reliable W → user_keeps → tabled t s →
  tabled (apply_host t e) (CommitGroupLog m e s).2 ∧
  ∀ v, host_answer e = Some v → (CommitGroupLog m e s).1 = Ok v.
Proof.
  intros Hrel Huser Hs. pose proof Hs as [Hreg Ht].
  unfold CommitGroupLog, apply_host, entry_host, command_host, host_answer.
  destruct (LogEntry.Command e) as [cmd|]; [|done]. cbn [mbind option_bind].
  rw (bind_Ok _ _ _ _ _ (eq_refl : unwrap (Some cmd) s = (Ok cmd, s)))
    (bind_Ok _ _ _ _ _ (eq_refl : gets _ s = (Ok _, s))) Hreg.
  destruct (reg !! CommandRequest.FuncId cmd) as [fn|]; [|done]. cbn [mbind option_bind].
  rw (bind_Ok _ _ _ _ _ (eq_refl : unwrap (Some fn) s = (Ok fn, s))).
  assert (∀ p : MS bytes, preserves (keeping tabled) p → tabled t (p s).2 ∧
    ∀ v, None = Some v → (p s).1 = Ok v) as Hkeep by (intros p Hp; split; [by apply Hp|done]).
  unfold registered. destruct fn; cbn [fn_apply].
  - destruct (unmarshal _) as [h []]; apply Hkeep, frame_SMNodeJoin.
  - unfold SMRegHost. destruct (unmarshal _) as [h []]; [|by split; [|intros v [= <-]]].
    match goal with |- context [SaveHost _ ?x] => set (h' := x) end.
    destruct (save_host_run s h' t Hrel (fnv1a_64_u64 _) Ht) as (d & Hd & Htd).
    assert (ignore (DB_Update (txn_write (λ txn, SaveHost txn h'))) s = (Ok tt, Server.upd_DB (λ _, d) s))
      as Hi by (unfold ignore, try_, mbind, M_bind; by rw Hd).
    rw (bind_Ok _ _ _ _ _ Hi). by split; [|intros v [= <-]].
  - unfold SMNewClient. destruct (unmarshal _) as [h []]; [|by split; [|intros v [= <-]]].
    match goal with |- context [SaveHostNTXN ?x] => set (h' := x) end.
    destruct (save_host_run s h' t Hrel (fnv1a_64_u64 _) Ht) as (d & Hd & Htd).
    assert (try_ (SaveHostNTXN h') s = (Ok (inr tt), Server.upd_DB (λ _, d) s)) as Hi
      by (unfold try_, SaveHostNTXN; by rw Hd).
    rw (bind_Ok _ _ _ _ _ Hi). by split; [|intros v [= <-]].
  - destruct (unmarshal _) as [h []]; apply Hkeep, frame_SMNewGroup.
  - destruct (unmarshal _) as [h []]; apply Hkeep, Huser.
Qed.

(** The table of hosts is a state machine. *)
Definition hosts_machine (Hrel : reliable W) (Huser : user_keeps) : Machine (gmap Z Host.t) := {|
  view := tabled;
  apply := apply_host;
  output t e := host_answer e;
  machine_telling := tabled_telling;
  machine_append := tabled_GroupAppendEntry;
  machine_commit m e t s Ht := proj1 (commit_directory m e s t Hrel Huser Ht);
  machine_output m e t s v Ht := proj2 (commit_directory m e s t Hrel Huser Ht) v
|}.

(** Entries that register nothing are harmless to it. *)
Lemma harmless_no_host Hrel Huser e : entry_host e = None → harmless (Mch:=hosts_machine Hrel Huser) e.
Proof. intros He t. simpl. unfold apply_host. by rw He. Qed.
End directory.
