(* ===== verification/DirectoryFacts.v ===== *)
(** The directory across a cluster: as long as hosts are registered through one group,
    on every node the table of hosts is what the node's log of that group makes of it.
    Nothing keeps other groups from registering hosts, though. *)
From S2P Require Export Directory.

Section facts.
Context {W : World} {F : RaftFns} (reg : gmap Z raft_fn).

Lemma hosts_at_unique txn (t1 t2 : gmap Z Host.t) :
  hosts_at txn t1 → hosts_at txn t2 → t1 = t2.
Proof.
  assert (∀ u u' i h, hosts_at txn u → hosts_at txn u' → u !! i = Some h → u' !! i = Some h) as Hsub.
  { intros u u' i h Hu Hu' Hi.
    destruct (table_row _ _ _ Hu _ _ Hi) as (Hi64 & b & Hb & Hp).
    destruct (table_found _ _ _ _ _ Hu' Hi64 Hb) as (h' & b' & Hh' & [= <-] & Hp').
    rw Hh'. congruence. }
  intros H1 H2. apply map_eq. intros i. apply option_eq. intros h. split; by apply Hsub.
Qed.

(** C8. In a cluster that is led well, a node's table of hosts is what its log of the
    group through which hosts are registered makes of the first table, entry by entry; so
    nodes whose logs have one length have one table, and a node that is ahead has the
    other's table with the hosts that its further entries register. All nodes start with
    one table, and it changes only as entries of that group are committed: no node is
    being started, with what it learns then, none registers itself in its own table
    first, and no command of the group makes its leader panic between storing and
    committing it. *)
Theorem directories_agree (Hrel : reliable W) (Huser : user_keeps reg) c0 c l0 t0 gid
    i j si sj li lj (ti tj : gmap Z Host.t) :
  let _ := hosts_machine reg Hrel Huser in
  user_untold → starts gid c0 l0 → all_track t0 gid c0 → rtc (tidy_led_step gid) c0 c →
  c !! i = Some si → c !! j = Some sj →
  log_at (Server.DB si) gid li → log_at (Server.DB sj) gid lj → (length li ≤ length lj)%nat →
  hosts_at (Server.DB si) ti → hosts_at (Server.DB sj) tj →
  ti = directory reg t0 li ∧ tj = directory reg ti (drop (length li) lj) ∧
  (length li = length lj → ti = tj).
Proof.
  intros Mch Hun Hst H0 Hrun Hi Hj Hli Hlj Hlen Hti Htj.
  pose proof (rtc_subrel _ _ _ _ (tidy_led_led gid) Hrun) as Hled.
  pose proof (all_track_run t0 gid Hrel Hun (starts_id _ _ _ Hst) c0 c
    (rtc_subrel _ _ _ _ (tidy_led_tidy gid) Hrun) H0) as Hall.
  assert (∀ k s l t, c !! k = Some s → log_at (Server.DB s) gid l → hosts_at (Server.DB s) t →
    t = directory reg t0 l) as Hdir.
  { intros k s l t Hk Hl Ht.
    destruct (all_track_log t0 gid c k s l Hall Hk Hl) as [_ _ [_ Ht'] _].
    exact (hosts_at_unique _ _ _ Ht Ht'). }
  rw (Hdir i si li ti Hi Hli Hti) (Hdir j sj lj tj Hj Hlj Htj).
  assert (li `prefix_of` lj) as [r ->].
  { destruct (prefixes_agree gid c0 c l0 i j si sj li lj Hrel Hst Hled Hi Hj Hli Hlj) as [?|Hp]; [done|].
    by rw (prefix_full lj li Hp Hlen). }
  rw drop_app_length length_app. split; [done|]. split; [apply directory_app|].
  intros Heq. assert (r = []) as -> by (destruct r; [done|simpl in Heq; lia]). by rw app_nil_r.
Qed.
End facts.

(** * Witnesses

    Two members of a group through which hosts are registered: the leader takes a
    command that registers one, and its heartbeat brings it to the second. *)
Definition dir_reg : gmap Z raft_fn := <[REG_NODE := Fn_SMRegHost]> {[ 10 := Fn_user 0 ]}.

Definition dir_start (n : Z) : Server.t := Server.upd_FuncReg (λ _, dir_reg) (demo_start n).

Definition dir_cmd : CommandRequest.t :=
  let cmd := CommandRequest.mk demo_group_id 1 4 REG_NODE [] (print_host demo_reg_host) in
  CommandRequest.set_Signature (Sign (W:=mem_world) 1 (ExecCommandSignData cmd)) cmd.

Definition dir_t0 : gmap Z Host.t :=
  <[3 := demo_host 3]> (<[2 := demo_host 2]> (<[1 := demo_host 1]> ∅)).

Lemma put_hosts_other {A} `{Codec A} g kind r (a : A) (d : store) t :
  is_u32 kind → kind ≠ HOST_LIST → hosts_at d t →
  hosts_at (put (ComposeKeyPrefix g kind ++ r) a d) t.
Proof.
  intros Hk Hne Ht. unfold put. destruct (marshal a); [done|].
  destruct (kv_set _ _ _) eqn:Hs; [done|]. exact (hosts_set_other _ _ _ _ _ _ _ Hs Hk Hne Ht).
Qed.

Lemma put_member_hosts (d : store) n t :
  is_u64 n → hosts_at d t → hosts_at (put_member d n) (<[n := demo_host n]> t).
Proof.
  intros Hn Ht. unfold put_member, peers_prefix. apply put_hosts_other; [done..|].
  unfold put. change (marshal (demo_host n)) with (inr (print_host (demo_host n)) : string + bytes).
  cbv beta iota. case_match eqn:Hs; [by revert Hs; cbn; case_decide|].
  exact (table_set hosts_prefix d t n (demo_host n) _ _ Ht Hn eq_refl Hs).
Qed.

Lemma demo_user_keeps reg : user_keeps reg.
Proof. intros n arg e s. by intros t. Qed.

Lemma demo_user_untold : user_untold (W:=mem_world).
Proof. by intros n arg e s. Qed.

#[local] Instance dir_machine : Machine (gmap Z Host.t) :=
  hosts_machine dir_reg mem_reliable (demo_user_keeps dir_reg).

Lemma dir_start_hosts n : hosts_at (Server.DB (dir_start n)) dir_t0.
Proof.
  change (hosts_at (demo_db 1 []) dir_t0). unfold demo_db, group_key.
  rw -(app_nil_r (ComposeKeyPrefix demo_group_id GROUP_META)).
  apply put_hosts_other; [done..|]. cbn [foldl]. unfold dir_t0.
  by repeat (apply put_member_hosts; [done|]); apply table_at_empty.
Qed.

Lemma dir_start_tracks n : tracks dir_t0 demo_group_id [] (dir_start n).
Proof.
  split; [destruct (demo_start_boards n); by split|exact (holds_log _ _ _ _ (demo_start_holds n))| |].
  - split; [done|]. apply dir_start_hosts.
  - intros addr r Hin. by apply not_elem_of_nil in Hin.
Qed.

Lemma dir_paired : paired dir_start dir_cmd.
Proof.
  split.
  - intros n. apply (tracks_boards _ _ _ _ (dir_start_tracks n)).
  - intros n. apply (tracks_log _ _ _ _ (dir_start_tracks n)).
  - reflexivity.
  - reflexivity.
  - apply is_Some_bool. by vm_compute.
  - by vm_compute.
  - by vm_compute.
Qed.

Lemma dir_all_track : all_track dir_t0 demo_group_id (pair_c0 dir_start).
Proof. intros i s [n ->]%pair_node. exists []. apply dir_start_tracks. Qed.

Lemma dir_tidy : tidy demo_group_id (pair_c0 dir_start) (pair_command dir_cmd) (pair_c1 dir_start dir_cmd).
Proof.
  intros s Hs. assert (s = dir_start 1) as ->.
  { change (<[1 := dir_start 1]> ({[ 2 := dir_start 2 ]} : gmap Z Server.t) !! 1 = Some s) in Hs.
    rw lookup_insert_eq in Hs. by injection Hs as <-. }
  case_decide as Hg; [by vm_compute|by destruct Hg].
Qed.

Lemma dir_c1_runs : rtc (tidy_led_step demo_group_id) (pair_c0 dir_start) (pair_c1 dir_start dir_cmd).
Proof.
  apply rtc_once. exists (pair_command dir_cmd).
  split; [exact (pair_step1 _ _ dir_paired)|split; [exact dir_tidy|exact (pair_led_well _ _ dir_paired)]].
Qed.

Lemma dir_runs : rtc (tidy_led_step demo_group_id) (pair_c0 dir_start) (pair_c2 dir_start dir_cmd).
Proof.
  apply (rtc_r _ (pair_c1 dir_start dir_cmd)); [exact dir_c1_runs|].
  eexists. split; [exact (pair_step2 _ _ dir_paired)|].
  split; [left; exact (paired_group _ _ dir_paired)|exact I].
Qed.

Lemma dir_c1_track : all_track dir_t0 demo_group_id (pair_c1 dir_start dir_cmd).
Proof.
  exact (all_track_run dir_t0 demo_group_id mem_reliable demo_user_untold demo_group_u64
    (pair_c0 dir_start) _ (rtc_subrel _ _ _ _ (tidy_led_tidy demo_group_id) dir_c1_runs) dir_all_track).
Qed.

Lemma dir_told_index : LastEntryIndex (Server.DB (pair_told dir_start dir_cmd)) demo_group_id = 1.
Proof. by vm_compute. Qed.

Lemma dir_led_index : LastEntryIndex (Server.DB (pair_led dir_start dir_cmd)) demo_group_id = 1.
Proof. by vm_compute. Qed.

(** Before the second member hears of the entry. *)
Lemma directories_agree_witness :
  ∃ l t, log_at (Server.DB (pair_led dir_start dir_cmd)) demo_group_id l ∧ length l = 1%nat ∧
    hosts_at (Server.DB (pair_led dir_start dir_cmd)) t ∧ t = directory dir_reg dir_t0 l.
Proof.
  destruct (dir_c1_track 1 (pair_led dir_start dir_cmd) (lookup_insert_eq _ _ _)) as [l [_ Hl [_ Ht] _]].
  exists l. eexists. split; [exact Hl|].
  split; [exact (one_entry _ _ (LastEntryIndex_at _ _ _ Hl) dir_led_index)|]. split; [exact Ht|].
  exact (proj1 (proj2 (directories_agree dir_reg mem_reliable (demo_user_keeps dir_reg) _ _ [] dir_t0
    demo_group_id 2 1 (dir_start 2) (pair_led dir_start dir_cmd) [] l dir_t0 _ demo_user_untold
    (pair_starts _ _ dir_paired) dir_all_track dir_c1_runs (proj1 (pair_second _ _))
    (lookup_insert_eq _ _ _) (paired_log _ _ dir_paired 2) Hl (Nat.le_0_l _) (dir_start_hosts 2) Ht))).
Defined.

Lemma dir_c2_track : all_track dir_t0 demo_group_id (pair_c2 dir_start dir_cmd).
Proof.
  exact (all_track_run dir_t0 demo_group_id mem_reliable demo_user_untold demo_group_u64
    (pair_c0 dir_start) _ (rtc_subrel _ _ _ _ (tidy_led_tidy demo_group_id) dir_runs) dir_all_track).
Qed.

(** The second member tells the client, host 1, that its command succeeded. *)
Definition dir_results : list (string * CommandResult.t) := told (pair_told dir_start dir_cmd).

Lemma dir_results_one :
  ∃ addr r, dir_results = [(addr, r)] ∧ CommandResult.Group r = demo_group_id ∧
    CommandResult.RequestId r = CommandRequest.RequestId dir_cmd ∧ CommandResult.Result r = [1].
Proof.
  assert (match dir_results with
    | [(_, r)] => bool_decide (CommandResult.Group r = demo_group_id ∧
        CommandResult.RequestId r = CommandRequest.RequestId dir_cmd ∧ CommandResult.Result r = [1])
    | _ => false end = true) as H by by vm_compute.
  destruct dir_results as [|[addr r] []]; [done| |done].
  exists addr, r. split; [done|]. exact (bool_decide_eq_true_1 _ H).
Qed.

Lemma machines_follow_log_witness :
  ∃ l addr r, log_at (Server.DB (pair_told dir_start dir_cmd)) demo_group_id l ∧
    dir_results = [(addr, r)] ∧ view (run dir_t0 l) (pair_told dir_start dir_cmd) ∧
    result_of dir_t0 l r ∧ signed_by demo_group_id (pair_told dir_start dir_cmd) r.
Proof.
  destruct dir_results_one as (addr & r & Hr & Hg & _).
  destruct (dir_c2_track 2 (pair_told dir_start dir_cmd) (proj2 (pair_second _ _))) as [l [_ Hl _ _]].
  exists l, addr, r. split; [exact Hl|]. split; [exact Hr|].
  destruct (machines_follow_log dir_t0 demo_group_id (pair_c0 dir_start) _ 2 _ l mem_reliable
    demo_user_untold demo_group_u64 dir_all_track
    (rtc_subrel _ _ _ _ (tidy_led_tidy demo_group_id) dir_runs) (proj2 (pair_second _ _)) Hl) as [Hv Ha].
  split; [exact Hv|]. apply (Ha addr r); [|exact Hg]. unfold dir_results in Hr. rw Hr.
  apply list_elem_of_here.
Defined.

Lemma machines_agree_witness :
  ∃ l t, log_at (Server.DB (pair_led dir_start dir_cmd)) demo_group_id l ∧ length l = 1%nat ∧
    view t (dir_start 2) ∧ view (foldl apply t l) (pair_led dir_start dir_cmd).
Proof.
  destruct (dir_c1_track 1 (pair_led dir_start dir_cmd) (lookup_insert_eq _ _ _)) as [l [_ Hl _ _]].
  destruct (machines_agree dir_t0 demo_group_id _ _ [] 2 1 (dir_start 2) (pair_led dir_start dir_cmd)
    [] l mem_reliable demo_user_untold (pair_starts _ _ dir_paired) dir_all_track dir_c1_runs
    (proj1 (pair_second _ _)) (lookup_insert_eq _ _ _) (paired_log _ _ dir_paired 2) Hl (Nat.le_0_l _))
    as (t & H1 & H2 & _).
  exists l, t. split; [exact Hl|].
  split; [exact (one_entry _ _ (LastEntryIndex_at _ _ _ Hl) dir_led_index)|]. split; [exact H1|exact H2].
Defined.

Definition dir_host : Host.t :=
  Host.set_Online true (Host.set_Id (HashPublicKeyBytes [5]) demo_reg_host).

Lemma dir_start_holds : holds (dir_start 1) 0 demo_group_id [].
Proof.
  split; [by exists (demo_rt 1 LEADER), (demo_group 1)|done|apply (tracks_log _ _ _ _ (dir_start_tracks 1))].
Qed.

(** * Other groups

    The functions that register hosts are those of a node, whatever the group of the
    command: a command of the group 7 registers its host on that group's members, and
    no entry of the alpha group says so. *)
Theorem any_group_registers :
  ∃ s cmd h (t t' : gmap Z Host.t),
    let s' := (RPC.ExecCommand cmd no_forward [] s).2 in
    CommandRequest.Group cmd ≠ ALPHA_GROUP ∧
    (∀ l, log_at (Server.DB s) ALPHA_GROUP l → log_at (Server.DB s') ALPHA_GROUP l) ∧
    hosts_at (Server.DB s) t ∧ hosts_at (Server.DB s') t' ∧
    t !! Host.Id h = None ∧ t' !! Host.Id h = Some h.
Proof.
  destruct (dir_c1_track 1 (pair_led dir_start dir_cmd) (lookup_insert_eq _ _ _)) as [l [_ Hl [_ Ht] _]].
  exists (dir_start 1), dir_cmd, dir_host, dir_t0, (directory dir_reg dir_t0 l).
  split; [done|]. split; [|split; [exact (dir_start_hosts 1)|
    split; [exact Ht|split; [by vm_compute|]]]].
  - intros l1 Hl1.
    destruct (moved_ExecCommand ALPHA_GROUP ltac:(done) dir_cmd no_forward [] (dir_start 1) l1
      mem_reliable (tracks_boards _ _ _ _ (dir_start_tracks 1)) ltac:(done) Hl1 ltac:(done))
      as (l' & [->|[? _]] & _ & Hm); [exact (moved_log _ _ _ _ Hm)|done].
  - destruct (command_taken dir_cmd no_forward [] (dir_start 1) [] eq_refl eq_refl dir_start_holds
      eq_refl dir_led_index) as [g Hg].
    rw (log_at_unique _ _ _ _ Hl Hg) app_nil_l. unfold directory. cbn [foldl]. unfold apply_host.
    assert (entry_host dir_reg (next_entry g [] dir_cmd) = Some dir_host) as ->
      by (change (command_host dir_reg dir_cmd = Some dir_host); by vm_compute).
    apply lookup_insert_eq.
Qed.
