(* ===== verification/Sync.v ===== *)
(** What a node learns of the alpha group when it starts: the server's part of
    [SyncAlphaGroup] against the answers of the alpha nodes that it asks. *)
From S2P Require Export Directory.

Section sync.
Context {W : World} {F : RaftFns}.

(** * One member

    What an alpha node says of a member: its record in the alpha group and its host. *)
Record announced (m : GroupMember.t) (p : Peer.t) (h : Host.t) : Prop := {
  announced_peer : GroupMember.Peer m = Some p;
  announced_host : GroupMember.Host m = Some h;
  announced_alpha : Peer.Group p = ALPHA_GROUP;
  announced_peer_id : is_u64 (Peer.Id p);
  announced_host_id : is_u64 (Host.Id h)
}.

Definition add_peer (t : gmap Z Peer.t) (m : GroupMember.t) : gmap Z Peer.t :=
  match GroupMember.Peer m with Some p => <[Peer.Id p := p]> t | None => t end.

Definition add_host (t : gmap Z Host.t) (m : GroupMember.t) : gmap Z Host.t :=
  match GroupMember.Host m with Some h => <[Host.Id h := h]> t | None => t end.

(** What a store knows of the alpha group. *)
Record knows (d : W_db) (g : RaftGroup.t) (peers : gmap Z Peer.t) (hosts : gmap Z Host.t) : Prop := {
  knows_group : GetGroupFromKV d ALPHA_GROUP = Some g;
  knows_peers : peers_at d ALPHA_GROUP peers;
  knows_hosts : hosts_at d hosts
}.

Lemma SavePeer_run txn p t :
  reliable W → Peer.Group p = ALPHA_GROUP → is_u64 (Peer.Id p) → peers_at txn ALPHA_GROUP t →
  ∃ txn', SavePeer txn p = Ok txn' ∧ peers_at txn' ALPHA_GROUP (<[Peer.Id p := p]> t).
Proof.
  intros Hrel Hg Hu Ht. destruct (rel_peer _ Hrel p) as [b Hb].
  destruct (rel_set _ Hrel txn (peers_prefix (Peer.Group p) ++ U64Bytes (Peer.Id p)) b) as [d Hd]; [done|].
  assert (SavePeer txn p = Ok d) as Hs by (unfold SavePeer, proto_marshal, txn_set; by rw Hb Hd).
  exists d. split; [done|]. exact (SavePeer_at _ _ _ _ _ Ht Hg Hu Hs).
Qed.

Lemma run_ignored_write s f d :
  f (Server.DB s) = Ok d → ignore (txn_write f) s = (Ok tt, Server.upd_DB (λ _, d) s).
Proof. intros Hf. unfold ignore, try_, mbind, M_bind. by rw (run_txn_write s f d Hf). Qed.

Lemma save_member_run s m p h g peers hosts :
  reliable W → announced m p h → knows (Server.DB s) g peers hosts →
  ∃ d, save_member m s = (Ok tt, Server.upd_DB (λ _, d) s) ∧
    knows d g (add_peer peers m) (add_host hosts m).
Proof.
  intros Hrel [Hp Hh Hg Hpu Hhu] [Hk Hkp Hkh]. unfold save_member, add_peer, add_host. rw Hp Hh.
  destruct (SavePeer_run (Server.DB s) p peers Hrel Hg Hpu Hkp) as (d1 & H1 & Hp1).
  rw (bind_Ok _ _ _ _ _ (run_ignored_write s _ _ H1)).
  destruct (SaveHost_run d1 h hosts Hrel Hhu (SavePeer_hosts _ _ _ _ H1 Hkh)) as (d2 & H2 & Hh2).
  exists d2. split.
  { exact (run_ignored_write (Server.upd_DB (λ _, d1) s) (λ txn, SaveHost txn h) d2 H2). }
  split.
  - by rw (SaveHost_group _ _ _ _ H2) (SavePeer_GetGroup _ _ _ _ H1).
  - exact (SaveHost_peers _ _ _ _ _ H2 Hp1).
  - exact Hh2.
Qed.

Lemma save_members_run ms g : reliable W → Forall (λ m, ∃ p h, announced m p h) ms →
  ∀ s peers hosts, knows (Server.DB s) g peers hosts →
  ∃ d, for_each save_member ms s = (Ok tt, Server.upd_DB (λ _, d) s) ∧
    knows d g (foldl add_peer peers ms) (foldl add_host hosts ms).
Proof.
  intros Hrel Hms. induction Hms as [|m ms (p & h & Hm) _ IH]; intros s peers hosts Hk.
  { exists (Server.DB s). by rw upd_DB_same. }
  destruct (save_member_run s m p h g peers hosts Hrel Hm Hk) as (d & Hrun & Hk1). cbn [for_each foldl].
  rw (bind_Ok _ _ _ _ _ Hrun). exact (IH (Server.upd_DB (λ _, d) s) _ _ Hk1).
Qed.
(** * Who is a member *)

Lemma is_member_spec id ms (s : Server.t) :
  Forall (λ m, ∃ p h, announced m p h) ms →
  is_member id ms s =
    (Ok (bool_decide (Exists (λ m, Peer.Id <$> GroupMember.Peer m = Some id) ms)), s).
Proof.
  induction 1 as [|m ms (p & h & [Hp _ _ _ _]) _ IH]; [done|]. cbn [is_member].
  rw Hp (bind_Ok _ _ _ _ _ (eq_refl : unwrap (Some p) s = (Ok p, s))).
  destruct (Z.eqb_spec (Peer.Id p) id) as [Heq|Hne].
  - rw bool_decide_eq_true_2; [|done]. left. rw Hp. simpl. by rw Heq.
  - rw IH. do 2 f_equal. apply bool_decide_ext. rw Exists_cons Hp. simpl.
    split; [by right|]. intros [[=]|?]; done.
Qed.

(** * The synchronisation

    The group that is stored: the node's own record, or what a majority of the alpha
    nodes answer when it has none. *)
Definition alpha_source (n : nat) (replies : list (option (option RaftGroup.t))) (s : Server.t)
    (g : RaftGroup.t) : Prop :=
  known_group s ALPHA_GROUP = Some g ∨
  sm_get (Server.Groups s) (id_key ALPHA_GROUP) = None ∧
  GetGroupFromKV (Server.DB s) ALPHA_GROUP = None ∧
  MajorityResponse (repeat true n) (answers_of content_result n replies) = Some (Some g).

(** The term that the record is given. *)
Definition synced_term (res : GroupMembersResponse.t) : Z :=
  match GroupMembersResponse.LastEntry res with None => 0 | Some e => LogEntry.Index e end.

Lemma alpha_source_run n replies s g :
  alpha_source n replies s g →
  ∃ p s1, Server.raftgroups s1 !! p = Some g ∧ Server.DB s1 = Server.DB s ∧
    Server.GroupsOnboard s1 = Server.GroupsOnboard s ∧
    ∀ A (k : nat → MS A),
      (group ← GetGroupNTXN ALPHA_GROUP;
       group ← (match group with
               | Some group => mret (Some group)
               | None =>
                 match default None
                   (MajorityResponse (repeat true n) (answers_of content_result n replies)) with
                 | Some g => p ← new_group_ptr g; mret (Some p)
                 | None => mret None
                 end
               end);
       match group with
       | None => panic "cannot generate alpha group from cluster"
       | Some group => k group
       end) s = k p s1.
Proof.
  unfold GetGroupNTXN, DB_View. intros [Hk|(Hc & Hd & Hm)].
  - destruct (GetGroup_known _ _ _ Hk) as (p & s1 & Hrun & Hp & HDB & _ & Hon).
    exists p, s1. split; [done|]. split; [done|]. split; [done|]. intros A k.
    rw {1}/mbind {1}/M_bind Hrun. cbn. by rw -{1}HDB upd_DB_same.
  - eexists _, _. split; [|split; [|split]]; last first.
    + intros A k. rw {1}/mbind {1}/M_bind (GetGroup_absent _ _ Hc Hd) Hm. cbn.
      rw upd_DB_same. reflexivity.
    + done.
    + done.
    + apply lookup_insert_eq.
Qed.

(** What the majority of the alpha nodes say. *)
Record told_by_alpha (n : nat) (replies : list (option (option GroupMembersResponse.t)))
    (res : GroupMembersResponse.t) : Prop := {
  told_majority :
    MajorityResponse (repeat true n) (answers_of members_result n replies) = Some (Some res);
  told_members : Forall (λ m, ∃ p h, announced m p h) (GroupMembersResponse.Members res)
}.

Definition names (id : Z) (res : GroupMembersResponse.t) : Prop :=
  Exists (λ m, Peer.Id <$> GroupMember.Peer m = Some id) (GroupMembersResponse.Members res).

(** A member's start changes nothing, and brings the node down when it has not stored
    the group. *)
Lemma sync_alpha_member clients mreplies creplies res s :
  told_by_alpha (length clients) mreplies res → names (Server.Id s) res →
  match known_group s ALPHA_GROUP with
  | Some _ => ∃ s', sync_alpha clients mreplies creplies s = (Ok None, s') ∧ silent s s'
  | None => sm_get (Server.Groups s) (id_key ALPHA_GROUP) = None →
      (sync_alpha clients mreplies creplies s).1 = Panic "Alpha member cannot find alpha group"
  end.
Proof.
  intros [Hm Hms] Hin. unfold sync_alpha. rw Hm. cbv [from_option Datatypes.id].
  rw (bind_Ok _ _ _ _ _ (eq_refl : gets Server.Id s = (Ok (Server.Id s), s)))
    (bind_Ok _ _ _ _ _ (is_member_spec (Server.Id s) _ s Hms)).
  rw bool_decide_eq_true_2; [exact Hin|]. destruct (known_group s ALPHA_GROUP) as [g|] eqn:Hk.
  - destruct (GetGroup_known _ _ _ Hk) as (p & s1 & Hrun & _).
    pose proof (frame_GetGroupNTXN (R:=silent) ALPHA_GROUP s) as Hs.
    assert ((GetGroupNTXN ALPHA_GROUP s).1 = Ok (Some p)) as Hok by (unfold GetGroupNTXN, DB_View; by rw Hrun).
    destruct (GetGroupNTXN ALPHA_GROUP s) as [o s2] eqn:H2. cbn [fst snd] in Hok, Hs. rw Hok in H2.
    rw (bind_Ok _ _ _ _ _ H2). by exists s2.
  - intros Hc. unfold known_group in Hk. rw Hc in Hk.
    assert ((GetGroupNTXN ALPHA_GROUP s).1 = Ok None) as Hok
      by (unfold GetGroupNTXN, DB_View; by rw (GetGroup_absent _ _ Hc Hk)).
    destruct (GetGroupNTXN ALPHA_GROUP s) as [o s2] eqn:H2. cbn [fst] in Hok. rw Hok in H2.
    by rw (bind_Ok _ _ _ _ _ H2).
Qed.

(** A node that is no member of the alpha group learns it when it starts: after
    [sync_alpha] its store has the group, in the term that the answer's last entry
    has as its index, every member's record in it and every member's host, as a majority
    of the alpha nodes gave them; and it has no group on board that it had not before. *)
Theorem sync_alpha_learns clients mreplies creplies res s g peers hosts b :
  reliable W → told_by_alpha (length clients) mreplies res → ¬ names (Server.Id s) res →
  alpha_source (length clients) creplies s g → RaftGroup.Id g = ALPHA_GROUP →
  marshal (RaftGroup.set_Term (synced_term res) g) = inr b →
  peers_at (Server.DB s) ALPHA_GROUP peers → hosts_at (Server.DB s) hosts →
  let members := GroupMembersResponse.Members res in
  ∃ s', sync_alpha clients mreplies creplies s = (Ok None, s') ∧
    knows (Server.DB s') (RaftGroup.set_Term (synced_term res) g)
      (foldl add_peer peers members) (foldl add_host hosts members) ∧
    Server.GroupsOnboard s' = Server.GroupsOnboard s.
Proof.
  intros Hrel [Hm Hms] Hnot Hsrc Hgid Hb Hpeers Hhosts members.
  unfold sync_alpha. rw Hm. cbv [from_option Datatypes.id].
  rw (bind_Ok _ _ _ _ _ (eq_refl : gets Server.Id s = (Ok (Server.Id s), s)))
    (bind_Ok _ _ _ _ _ (is_member_spec (Server.Id s) _ s Hms)).
  rw bool_decide_eq_false_2; [exact Hnot|].
  destruct (alpha_source_run _ _ _ _ Hsrc) as (p & s1 & Hp & HDB & Hon & Hrun). rw Hrun. clear Hrun.
  fold (synced_term res). set (g1 := RaftGroup.set_Term (synced_term res) g) in *.
  set (s2 := Server.upd_raftgroups (alter (RaftGroup.set_Term (synced_term res)) p) s1).
  rw (bind_Ok _ _ _ _ _ (eq_refl : update_group p _ s1 = (Ok tt, s2))).
  assert (load_group p s2 = (Ok g1, s2)) as Hload.
  { unfold load_group, get_state, mbind, M_bind. cbn. by rw lookup_alter_eq Hp. }
  rw (bind_Ok _ _ _ _ _ Hload).
  destruct (rel_set _ Hrel (Server.DB s) (group_key (RaftGroup.Id g1)) b) as [d1 Hd1]; [done|].
  assert (SaveGroup (Server.DB s) g1 = Ok d1) as Hs1
    by (unfold SaveGroup, proto_marshal, txn_set; by rw Hb Hd1).
  assert (knows d1 g1 peers hosts) as Hk1.
  { split; [rw -Hgid; exact (SaveGroup_get _ _ _ Hs1)|exact (SaveGroup_peers _ _ _ _ _ Hs1 Hpeers)|
      exact (SaveGroup_hosts _ _ _ _ Hs1 Hhosts)]. }
  set (s3 := Server.upd_DB (λ _, d1) s2).
  destruct (save_members_run members g1 Hrel Hms s3 peers hosts Hk1) as (d2 & Hloop & Hk2).
  assert (ignore (DB_Update (_ ← ignore (txn_write (λ txn, SaveGroup txn g1)); for_each save_member members)) s2
    = (Ok tt, Server.upd_DB (λ _, d2) s3)) as Hupd.
  { unfold ignore at 1, try_, DB_Update. rw {1}/mbind {1}/M_bind.
    rw (bind_Ok _ _ _ _ _ (run_ignored_write s2 (λ txn, SaveGroup txn g1) d1 _)).
    { cbn. by rw HDB. }
    fold s3. rw Hloop. by rw (rel_commit _ Hrel). }
  rw (bind_Ok _ _ _ _ _ Hupd). exists (Server.upd_DB (λ _, d2) s3).
  split; [done|]. split; [exact Hk2|exact Hon].
Qed.
End sync.

(** * Witness

    Node 9, with nothing stored, hears of one member from two alpha nodes. *)
Definition sync_peer : Peer.t := Peer.mk 1 ALPHA_GROUP 0 0.
Definition sync_member : GroupMember.t := GroupMember.mk (Some (demo_host 1)) (Some sync_peer).
Definition sync_answer : GroupMembersResponse.t :=
  GroupMembersResponse.mk (Some (demo_entry 1 4 [])) [sync_member] [].
Definition sync_group : RaftGroup.t := RaftGroup.mk 32 ALPHA_GROUP 0.
Definition sync_node : Server.t := node_with ((∅ : memdb) : store) 9.

Definition sync_clients : list string := ["a"; "b"]%string.

Definition sync_members : list (option (option GroupMembersResponse.t)) :=
  [Some (Some sync_answer); Some (Some sync_answer)].
Definition sync_contents : list (option (option RaftGroup.t)) :=
  [Some (Some sync_group); Some (Some sync_group)].

Lemma sync_told : told_by_alpha (W:=mem_world) 2 sync_members sync_answer.
Proof.
  split; [by vm_compute|]. apply Forall_singleton. exists sync_peer, (demo_host 1). by split.
Qed.

Lemma sync_stranger : ¬ names (Server.Id sync_node) sync_answer.
Proof. unfold names. rw Exists_cons Exists_nil. by intros [[=]|[]]. Qed.

Lemma sync_source : alpha_source 2 sync_contents sync_node sync_group.
Proof. right. by vm_compute. Qed.

Lemma sync_alpha_learns_witness :
  ∃ s', sync_alpha sync_clients sync_members sync_contents sync_node = (Ok None, s') ∧
    knows (Server.DB s') (RaftGroup.mk 32 ALPHA_GROUP 4) {[ 1 := sync_peer ]} {[ 1 := demo_host 1 ]}.
Proof.
  destruct (sync_alpha_learns sync_clients sync_members sync_contents sync_answer sync_node sync_group ∅ ∅
    (print_group (RaftGroup.mk 32 ALPHA_GROUP 4)) mem_reliable sync_told sync_stranger sync_source
    eq_refl eq_refl (peers_at_empty ALPHA_GROUP) (table_at_empty hosts_prefix)) as (s' & Hrun & Hk & _).
  exists s'. split; [exact Hrun|exact Hk].
Defined.
