(* ===== verification/Reigns.v ===== *)
(** One leader after another: the proviso under which a group implements the replicated
    log holds when leaders follow each other by elections, each of them held when every
    entry has reached a quorum and while nobody takes commands. *)
From S2P Require Export ClusterFacts.

Section reigns.
Context {W : World} {F : RaftFns}.
Context (gid : Z).

(** * What a vote says of its voter's log *)

Lemma polls_log_index env m req vote w s o :
  polls env m req vote w s o → ∀ vote', o.1 = Ok vote' →
  RequestVoteResponse.LogIndex vote' = RequestVoteResponse.LogIndex vote.
Proof. induction 1; intros vote' Hv; [auto|by injection Hv as <-..|done]. Qed.

(** A vote, granted or not, reports the length of its voter's log. *)
Lemma vote_reports_log env m req s l vote s' :
  holds s m gid l → RequestVote env m req s = (Ok vote, s') →
  RequestVoteResponse.LogIndex vote = Z.of_nat (length l).
Proof.
  intros Hh. destruct (holds_group _ _ _ _ Hh) as (rt & g & Hg & Hid).
  rw (RequestVote_run env m req s rt g Hg) Hid (LastLogEntry_at _ _ _ (holds_log _ _ _ _ Hh)).
  destruct (last l) as [e|] eqn:He; [|done]. cbv zeta.
  assert (LogEntry.Index e = Z.of_nat (length l)) as Hidx.
  { rw last_lookup in He. pose proof (log_index _ _ _ (holds_log _ _ _ _ Hh) _ _ He).
    apply lookup_lt_Some in He. lia. }
  destruct (refuses _ _ _ _); [by intros [= <- _]|]. intros Hrun.
  pose proof (lazy_vote_polls env m req (sign_vote (Server.SigningKey s) (ballot s g e req))
    (Z.to_nat intervalCount) 0 s ltac:(done) ltac:(change intervalCount with 20; lia)) as Hp.
  rw Hrun in Hp. by rw (polls_log_index _ _ _ _ _ _ _ Hp vote eq_refl).
Qed.

(** A vote comes from the record that the voter has on board. *)
Lemma rpc_vote_reports_log env req s l vote s' :
  boards s → is_u64 gid → log_at (Server.DB s) gid l → RequestVoteRequest.Group req = gid →
  RPC.RequestVote env req s = (Ok vote, s') →
  RequestVoteResponse.LogIndex vote = Z.of_nat (length l).
Proof.
  intros Hb Hid Hl Hg. unfold RPC.RequestVote.
  rw (bind_Ok _ _ _ _ _ (eq_refl : GetOnboardGroup (RequestVoteRequest.Group req) s = (Ok _, s))) Hg.
  destruct (sm_get _ _) as [m|] eqn:Hm; [|done].
  destruct (on_board_record _ _ _ Hb Hid Hm) as (rt & g & Hgrp & Hgid).
  apply vote_reports_log. split; [by exists rt, g|done..].
Qed.

(** The members that hold the entry [e] as number [n + 1] of their log. *)
Definition held_by (c : gmap Z Server.t) (n : nat) (e : LogEntry.t) (holders : gset Z) : Prop :=
  ∀ h, h ∈ holders → ∃ s l, c !! h = Some s ∧ log_at (Server.DB s) gid l ∧ l !! n = Some e.

(** * Elections *)

Context (members : gset Z).

(** Every entry of a log of the cluster is held by a quorum of the members. *)
Definition replicated (c : gmap Z Server.t) : Prop := ∀ j sj lj n e,
  c !! j = Some sj → log_at (Server.DB sj) gid lj → lj !! n = Some e →
  ∃ holders, holders ⊆ members ∧
    ExpectedPlayers (Z.of_nat (size members)) ≤ Z.of_nat (size holders) ∧
    held_by c n e holders.

(** An election from [c] to [c']: the winner counts its votes in [c'], and each of them
    was given by its voter in a state on the way. *)
Record elected (c c' : gmap Z Server.t) (i : Z) (s : Server.t) : Prop := {
  elected_unled : rtc (unled_step gid) c c';
  elected_candidate : c' !! i = Some s;
  elected_votes : ∃ asked replies votes s',
    asked ⊆ members ∧
    collect_votes (LastLogEntry (Server.DB s) gid) (ExpectedPlayers (Z.of_nat (size members)))
      asked replies [] s = (Ok (Some votes), s') ∧
    ∀ v vote, (v, vote) ∈ replies → ∃ c1 sv env req sv',
      rtc (unled_step gid) c c1 ∧ c1 !! v = Some sv ∧ RequestVoteRequest.Group req = gid ∧
      RPC.RequestVote env req sv = (Ok vote, sv')
}.

(** [reigns c0 L0 c L]: from [c0], where [L0] leads, the cluster has got to [c], where
    [L] does. *)
Inductive reigns (c0 : gmap Z Server.t) (L0 : Z) : gmap Z Server.t → Z → Prop :=
| reigns_first : is_Some (c0 !! L0) → reigns c0 L0 c0 L0
| reigns_step c L c' : reigns c0 L0 c L → sole_step gid L c c' → reigns c0 L0 c' L
| reigns_next c L c' L' s' :
    reigns c0 L0 c L → replicated c → elected c c' L' s' → reigns c0 L0 c' L'.

Lemma unled_led c c' : unled_step gid c c' → led_step gid c c'.
Proof.
  intros (ev & Hs & Hu). exists ev. split; [done|]. destruct ev as [| |i cmd forward replies]; [done..|].
  intros Hg s Hi Hl. by destruct (Hu Hg s Hi).
Qed.

Lemma unled_any c c' : unled_step gid c c' → any_step c c'.
Proof. intros (ev & Hs & _). by exists ev. Qed.

(** Without commands, the log stays as it is. *)
Lemma unled_run c c' a :
  reliable W → implements gid c a → rtc (unled_step gid) c c' →
  ∃ a', implements gid c' a' ∧ Spec.log a' = Spec.log a.
Proof.
  intros Hrel Ha Hrun. revert a Ha. induction Hrun as [c|c c1 c2 (ev & Hs & Hu) _ IH]; intros a Ha.
  { by exists a. }
  destruct (unled_led c c1) as (ev' & Hs' & Hl'); [by exists ev|].
  assert (led_well gid c ev) as Hl.
  { destruct ev as [| |i cmd forward replies]; [done..|]. intros Hg s Hi Hlead. by destruct (Hu Hg s Hi). }
  destruct (step_simulates gid c c1 a ev Hrel Ha Hs Hl) as (a1 & _ & Ha1 & _ & Hlog).
  destruct (IH a1 Ha1) as (a2 & Ha2 & Hlog2). exists a2. split; [done|]. rw Hlog2. by apply Hlog.
Qed.

(** The log of a node, in a state of the specification. *)
Lemma implements_log c a i s l :
  implements gid c a → c !! i = Some s → log_at (Server.DB s) gid l →
  boards s ∧ l `prefix_of` Spec.log a ∧ Spec.pos a !! i = Some (length l).
Proof.
  intros Ha Hi Hl. destruct (impl_node _ _ _ Ha i s Hi) as (l' & Hp & Hpos & Hb & Hl').
  by rw (log_at_unique _ _ _ _ Hl Hl').
Qed.

Lemma elected_top c c' a i s :
  reliable W → implements gid c a → replicated c → elected c c' i s →
  ∃ a', implements gid c' a' ∧ Spec.top i a'.
Proof.
  intros Hrel Ha Hall [Hrun Hi (asked & replies & votes & s' & Hasked & Hcollect & Hvotes)].
  pose proof (impl_id _ _ _ Ha) as Hid.
  destruct (unled_run c c' a Hrel Ha Hrun) as (a' & Ha' & Hlog). exists a'. split; [done|].
  destruct (impl_node _ _ _ Ha' i s Hi) as (li & Hpi & Hposi & _ & Hli). unfold Spec.top.
  rw Hposi. f_equal. apply prefix_length in Hpi as Hle. apply Nat.le_antisymm; [done|].
  apply Nat.nlt_ge. intros Hlt. rw Hlog in Hlt.
  destruct (lookup_lt_is_Some_2 _ _ Hlt) as [e He].
  destruct (impl_top _ _ _ Ha) as (j & sj & Hj & Htop).
  destruct (impl_node _ _ _ Ha j sj Hj) as (lj & Hpj & Hposj & _ & Hlj).
  assert (lj = Spec.log a) as ->.
  { apply prefix_full; [done|]. unfold Spec.top in Htop. rw Hposj in Htop. by injection Htop as ->. }
  destruct (Hall j sj _ (length li) e Hj Hlj He) as (holders & Hsub & Hq & Hheld).
  apply collect_votes_spec in Hcollect as (_ & voters & new & -> & Hexp & Hnd & HF).
  destruct (quorums_meet members (list_to_set voters) holders) as (v & Hv & Hvh); [|done| |done|].
  { intros v (k & Hk)%elem_of_list_to_set%list_elem_of_lookup.
    destruct (Forall2_lookup_l _ _ _ _ _ HF Hk) as (vote & _ & Hin & _). by apply Hasked. }
  { rw size_list_to_set //. by rw (Forall2_length _ _ _ HF). }
  apply elem_of_list_to_set, list_elem_of_lookup in Hv as [k Hk].
  destruct (Forall2_lookup_l _ _ _ _ _ HF Hk) as (vote & _ & _ & Hrep & Hcount).
  destruct (Hvotes v vote Hrep) as (c1 & sv & env & req & sv' & Hrun1 & Hcv & Hgrp & Hvote).
  destruct (Hheld v Hvh) as (sv0 & lv0 & Hcv0 & Hlv0 & Hn).
  destruct (implements_log c a v sv0 lv0 Ha Hcv0 Hlv0) as (Hb0 & _ & _).
  destruct (logs_grow_run gid c c1 v sv0 lv0 Hrel (rtc_subrel _ _ _ _ unled_any Hrun1) Hcv0 Hb0 Hid Hlv0)
    as (sv1 & lv & Hcv1 & Hbv & Hlv & Hpv).
  assert (sv1 = sv) as -> by congruence.
  pose proof (rpc_vote_reports_log env req sv lv vote sv' Hbv Hid Hlv Hgrp Hvote) as Hidx.
  destruct (counted_log _ _ _ _ Hcount) as (e' & Hlast & Hge).
  rw (LastLogEntry_at _ _ _ Hli) last_lookup in Hlast.
  pose proof (log_index _ _ _ Hli _ _ Hlast) as He'. apply lookup_lt_Some in Hlast, Hn.
  apply prefix_length in Hpv. lia.
Qed.

(** C3. Leaders that follow each other by elections are up to date: the cluster's run is
    one that is led well, and whoever leads has every entry of the one log. *)
Theorem reigns_implement c0 l L0 c L :
  reliable W → starts gid c0 l → reigns c0 L0 c L →
  rtc (led_step gid) c0 c ∧ ∃ a, implements gid c a ∧ Spec.top L a.
Proof.
  intros Hrel Hst. induction 1 as [HL|c L c' _ IH Hs|c L c' L' s' _ IH Hall Hel].
  - split; [apply rtc_refl|]. exists (Spec.init (dom c0) l).
    split; [by apply starts_implements|]. apply lookup_gset_to_gmap_Some.
    split; [by apply elem_of_dom|done].
  - destruct IH as (Hrun & a & Ha & Ht). destruct Hs as (ev & Hs & Hl).
    pose proof (sole_led_well gid L c a ev Ha Ht Hl) as Hw.
    destruct (step_simulates gid c c' a ev Hrel Ha Hs Hw) as (a' & _ & Ha' & Hkeep & _).
    split; [apply (rtc_r _ c); [done|by exists ev]|]. exists a'. split; [done|by apply Hkeep].
  - destruct IH as (Hrun & a & Ha & _). split.
    + trans c; [done|]. exact (rtc_subrel _ _ _ _ unled_led (elected_unled _ _ _ _ Hel)).
    + exact (elected_top c c' a L' s' Hrel Ha Hall Hel).
Qed.
End reigns.
