(* ===== verification/Succession.v ===== *)
(** From one leader to the next: a candidate that wins an election has every entry
    that a quorum of members had when they voted, so that it is up to date when every
    entry has reached a quorum. But a leader answers its clients before any entry has
    reached anybody, and then a command that was answered can be overtaken; and a voter
    goes on taking the entries of the leader that it had. *)
From S2P Require Export Reigns.

Section succession.
Context {W : World} {F : RaftFns}.
Context (gid : Z).

(** A win: the votes that the candidate [i] collected came from members that ran
    [RequestVote] in this state of the cluster. *)
Record wins (c : gmap Z Server.t) (members : gset Z) (i : Z) (s : Server.t) : Prop := {
  wins_candidate : c !! i = Some s;
  wins_votes : ∃ asked replies votes s',
    asked ⊆ members ∧
    collect_votes (LastLogEntry (Server.DB s) gid) (ExpectedPlayers (Z.of_nat (size members)))
      asked replies [] s = (Ok (Some votes), s') ∧
    ∀ v vote, (v, vote) ∈ replies → ∃ sv env req sv',
      c !! v = Some sv ∧ RequestVoteRequest.Group req = gid ∧
      RPC.RequestVote env req sv = (Ok vote, sv')
}.

Lemma wins_elected c members i s : wins c members i s → elected gid members c c i s.
Proof.
  intros [Hi (asked & replies & votes & s' & Hasked & Hcollect & Hvotes)]. split; [apply rtc_refl|done|].
  exists asked, replies, votes, s'. split; [done|]. split; [done|]. intros v vote Hin.
  destruct (Hvotes v vote Hin) as (sv & env & req & sv' & Hrest).
  exists c, sv, env, req, sv'. split; [apply rtc_refl|exact Hrest].
Qed.

(** C9. When every entry has reached a quorum, a candidate that wins is up to date, as
    the cluster's refinement asks of whoever takes commands. *)
Theorem winner_up_to_date c0 c l members i s :
  reliable W → starts gid c0 l → rtc (led_step gid) c0 c →
  wins c members i s →
  (∀ j sj lj n e, c !! j = Some sj → log_at (Server.DB sj) gid lj → lj !! n = Some e →
    ∃ holders, holders ⊆ members ∧
      ExpectedPlayers (Z.of_nat (size members)) ≤ Z.of_nat (size holders) ∧
      held_by gid c n e holders) →
  up_to_date gid c s.
Proof.
  intros Hrel Hst Hrun Hwin Hall.
  destruct (implements_reached gid c0 c l Hrel Hst Hrun) as (a & _ & Ha).
  destruct (elected_top gid members c c a i s Hrel Ha Hall (wins_elected c members i s Hwin))
    as (a' & Ha' & Htop).
  exact (top_up_to_date gid c a' i s Ha' (wins_candidate _ _ _ _ Hwin) Htop).
Qed.
End succession.

(** * Witness: an election of the member 1 by 2 and 3 *)
Definition elect_node (n : Z) : Server.t := node n 0 CANDIDATE 1 (demo_log 1).

Definition elect_c : gmap Z Server.t :=
  <[1 := elect_node 1]> (<[2 := elect_node 2]> {[ 3 := elect_node 3 ]}).

Definition elect_vote (n : Z) : RequestVoteResponse.t :=
  match (RPC.RequestVote idle (demo_request 2 1) (elect_node n)).1 with
  | Ok vote => vote
  | _ => demo_own_ballot
  end.

Definition elect_votes : list RequestVoteResponse.t := [elect_vote 2; elect_vote 3].

Lemma elect_votes_given n :
  n = 2 ∨ n = 3 → ∃ s', RPC.RequestVote idle (demo_request 2 1) (elect_node n) = (Ok (elect_vote n), s').
Proof.
  intros Hn. exists (RPC.RequestVote idle (demo_request 2 1) (elect_node n)).2.
  assert ((RPC.RequestVote idle (demo_request 2 1) (elect_node n)).1 = Ok (elect_vote n)) as <-
    by (destruct Hn as [-> | ->]; by vm_compute).
  apply surjective_pairing.
Qed.

Lemma elect_collected :
  (collect_votes (LastLogEntry (Server.DB (elect_node 1)) demo_group_id) 2 {[2; 3]}
    [(2, elect_vote 2); (3, elect_vote 3)] [] (elect_node 1)).1 = Ok (Some elect_votes).
Proof. by vm_compute. Qed.

Lemma elect_holds n : holds (elect_node n) 0 demo_group_id (demo_log 1).
Proof. exact (demo_holds n 0 CANDIDATE 1 1 eq_refl). Qed.

Lemma elect_c_node i s : elect_c !! i = Some s → s = elect_node i ∧ i ∈ ({[1; 2; 3]} : gset Z).
Proof.
  unfold elect_c.
  intros [[<- <-]|[_ [[<- <-]|[_ [<- <-]%lookup_singleton_Some]]%lookup_insert_Some]]%lookup_insert_Some;
    (split; [reflexivity|set_solver]).
Qed.

Lemma elect_starts : starts demo_group_id elect_c (demo_log 1).
Proof.
  split.
  - done.
  - intros i s [-> _]%elect_c_node. split; [apply node_boards|exact (holds_log _ _ _ _ (elect_holds i))].
  - intros Hc%(f_equal (lookup 1)). unfold elect_c in Hc. rw lookup_insert_eq lookup_empty in Hc.
    discriminate Hc.
  - exact (demo_chain 1 1 _ 1).
  - intros req (j & s & addr & [-> _]%elect_c_node & Hin) _. exact (not_elem_of_nil _ Hin).
Qed.

Lemma elect_c_lookup n : n = 1 ∨ n = 2 ∨ n = 3 → elect_c !! n = Some (elect_node n).
Proof.
  unfold elect_c. intros [-> | [-> | ->]]; [apply lookup_insert_eq|..];
    (etrans; [by apply lookup_insert_ne|]); [apply lookup_insert_eq|].
  etrans; [by apply lookup_insert_ne|]. apply lookup_singleton_eq.
Qed.

Lemma replies_by_name {A} (f : Z → A) v a :
  (v, a) ∈ [(2, f 2); (3, f 3)] → (v = 2 ∨ v = 3) ∧ a = f v.
Proof.
  intros [[= -> ->]|[[= -> ->]|?%not_elem_of_nil]%elem_of_cons]%elem_of_cons;
    [by split; [left|]|by split; [right|]|done].
Qed.

Lemma elect_wins : wins demo_group_id elect_c {[1; 2; 3]} 1 (elect_node 1).
Proof.
  split; [apply elect_c_lookup; by left|].
  exists {[2; 3]}, [(2, elect_vote 2); (3, elect_vote 3)], elect_votes,
    (collect_votes (LastLogEntry (Server.DB (elect_node 1)) demo_group_id) 2 {[2; 3]}
      [(2, elect_vote 2); (3, elect_vote 3)] [] (elect_node 1)).2.
  split; [set_solver|]. split; [rw -elect_collected; apply surjective_pairing|].
  intros v vote Hin. exists (elect_node v), idle, (demo_request 2 1).
  destruct (replies_by_name elect_vote v vote Hin) as [Hv ->].
  destruct (elect_votes_given v Hv) as [s' Hs']. exists s'.
  split; [apply elect_c_lookup; by right|]. split; [reflexivity|exact Hs'].
Qed.

Lemma elect_replicated : replicated demo_group_id {[1; 2; 3]} elect_c.
Proof.
  intros j sj lj n e [-> _]%elect_c_node Hlj He. exists {[1; 2; 3]}.
  split; [set_solver|]. split; [by vm_compute|].
  intros h Hh. exists (elect_node h), lj. split; [apply elect_c_lookup; set_solver|].
  split; [|exact He].
  rw (log_at_unique _ _ _ _ Hlj (holds_log _ _ _ _ (elect_holds j))).
  exact (holds_log _ _ _ _ (elect_holds h)).
Qed.

(** The member 1 is elected after the member 2 has led. *)
Lemma elect_reigns : reigns demo_group_id {[1; 2; 3]} elect_c 2 elect_c 1.
Proof.
  apply (reigns_next _ _ _ _ elect_c 2 elect_c 1 (elect_node 1)).
  - apply reigns_first. exists (elect_node 2). apply elect_c_lookup. by right; left.
  - exact elect_replicated.
  - exact (wins_elected demo_group_id elect_c {[1; 2; 3]} 1 (elect_node 1) elect_wins).
Qed.

Lemma reigns_implement_witness :
  ∃ a, implements demo_group_id elect_c a ∧ Spec.top 1 a.
Proof.
  exact (proj2 (reigns_implement demo_group_id {[1; 2; 3]} elect_c (demo_log 1) 2 elect_c 1
    mem_reliable elect_starts elect_reigns)).
Defined.

Lemma winner_up_to_date_witness : up_to_date demo_group_id elect_c (elect_node 1).
Proof.
  apply (winner_up_to_date demo_group_id elect_c elect_c (demo_log 1) {[1; 2; 3]} 1
    (elect_node 1) mem_reliable elect_starts (rtc_refl _ _) elect_wins).
  exact elect_replicated.
Defined.

(** * Voters and the leader before

    Voting does not keep a member from taking the entries of the leader before: nothing
    compares the terms of the two, and the leader that a candidate follows stays the
    one it had. *)
Section voter.
Context {W : World} {F : RaftFns}.

(** The rest of the node follows whom it followed. *)
Definition keeps_leader (m : nat) (env : Z → Server.t → Server.t) : Prop :=
  ∀ k s rt, Server.rtgroups s !! m = Some rt →
    ∃ rt', Server.rtgroups (env k s) !! m = Some rt' ∧ RTGroup.Leader rt' = RTGroup.Leader rt.

Lemma polls_leader env m req vote w s o rt :
  keeps_leader m env → polls env m req vote w s o → Server.rtgroups s !! m = Some rt →
  ∃ rt', Server.rtgroups o.2 !! m = Some rt' ∧ RTGroup.Leader rt' = RTGroup.Leader rt.
Proof.
  intros Henv Hp. revert rt. induction Hp as [w s rt1 o s' Hrt Hr Hw _ IH|w s rt1 s' Hrt Hr Hw|w s rt1 s' Hrt Hr|w s s' Hrt];
    intros rt Hm; destruct (Henv w (Server.upd_now (Z.add (interval * Millisecond)) s) rt Hm) as (rt' & Hm' & Hl);
    fold s' in Hm'.
  - destruct (IH _ Hm') as (rt2 & Hm2 & Hl2). exists rt2. split; [done|congruence].
  - by exists rt'.
  - exists (record_vote req rt1). split; [apply lookup_insert_eq|]. cbn. congruence.
  - congruence.
Qed.

Lemma RequestVote_leader env m req s o rt g :
  keeps_leader m env → has_group s m rt g → RequestVote env m req s = o →
  ∃ rt', Server.rtgroups o.2 !! m = Some rt' ∧ RTGroup.Leader rt' = RTGroup.Leader rt.
Proof.
  intros Henv Hg <-. rw (RequestVote_run _ _ _ _ _ _ Hg). destruct Hg as [Hm _].
  destruct (LastLogEntry _ _) as [e|]; [|by exists rt]. cbv zeta.
  destruct (refuses _ _ _ _); [by exists rt|].
  refine (polls_leader _ _ _ _ _ _ _ _ Henv (lazy_vote_polls _ _ _ _ _ _ _ _ _) Hm);
    change intervalCount with 20; lia.
Qed.

Definition with_term (term : Z) (req : AppendEntriesRequest.t) : AppendEntriesRequest.t :=
  AppendEntriesRequest.mk (AppendEntriesRequest.Group req) term
    (AppendEntriesRequest.LeaderId req) (AppendEntriesRequest.PrevLogIndex req)
    (AppendEntriesRequest.PrevLogTerm req) (AppendEntriesRequest.Signature req)
    (AppendEntriesRequest.QuorumVotes req) (AppendEntriesRequest.Entries req).

Lemma bind_congr {A B} (p p' : MS A) (f f' : A → MS B) s :
  p s = p' s → (∀ a s, f a s = f' a s) → (p ≫= f) s = (p' ≫= f') s.
Proof. intros Hp Hf. rw (bind_ext p f f' s Hf). unfold mbind, M_bind. by rw Hp. Qed.

(** The leader that is followed needs no term. *)
Lemma AppendEntries_any_term m req term s rt g gid l :
  has_group s m rt g → holds s m gid l → AppendEntriesRequest.LeaderId req = RTGroup.Leader rt →
  AppendEntries m (with_term term req) s = AppendEntries m req s.
Proof.
  intros Hg Hh Hl. assert (accept_leader m (with_term term req) s = accept_leader m req s) as Hacc.
  { unfold accept_leader. rw !(bind_Ok _ _ _ _ _ (run_load_rt _ _ _ (proj1 Hg))).
    apply bind_ext. intros g' ?. cbn [with_term AppendEntriesRequest.LeaderId].
    by rw Hl Z.eqb_refl andb_false_r. }
  assert (load_group (RTGroup.Group rt) s = (Ok g, s)) as Hlg.
  { unfold load_group, get_state, unwrap, mbind, M_bind. by rw (proj2 Hg). }
  unfold AppendEntries. rw !(bind_Ok _ _ _ _ _ (run_load_rt _ _ _ (proj1 Hg))).
  rw !(bind_Ok _ _ _ _ _ Hlg) !(bind_Ok _ _ _ _ _ (run_LastEntryHash _ _ _ _ Hh))
    !(bind_Ok _ _ _ _ _ (run_LastEntryIndex _ _ _ _ Hh)) !(bind_Ok _ _ _ _ _ (run_server_sign _ _))
    !(bind_Ok _ _ _ _ _ (eq_refl : gets Server.Id s = (Ok (Server.Id s), s))).
  change (AppendEntriesRequest.LeaderId (with_term term req)) with (AppendEntriesRequest.LeaderId req).
  destruct (RTGroup.GroupPeers rt !! _) as [p|]; [|done].
  exact (bind_congr _ _ _ _ _ Hacc (λ a s, eq_refl)).
Qed.

End voter.

(** * An answered command that is overtaken

    Five members with one entry each. The member 1 leads, takes a command and answers
    it; nothing it sends arrives. The member 2 asks the others, gets the votes of 3, 4
    and 5, and takes another command under the same number. *)
Definition five_peers : gmap Z Peer.t :=
  list_to_map ((λ n, (n, Peer.mk n demo_group_id 2 1)) <$> [1; 2; 3; 4; 5]).

Definition five_db : store := foldl put_member (demo_db 1 (demo_log 1)) [4; 5].

Definition five_node (self role : Z) : Server.t :=
  Server.mk self (Options.mk "db" (Itoa self) [] 0) five_db {[ 10 := Fn_user 0 ]}
    (sm_set sm_empty (id_key demo_group_id) 0%nat) ∅ ∅ sm_empty sm_empty sm_empty self
    {[ 0%nat := RTGroup.mk 1 0 0 five_peers 0 0 role [] ∅ false ]}
    {[ 0%nat := RaftGroup.mk 5 demo_group_id 1 ]} 0 [] [].

Definition five_request : RequestVoteRequest.t :=
  let request := RequestVoteRequest.mk demo_group_id 2 1 1 2 [] in
  RequestVoteRequest.set_Signature
    (Sign (W:=mem_world) 2 (RequestVoteRequestSignData request)) request.

Definition five_vote (n : Z) : RequestVoteResponse.t :=
  match (RequestVote idle 0 five_request (five_node n CANDIDATE)).1 with
  | Ok vote => vote
  | _ => demo_own_ballot
  end.

Definition five_input : round_input :=
  mk_input [(3, five_vote 3); (4, five_vote 4); (5, five_vote 5)] id [] [].

Definition five_first : outcome CommandResponse.t * Server.t :=
  RPC.ExecCommand (demo_signed 4) no_forward [] (five_node 1 LEADER).

Definition five_elected : outcome unit * Server.t :=
  time_wheel 0 five_input (five_node 2 FOLLOWER).

Definition five_second : outcome CommandResponse.t * Server.t :=
  RPC.ExecCommand (demo_signed 5) no_forward [] five_elected.2.

Lemma five_holds self role : holds (five_node self role) 0 demo_group_id (demo_log 1).
Proof.
  split; [|done|].
  - eexists _, _. split; [split; reflexivity|reflexivity].
  - apply put_members_at. exact (demo_db_log 1 1 eq_refl).
Qed.

Lemma five_on_board self role : sm_get (Server.GroupsOnboard (five_node self role)) (id_key demo_group_id) = Some 0%nat.
Proof. exact (sm_get_set _ _ _). Qed.

Lemma five_elected_holds : holds five_elected.2 0 demo_group_id (demo_log 1).
Proof.
  unfold five_elected. apply (holds_frame (five_node 2 FOLLOWER)); [|apply five_holds].
  apply (frame_time_wheel 0 five_input (five_node 2 FOLLOWER)).
  - intros s. reflexivity.
  - intros rt Hrt. change (Some (RTGroup.mk 1 0 0 five_peers 0 0 FOLLOWER [] ∅ false) = Some rt) in Hrt.
    injection Hrt as <-. discriminate.
Qed.

Lemma five_elected_on_board : sm_get (Server.GroupsOnboard five_elected.2) (id_key demo_group_id) = Some 0%nat.
Proof. by vm_compute. Qed.

Lemma five_indices :
  LastEntryIndex (Server.DB five_first.2) demo_group_id = 2 ∧
  LastEntryIndex (Server.DB five_second.2) demo_group_id = 2.
Proof. split; by vm_compute. Qed.

Lemma answered (p : outcome CommandResponse.t * Server.t (W:=mem_world)) result :
  match p.1 with Ok r => CommandResponse.Result r = result | _ => False end →
  ∃ r, p = (Ok r, p.2) ∧ CommandResponse.Result r = result.
Proof. destruct p as [[r|e|w] s]; simpl; intros Hr; [by exists r|done..]. Qed.

Lemma five_first_answer : ∃ r, five_first = (Ok r, five_first.2) ∧ CommandResponse.Result r = [4].
Proof. apply answered. by vm_compute. Qed.

Lemma five_second_answer : ∃ r, five_second = (Ok r, five_second.2) ∧ CommandResponse.Result r = [5].
Proof. apply answered. by vm_compute. Qed.

Lemma five_elected_ok : five_elected = (Ok tt, five_elected.2).
Proof. assert (five_elected.1 = Ok tt) as <- by (by vm_compute). apply surjective_pairing. Qed.

Definition is_request (c : rpc) : bool :=
  match c with Rpc_RequestVote _ req => bool_decide (req = five_request) | _ => false end.

Lemma find_request (calls : list rpc) :
  existsb is_request calls = true → ∃ addr, Rpc_RequestVote addr five_request ∈ calls.
Proof.
  intros (c & Hin & Hc)%existsb_exists. destruct c as [? ?|addr req|? ?|? ?|? ?|? ?]; try discriminate Hc.
  apply bool_decide_eq_true in Hc. exists addr. apply list_elem_of_In. rw -Hc. exact Hin.
Qed.

Lemma five_request_sent : ∃ addr, Rpc_RequestVote addr five_request ∈ Server.calls five_elected.2.
Proof. apply find_request. by vm_compute. Qed.

Lemma five_voted n :
  n = 3 ∨ n = 4 ∨ n = 5 →
  ∃ s', RequestVote idle 0 five_request (five_node n CANDIDATE) = (Ok (five_vote n), s').
Proof.
  intros Hn. exists (RequestVote idle 0 five_request (five_node n CANDIDATE)).2.
  assert ((RequestVote idle 0 five_request (five_node n CANDIDATE)).1 = Ok (five_vote n)) as <-
    by (destruct Hn as [-> | [-> | ->]]; by vm_compute).
  apply surjective_pairing.
Qed.

Lemma votes_by_name {A} (f : Z → A) v a :
  (v, a) ∈ [(3, f 3); (4, f 4); (5, f 5)] → (v = 3 ∨ v = 4 ∨ v = 5) ∧ a = f v.
Proof.
  intros [[= -> ->]|[[= -> ->]|[[= -> ->]|?%not_elem_of_nil]%elem_of_cons]%elem_of_cons]%elem_of_cons;
    [by split; [left|]|by split; [right; left|]|by split; [right; right|]|done].
Qed.

Lemma five_entries_differ g1 g2 l :
  next_entry g1 l (demo_signed 4) ≠ next_entry g2 l (demo_signed 5).
Proof. intros H%(f_equal (λ e, CommandRequest.RequestId <$> LogEntry.Command e)). discriminate H. Qed.

(** A command that its client has an answer to can be lost: a leader answers before
    any other member has the entry, another member is elected with the votes of a
    quorum, honestly given, and answers another command, which takes the same place
    in its log. *)
Theorem answered_command_overtaken :
  ∃ (s1 s2 s2' : Server.t (W:=mem_world)) l cmd1 cmd2 r1 r2 s1' s2'' req input g1 g2,
    holds s1 0 demo_group_id l ∧ holds s2 0 demo_group_id l ∧ chained demo_group_id l ∧
    RPC.ExecCommand cmd1 no_forward [] s1 = (Ok r1, s1') ∧ CommandResponse.Result r1 = [4] ∧
    time_wheel 0 input s2 = (Ok tt, s2') ∧ req ∈ Server.calls s2' ∧
    (∀ v vote, (v, vote) ∈ in_votes input → ∃ sv sv' addr r,
      holds sv 0 demo_group_id l ∧ req = Rpc_RequestVote addr r ∧
      RequestVote idle 0 r sv = (Ok vote, sv')) ∧
    RPC.ExecCommand cmd2 no_forward [] s2' = (Ok r2, s2'') ∧ CommandResponse.Result r2 = [5] ∧
    log_at (Server.DB s1') demo_group_id (l ++ [next_entry g1 l cmd1]) ∧
    log_at (Server.DB s2'') demo_group_id (l ++ [next_entry g2 l cmd2]) ∧
    next_entry g1 l cmd1 ≠ next_entry g2 l cmd2.
Proof.
  destruct five_request_sent as [addr Hreq], five_first_answer as (r1 & H1 & Hr1),
    five_second_answer as (r2 & H2 & Hr2).
  destruct (command_taken (demo_signed 4) no_forward [] (five_node 1 LEADER) (demo_log 1) eq_refl
    eq_refl (five_holds 1 LEADER) (five_on_board 1 LEADER) (proj1 five_indices)) as [g1 Hg1].
  destruct (command_taken (demo_signed 5) no_forward [] five_elected.2 (demo_log 1) eq_refl
    eq_refl five_elected_holds five_elected_on_board (proj2 five_indices)) as [g2 Hg2].
  exists (five_node 1 LEADER), (five_node 2 FOLLOWER), five_elected.2, (demo_log 1), (demo_signed 4),
    (demo_signed 5), r1, r2, five_first.2, five_second.2, (Rpc_RequestVote addr five_request),
    five_input, g1, g2.
  split; [exact (five_holds 1 LEADER)|]. split; [exact (five_holds 2 FOLLOWER)|].
  split; [exact (demo_chain 1 1 _ 1)|]. split; [exact H1|]. split; [exact Hr1|].
  split; [exact five_elected_ok|]. split; [exact Hreq|]. split.
  - intros v vote Hin. destruct (votes_by_name five_vote v vote Hin) as [Hv ->].
    destruct (five_voted v Hv) as [sv' Hsv]. exists (five_node v CANDIDATE), sv', addr, five_request.
    split; [exact (five_holds v CANDIDATE)|]. split; [reflexivity|exact Hsv].
  - split; [exact H2|]. split; [exact Hr2|]. split; [exact Hg1|]. split; [exact Hg2|].
    apply five_entries_differ.
Qed.

(** * The vote of a follower of another

    The members 3 and 4 vote for 2 and then take the entry of 1, which 1, 3 and 4 then
    hold and execute, a quorum; but 2 wins, without it. *)
Definition five_append (n : Z) : option AppendEntriesRequest.t :=
  head (omap (λ c, match c with
    | Rpc_AppendEntries addr req => if decide (addr = Host.ServerAddr (demo_host n)) then Some req else None
    | _ => None end) (Server.calls five_first.2)).

Definition five_voter (n : Z) : Server.t := (RequestVote idle 0 five_request (five_node n CANDIDATE)).2.

Definition five_batch (n : Z) : AppendEntriesRequest.t := default demo_batch (five_append n).

Definition five_taken (n : Z) : outcome AppendEntriesResponse.t * Server.t :=
  AppendEntries 0 (five_batch n) (five_voter n).

Definition stored (p : outcome AppendEntriesResponse.t * Server.t (W:=mem_world)) : bool :=
  match p.1 with Ok r => AppendEntriesResponse.Successed r | _ => false end.

Lemma stored_run p : stored p = true → ∃ r, p = (Ok r, p.2) ∧ AppendEntriesResponse.Successed r = true.
Proof. destruct p as [[r|e|w] s]; intros Hr; [by exists r|done..]. Qed.

Lemma five_taken_run :
  ∃ r, five_taken 3 = (Ok r, (five_taken 3).2) ∧ AppendEntriesResponse.Successed r = true.
Proof. apply stored_run. by vm_compute. Qed.

Lemma five_voter_holds n : holds (five_voter n) 0 demo_group_id (demo_log 1).
Proof.
  apply (holds_frame (five_node n CANDIDATE)); [|apply five_holds].
  apply (frame_RequestVote idle 0 five_request (λ k s, reflexivity s)).
Qed.

Lemma five_batch_short :
  Z.of_nat (length (demo_log 1) + length (AppendEntriesRequest.Entries (five_batch 3))) < 2 ^ 64 - 1.
Proof. assert (length (AppendEntriesRequest.Entries (five_batch 3)) = 1%nat) as -> by (by vm_compute). done. Qed.

Lemma five_batch_continues : continues demo_group_id (demo_log 1) (five_batch 3).
Proof.
  destruct five_taken_run as (r & Hrun & Hr). unfold five_taken in Hrun at 1.
  destruct (AppendEntries_cases 0 (five_batch 3) (five_voter 3) (five_taken 3).2 r demo_group_id
    (demo_log 1) mem_reliable (five_voter_holds 3) five_batch_short Hrun) as (_ & Hiff & _).
  by apply Hiff.
Qed.

Lemma five_batch_leader : AppendEntriesRequest.LeaderId (five_batch 3) = 1.
Proof. by vm_compute. Qed.

Lemma five_granted : RequestVoteResponse.Granted (five_vote 3) = true.
Proof. by vm_compute. Qed.

Lemma five_voter_run :
  RequestVote idle 0 five_request (five_node 3 CANDIDATE) = (Ok (five_vote 3), five_voter 3).
Proof. destruct (five_voted 3 (or_introl eq_refl)) as [s' Hs]. unfold five_voter. by rw Hs. Qed.

Definition five_rt : RTGroup.t := RTGroup.mk 1 0 0 five_peers 0 0 CANDIDATE [] ∅ false.

Lemma five_rt_group : has_group (five_node 3 CANDIDATE) 0 five_rt (RaftGroup.mk 5 demo_group_id 1).
Proof. by split. Qed.

Lemma five_term_1 : is_u64 (RaftGroup.Term (RaftGroup.mk 5 demo_group_id 1)).
Proof. done. Qed.

Lemma five_term_2 : is_u64 (RequestVoteRequest.Term five_request).
Proof. done. Qed.

