(* ===== verification/Elected.v ===== *)
(** From an election to the followers: the requests of a candidate that wins with honest
    votes carry these votes, and every member that is not in a later term takes it for
    the leader. *)
From S2P Require Export Succession CatchUp.

Section elected.
Context {W : World} {F : RaftFns}.

(** * Honest votes *)

Lemma polls_granted env m req vote w s o :
  polls env m req vote w s o → ∀ vote', o.1 = Ok vote' →
  RequestVoteResponse.Granted vote = false → RequestVoteResponse.Granted vote' = true →
  vote' = sign_vote (Server.SigningKey o.2) (RequestVoteResponse.set_Granted true vote).
Proof.
  induction 1; intros vote' Hv Hno Hyes; [auto|injection Hv as <-; congruence|by injection Hv as <-|done].
Qed.

(** A granted vote names its voter, the group and the candidate, and is signed. *)
Lemma granted_vote env m req s rt g vote s' :
  has_group s m rt g → RequestVote env m req s = (Ok vote, s') →
  RequestVoteResponse.Granted vote = true →
  RequestVoteResponse.Voter vote = Server.Id s ∧ RequestVoteResponse.Group vote = RaftGroup.Id g ∧
  RequestVoteResponse.CandidateId vote = RequestVoteRequest.CandidateId req ∧
  VerifySign (Some (PublicKeyFromPrivate (Server.SigningKey s')))
    (RequestVoteResponse.Signature vote) (RequestVoteResponseSignData vote) = Ok true.
Proof.
  intros Hg. rw (RequestVote_run env m req s rt g Hg).
  destruct (LastLogEntry _ _) as [e|]; [|done]. cbv zeta.
  destruct (refuses _ _ _ _); [by intros [= <- _]|]. intros Hrun Hgr.
  pose proof (lazy_vote_polls env m req (sign_vote (Server.SigningKey s) (ballot s g e req))
    (Z.to_nat intervalCount) 0 s ltac:(done) ltac:(change intervalCount with 20; lia)) as Hp.
  rw Hrun in Hp. rw (polls_granted _ _ _ _ _ _ _ Hp vote eq_refl eq_refl Hgr).
  split; [done|]. split; [done|]. split; [done|]. apply VerifySign_Sign.
Qed.

(** The member [v], whose key is [key], gave this vote to the candidate. *)
Definition honest (gid cand v : Z) (key : PrivateKey) (vote : RequestVoteResponse.t) : Prop :=
  ∃ env req sv sv', boards sv ∧ Server.Id sv = v ∧ Server.SigningKey sv' = key ∧
    RequestVoteRequest.Group req = gid ∧ RequestVoteRequest.CandidateId req = cand ∧
    RPC.RequestVote env req sv = (Ok vote, sv').

Lemma honest_granted gid cand v key vote :
  is_u64 gid → honest gid cand v key vote → RequestVoteResponse.Granted vote = true →
  RequestVoteResponse.Voter vote = v ∧ RequestVoteResponse.Group vote = gid ∧
  RequestVoteResponse.CandidateId vote = cand ∧
  VerifySign (Some (PublicKeyFromPrivate key)) (RequestVoteResponse.Signature vote)
    (RequestVoteResponseSignData vote) = Ok true.
Proof.
  intros Hu (env & req & sv & sv' & Hb & <- & <- & Hg & <- & Hrun) Hgr. unfold RPC.RequestVote in Hrun.
  rw (bind_Ok _ _ _ _ _ (eq_refl : GetOnboardGroup (RequestVoteRequest.Group req) sv = (Ok _, sv)))
    Hg in Hrun.
  destruct (sm_get _ _) as [m|] eqn:Hm; [|done].
  destruct (on_board_record _ _ _ Hb Hu Hm) as (rt & g & Hgrp & <-).
  exact (granted_vote _ _ _ _ _ _ _ _ Hgrp Hrun Hgr).
Qed.

(** * The follower *)

(** A member that knows the same members, and their keys. *)
Record knows_members (gid : Z) (peers : gset Z) (keys : Z → PrivateKey) (m : nat) (s : Server.t)
    (rt : RTGroup.t) (g : RaftGroup.t) : Prop := {
  knows_group : has_group s m rt g;
  knows_id : RaftGroup.Id g = gid;
  knows_keyed : peers_keyed (RTGroup.GroupPeers rt);
  knows_peers : dom (RTGroup.GroupPeers rt) = peers;
  knows_keys v : v ∈ peers → key_of s v = Ok (Some (PublicKeyFromPrivate (keys v)))
}.

(** Votes that vouch for the candidate. *)
Record honest_quorum (gid cand : Z) (peers : gset Z) (keys : Z → PrivateKey)
    (votes : list RequestVoteResponse.t) : Prop := {
  honest_enough : ExpectedPlayers (Z.of_nat (size peers)) ≤ Z.of_nat (length votes);
  honest_voters : ∃ voters, NoDup voters ∧ Forall2 (λ v vote, v ∈ peers ∧
    honest gid cand v (keys v) vote ∧ RequestVoteResponse.Granted vote = true) voters votes
}.

Lemma honest_quorum_vouches gid cand peers keys votes m s rt g req :
  is_u64 gid → knows_members gid peers keys m s rt g → honest_quorum gid cand peers keys votes →
  AppendEntriesRequest.QuorumVotes req = votes → AppendEntriesRequest.LeaderId req = cand →
  votes_checkable s rt req ∧ ∃ voters, vouched s rt (RaftGroup.Id g) req voters.
Proof.
  intros Hu [Hg Hid Hkd Hdom Hkeys] [Hen (voters & Hnd & HF)] Hvotes Hcand. split.
  - intros vote p (i & Hi)%list_elem_of_lookup Hp. rw Hvotes in Hi.
    destruct (Forall2_lookup_r _ _ _ _ _ HF Hi) as (v & _ & Hv & Hh & Hgr).
    destruct (honest_granted _ _ _ _ _ Hu Hh Hgr) as (Hvoter & _).
    rw (Hkd _ _ Hp) Hvoter. eexists. by apply Hkeys.
  - exists (list_to_set voters). split.
    + rw -size_dom Hdom size_list_to_set // (Forall2_length _ _ _ HF). exact Hen.
    + intros v (i & Hi)%elem_of_list_to_set%list_elem_of_lookup.
      destruct (Forall2_lookup_l _ _ _ _ _ HF Hi) as (vote & Hvote & Hv & Hh & Hgr).
      destruct (honest_granted _ _ _ _ _ Hu Hh Hgr) as (Hvoter & Hgroup & Hc & Hsig).
      exists vote. rw Hvotes. split; [by apply list_elem_of_lookup_2 in Hvote|].
      assert (is_Some (RTGroup.GroupPeers rt !! v)) as [p Hp] by (apply elem_of_dom; by rw Hdom).
      split; [exists p; rw Hvoter; by split; [|apply Hkd]| |congruence|congruence|done].
      eexists. split; [by apply Hkeys|exact Hsig].
Qed.

(** The request of such a leader is accepted. *)
Lemma honest_leader_accepted gid cand peers keys votes m s rt g req :
  is_u64 gid → knows_members gid peers keys m s rt g → honest_quorum gid cand peers keys votes →
  AppendEntriesRequest.QuorumVotes req = votes → AppendEntriesRequest.LeaderId req = cand →
  RaftGroup.Term g ≤ AppendEntriesRequest.Term req →
  ∃ s' rt' g', accept_leader m req s = (Ok tt, s') ∧ has_group s' m rt' g' ∧
    RTGroup.Leader rt' = cand ∧
    (RTGroup.Leader rt ≠ cand → RTGroup.Role rt' = FOLLOWER ∧
      g' = RaftGroup.set_Term (AppendEntriesRequest.Term req) g).
Proof.
  intros Hu Hk Hq Hvotes Hcand Hterm. pose proof (knows_group _ _ _ _ _ _ _ Hk) as Hg.
  destruct (honest_quorum_vouches _ _ _ _ _ _ _ _ _ _ Hu Hk Hq Hvotes Hcand) as [Hcheck Hvouched].
  unfold accept_leader. rw (bind_Ok _ _ _ _ _ (run_load_rt _ _ _ (proj1 Hg)))
    (bind_Ok _ _ _ _ _ (run_group_of _ _ _ _ Hg)) Hcand.
  destruct (Z.eqb_spec cand (RTGroup.Leader rt)) as [Heq|Hne]; cbn [negb].
  { rw andb_false_r. exists s, rt, g. split; [done|]. split; [done|]. split; [done|]. by intros []. }
  assert (0 < length votes)%nat as Hlen.
  { pose proof (honest_enough _ _ _ _ _ Hq).
    pose proof (ExpectedPlayers_bounds (Z.of_nat (size peers)) ltac:(lia)). lia. }
  rw Hvotes (proj2 (Nat.ltb_lt _ _) Hlen) (proj2 (Z.ltb_ge _ _) Hterm). cbn [andb].
  destruct (BecomeFollower_returns m req rt g s Hg Hcheck) as (b & s' & Hrun).
  destruct (BecomeFollower_cases _ _ _ _ _ _ _ Hg Hrun) as [Hb Hs].
  apply Hb in Hvouched as ->. destruct Hs as [t Hs]. rw (bind_Ok _ _ _ _ _ Hrun).
  eexists s', _, _. split; [done|]. split; [exact Hs|]. by rw -Hcand.
Qed.

(** * What a heartbeat says *)

Lemma speaks_kept m s s1 req : kept s s1 → speaks_for m s1 req → speaks_for m s req.
Proof.
  intros [Hi Hr Hg _ _ _] [Hl Ht]. split; [congruence|]. intros rt g [H1 H2]. rw -Hi. apply Ht.
  split; [by rw Hr|by rw Hg].
Qed.

(** The requests sent on the way from [s] to [s'] speak for the node as it is in [s]. *)
Definition speaking (m : nat) (s s' : Server.t) : Prop := ∀ addr req,
  Rpc_AppendEntries addr req ∈ Server.calls s' →
  Rpc_AppendEntries addr req ∈ Server.calls s ∨ speaks_for m s req.

Lemma send_heartbeat_speaks m gid l f peer s o s' :
  holds s m gid l → send_heartbeat m f peer s = (o, s') → kept s s' ∧ speaking m s s'.
Proof.
  intros Hh Hrun. destruct (decide (f = Server.Id s)) as [->|Hne].
  { unfold send_heartbeat in Hrun.
    rw (bind_Ok _ _ _ _ _ (eq_refl : gets Server.Id s = (Ok (Server.Id s), s))) Z.eqb_refl in Hrun.
    injection Hrun as _ <-. split; [reflexivity|]. by left. }
  destruct (send_heartbeat_run m f peer s gid l Hh Hne) as (req & _ & Hreq & Heq). rw Heq in Hrun.
  assert (kept s (cache_host s f) ∧ speaking m s (cache_host s f)) as Hcache.
  { split; [rw -(upd_calls_same (cache_host s f)); apply kept_cache|].
    intros addr r. rw cache_host_calls. by left. }
  destruct (read_host s f) as [h|]; [|by injection Hrun as _ <-].
  destruct (W_dial _); [|by injection Hrun as _ <-]. injection Hrun as _ <-.
  split; [exact (kept_cache s f (_ :: Server.calls (cache_host s f)))|].
  cbn. intros addr r [[= -> ->]|Hin]%elem_of_cons; [by right|left]. by rw cache_host_calls in Hin.
Qed.

Lemma send_heartbeats_speaks m gid l peers n s o s' :
  holds s m gid l → send_heartbeats m peers n s = (Ok o, s') → kept s s' ∧ speaking m s s'.
Proof.
  revert n s. induction peers as [|[i q] peers IH]; intros n s Hh Hrun.
  { injection Hrun as _ <-. split; [reflexivity|]. by left. }
  cbn [send_heartbeats] in Hrun. apply bind_Ok_inv in Hrun as (sent & s1 & H1 & Hrun).
  destruct (send_heartbeat_speaks _ _ _ _ _ _ _ _ Hh H1) as [Hk1 Hs1].
  destruct sent as [b|]; [|by injection Hrun as _ <-].
  destruct (IH _ _ (kept_holds m gid l _ _ Hk1 Hh) Hrun) as [Hk2 Hs2]. split; [by transitivity s1|].
  intros addr r [Hin|Hr]%Hs2; [by apply Hs1|right]. exact (speaks_kept _ _ _ _ Hk1 Hr).
Qed.

Lemma process_responses_calls m (replies : nat → option AppendEntriesResponse.t) is_ s s' rt g :
  has_group s m rt g → for_each (λ i, process_response m (replies i)) is_ s = (Ok tt, s') →
  Server.calls s' = Server.calls s.
Proof.
  revert s rt. induction is_ as [|i is_ IH]; intros s rt Hg; [by intros [= <-]|].
  cbn [for_each]. intros ([] & s1 & H1 & Hrun)%bind_Ok_inv. destruct (replies i) as [r|].
  - destruct (process_response_run _ _ _ _ _ _ Hg H1) as (rt1 & Hg1 & Hu & _).
    by rw (IH _ _ Hg1 Hrun) (untouched_calls _ _ Hu).
  - injection H1 as <-. exact (IH _ _ Hg Hrun).
Qed.

Lemma SendFollowersHeartbeat_speaks m gid l replies s s' rt g :
  holds s m gid l → has_group s m rt g → SendFollowersHeartbeat m replies s = (Ok tt, s') →
  speaking m s s'.
Proof.
  intros Hh Hg Hrun. unfold SendFollowersHeartbeat in Hrun.
  destruct (run_RefreshTimer s m rt g 1 Hg) as [Hr Hg1]. cbv zeta in Hr, Hg1.
  set (rt1 := RTGroup.upd_Timeout _ rt) in *. set (s1 := set_rt m rt1 _) in *.
  rw (bind_Ok _ _ _ _ _ Hr) (bind_Ok _ _ _ _ _ (run_load_rt _ _ _ (proj1 Hg1))) in Hrun.
  assert (holds s1 m gid l) as Hh1 by (refine (holds_preserved _ _ _ _ _ _ _ _ Hr Hh); solve_frame).
  apply bind_Ok_inv in Hrun as (o & s2 & H2 & Hrun).
  destruct (send_heartbeats_speaks _ _ _ _ _ _ _ _ Hh1 H2) as [Hk2 Hs2].
  assert (Server.calls s' = Server.calls s2) as Hcalls.
  { destruct o as [n|]; [|by injection Hrun as <-].
    refine (process_responses_calls m (λ i, default None (replies !! i)) _ s2 s' rt1 g _ Hrun).
    destruct Hg1 as [H1 H3]. split; [by rw (kept_rt _ _ Hk2)|by rw (kept_groups _ _ Hk2)]. }
  intros addr r. rw Hcalls. intros [Hin|[Hl Ht]]%Hs2; [by left|right]. split; [exact Hl|].
  intros rt' g' [Hm Hp]. destruct Hg as [Hm0 Hp0].
  assert (rt' = rt) as -> by congruence. assert (g' = g) as -> by congruence.
  exact (Ht rt1 g Hg1).
Qed.

(** * The candidate *)

Context (m : nat) (gid : Z).

(** Steps that leave this node's record of the group alone and send its followers
    nothing. *)
Record steady (s s' : Server.t) : Prop := {
  steady_id : Server.Id s' = Server.Id s;
  steady_group rt g : has_group s m rt g → has_group s' m rt g;
  steady_sent addr req : AppendEntriesRequest.Group req = gid →
    Rpc_AppendEntries addr req ∈ Server.calls s' → Rpc_AppendEntries addr req ∈ Server.calls s
}.

#[export] Instance steady_preorder : PreOrder steady.
Proof using.
  split; [by split|]. intros s1 s2 s3 [I1 G1 C1] [I2 G2 C2].
  split; [congruence|auto|eauto].
Qed.

Lemma quiet_steady s s' : quiet s s' → steady s s'.
Proof using. by intros (h & k & ->). Qed.

Lemma steady_quiet {A} (p : MS A) : preserves quiet p → preserves steady p.
Proof using. intros Hp s. apply quiet_steady, Hp. Qed.

Lemma steady_ask_votes request peers : preserves steady (ask_votes request peers).
Proof using.
  unfold ask_votes, GetClusterRPC, call. solve_preserves.
  - apply steady_quiet, quiet_GetHostNTXN.
  - split; [done..|]. cbn. by intros addr req _ [?|?]%elem_of_cons.
Qed.

Lemma steady_collect_votes lastEntry expected asked replies votes :
  preserves steady (collect_votes lastEntry expected asked replies votes).
Proof using. intros s. apply quiet_steady, same_quiet, same_collect_votes. Qed.

Lemma ask_votes_asked request (peers : list (Z * Peer.t)) (asked0 asked : gset Z) s s' :
  fold_each (λ (asked : gset Z) '(_, peer),
    let nodeId := Peer.Id peer in
    node ← GetHostNTXN nodeId;
    node ← unwrap node;
    client ← GetClusterRPC (Host.ServerAddr node);
    if (client : bool) then
      _ ← call (Rpc_RequestVote (Host.ServerAddr node) request);
      mret ({[nodeId]} ∪ asked)
    else mret asked) peers asked0 s = (Ok asked, s') →
  ∀ v, v ∈ asked → v ∈ asked0 ∨ ∃ i p, (i, p) ∈ peers ∧ Peer.Id p = v.
Proof using.
  revert asked0 s. induction peers as [|[i p] peers IH]; intros asked0 s Hrun v Hv.
  { injection Hrun as <- _. by left. }
  cbn [fold_each] in Hrun. apply bind_Ok_inv in Hrun as (asked1 & s1 & H1 & Hrun).
  destruct (IH _ _ Hrun v Hv) as [Hin|(j & q & Hin & <-)]; [|right; exists j, q; by split; [right|]].
  cbv zeta in H1. rw (bind_Ok _ _ _ _ _ (GetHostNTXN_run _ _)) in H1.
  apply bind_Ok_inv in H1 as (node & s2 & _ & H1). cbv [GetClusterRPC mbind M_bind mret M_ret] in H1.
  destruct (W_dial _); [|injection H1 as <- _; by left]. injection H1 as <- _.
  apply elem_of_union in Hin as [->%elem_of_singleton|?]; [|by left].
  right. exists i, p. by split; [left|].
Qed.

(** Steps that change no host and no key that the node knows. *)
Definition same_keys (s s' : Server.t) : Prop :=
  ∀ id, read_host s' id = read_host s id ∧ read_key s' id = read_key s id.

#[export] Instance same_keys_preorder : PreOrder same_keys.
Proof using.
  split; [by intros s id|]. intros s1 s2 s3 H1 H2 id. destruct (H1 id), (H2 id). split; congruence.
Qed.

Lemma same_keys_answers s s' : same_answers s s' → same_keys s s'.
Proof using.
  intros Hs%untouched_same id. split; [apply (untouched_host _ _ Hs)|apply (untouched_key _ _ Hs)].
Qed.

Lemma same_keys_ask_votes request peers : preserves same_keys (ask_votes request peers).
Proof using.
  unfold ask_votes, GetClusterRPC, call. solve_preserves; [|done].
  intros s. rw GetHostNTXN_run. apply same_keys_answers, same_answers_GetHost.
Qed.

Lemma SaveGroup_read_host s d g id :
  SaveGroup (Server.DB s) g = Ok d → read_host (Server.upd_DB (λ _, d) s) id = read_host s id.
Proof using.
  unfold SaveGroup, proto_marshal, txn_set. destruct (marshal g) as [|b]; [done|].
  destruct (kv_set _ _ _) as [|d'] eqn:Hs; [done|]. intros [= ->]. unfold read_host. cbn.
  destruct (sm_get _ _); [done|]. rw (kv_get_set_ne _ _ _ _ (hosts_prefix ++ U64Bytes id) Hs); [|done].
  intros Heq%(f_equal (has_prefix hosts_prefix)). rw has_prefix_app in Heq.
  unfold hosts_prefix, group_key in Heq.
  rw -(app_nil_r (ComposeKeyPrefix (RaftGroup.Id g) GROUP_META)) in Heq. by rw has_prefix_kinds in Heq.
Qed.

Lemma same_keys_SaveGroup g : preserves same_keys (ignore (SaveGroupNTXN g)).
Proof using.
  intros s. destruct (run_save_group s g) as (d & -> & Hd). cbn [snd].
  assert (∀ id, read_host (Server.upd_DB (λ _, d) s) id = read_host s id) as Hh.
  { intros id. destruct Hd as [->|Hd]; [by rw upd_DB_same|exact (SaveGroup_read_host _ _ _ _ Hd)]. }
  intros id. split; [apply Hh|]. by apply (read_key_same s).
Qed.

Context (self : Z) (l : list LogEntry.t) (peers : gmap Z Peer.t) (sent0 : list rpc).

(** A candidate that has asked for votes, and is to show them to its followers. *)
Record standing (g : RaftGroup.t) (s : Server.t) : Prop := {
  standing_rt : ∃ rt, has_group s m rt g ∧ RTGroup.Role rt = CANDIDATE ∧
    RTGroup.GroupPeers rt = peers ∧ RTGroup.SendVotesForPeers rt !! self = Some true;
  standing_id : Server.Id s = self;
  standing_holds : holds s m gid l;
  standing_sent addr req : AppendEntriesRequest.Group req = gid →
    Rpc_AppendEntries addr req ∈ Server.calls s → Rpc_AppendEntries addr req ∈ sent0
}.

Lemma standing_steps g s s' : frame s s' → steady s s' → standing g s → standing g s'.
Proof using.
  intros Hf [Hi Hgr Hs] [(rt & Hg & Hrest) Hid Hh Hsent].
  split; [exists rt; split; [by apply Hgr|done]|congruence|exact (holds_frame _ _ _ _ _ Hf Hh)|eauto].
Qed.

Lemma standing_run {A} (p : MS A) g s a s' :
  preserves frame p → preserves steady p → p s = (a, s') → standing g s → standing g s'.
Proof using.
  intros Hf Hs Hrun. specialize (Hf s). specialize (Hs s). rw Hrun in Hf, Hs.
  exact (standing_steps g s s' Hf Hs).
Qed.

(** The first steps of a candidate: its role, the new term, and the save. *)
Definition candidacy : MS RaftGroup.t :=
  _ ← update_rt m (RTGroup.upd_Role (λ _, CANDIDATE));
  group ← group_of m;
  _ ← ResetTerm m (wrap64 (RaftGroup.Term group + 1));
  group ← group_of m;
  _ ← ignore (SaveGroupNTXN group);
  mret group.

Lemma candidacy_standing s rt g :
  has_group s m rt g → holds s m gid l → RTGroup.GroupPeers rt = peers →
  is_Some (peers !! self) → Server.Id s = self → Server.calls s = sent0 →
  let g' := RaftGroup.set_Term (wrap64 (RaftGroup.Term g + 1)) g in
  ∃ s', candidacy s = (Ok g', s') ∧ standing g' s'.
Proof using.
  intros Hg Hh Hpeers [p Hp] Hid Hsent. cbv zeta. set (g' := RaftGroup.set_Term _ g).
  assert (∃ s', candidacy s = (Ok g', s') ∧ Server.Id s' = self ∧ Server.calls s' = sent0 ∧
    has_group s' m (reset_rt (RTGroup.upd_Role (λ _, CANDIDATE) rt)) g') as (s' & Hrun & Hid' & Hs' & Hg').
  { unfold candidacy.
    destruct (run_update_rt _ _ _ _ (RTGroup.upd_Role (λ _, CANDIDATE)) Hg eq_refl) as [Hr1 Hg1].
    rw (bind_Ok _ _ _ _ _ Hr1) (bind_Ok _ _ _ _ _ (run_group_of _ _ _ _ Hg1)).
    destruct (ResetTerm_run _ _ _ _ (wrap64 (RaftGroup.Term g + 1)) Hg1) as (d & _ & Hr2).
    rw (bind_Ok _ _ _ _ _ Hr2). fold g'.
    destruct (run_update_group _ _ _ _ (RaftGroup.set_Term (wrap64 (RaftGroup.Term g + 1))) Hg1) as [_ Hg2].
    fold g' in Hg2. match type of Hr2 with _ = (_, ?s2) =>
      assert (has_group s2 m (reset_rt (RTGroup.upd_Role (λ _, CANDIDATE) rt)) g') as Hg3 end.
    { destruct Hg2 as [_ Hg2]. split; [apply lookup_insert_eq|exact Hg2]. }
    rw (bind_Ok _ _ _ _ _ (run_group_of _ _ _ _ Hg3)).
    match goal with |- context [mbind _ (ignore (SaveGroupNTXN ?g0)) ?s0] =>
      destruct (run_save_group s0 g0) as (d' & Hd & _) end. rw (bind_Ok _ _ _ _ _ Hd).
    eexists. split; [reflexivity|]. split; [exact Hid|]. split; [exact Hsent|exact Hg3]. }
  exists s'. split; [exact Hrun|]. split; [|exact Hid'| |by rw Hs'].
  - eexists. split; [exact Hg'|]. split; [done|]. split; [exact Hpeers|]. cbn.
    rw votes_for_lookup decide_True //. rw Hpeers.
    apply (list_elem_of_fmap_2 fst (range_map _) (self, p)). by apply elem_of_range_map.
  - refine (holds_preserved _ _ _ _ _ _ _ _ Hrun Hh). unfold candidacy. solve_frame.
    by apply frame_update_rt.
Qed.

(** What a candidate does with its votes, and before. *)
Definition leadership (votes : list RequestVoteResponse.t)
    (hb : list (option AppendEntriesResponse.t)) : MS unit :=
  _ ← (_ ← update_rt m (RTGroup.upd_Votes (λ _, votes));
       rt ← load_rt m;
       if RTGroup.Role rt =? CANDIDATE then _ ← BecomeLeader m hb; RefreshTimer m 1
       else mret tt);
  RefreshTimer m 25.

Definition count_votes (lastEntry : option LogEntry.t) (asked : gset Z)
    (replies : list (Z * RequestVoteResponse.t)) (during : Server.t → Server.t)
    (hb : list (option AppendEntriesResponse.t)) : MS unit :=
  expectedVotes ← ExpectedHonestPeers m;
  _ ← modify during;
  adequateVotes ← collect_votes lastEntry expectedVotes asked replies [];
  match adequateVotes with
  | Some votes => leadership votes hb
  | None => _ ← mret tt; RefreshTimer m 25
  end.

Definition campaign (replies : list (Z * RequestVoteResponse.t)) (during : Server.t → Server.t)
    (hb : list (option AppendEntriesResponse.t)) (group : RaftGroup.t) : MS unit :=
  lastEntry ← LastLogEntryNTXN m;
  id ← gets Server.Id;
  let request := RequestVoteRequest.mk (RaftGroup.Id group) (RaftGroup.Term group)
    (match lastEntry with Some e => LogEntry.Index e | None => 0 end)
    (match lastEntry with Some e => LogEntry.Term e | None => 0 end) id [] in
  signature ← server_sign (RequestVoteRequestSignData request);
  rt ← load_rt m;
  asked ← ask_votes (RequestVoteRequest.set_Signature signature request)
    (range_map (RTGroup.GroupPeers rt));
  count_votes lastEntry asked replies during hb.

Lemma BecomeCandidate_parts replies during hb s :
  BecomeCandidate m replies during hb s = (group ← candidacy; campaign replies during hb group) s.
Proof using.
  unfold BecomeCandidate, candidacy, campaign, count_votes, leadership, mbind, M_bind.
  destruct (update_rt m _ s) as [[?|?|?] s1]; [|done..].
  destruct (group_of m s1) as [[?|?|?] s2]; [|done..].
  destruct (ResetTerm m _ s2) as [[?|?|?] s3]; [|done..].
  destruct (group_of m s3) as [[?|?|?] s4]; [|done..].
  destruct (ignore _ s4) as [[?|?|?] s5]; [|done..]. cbn [mret M_ret].
  destruct (LastLogEntryNTXN m s5) as [[?|?|?] s6]; [|done..].
  destruct (gets Server.Id s6) as [[?|?|?] s7]; [|done..].
  destruct (server_sign _ s7) as [[?|?|?] s8]; [|done..].
  destruct (load_rt m s8) as [[?|?|?] s9]; [|done..].
  destruct (ask_votes _ _ s9) as [[?|?|?] s10]; [|done..].
  destruct (ExpectedHonestPeers m s10) as [[?|?|?] s11]; [|done..].
  destruct (modify during s11) as [[?|?|?] s12]; [|done..].
  by destruct (collect_votes _ _ _ _ _ s12) as [[[?|]|?|?] s13].
Qed.

Lemma calls_RefreshTimer mult s : Server.calls (RefreshTimer m mult s).2 = Server.calls s.
Proof using. reflexivity. Qed.

(** The requests of a leader that has won: in the new term, with its votes. *)
Lemma leadership_sent votes hb g s s' :
  standing g s → leadership votes hb s = (Ok tt, s') →
  ∀ addr req, AppendEntriesRequest.Group req = gid → Rpc_AppendEntries addr req ∈ Server.calls s' →
  Rpc_AppendEntries addr req ∈ sent0 ∨
  AppendEntriesRequest.LeaderId req = self ∧ AppendEntriesRequest.Term req = RaftGroup.Term g ∧
  AppendEntriesRequest.QuorumVotes req = votes.
Proof using.
  intros [(rt & Hg & Hrole & Hpeers & Hsv) Hid Hh Hsent] Hrun. unfold leadership in Hrun.
  apply bind_Ok_inv in Hrun as ([] & s6 & Hrun & Hend).
  pose proof (calls_RefreshTimer 25 s6) as Hcalls. rw Hend in Hcalls. cbn [snd] in Hcalls.
  destruct (run_update_rt _ _ _ _ (RTGroup.upd_Votes (λ _, votes)) Hg eq_refl) as [Hr1 Hg1].
  rw (bind_Ok _ _ _ _ _ Hr1) (bind_Ok _ _ _ _ _ (run_load_rt _ _ _ (proj1 Hg1))) in Hrun.
  change (RTGroup.Role (RTGroup.upd_Votes _ rt)) with (RTGroup.Role rt) in Hrun.
  rw Hrole Z.eqb_refl in Hrun. apply bind_Ok_inv in Hrun as ([] & s5 & Hrun & H6).
  pose proof (calls_RefreshTimer 1 s5) as Hcalls'. rw H6 in Hcalls'. cbn [snd] in Hcalls'.
  rw Hcalls Hcalls'. unfold BecomeLeader in Hrun.
  destruct (run_update_rt _ _ _ _ (RTGroup.upd_Role (λ _, LEADER)) Hg1 eq_refl) as [Hr2 Hg2].
  rw (bind_Ok _ _ _ _ _ Hr2) (bind_Ok _ _ _ _ _ (eq_refl : gets Server.Id _ = (Ok _, _))) in Hrun.
  match type of Hrun with context [RTGroup.upd_Leader (λ _, ?i)] =>
    destruct (run_update_rt _ _ _ _ (RTGroup.upd_Leader (λ _, i)) Hg2 eq_refl) as [Hr3 Hg3] end.
  rw (bind_Ok _ _ _ _ _ Hr3) (bind_Ok _ _ _ _ _ (run_group_of _ _ _ _ Hg3)) in Hrun.
  match type of Hrun with mbind _ (ignore ?p) ?s3 = _ =>
    destruct (run_save_group s3 g) as (d & Hd & Hlog);
    change (ignore (SaveGroupNTXN g)) with (ignore p) in Hd end.
  rw (bind_Ok _ _ _ _ _ Hd) in Hrun.
  match type of Hrun with SendFollowersHeartbeat _ _ ?s4 = _ =>
    assert (holds s4 m gid l) as Hh4 end.
  { destruct Hh as [(rt0 & g0 & Hg0 & Hgid) Hu Hl].
    assert (g0 = g) as -> by (destruct Hg, Hg0; congruence).
    split; [eexists _, g; split; [exact (proj2 (has_group_DB d _ _ _ _) Hg3)|exact Hgid]|exact Hu|].
    destruct Hlog as [->|Hlog]; [exact Hl|]. exact (SaveGroup_log _ _ _ _ _ Hlog Hl). }
  intros addr req Hgrp Hin.
  destruct (SendFollowersHeartbeat_speaks _ _ _ _ _ _ _ _ Hh4 (proj2 (has_group_DB d _ _ _ _) Hg3)
    Hrun addr req Hin) as [Hold|[Hlead Hrec]]; [left; by apply (Hsent addr req)|right].
  destruct (Hrec _ _ (proj2 (has_group_DB d _ _ _ _) Hg3)) as [Hterm Hvotes].
  split; [by rw Hlead|]. split; [exact Hterm|].
  assert (RTGroup.SendVotesForPeers rt !! Server.Id s = Some true) as Hs by (by rw Hid).
  rw Hvotes. cbn. by rw Hs.
Qed.

(** The request of a candidate. *)
Record candidate_request (g : RaftGroup.t) (req : RequestVoteRequest.t) : Prop := {
  request_group : RequestVoteRequest.Group req = RaftGroup.Id g;
  request_term : RequestVoteRequest.Term req = RaftGroup.Term g;
  request_log : RequestVoteRequest.LogIndex req = Z.of_nat (length l);
  request_candidate : RequestVoteRequest.CandidateId req = self
}.

Lemma campaign_asks replies during hb g s :
  standing g s → ∃ request, candidate_request g request ∧
    campaign replies during hb g s =
      (asked ← ask_votes request (range_map peers);
       count_votes (last l) asked replies during hb) s.
Proof using.
  intros [(rt & Hg & _ & Hpeers & _) Hid Hh _]. unfold campaign.
  assert (LastLogEntryNTXN m s = (Ok (last l), s)) as Hlast by exact (run_LastLogEntry _ _ _ _ Hh).
  rw (bind_Ok _ _ _ _ _ Hlast) (bind_Ok _ _ _ _ _ (eq_refl : gets Server.Id s = (Ok _, s)))
    (bind_Ok _ _ _ _ _ (run_server_sign _ _))
    (bind_Ok _ _ _ _ _ (run_load_rt _ _ _ (proj1 Hg))) Hpeers Hid.
  eexists. split; [|reflexivity]. split; [done|done| |done]. cbn.
  destruct (last l) as [e|] eqn:He; [|by apply last_None in He as ->].
  rw last_lookup in He. rw (log_index _ _ _ (holds_log _ _ _ _ Hh) _ _ He).
  apply lookup_lt_Some in He. lia.
Qed.

(** A campaign that ends with a leader collected a quorum of votes on the way. *)
Lemma campaign_won replies during hb g s s' :
  standing g s → (∀ s, frame s (during s) ∧ steady s (during s)) →
  campaign replies during hb g s = (Ok tt, s') → role_at s' m = LEADER →
  ∃ asked s1 votes s2,
    (∀ v, v ∈ asked → ∃ i p, peers !! i = Some p ∧ Peer.Id p = v) ∧ same_keys s s1 ∧
    collect_votes (last l) (ExpectedPlayers (Z.of_nat (size peers))) asked replies [] (during s1) =
      (Ok (Some votes), s2) ∧
    standing g s2 ∧ leadership votes hb s2 = (Ok tt, s').
Proof using.
  intros Hst Hduring Hrun Hlead. destruct (campaign_asks replies during hb g s Hst) as (request & _ & Heq).
  rw Heq in Hrun. apply bind_Ok_inv in Hrun as (asked & s2 & H2 & Hrun).
  apply (standing_run _ _ _ _ _ (frame_ask_votes _ _) (steady_ask_votes _ _) H2) in Hst.
  pose proof (same_keys_ask_votes request (range_map peers) s) as Hkeys. rw H2 in Hkeys.
  destruct (standing_rt _ _ Hst) as (rt2 & Hg2 & _ & Hpeers2 & _).
  unfold count_votes, ExpectedHonestPeers in Hrun.
  rw (bind_Ok _ _ _ _ _ (bind_Ok _ _ _ _ _ (run_load_rt _ _ _ (proj1 Hg2))))
    (bind_Ok _ _ _ _ _ (run_modify during s2)) Hpeers2 in Hrun.
  apply (standing_steps _ _ _ (proj1 (Hduring s2)) (proj2 (Hduring s2))) in Hst.
  apply bind_Ok_inv in Hrun as (won & s3 & H3 & Hrun).
  apply (standing_run _ _ _ _ _ (same_frame _ (same_collect_votes _ _ _ _ _))
    (steady_collect_votes _ _ _ _ _) H3) in Hst.
  destruct won as [votes|].
  - exists asked, s2, votes, s3. split; [|done]. intros v Hv.
    destruct (ask_votes_asked _ _ _ _ _ _ H2 v Hv) as [?%not_elem_of_empty|(i & p & Hin & Hp)]; [done|].
    exists i, p. split; [by apply elem_of_range_map|done].
  - exfalso. destruct (standing_rt _ _ Hst) as (rt3 & Hg3 & Hrole & _).
    change (RefreshTimer m 25 s3 = (Ok tt, s')) in Hrun.
    destruct (run_RefreshTimer s3 m rt3 g 25 Hg3) as [Hr [Hm _]]. rw Hr in Hrun.
    injection Hrun as <-. unfold role_at in Hlead. cbv zeta in Hm. rw Hm in Hlead.
    change (RTGroup.Role rt3 = LEADER) in Hlead. rw Hrole in Hlead. discriminate Hlead.
Qed.
End elected.

(** C14. From an election to the followers: when a candidate becomes leader, with all
    votes granted to it given by members that ran [RequestVote], every append request
    that it then sends to its group names it, in the next term, with the votes of a
    quorum; and every node that knows the members and their keys, and is not in a later
    term, takes it for the leader: with the request's term and as a follower, if it did
    not follow it already. Meanwhile the candidate's group is not touched by anyone else,
    and the candidate is one of its members. *)
Theorem elected_leader_followed {W : World} {F : RaftFns} m gid l keys replies during hb s s' rt g :
  has_group s m rt g → holds s m gid l →
  peers_keyed (RTGroup.GroupPeers rt) → is_Some (RTGroup.GroupPeers rt !! Server.Id s) →
  (∀ s, frame s (during s) ∧ steady m gid s (during s)) →
  (∀ v vote, (v, vote) ∈ replies → RequestVoteResponse.Granted vote = true →
    honest gid (Server.Id s) v (keys v) vote) →
  BecomeCandidate m replies during hb s = (Ok tt, s') → role_at s' m = LEADER →
  ∀ addr req, AppendEntriesRequest.Group req = gid →
  Rpc_AppendEntries addr req ∈ Server.calls s' →
  Rpc_AppendEntries addr req ∈ Server.calls s ∨
  AppendEntriesRequest.LeaderId req = Server.Id s ∧
  AppendEntriesRequest.Term req = wrap64 (RaftGroup.Term g + 1) ∧
  ∀ mf sf rtf gf, knows_members gid (dom (RTGroup.GroupPeers rt)) keys mf sf rtf gf →
    RaftGroup.Term gf ≤ AppendEntriesRequest.Term req →
    ∃ sf' rtf' gf', accept_leader mf req sf = (Ok tt, sf') ∧ has_group sf' mf rtf' gf' ∧
      RTGroup.Leader rtf' = Server.Id s ∧
      (RTGroup.Leader rtf ≠ Server.Id s → RTGroup.Role rtf' = FOLLOWER ∧
        gf' = RaftGroup.set_Term (AppendEntriesRequest.Term req) gf).
Proof.
  intros Hg Hh Hkeyed Hself Hduring Hhonest Hrun Hlead addr req Hgrp Hin.
  rw BecomeCandidate_parts in Hrun.
  destruct (candidacy_standing m gid _ l _ _ _ rt g Hg Hh eq_refl Hself eq_refl eq_refl) as (s1 & H1 & Hst).
  rw (bind_Ok _ _ _ _ _ H1) in Hrun.
  destruct (campaign_won _ _ _ _ _ _ _ _ _ _ _ _ Hst Hduring Hrun Hlead)
    as (asked & s2 & votes & s3 & Hasked & _ & Hcollect & Hst' & Hl).
  destruct (leadership_sent _ _ _ _ _ _ _ _ _ _ _ Hst' Hl addr req Hgrp Hin)
    as [?|(Hleader & Hterm & Hvotes)]; [by left|right].
  split; [done|]. split; [done|]. intros mf sf rtf gf Hknows Hle.
  refine (honest_leader_accepted _ _ _ _ _ _ _ _ _ _ (holds_id _ _ _ _ Hh) Hknows _ Hvotes Hleader Hle).
  destruct (collect_votes_spec _ _ _ _ _ _ _ _ Hcollect) as (_ & voters & new & -> & He & Hnd & HF).
  split; [by rw size_dom|]. exists voters. split; [done|].
  eapply Forall2_impl; [exact HF|]. intros v vote (Hv & Hrep & Hc).
  pose proof (counted_granted _ _ _ _ Hc) as Hgr. split; [|split; [by apply Hhonest|exact Hgr]].
  destruct (Hasked v Hv) as (i & p & Hp & <-). rw (Hkeyed _ _ Hp). by apply elem_of_dom_2 in Hp.
Qed.

(** * Witness

    The member 2 of five wins the votes of 3, 4 and 5, and its first heartbeat makes the
    member 3, that has followed 1 so far, its follower. *)
Definition five_won : outcome unit * Server.t :=
  BecomeCandidate 0 (in_votes five_input) id [] (five_node 2 FOLLOWER).

Definition five_claim : AppendEntriesRequest.t :=
  default demo_batch (request_to "3" (Server.calls five_won.2)).

Example five_won_runs :
  (five_won.1, role_at five_won.2 0, AppendEntriesRequest.LeaderId five_claim,
   AppendEntriesRequest.Term five_claim, length (AppendEntriesRequest.QuorumVotes five_claim)) =
  (Ok tt, LEADER, 2, 2, 3%nat).
Proof. by vm_compute. Qed.

Lemma five_won_run : five_won = (Ok tt, five_won.2).
Proof. assert (five_won.1 = Ok tt) as <- by (by vm_compute). apply surjective_pairing. Qed.

Lemma five_won_leads : role_at five_won.2 0 = LEADER.
Proof. by vm_compute. Qed.

Lemma five_claim_sent : Rpc_AppendEntries "3" five_claim ∈ Server.calls five_won.2.
Proof. apply request_to_in. by vm_compute. Qed.

Lemma five_claim_group : AppendEntriesRequest.Group five_claim = demo_group_id.
Proof. by vm_compute. Qed.

Lemma five_claim_term : 1 ≤ AppendEntriesRequest.Term five_claim.
Proof. assert (AppendEntriesRequest.Term five_claim = 2) as -> by (by vm_compute). lia. Qed.

Lemma five_group self role :
  has_group (five_node self role) 0 (RTGroup.mk 1 0 0 five_peers 0 0 role [] ∅ false)
    (RaftGroup.mk 5 demo_group_id 1).
Proof. by split. Qed.

Lemma five_boards self role : boards (five_node self role).
Proof.
  split; unfold five_node; cbn [Server.raftgroups Server.GroupsOnboard Server.rtgroups].
  - by intros p g [_ <-]%lookup_singleton_Some.
  - intros key m. destruct (decide (id_key demo_group_id = key)) as [<-|Hne].
    + rw sm_get_set. intros [= <-]. by eexists _, _.
    + by rw sm_get_set_ne //.
Qed.

Lemma five_peers_keyed : peers_keyed five_peers.
Proof.
  intros k p Hp. apply elem_of_list_to_map_2 in Hp.
  repeat (apply elem_of_cons in Hp as [[= -> ->]|Hp]; [done|]). by apply not_elem_of_nil in Hp.
Qed.

Lemma five_honest v vote :
  (v, vote) ∈ in_votes five_input → honest (W:=mem_world) demo_group_id 2 v v vote.
Proof.
  intros [Hv ->]%(votes_by_name five_vote).
  set (o := RPC.RequestVote idle five_request (five_node v CANDIDATE)).
  assert (o.1 = Ok (five_vote v) ∧ Server.SigningKey o.2 = v) as [H1 H2]
    by (destruct Hv as [-> | [-> | ->]]; by vm_compute).
  exists idle, five_request, (five_node v CANDIDATE), o.2. split; [apply five_boards|].
  split; [done|]. split; [exact H2|]. split; [done|]. split; [done|]. rw -H1. apply surjective_pairing.
Qed.

Lemma five_knows :
  knows_members (W:=mem_world) demo_group_id (dom five_peers) (λ v, v) 0 (five_node 3 CANDIDATE)
    (RTGroup.mk 1 0 0 five_peers 0 0 CANDIDATE [] ∅ false) (RaftGroup.mk 5 demo_group_id 1).
Proof.
  split; [apply five_group|done|exact five_peers_keyed|done|].
  intros v [p Hp]%elem_of_dom. apply elem_of_list_to_map_2 in Hp.
  repeat (apply elem_of_cons in Hp as [[= -> ->]|Hp]; [by vm_compute|]). by apply not_elem_of_nil in Hp.
Qed.

Lemma elected_leader_followed_witness :
  ∃ sf' rtf' gf', accept_leader 0 five_claim (five_node 3 CANDIDATE) = (Ok tt, sf') ∧
    has_group sf' 0 rtf' gf' ∧ RTGroup.Leader rtf' = 2 ∧ RTGroup.Role rtf' = FOLLOWER.
Proof.
  destruct (elected_leader_followed (W:=mem_world) 0 demo_group_id (demo_log 1) (λ v, v) (in_votes five_input) id []
    (five_node 2 FOLLOWER) five_won.2 _ _ (five_group 2 FOLLOWER) (five_holds 2 FOLLOWER)
    five_peers_keyed ltac:(by exists (Peer.mk 2 demo_group_id 2 1)) (λ s, conj (reflexivity s) (reflexivity s))
    (λ v vote Hin _, five_honest v vote Hin) five_won_run five_won_leads "3" five_claim
    five_claim_group five_claim_sent) as [Hold|(_ & _ & Hall)].
  - by apply not_elem_of_nil in Hold.
  - destruct (Hall 0%nat _ _ _ five_knows five_claim_term) as (sf' & rtf' & gf' & Hrun & Hg & Hl & Hf).
    exists sf', rtf', gf'. split; [exact Hrun|]. split; [exact Hg|]. split; [exact Hl|].
    apply Hf. discriminate.
Defined.
