(* ===== verification/Campaign.v ===== *)
(** Elections from the time wheel on: when a leader falls silent its followers ask every
    member for its vote, and whoever comes out as a leader has the signed votes of a
    quorum of the members, which a group of two never has. *)
From S2P Require Export Elected.

Section campaign.
Context {W : World} {F : RaftFns}.

(** * Winning *)

Lemma same_keys_SaveGroupNTXN g : preserves same_keys (SaveGroupNTXN g).
Proof.
  intros s. pose proof (same_keys_SaveGroup g s) as Hs. unfold ignore, try_, mbind, M_bind in Hs.
  by destruct (SaveGroupNTXN g s) as [[] s'].
Qed.

Lemma same_keys_group_of m : preserves same_keys (group_of m).
Proof. unfold group_of, load_rt, load_group. solve_preserves. Qed.

Lemma same_keys_candidacy m s : same_keys s (candidacy m s).2.
Proof.
  unfold candidacy, ResetTerm, update_rt, update_group.
  match goal with |- same_keys s (?p s).2 => cut (preserves same_keys p); [by intros HH|] end.
  solve_preserves; first [by intros id|apply same_keys_SaveGroupNTXN
    |apply same_keys_group_of|unfold load_rt; solve_preserves].
Qed.

Lemma leader_voters m gid l replies during hb s s' rt g :
  has_group s m rt g → holds s m gid l →
  peers_keyed (RTGroup.GroupPeers rt) → is_Some (RTGroup.GroupPeers rt !! Server.Id s) →
  (∀ s, frame s (during s) ∧ steady m gid s (during s) ∧ same_keys s (during s)) →
  BecomeCandidate m replies during hb s = (Ok tt, s') → role_at s' m = LEADER →
  ∃ voters votes, NoDup voters ∧
    ExpectedPlayers (Z.of_nat (size (RTGroup.GroupPeers rt))) ≤ Z.of_nat (length voters) ∧
    Forall2 (λ v vote, is_Some (RTGroup.GroupPeers rt !! v) ∧ (v, vote) ∈ replies ∧
      RequestVoteResponse.Granted vote = true ∧
      RequestVoteResponse.LogIndex vote ≤ Z.of_nat (length l) ∧
      ∃ key, key_of s v = Ok (Some key) ∧
        VerifySign (Some key) (RequestVoteResponse.Signature vote)
          (RequestVoteResponseSignData vote) = Ok true) voters votes.
Proof.
  intros Hg Hh Hkeyed Hself Hduring Hrun Hlead. rw BecomeCandidate_parts in Hrun.
  destruct (candidacy_standing m gid _ l _ _ _ rt g Hg Hh eq_refl Hself eq_refl eq_refl) as (s1 & H1 & Hst).
  pose proof (same_keys_candidacy m s) as Hk1. rw H1 in Hk1. cbn [snd] in Hk1.
  rw (bind_Ok _ _ _ _ _ H1) in Hrun.
  destruct (campaign_won _ _ _ _ _ _ _ _ _ _ _ _ Hst
    (λ s, conj (proj1 (Hduring s)) (proj1 (proj2 (Hduring s)))) Hrun Hlead)
    as (asked & s2 & votes & s3 & Hasked & Hk2 & Hcollect & _).
  destruct (collect_votes_spec _ _ _ _ _ _ _ _ Hcollect) as (_ & voters & new & -> & He & Hnd & HF).
  cbn [app] in He. exists voters, new. split; [done|]. split; [by rw (Forall2_length _ _ _ HF)|].
  eapply Forall2_impl; [exact HF|]. intros v vote (Hv & Hrep & [(key & Hkey & Hsig) Hgr (e & Hlast & Hle)]).
  split; [|split; [done|split; [done|split]]].
  - destruct (Hasked v Hv) as (i & p & Hp & <-). rw (Hkeyed _ _ Hp). by exists p.
  - rw last_lookup in Hlast. rw (log_index _ _ _ (holds_log _ _ _ _ Hh) _ _ Hlast) in Hle.
    apply lookup_lt_Some in Hlast. lia.
  - exists key. split; [|done]. rw key_of_eq in Hkey. rw key_of_eq.
    rw -(proj2 (Hk1 v)) -(proj2 (Hk2 v)) -(proj2 (proj2 (proj2 (Hduring s2)) v)).
    exact Hkey.
Qed.

(** C20. Whoever comes out of [BecomeCandidate] as a leader has won: it holds granted
    votes of distinct members of its group, as many as a quorum of them, each the answer
    of its member, signed with the key that the node has on record for it, from a log
    no longer than the candidate's. Meanwhile no one else touches the node's record of
    the group, its hosts or its keys. *)
Theorem leader_has_quorum m gid l replies during hb s s' rt g :
  has_group s m rt g → holds s m gid l →
  peers_keyed (RTGroup.GroupPeers rt) → is_Some (RTGroup.GroupPeers rt !! Server.Id s) →
  (∀ s, frame s (during s) ∧ steady m gid s (during s) ∧ same_keys s (during s)) →
  BecomeCandidate m replies during hb s = (Ok tt, s') → role_at s' m = LEADER →
  ∃ voters votes, NoDup voters ∧
    ExpectedPlayers (Z.of_nat (size (RTGroup.GroupPeers rt))) ≤ Z.of_nat (length voters) ∧
    Forall2 (λ v vote, is_Some (RTGroup.GroupPeers rt !! v) ∧ (v, vote) ∈ replies ∧
      RequestVoteResponse.Granted vote = true ∧
      RequestVoteResponse.LogIndex vote ≤ Z.of_nat (length l) ∧
      ∃ key, key_of s v = Ok (Some key) ∧
        VerifySign (Some key) (RequestVoteResponse.Signature vote)
          (RequestVoteResponseSignData vote) = Ok true) voters votes.
Proof. exact (leader_voters m gid l replies during hb s s' rt g). Qed.

(** A candidate's own vote, which [RequestVote] refuses because it is in the candidate's
    term already, is the one that a group of two lacks. *)
Lemma few_voters (voters : list Z) (peers : gmap Z Peer.t) self :
  NoDup voters → (∀ v, v ∈ voters → is_Some (peers !! v) ∧ v ≠ self) → is_Some (peers !! self) →
  (size peers ≤ 2)%nat → Z.of_nat (length voters) < ExpectedPlayers (Z.of_nat (size peers)).
Proof.
  intros Hnd Hv Hself%elem_of_dom Hsize. rw -size_dom. rw -size_dom in Hsize.
  assert (list_to_set voters ⊆ dom peers ∖ {[self]}) as Hsub%subseteq_size.
  { intros v [Hp%elem_of_dom Hne]%elem_of_list_to_set%Hv. set_solver. }
  rw size_list_to_set // size_difference in Hsub; [set_solver|]. rw size_singleton in Hsub.
  assert (size (dom peers) = 1 ∨ size (dom peers) = 2)%nat as [Hs|Hs]; [|rw Hs in Hsub; rw Hs..].
  - assert (size (dom peers) ≠ 0)%nat; [|lia]. intros ?%size_empty_inv. set_solver.
  - change (ExpectedPlayers (Z.of_nat 1)) with 1. lia.
  - change (ExpectedPlayers (Z.of_nat 2)) with 2. lia.
Qed.

(** C39. In a group of one or two members nobody is ever elected: a quorum needs the
    candidate's own vote, and a candidate, whose own answer is that of [RequestVote] in
    the term of the request, does not get it; so that it never comes out of
    [BecomeCandidate] as the leader. *)
Theorem small_groups_elect_nobody m gid l replies during hb s s' rt g :
  has_group s m rt g → holds s m gid l →
  peers_keyed (RTGroup.GroupPeers rt) → is_Some (RTGroup.GroupPeers rt !! Server.Id s) →
  (∀ s, frame s (during s) ∧ steady m gid s (during s) ∧ same_keys s (during s)) →
  (size (RTGroup.GroupPeers rt) ≤ 2)%nat →
  (∀ vote, (Server.Id s, vote) ∈ replies → ∃ env req s0 rt0 g0 s1,
    has_group s0 m rt0 g0 ∧ RaftGroup.Term g0 = wrap64 (RaftGroup.Term g + 1) ∧
    RequestVoteRequest.Term req = RaftGroup.Term g0 ∧ RequestVote env m req s0 = (Ok vote, s1)) →
  BecomeCandidate m replies during hb s = (Ok tt, s') → role_at s' m ≠ LEADER.
Proof.
  intros Hg Hh Hkeyed Hself Hduring Hsize Hown Hrun Hlead.
  destruct (leader_voters m gid l replies during hb s s' rt g Hg Hh Hkeyed Hself Hduring Hrun Hlead)
    as (voters & votes & Hnd & He & HF).
  pose proof (few_voters voters (RTGroup.GroupPeers rt) (Server.Id s) Hnd) as Hfew.
  apply Z.le_ngt in He. apply He, Hfew; [|done|done].
  intros v (i & Hi)%list_elem_of_lookup. destruct (Forall2_lookup_l _ _ _ _ _ HF Hi)
    as (vote & _ & Hp & Hrep & Hgr & _). split; [exact Hp|]. intros ->.
  destruct (Hown _ Hrep) as (env & req & s0 & rt0 & g0 & s1 & Hg0 & _ & Ht & Hr).
  pose proof (candidate_refuses_itself _ _ _ _ _ _ _ _ Hg0 Ht Hr). congruence.
Qed.

(** * Standing *)

(** Steps that take back no request. *)
Definition sending (s s' : Server.t) : Prop := Server.calls s ⊆ Server.calls s'.

#[export] Instance sending_preorder : PreOrder sending.
Proof. split; [by intros s|]. intros s1 s2 s3 H1 H2. unfold sending in *. set_solver. Qed.

#[export] Instance sending_storing : Storing sending.
Proof.
  split; [split; [apply _|by intros s s' []]| |intros x s; unfold txn_write, gets, lift, modify, mbind, M_bind..].
  - intros A fn H s. specialize (H s). unfold DB_Update.
    destruct (fn s) as [[a|e|w] s']; simpl in *; by repeat case_match.
  - by destruct (SaveGroup _ _).
  - by destruct (SavePeer _ _).
Qed.

Lemma sending_count_votes m last asked replies during hb :
  (∀ s, sending s (during s)) → preserves sending (count_votes m last asked replies during hb).
Proof.
  intros Hd. unfold count_votes, leadership, ExpectedHonestPeers. solve_frame; try done;
    try (by apply frame_update_rt). apply framing_quiet. intros s. apply same_collect_votes.
Qed.

(** Every member that can be reached is asked. *)
Lemma asking_reaches request (peers : list (Z * Peer.t)) (asked0 : gset Z) s :
  (∀ i p, (i, p) ∈ peers → is_Some (read_host s (Peer.Id p))) →
  ∃ asked s', fold_each (λ (asked : gset Z) '(_, peer),
      let nodeId := Peer.Id peer in
      node ← GetHostNTXN nodeId;
      node ← unwrap node;
      client ← GetClusterRPC (Host.ServerAddr node);
      if (client : bool) then
        _ ← call (Rpc_RequestVote (Host.ServerAddr node) request);
        mret ({[nodeId]} ∪ asked)
      else mret asked) peers asked0 s = (Ok asked, s') ∧ sending s s' ∧
    ∀ i p h, (i, p) ∈ peers → read_host s (Peer.Id p) = Some h → W_dial (Host.ServerAddr h) = true →
      Rpc_RequestVote (Host.ServerAddr h) request ∈ Server.calls s'.
Proof.
  revert asked0 s. induction peers as [|[i p] peers IH]; intros asked0 s Hhosts.
  { exists asked0, s. split; [done|]. split; [done|]. by intros ??? ?%not_elem_of_nil. }
  destruct (Hhosts i p ltac:(by left)) as [h Hh].
  assert (∃ asked1 s1, (node ← GetHostNTXN (Peer.Id p); node ← unwrap node;
      client ← GetClusterRPC (Host.ServerAddr node);
      if (client : bool) then
        _ ← call (Rpc_RequestVote (Host.ServerAddr node) request);
        mret ({[Peer.Id p]} ∪ asked0)
      else mret asked0) s = (Ok asked1, s1) ∧ sending s s1 ∧
    (∀ id, read_host s1 id = read_host s id) ∧
    (W_dial (Host.ServerAddr h) = true →
      Rpc_RequestVote (Host.ServerAddr h) request ∈ Server.calls s1))
    as (asked1 & s1 & H1 & Hs1 & Hr1 & Hin).
  { rw (bind_Ok _ _ _ _ _ (GetHostNTXN_run _ _)) Hh. cbv [unwrap GetClusterRPC mbind M_bind mret M_ret].
    destruct (W_dial _) eqn:Hd; eexists _, _; (split; [reflexivity|]); unfold sending; cbn;
      rw cache_host_calls.
    - split; [by right|]. split; [intros id; apply read_host_cached|by left].
    - split; [done|]. split; [intros id; apply read_host_cached|done]. }
  destruct (IH asked1 s1 ltac:(intros j q Hj; rw Hr1; apply (Hhosts j); by right))
    as (asked & s' & H2 & Hs2 & Hall).
  exists asked, s'. cbn [fold_each]. split; [exact (eq_trans (bind_Ok _ _ _ _ _ H1) H2)|].
  split; [by transitivity s1|]. intros j q h' [[= -> ->]|Hj]%elem_of_cons Hq Hd.
  - apply Hs2, (eq_ind h (λ h, W_dial (Host.ServerAddr h) = true →
      Rpc_RequestVote (Host.ServerAddr h) request ∈ Server.calls s1) Hin); congruence.
  - apply (Hall j q); [done|by rw Hr1|done].
Qed.

(** One turn of the wheel after the other, with what else the node does before each. *)
Definition wheel (m : nat) (turns : list ((Server.t → Server.t) * round_input)) : MS unit :=
  for_each (λ '(others, input), _ ← modify others; time_wheel m input) turns.

(** What else the node does: its record of the group stays, timeout and all, and so do
    its hosts; its clock goes on. *)
Definition undisturbed (m : nat) (gid : Z) (others : Server.t → Server.t) : Prop := ∀ s,
  frame s (others s) ∧ steady m gid s (others s) ∧ same_keys s (others s) ∧
  Server.now s ≤ Server.now (others s).

(** A node that stands when its timeout has passed. *)
Definition stands (rt : RTGroup.t) (self : Z) : Prop :=
  RTGroup.Role rt = CANDIDATE ∨ RTGroup.Role rt = FOLLOWER ∧ RTGroup.Leader rt ≠ self.

Lemma time_wheel_stands m input s rt :
  Server.rtgroups s !! m = Some rt → RTGroup.Timeout rt ≤ Server.now s → stands rt (Server.Id s) →
  time_wheel m input s = BecomeCandidate m (in_votes input) (in_during input) (in_answers input) s.
Proof.
  intros Hm Hge Hst. unfold time_wheel. rw (bind_Ok _ _ _ _ _ (run_load_rt _ _ _ Hm)).
  rw (bind_Ok _ _ _ _ _ (eq_refl : time_Now s = (Ok (Server.now s), s))).
  rw (proj2 (Z.ltb_ge _ _) Hge). destruct Hst as [->|[-> Hne]]; [done|].
  change (FOLLOWER =? CANDIDATE) with false. change (FOLLOWER =? FOLLOWER) with true. cbv iota.
  rw (bind_Ok _ _ _ _ _ (eq_refl : gets Server.Id s = (Ok (Server.Id s), s))).
  by rw (proj2 (Z.eqb_neq _ _) Hne).
Qed.

(** What is left once the timeout has passed: all members are asked. *)
Lemma candidate_asks m gid l input s rt g :
  has_group s m rt g → holds s m gid l → is_Some (RTGroup.GroupPeers rt !! Server.Id s) →
  (∀ i p, RTGroup.GroupPeers rt !! i = Some p → is_Some (read_host s (Peer.Id p))) →
  (∀ s, sending s (in_during input s)) →
  ∃ request, candidate_request (Server.Id s) l
      (RaftGroup.set_Term (wrap64 (RaftGroup.Term g + 1)) g) request ∧
    ∀ i p h, RTGroup.GroupPeers rt !! i = Some p → read_host s (Peer.Id p) = Some h →
      W_dial (Host.ServerAddr h) = true →
      Rpc_RequestVote (Host.ServerAddr h) request ∈ Server.calls
        (BecomeCandidate m (in_votes input) (in_during input) (in_answers input) s).2.
Proof.
  intros Hg Hh Hself Hhosts Hduring. rw BecomeCandidate_parts.
  destruct (candidacy_standing m gid _ l _ _ _ rt g Hg Hh eq_refl Hself eq_refl eq_refl) as (s1 & H1 & Hst).
  pose proof (same_keys_candidacy m s) as Hk1. rw H1 in Hk1. cbn [snd] in Hk1.
  rw (bind_Ok _ _ _ _ _ H1).
  destruct (campaign_asks m gid _ l _ _ (in_votes input) (in_during input) (in_answers input) _ _ Hst)
    as (request & Hreq & ->).
  destruct (asking_reaches request (range_map (RTGroup.GroupPeers rt)) ∅ s1) as (asked & s2 & H2 & _ & Hall).
  { intros i p Hin%elem_of_range_map. rw (proj1 (Hk1 (Peer.Id p))). by apply (Hhosts i). }
  exists request. split; [exact Hreq|]. intros i p h Hp Hr Hd.
  change (ask_votes request (range_map (RTGroup.GroupPeers rt)) s1 = (Ok asked, s2)) in H2.
  rw (bind_Ok _ _ _ _ _ H2). apply (sending_count_votes m _ _ _ _ _ Hduring).
  apply (Hall i p h); [by apply elem_of_range_map|by rw (proj1 (Hk1 (Peer.Id p)))|done].
Qed.

End campaign.

(** * Witnesses

    The member 2 of five wins the votes of 3, 4 and 5; and before, while a quarter of a
    second is left to its timeout, it waits for it, its clock a little faster than its
    turns. *)
Lemma leader_has_quorum_witness :
  role_at five_won.2 0 = LEADER ∧
  ∃ voters votes, NoDup voters ∧ 3 ≤ Z.of_nat (length voters) ∧
    Forall2 (λ v vote, (v, vote) ∈ in_votes five_input ∧
      RequestVoteResponse.Granted vote = true) voters votes.
Proof.
  split; [exact five_won_leads|].
  destruct (leader_has_quorum (W:=mem_world) 0 demo_group_id (demo_log 1) (in_votes five_input) id []
    (five_node 2 FOLLOWER) five_won.2 _ _ (five_group 2 FOLLOWER) (five_holds 2 FOLLOWER)
    five_peers_keyed ltac:(by exists (Peer.mk 2 demo_group_id 2 1))
    (λ s, conj (reflexivity s) (conj (reflexivity s) (reflexivity s))) five_won_run five_won_leads)
    as (voters & votes & Hnd & He & HF).
  exists voters, votes. split; [exact Hnd|]. split; [exact He|].
  eapply Forall2_impl; [exact HF|]. intros v vote (_ & Hrep & Hgr & _). by split.
Defined.

(** A group of two: the candidate's answer to its own request, and the vote of the other
    member. *)
Definition two_peers : gmap Z Peer.t :=
  list_to_map ((λ n, (n, Peer.mk n demo_group_id 2 1)) <$> [1; 2]).

Definition two_node (term : Z) : Server.t :=
  Server.upd_rtgroups (λ _, {[ 0%nat := RTGroup.mk 1 0 0 two_peers 0 0 CANDIDATE [] ∅ false ]})
    (Server.upd_raftgroups (λ _, {[ 0%nat := RaftGroup.mk 5 demo_group_id term ]}) (five_node 1 CANDIDATE)).

Definition two_request : RequestVoteRequest.t := RequestVoteRequest.mk demo_group_id 2 1 1 1 [].

Definition two_vote (s : Server.t) : RequestVoteResponse.t :=
  match (RequestVote idle 0 two_request s).1 with Ok vote => vote | _ => demo_own_ballot end.

Definition two_replies : list (Z * RequestVoteResponse.t) :=
  [(1, two_vote (two_node 2)); (2, two_vote (five_node 2 CANDIDATE))].

Definition two_end : outcome unit * Server.t := BecomeCandidate 0 two_replies id [] (two_node 1).

Lemma two_run : two_end = (Ok tt, two_end.2).
Proof. assert (two_end.1 = Ok tt) as <- by (by vm_compute). apply surjective_pairing. Qed.

Lemma two_group term :
  has_group (two_node term) 0 (RTGroup.mk 1 0 0 two_peers 0 0 CANDIDATE [] ∅ false)
    (RaftGroup.mk 5 demo_group_id term).
Proof. by split. Qed.

Lemma two_holds : holds (two_node 1) 0 demo_group_id (demo_log 1).
Proof.
  destruct (five_holds 1 CANDIDATE) as [_ Hu Hl]. split; [|exact Hu|exact Hl].
  eexists _, _. split; [exact (two_group 1)|reflexivity].
Qed.

Lemma two_peers_keyed : peers_keyed two_peers.
Proof.
  intros k p Hp. apply elem_of_list_to_map_2 in Hp.
  repeat (apply elem_of_cons in Hp as [[= -> ->]|Hp]; [done|]). by apply not_elem_of_nil in Hp.
Qed.

Lemma two_own_run :
  ∃ s1, RequestVote idle 0 two_request (two_node 2) = (Ok (two_vote (two_node 2)), s1).
Proof.
  exists (RequestVote idle 0 two_request (two_node 2)).2.
  assert ((RequestVote idle 0 two_request (two_node 2)).1 = Ok (two_vote (two_node 2))) as <- by (by vm_compute).
  apply surjective_pairing.
Qed.

Lemma reply_of_one {A} (a b vote : A) : (1, vote) ∈ [(1, a); (2, b)] → a = vote.
Proof. intros [[= ->]|[[=]|Hin%not_elem_of_nil]%elem_of_cons]%elem_of_cons; done. Qed.

Lemma two_own_reply vote :
  (Server.Id (two_node 1), vote) ∈ two_replies → ∃ env req s0 rt0 g0 s1,
    has_group s0 0 rt0 g0 ∧ RaftGroup.Term g0 = wrap64 (1 + 1) ∧
    RequestVoteRequest.Term req = RaftGroup.Term g0 ∧ RequestVote env 0 req s0 = (Ok vote, s1).
Proof.
  intros Hin. destruct (reply_of_one _ _ _ Hin). destruct two_own_run as [s1 Hrun].
  exists idle, two_request, (two_node 2). eexists _, _, s1. split; [exact (two_group 2)|].
  split; [reflexivity|]. split; [reflexivity|exact Hrun].
Qed.

Lemma small_groups_elect_nobody_witness :
  two_end.1 = Ok tt ∧ role_at two_end.2 0 ≠ LEADER.
Proof.
  split; [exact (f_equal fst two_run)|].
  exact (small_groups_elect_nobody (W:=mem_world) 0 demo_group_id (demo_log 1) two_replies id []
    (two_node 1) two_end.2 _ _ (two_group 1) two_holds two_peers_keyed
    ltac:(by exists (Peer.mk 1 demo_group_id 2 1))
    (λ s, conj (reflexivity s) (conj (reflexivity s) (reflexivity s))) ltac:(vm_compute; lia)
    two_own_reply two_run).
Defined.

Definition waiting_node : Server.t :=
  Server.upd_now (λ _, - (250 * Millisecond)) (five_node 2 FOLLOWER).

Definition waiting_turns : list ((Server.t → Server.t) * round_input) :=
  replicate 4 (Server.upd_now (Z.add Millisecond), five_input).

Lemma five_hosts i p :
  five_peers !! i = Some p → is_Some (read_host (W:=mem_world) waiting_node (Peer.Id p)).
Proof.
  intros Hp. apply elem_of_list_to_map_2 in Hp.
  repeat (apply elem_of_cons in Hp as [[= -> ->]|Hp]; [by eexists; vm_compute|]).
  by apply not_elem_of_nil in Hp.
Qed.

Lemma passing_undisturbed :
  undisturbed (W:=mem_world) 0 demo_group_id (Server.upd_now (Z.add Millisecond)).
Proof.
  intros s. split; [split; simpl; by eauto|]. split; [by split|]. split; [by intros id|].
  cbn. unfold Millisecond. lia.
Qed.

Lemma waiting_holds : holds (W:=mem_world) waiting_node 0 demo_group_id (demo_log 1).
Proof. by destruct (five_holds 2 FOLLOWER). Qed.

