(* ===== verification/Client.v ===== *)
(** The client library: [client/user_client.go], [client/alpha.go],
    [client/feedback_server.go] and [utils/alpha.go].

    A remote client is the address it was dialled at. Answers to the calls that
    [MajorityResponse] makes are arguments, one per client asked in the order of
    arrival: [None] after ten seconds, [Some None] for a call that failed. *)
From S2P Require Export Node.

Module AlphaRPCsCache.
Record t : Type := mk {
  bootstraps : list string;
  rpcs : list string;
  lastCheck : Z
}.
Definition ResetBootstrap (addrs : list string) (arc : t) : t :=
  mk addrs (rpcs arc) (lastCheck arc).
Definition NewAlphaRPCsCache (bootstraps : list string) (now : Z) : t := mk bootstraps [] now.
End AlphaRPCsCache.

Module BFTRaftClient.
Section client.
Context {W : World}.

(** A channel of [CmdResChan] is what was sent to it. Not fields of the program's
    are [now], the clock, and [calls], the commands sent, latest first. *)
Record t : Type := mk {
  Id : Z;
  SigningKey : PrivateKey;
  AlphaRPCs : AlphaRPCsCache.t;
  GroupHosts : W_map (list Host.t);
  GroupLeader : W_map string;
  CmdResChan : gmap Z (gmap Z (list bytes));
  Counter : Z;
  now : Z;
  calls : list (string * CommandRequest.t)
}.

Definition upd_AlphaRPCs (f : AlphaRPCsCache.t → AlphaRPCsCache.t) (c : t) : t :=
  mk (Id c) (SigningKey c) (f (AlphaRPCs c)) (GroupHosts c) (GroupLeader c) (CmdResChan c)
    (Counter c) (now c) (calls c).
Definition upd_GroupHosts (f : W_map (list Host.t) → W_map (list Host.t)) (c : t) : t :=
  mk (Id c) (SigningKey c) (AlphaRPCs c) (f (GroupHosts c)) (GroupLeader c) (CmdResChan c)
    (Counter c) (now c) (calls c).
Definition upd_GroupLeader (f : W_map string → W_map string) (c : t) : t :=
  mk (Id c) (SigningKey c) (AlphaRPCs c) (GroupHosts c) (f (GroupLeader c)) (CmdResChan c)
    (Counter c) (now c) (calls c).
Definition upd_CmdResChan (f : gmap Z (gmap Z (list bytes)) → gmap Z (gmap Z (list bytes)))
    (c : t) : t :=
  mk (Id c) (SigningKey c) (AlphaRPCs c) (GroupHosts c) (GroupLeader c) (f (CmdResChan c))
    (Counter c) (now c) (calls c).
Definition upd_Counter (f : Z → Z) (c : t) : t :=
  mk (Id c) (SigningKey c) (AlphaRPCs c) (GroupHosts c) (GroupLeader c) (CmdResChan c)
    (f (Counter c)) (now c) (calls c).
Definition upd_calls (f : list (string * CommandRequest.t) → list (string * CommandRequest.t))
    (c : t) : t :=
  mk (Id c) (SigningKey c) (AlphaRPCs c) (GroupHosts c) (GroupLeader c) (CmdResChan c)
    (Counter c) (now c) (f (calls c)).
End client.
Arguments t : clear implicits.
Arguments t {_}.
End BFTRaftClient.

Definition Minute : Z := 60 * Second.
Definition closed_channel : string := "send on closed channel".

Section client.
Context {W : World}.

Definition CS (A : Type) : Type := M BFTRaftClient.t A.

(** [NewClient], for a key that [ParsePrivateKey] has parsed. *)
Definition NewClient (bootstraps : list string) (privateKey : PrivateKey) (now : Z)
    : BFTRaftClient.t :=
  let publicKey := PublicKeyFromPrivate privateKey in
  BFTRaftClient.mk (HashPublicKey publicKey) privateKey
    (AlphaRPCsCache.NewAlphaRPCsCache bootstraps now) sm_empty sm_empty ∅ 0 now [].

(** * Alpha nodes *)

(** A call that failed answers with a typed nil, which is not the nil
    interface. *)
Definition hosts_result (reply : option GroupNodesResponse.t)
    : FuncResult (option GroupNodesResponse.t) :=
  match reply with
  | Some nodes => mkFuncResult _ (Some (Some nodes)) (NodesSignData (GroupNodesResponse.Nodes nodes))
  | None => mkFuncResult _ (Some None) []
  end.

Definition AlphaNodes (servers : list string)
    (replies : list (option (option GroupNodesResponse.t))) : outcome (list Host.t) :=
  let bootstrapServers := repeat true (length (filter (λ addr, W_dial addr = true) servers)) in
  match default None (MajorityResponse bootstrapServers
          (answers_of hosts_result (length bootstrapServers) replies)) with
  | None => Ok []
  | Some None => Panic nil_deref
  | Some (Some response) => Ok (GroupNodesResponse.Nodes response)
  end.

(** [arc.Get()]: the clients, refreshed every five minutes. *)
Definition GetAlphaRPCs (replies : list (option (option GroupNodesResponse.t)))
    : CS (list string) :=
  arc ← gets BFTRaftClient.AlphaRPCs;
  t ← gets BFTRaftClient.now;
  if (length (AlphaRPCsCache.rpcs arc) <? 1)%nat ||
     (AlphaRPCsCache.lastCheck arc + 5 * Minute <? t)
  then
    nodes ← lift (AlphaNodes (AlphaRPCsCache.bootstraps arc) replies);
    let addrs := filter (λ addr, W_dial addr = true) (Host.ServerAddr <$> nodes) in
    let bootstraps :=
      if (0 <? length addrs)%nat then addrs else AlphaRPCsCache.bootstraps arc in
    _ ← modify (BFTRaftClient.upd_AlphaRPCs (λ _, AlphaRPCsCache.mk bootstraps addrs t));
    mret addrs
  else mret (AlphaRPCsCache.rpcs arc).

(** * Lookups *)

Definition GetGroupHosts (groupId : Z)
    (alpha_replies replies : list (option (option GroupNodesResponse.t)))
    : CS (option (list Host.t)) :=
  let cacheKey := id_key groupId in
  cached ← gets (λ c, sm_get (BFTRaftClient.GroupHosts c) cacheKey);
  match cached with
  | Some hosts => mret (Some hosts)
  | None =>
    clients ← GetAlphaRPCs alpha_replies;
    let group_hosts reply :=
      match reply with
      | Some res => mkFuncResult _ (Some (GroupNodesResponse.Nodes res))
                      (NodesSignData (GroupNodesResponse.Nodes res))
      | None => mkFuncResult _ None []
      end in
    match default None (MajorityResponse (repeat true (length clients))
            (answers_of group_hosts (length clients) replies)) with
    | Some hosts =>
      _ ← modify (BFTRaftClient.upd_GroupHosts (λ m, sm_set m cacheKey hosts));
      mret (Some hosts)
    | None => mret None
    end
  end.

(** The address of an answer without a node is read through nil. *)
Definition leaderless (reply : option (option GroupLeader.t)) : bool :=
  match reply with
  | Some (Some res) => match GroupLeader.Node res with None => true | Some _ => false end
  | _ => false
  end.

Definition leader_result (reply : option GroupLeader.t) : FuncResult Host.t :=
  match reply with
  | Some res =>
    mkFuncResult _ (GroupLeader.Node res)
      (match GroupLeader.Node res with
       | Some node => str_bytes (Host.ServerAddr node) | None => [] end)
  | None => mkFuncResult _ None []
  end.

Definition GetGroupLeader (groupId : Z)
    (alpha_replies : list (option (option GroupNodesResponse.t)))
    (replies : list (option (option GroupLeader.t))) : CS (option string) :=
  let cacheKey := id_key groupId in
  cached ← gets (λ c, sm_get (BFTRaftClient.GroupLeader c) cacheKey);
  match cached with
  | Some leader => mret (Some leader)
  | None =>
    clients ← GetAlphaRPCs alpha_replies;
    if existsb leaderless (take (length clients) replies) then panic nil_deref
    else
      match default None (MajorityResponse (repeat true (length clients))
              (answers_of leader_result (length clients) replies)) with
      | Some leaderHost =>
        let addr := Host.ServerAddr leaderHost in
        if W_dial addr then
          _ ← modify (BFTRaftClient.upd_GroupLeader (λ m, sm_set m cacheKey addr));
          mret (Some addr)
        else mret None
      | None => mret None
      end
  end.

Definition exists_result (reply : option RaftGroup.t) : FuncResult bool :=
  match reply with
  | Some _ => mkFuncResult _ (Some true) [1]
  | None => mkFuncResult _ (Some false) [0]
  end.

Definition GroupExists (groupId : Z)
    (alpha_replies : list (option (option GroupNodesResponse.t)))
    (replies : list (option (option RaftGroup.t))) : CS bool :=
  clients ← GetAlphaRPCs alpha_replies;
  match default None (MajorityResponse (repeat true (length clients))
          (answers_of exists_result (length clients) replies)) with
  | Some b => mret b
  | None => panic nil_assertion
  end.

(** * Commands *)

(** [uint64(atomic.AddInt64(&brc.Counter, 1))]. *)
Definition next_request : CS Z :=
  _ ← modify (BFTRaftClient.upd_Counter
    (λ n, let n := wrap64 (n + 1) in int_of_u64 n));
  n ← gets BFTRaftClient.Counter; mret (wrap64 n).

Definition open_channel (groupId reqId : Z) : CS unit :=
  modify (BFTRaftClient.upd_CmdResChan
    (λ m, <[groupId := <[reqId := []]> (default ∅ (m !! groupId))]> m)).

Definition close_channel (groupId reqId : Z) : CS unit :=
  modify (BFTRaftClient.upd_CmdResChan (alter (delete reqId) groupId)).

(** The receiving goroutine: the hashes in order, and the last result of each. *)
Definition receive (acc : gmap Z bytes * list Z) (res : bytes) : gmap Z bytes * list Z :=
  let hash := HashData res in (<[hash := res]> acc.1, acc.2 ++ [hash]).

(** The command, signed. *)
Definition build_command (brc : BFTRaftClient.t) (groupId reqId funcId : Z) (arg : bytes)
    : CommandRequest.t :=
  let cmdReq := CommandRequest.mk groupId (BFTRaftClient.Id brc) reqId funcId [] arg in
  CommandRequest.set_Signature
    (Sign (BFTRaftClient.SigningKey brc) (ExecCommandSignData cmdReq)) cmdReq.

(** What is returned when [results] have been sent to the channel. The channel
    is closed on return; a sender beyond those received is still blocked on it
    then, and panics. A missing result is the nil slice. *)
Definition finish_command (hosts : option (list Host.t)) (results : list bytes)
    : outcome bytes :=
  match hosts with
  | None => if (0 <? length results)%nat then Panic closed_channel else Err "cannot get group hosts"
  | Some hosts =>
    let expectedResponse := ExpectedPlayers (Z.of_nat (length hosts)) in
    if Z.of_nat (length results) <? expectedResponse then
      Err "does not receive enough response"
    else if expectedResponse <? Z.of_nat (length results) then Panic closed_channel
    else
      let '(responseReceived, responseHashes) := foldl receive (∅, []) results in
      let majorityHash := PickMajority responseHashes in
      Ok (default [] (responseReceived !! majorityHash))
  end.

(** [results] are those sent to the command's channel before the function
    returns: the leader's, and the replicas' through [ResponseCommand]. *)
Definition ExecCommand (groupId funcId : Z) (arg : bytes)
    (alpha_replies : list (option (option GroupNodesResponse.t)))
    (leader_replies : list (option (option GroupLeader.t)))
    (hosts_replies : list (option (option GroupNodesResponse.t)))
    (results : list bytes) : CS bytes :=
  leader ← GetGroupLeader groupId alpha_replies leader_replies;
  match leader with
  | None => throw "cannot found leader"
  | Some leader =>
    reqId ← next_request;
    brc ← gets id;
    let cmdReq := build_command brc groupId reqId funcId arg in
    _ ← open_channel groupId reqId;
    _ ← modify (BFTRaftClient.upd_calls (cons (leader, cmdReq)));
    hosts ← GetGroupHosts groupId alpha_replies hosts_replies;
    _ ← close_channel groupId reqId;
    lift (finish_command hosts results)
  end.

(** [fs.ClientIns.CmdResChan[cmd.Group][cmd.RequestId] <- cmd.Result] from a
    goroutine of its own: it never gets through when there is no channel. *)
Definition ResponseCommand (cmd : CommandResult.t) : CS unit :=
  modify (BFTRaftClient.upd_CmdResChan
    (alter (alter (λ c, c ++ [CommandResult.Result cmd]) (CommandResult.RequestId cmd))
      (CommandResult.Group cmd))).
End client.
