(* ===== verification/ClientFacts.v ===== *)
(** What a client may rely on: the majority answer of its commands, and the ways
    in which its calls end otherwise. *)
From S2P Require Export NodeFacts Client.

Section facts.
Context {W : World}.

(** * The answer *)

Lemma foldl_receive results acc :
  (foldl receive acc results).2 = acc.2 ++ (HashData <$> results) ∧
  ∀ h r, (foldl receive acc results).1 !! h = Some r →
    acc.1 !! h = Some r ∨ r ∈ results ∧ HashData r = h.
Proof.
  revert acc. induction results as [|x results IH]; intros acc; simpl.
  { rw app_nil_r. split; [done|]. auto. }
  destruct (IH (receive acc x)) as [IH2 IH1]. split.
  - rw IH2. unfold receive. simpl. by rw -app_assoc.
  - intros h r [Hr|[? ?]]%IH1; [|right; split; [by right|done]].
    unfold receive in Hr. simpl in Hr. destruct (decide (HashData x = h)) as [<-|Hne].
    + rw lookup_insert_eq in Hr. injection Hr as <-. right. split; [by left|done].
    + rw lookup_insert_ne in Hr; [done|]. by left.
Qed.

Lemma receive_all results acc h :
  h ∈ (HashData <$> results) → is_Some ((foldl receive acc results).1 !! h).
Proof.
  revert acc. induction results as [|x results IH] using rev_ind; intros acc.
  { by intros ?%not_elem_of_nil. }
  rw foldl_app fmap_app elem_of_app. simpl. unfold receive at 1. simpl.
  destruct (decide (HashData x = h)) as [<-|Hne]; [intros _; rw lookup_insert_eq; eauto|].
  rw lookup_insert_ne //. intros [?|?%list_elem_of_singleton]; [by apply IH|congruence].
Qed.

Lemma finish_command_answer hosts results data :
  finish_command (Some hosts) results = Ok data →
  Z.of_nat (length results) = ExpectedPlayers (Z.of_nat (length hosts)) ∧
  (∀ h, has_majority h (HashData <$> results) → data ∈ results ∧ HashData data = h) ∧
  ((∀ h, ¬ has_majority h (HashData <$> results)) → (∀ r, r ∈ results → HashData r ≠ 0) →
   data = []).
Proof.
  unfold finish_command. set (n := ExpectedPlayers _).
  destruct (Z.ltb_spec (Z.of_nat (length results)) n) as [|Hge]; [done|].
  destruct (Z.ltb_spec n (Z.of_nat (length results))) as [|Hle]; [done|].
  destruct (foldl receive (∅, []) results) as [received hashes] eqn:Hfold.
  destruct (foldl_receive results (∅, [])) as [H2 H1]. rw Hfold in H1, H2. cbn [fst snd] in H1, H2.
  subst hashes. rw app_nil_l. intros [= <-]. split; [lia|]. split.
  - intros h Hm. rw (PickMajority_majority _ _ Hm).
    pose proof (receive_all results (∅, []) h) as Hall. rw Hfold in Hall. cbn [fst] in Hall.
    destruct Hall as [r Hr].
    { apply occurrences_pos. unfold has_majority in Hm. pose proof (ExpectedPlayers_bounds
        (Z.of_nat (length (HashData <$> results))) ltac:(lia)). lia. }
    rw Hr. simpl. by destruct (H1 _ _ Hr) as [?|?].
  - intros Hno Hz. destruct (PickMajority_cases (HashData <$> results)) as [Hm|[-> _]].
    + by destruct (Hno _ Hm).
    + destruct (received !! 0) as [r|] eqn:Hr; [|done]. destruct (H1 _ _ Hr) as [?|[? Hh]]; [done|].
      by destruct (Hz r).
Qed.

(** C35. A command succeeds with the result that a majority of the awaited
    answers carry, up to collisions of the hash that identifies answers; without
    a majority it succeeds with the nil result. *)
Theorem finish_command_majority hosts results data :
  finish_command (Some hosts) results = Ok data →
  Z.of_nat (length results) = ExpectedPlayers (Z.of_nat (length hosts)) ∧
  (∀ h, has_majority h (HashData <$> results) → data ∈ results ∧ HashData data = h) ∧
  ((∀ h, ¬ has_majority h (HashData <$> results)) → (∀ r, r ∈ results → HashData r ≠ 0) →
   data = []).
Proof. apply finish_command_answer. Qed.

(** A command a client builds carries a signature that its key verifies and that
    binds all of its fields. *)
Theorem build_command_verifies brc groupId reqId funcId arg :
  let cmd := build_command brc groupId reqId funcId arg in
  VerifySign (Some (PublicKeyFromPrivate (BFTRaftClient.SigningKey brc)))
    (CommandRequest.Signature cmd) (ExecCommandSignData cmd) = Ok true.
Proof. apply VerifySign_Sign. Qed.

(** * What a command sends *)

(** Lookups touch the client's caches only. *)
Definition looked_up (c c' : BFTRaftClient.t) : Prop := ∃ a h l,
  c' = BFTRaftClient.upd_GroupLeader (λ _, l)
    (BFTRaftClient.upd_GroupHosts (λ _, h) (BFTRaftClient.upd_AlphaRPCs (λ _, a) c)).

#[local] Instance looked_up_preorder : PreOrder looked_up.
Proof.
  split.
  - intros c. exists (BFTRaftClient.AlphaRPCs c), (BFTRaftClient.GroupHosts c),
      (BFTRaftClient.GroupLeader c). by destruct c.
  - intros c1 c2 c3 (a & h & l & ->) (a' & h' & l' & ->). by exists a', h', l'.
Qed.

Lemma looked_up_AlphaRPCs f c : looked_up c (BFTRaftClient.upd_AlphaRPCs f c).
Proof.
  exists (f (BFTRaftClient.AlphaRPCs c)), (BFTRaftClient.GroupHosts c), (BFTRaftClient.GroupLeader c).
  by destruct c.
Qed.
Lemma looked_up_GroupHosts f c : looked_up c (BFTRaftClient.upd_GroupHosts f c).
Proof.
  exists (BFTRaftClient.AlphaRPCs c), (f (BFTRaftClient.GroupHosts c)), (BFTRaftClient.GroupLeader c).
  by destruct c.
Qed.
Lemma looked_up_GroupLeader f c : looked_up c (BFTRaftClient.upd_GroupLeader f c).
Proof.
  exists (BFTRaftClient.AlphaRPCs c), (BFTRaftClient.GroupHosts c), (f (BFTRaftClient.GroupLeader c)).
  by destruct c.
Qed.

Lemma looked_up_GetAlphaRPCs replies : preserves looked_up (GetAlphaRPCs replies).
Proof. unfold GetAlphaRPCs. solve_preserves. apply looked_up_AlphaRPCs. Qed.
#[local] Hint Resolve looked_up_GetAlphaRPCs : preserves.

Lemma looked_up_GetGroupHosts groupId alphas replies :
  preserves looked_up (GetGroupHosts groupId alphas replies).
Proof. unfold GetGroupHosts. solve_preserves. apply looked_up_GroupHosts. Qed.

Lemma looked_up_GetGroupLeader groupId alphas replies :
  preserves looked_up (GetGroupLeader groupId alphas replies).
Proof. unfold GetGroupLeader. solve_preserves. apply looked_up_GroupLeader. Qed.

(** The command [cmd] is the client's own, with a request number one above the
    last, and signed. *)
Record sent_command (c : BFTRaftClient.t) (groupId funcId : Z) (arg : bytes)
    (cmd : CommandRequest.t) : Prop := {
  sent_client : CommandRequest.ClientId cmd = BFTRaftClient.Id c;
  sent_request : CommandRequest.RequestId cmd = wrap64 (BFTRaftClient.Counter c + 1);
  sent_body : (CommandRequest.Group cmd, CommandRequest.FuncId cmd, CommandRequest.Arg cmd) =
    (groupId, funcId, arg);
  sent_signed : VerifySign (Some (PublicKeyFromPrivate (BFTRaftClient.SigningKey c)))
    (CommandRequest.Signature cmd) (ExecCommandSignData cmd) = Ok true
}.

Lemma wrap_int n : wrap64 (int_of_u64 (wrap64 n)) = wrap64 n.
Proof.
  unfold int_of_u64, wrap64. destruct (_ <? _); [by rw Zmod_mod|].
  rw -(Z_mod_plus_full _ 1). rw Z.mul_1_l Z.sub_add. by rw Zmod_mod.
Qed.

(** What the lookup of the hosts depends on. *)
Definition same_lookups (c c' : BFTRaftClient.t) : Prop :=
  BFTRaftClient.GroupHosts c' = BFTRaftClient.GroupHosts c ∧
  BFTRaftClient.AlphaRPCs c' = BFTRaftClient.AlphaRPCs c ∧ BFTRaftClient.now c' = BFTRaftClient.now c.

(** The steps of a command that is sent: it goes to the leader found, the hosts are
    looked up, and the answer is what [finish_command] makes of them. *)
Record command_steps (c c1 c' : BFTRaftClient.t) (groupId funcId : Z) (arg : bytes)
    (alphas hosts : list (option (option GroupNodesResponse.t))) (results : list bytes)
    (o : outcome bytes) (leader : string) (cmd : CommandRequest.t) : Prop := {
  steps_calls : BFTRaftClient.calls c' = (leader, cmd) :: BFTRaftClient.calls c;
  steps_sent : sent_command c groupId funcId arg cmd;
  steps_counter : wrap64 (BFTRaftClient.Counter c') = CommandRequest.RequestId cmd;
  steps_closed : (∀ w, o ≠ Panic w) →
    BFTRaftClient.CmdResChan c' !! groupId ≫= (.!! CommandRequest.RequestId cmd) = None;
  steps_finish : ∃ c2 c3 found, same_lookups c1 c2 ∧
    GetGroupHosts groupId alphas hosts c2 = (found, c3) ∧
    o = match found with
        | Ok nodes => finish_command nodes results
        | Err e => Err e
        | Panic w => Panic w
        end
}.

(** A lookup answers or panics. *)
Lemma errorless_GetAlphaRPCs replies : errorless (GetAlphaRPCs replies).
Proof.
  unfold GetAlphaRPCs. solve_errorless. intros s e. unfold lift, AlphaNodes. by repeat case_match.
Qed.

Lemma errorless_GetGroupHosts groupId alphas replies : errorless (GetGroupHosts groupId alphas replies).
Proof. unfold GetGroupHosts. solve_errorless. apply errorless_GetAlphaRPCs. Qed.

Lemma ExecCommand_steps groupId funcId arg alphas leaders hosts results c c1 leader o c' :
  GetGroupLeader groupId alphas leaders c = (Ok (Some leader), c1) →
  ExecCommand groupId funcId arg alphas leaders hosts results c = (o, c') →
  ∃ cmd, command_steps c c1 c' groupId funcId arg alphas hosts results o leader cmd.
Proof.
  unfold ExecCommand. intros H1 Hrun. rw (bind_Ok _ _ _ _ _ H1) in Hrun.
  pose proof (looked_up_GetGroupLeader groupId alphas leaders c) as Hl. rw H1 in Hl. clear H1.
  cbn [snd] in Hl. destruct Hl as (a & h & l & ->).
  set (c1 := BFTRaftClient.upd_GroupLeader _ _) in *.
  set (reqId := wrap64 (int_of_u64 (wrap64 (BFTRaftClient.Counter c + 1)))).
  set (c2 := BFTRaftClient.upd_Counter (λ n, int_of_u64 (wrap64 (n + 1))) c1).
  rw (bind_Ok _ _ _ _ _ (eq_refl : next_request c1 = (Ok reqId, c2))) in Hrun.
  rw (bind_Ok _ _ _ _ _ (eq_refl : gets id c2 = (Ok c2, c2))) in Hrun.
  set (cmd := build_command c2 groupId reqId funcId arg) in Hrun.
  rw (bind_Ok _ _ _ _ _ (eq_refl : open_channel groupId reqId c2 = _)) in Hrun.
  set (c3 := BFTRaftClient.upd_CmdResChan _ c2) in Hrun.
  rw (bind_Ok _ _ _ _ _ (eq_refl : modify (BFTRaftClient.upd_calls (cons (leader, cmd))) c3 = _)) in Hrun.
  set (c4 := BFTRaftClient.upd_calls _ c3) in Hrun.
  assert (sent_command c groupId funcId arg cmd) as Hsent.
  { split; [done|exact (wrap_int (BFTRaftClient.Counter c + 1))|done|].
    exact (VerifySign_Sign (BFTRaftClient.SigningKey c) _). }
  exists cmd. pose proof (looked_up_GetGroupHosts groupId alphas hosts c4) as Hl.
  destruct (GetGroupHosts groupId alphas hosts c4) as [found c5] eqn:H5.
  cbn [snd] in Hl. destruct Hl as (a' & h' & l' & ->).
  assert (same_lookups c1 c4) as Hsame by done.
  destruct found as [nodes|e|w].
  - rw (bind_Ok _ _ _ _ _ H5) (bind_Ok _ _ _ _ _ (eq_refl : close_channel groupId reqId _ = _)) in Hrun.
    injection Hrun as <- <-. split; [done..| |exists c4; eexists _, _; split; [done|]; split; [exact H5|done]].
    intros _. cbn. rw lookup_alter_eq lookup_insert_eq. apply lookup_delete_eq.
  - destruct (errorless_GetGroupHosts groupId alphas hosts c4 e). by rw H5.
  - rw (bind_Panic _ _ _ _ _ H5) in Hrun. injection Hrun as <- <-.
    split; [done..|by intros Hn; destruct (Hn w)
      |exists c4; eexists _, _; split; [done|]; split; [exact H5|done]].
Qed.

(** C36. [ExecCommand] sends nothing when it finds no leader, and then opens no channel.
    Else it sends exactly one command, to the leader that it found, with a fresh request
    number and the client's signature, and the channel of the request is closed
    however it returns: with a result, without enough answers in time, or without the
    hosts of the group. *)
Theorem ExecCommand_sends groupId funcId arg alphas leaders hosts results c o c' :
  ExecCommand groupId funcId arg alphas leaders hosts results c = (o, c') →
  (BFTRaftClient.calls c' = BFTRaftClient.calls c ∧ BFTRaftClient.Counter c' = BFTRaftClient.Counter c ∧
   BFTRaftClient.CmdResChan c' = BFTRaftClient.CmdResChan c ∧ ∀ r, o ≠ Ok r) ∨
  ∃ leader c1 cmd, GetGroupLeader groupId alphas leaders c = (Ok (Some leader), c1) ∧
    BFTRaftClient.calls c' = (leader, cmd) :: BFTRaftClient.calls c ∧
    sent_command c groupId funcId arg cmd ∧
    wrap64 (BFTRaftClient.Counter c') = CommandRequest.RequestId cmd ∧
    ((∀ w, o ≠ Panic w) →
      BFTRaftClient.CmdResChan c' !! groupId ≫= (.!! CommandRequest.RequestId cmd) = None).
Proof.
  intros Hrun. pose proof (looked_up_GetGroupLeader groupId alphas leaders c) as Hl.
  destruct (GetGroupLeader groupId alphas leaders c) as [o1 c1] eqn:H1.
  cbn [snd] in Hl. destruct Hl as (a & h & l & Hc1). destruct o1 as [[leader|]|e|w].
  - right. destruct (ExecCommand_steps _ funcId arg _ _ hosts results _ _ _ _ _ H1 Hrun) as (cmd & []).
    by exists leader, c1, cmd.
  - unfold ExecCommand in Hrun. rw (bind_Ok _ _ _ _ _ H1) in Hrun. injection Hrun as <- <-.
    left. by rw Hc1.
  - unfold ExecCommand in Hrun. rw (bind_Err _ _ _ _ _ H1) in Hrun. injection Hrun as <- <-.
    left. by rw Hc1.
  - unfold ExecCommand in Hrun. rw (bind_Panic _ _ _ _ _ H1) in Hrun. injection Hrun as <- <-.
    left. by rw Hc1.
Qed.

(** One answer more than those awaited, at the time of the return, brings the
    process down. *)
Theorem late_answer_panics hosts results :
  ExpectedPlayers (Z.of_nat (length hosts)) < Z.of_nat (length results) →
  finish_command (Some hosts) results = Panic closed_channel.
Proof.
  intros Hlt. unfold finish_command.
  destruct (Z.ltb_spec (Z.of_nat (length results)) (ExpectedPlayers (Z.of_nat (length hosts)))); [lia|].
  by destruct (Z.ltb_spec (ExpectedPlayers (Z.of_nat (length hosts))) (Z.of_nat (length results))); [|lia].
Qed.

(** A node that cannot be asked, when it is the only one, stops the client. *)
Theorem AlphaNodes_failed_call addr :
  W_dial addr = true → AlphaNodes [addr] [Some None] = Panic nil_deref.
Proof.
  intros Hd. unfold AlphaNodes.
  assert (filter (λ addr, W_dial addr = true) [addr] = [addr]) as ->.
  { by rw filter_cons; case_decide. }
  cbn [length repeat]. unfold MajorityResponse. case_decide; [|done]. cbn [default].
  assert (pick_response (gather (timed <$> answers_of hosts_result 1 [Some None])) = Some None) as ->;
    [|done].
  change (timed <$> answers_of hosts_result 1 [Some None])
    with [mkFuncResult _ (Some (@None GroupNodesResponse.t)) []].
  destruct (pick_response_majority [mkFuncResult _ (Some (@None GroupNodesResponse.t)) []] (HashData []))
    as (fr & Hfr & _ & _ & ->).
  - unfold has_majority, answered. rw filter_cons filter_nil. case_decide as Hs; cbv beta in Hs.
    + cbn [fmap list_fmap length]. rw occurrences_cons. by case_decide.
    + destruct Hs. by eexists.
  - by apply list_elem_of_singleton in Hfr as ->.
Qed.
End facts.

(** * Witness *)

(** Two hosts; both answer [[1]]. *)
Definition demo_hosts : list Host.t := [Host.mk 1 0 true "a" [1]; Host.mk 2 0 true "b" [2]].

Lemma demo_finish : finish_command (W:=mem_world) (Some demo_hosts) [[1]; [1]] = Ok [1].
Proof. by vm_compute. Qed.

Lemma demo_agree : has_majority (HashData [1]) (HashData <$> [[1]; [1]]).
Proof. by vm_compute. Qed.

Lemma finish_command_majority_witness : [1] ∈ [[1]; [1]] ∧ HashData [1] = HashData [1].
Proof.
  exact (proj1 (proj2 (finish_command_majority (W:=mem_world) demo_hosts [[1]; [1]] [1] demo_finish))
    _ demo_agree).
Defined.

(** A client that knows the leader and the hosts of group 7. *)
Definition demo_client : BFTRaftClient.t :=
  BFTRaftClient.mk (W:=mem_world) 9 9 (AlphaRPCsCache.NewAlphaRPCsCache ["a"] 0)
    (sm_set sm_empty (id_key 7) demo_hosts) (sm_set sm_empty (id_key 7) "a") ∅ 5 0 [].

Lemma demo_client_runs :
  (Client.ExecCommand 7 10 [1] [] [] [] [[1]; [1]] demo_client).1 = Ok [1].
Proof. by vm_compute. Qed.

Lemma ExecCommand_sends_witness :
  ∃ c' leader cmd,
    Client.ExecCommand 7 10 [1] [] [] [] [[1]; [1]] demo_client = (Ok [1], c') ∧
    BFTRaftClient.calls c' = [(leader, cmd)] ∧ sent_command demo_client 7 10 [1] cmd.
Proof.
  generalize demo_client_runs.
  destruct (Client.ExecCommand 7 10 [1] [] [] [] [[1]; [1]] demo_client) as [o c'] eqn:Hrun.
  intros Ho. cbn [fst] in Ho. rw Ho. exists c'.
  destruct (ExecCommand_sends 7 10 [1] [] [] [] [[1]; [1]] demo_client o c' Hrun)
    as [(_ & _ & _ & Hn)|(leader & _ & cmd & _ & Hc & Hs & _)].
  - exfalso. exact (Hn [1] Ho).
  - exists leader, cmd. split; [reflexivity|]. split; [exact Hc|exact Hs].
Defined.
