(* ===== verification/Served.v ===== *)
(** What a client of the cluster gets: the members of a group that is led well report
    one result for a command, the one that the state machine gives at the command's
    entry, and a client that hears a majority of them returns it. *)
From S2P Require Export DirectoryFacts ClientFacts.

Section served.
Context {W : World} {F : RaftFns} {T : Type} {Mch : Machine T}.
Context (t0 : T) (gid : Z).

(** The command's entry is in the log of a node than which no other is ahead, no other
    entry has its number, and the machine gives [v] there. *)
Record executed (c : gmap Z Server.t) (cmd : CommandRequest.t) (v : bytes) : Prop := {
  executed_entry : ∃ j s l k e, c !! j = Some s ∧ up_to_date gid c s ∧
    log_at (Server.DB s) gid l ∧ l !! k = Some e ∧ LogEntry.Command e = Some cmd ∧
    output (run t0 (take k l)) e = Some v ∧
    ∀ k' e' cmd', l !! k' = Some e' → LogEntry.Command e' = Some cmd' →
      CommandRequest.RequestId cmd' = CommandRequest.RequestId cmd → k' = k
}.

(** A result for the command: one that a member has sent to the client, or the answer
    of a leader that took the command into its log. *)
Inductive reported (c0 c : gmap Z Server.t) (cmd : CommandRequest.t) : bytes → Prop :=
| reported_member i s addr r :
    c !! i = Some s → (addr, r) ∈ told s → CommandResult.Group r = gid →
    CommandResult.RequestId r = CommandRequest.RequestId cmd →
    reported c0 c cmd (CommandResult.Result r)
| reported_leader c1 c2 i s forward replies response l :
    rtc (tidy_led_step gid) c0 c1 → c1 !! i = Some s →
    let ev := Ev_command i cmd forward replies in
    step c1 ev c2 → tidy gid c1 ev c2 → led_well gid c1 ev → rtc (tidy_led_step gid) c2 c →
    CommandRequest.Group cmd = gid →
    (RPC.ExecCommand cmd forward replies s).1 = Ok response →
    log_at (Server.DB s) gid l → ¬ log_at (Server.DB (RPC.ExecCommand cmd forward replies s).2) gid l →
    reported c0 c cmd (CommandResponse.Result response).

Context (Hrel : reliable W) (Huser : user_untold).
Context (c0 c : gmap Z Server.t) (l0 : list LogEntry.t).
Context (Hst : starts gid c0 l0) (H0 : all_track t0 gid c0) (Hrun : rtc (tidy_led_step gid) c0 c).

(** A log of the cluster is a first part of the log of a node that is up to date. *)
Lemma up_to_date_prefix i j si sj li lj :
  c !! i = Some si → c !! j = Some sj → log_at (Server.DB si) gid li → log_at (Server.DB sj) gid lj →
  up_to_date gid c sj → li `prefix_of` lj.
Proof using Hrel Hst Hrun.
  intros Hi Hj Hli Hlj Hup. pose proof (rtc_subrel _ _ _ _ (tidy_led_led gid) Hrun) as Hled.
  destruct (prefixes_agree gid c0 c l0 i j si sj li lj Hrel Hst Hled Hi Hj Hli Hlj) as [?|Hp]; [done|].
  by rw (prefix_full lj li Hp (Hup lj i si li Hlj Hi Hli)).
Qed.

Lemma reported_executed cmd v b : executed c cmd v → reported c0 c cmd b → b = v.
Proof using All.
  intros [(j & sj & lj & k & e & Hj & Hup & Hlj & He & Hc & Hv & Hone)] Hb.
  pose proof (starts_id _ _ _ Hst) as Hid.
  assert (∀ i s l k' e' cmd' w, c !! i = Some s → log_at (Server.DB s) gid l → l !! k' = Some e' →
    LogEntry.Command e' = Some cmd' → CommandRequest.RequestId cmd' = CommandRequest.RequestId cmd →
    (∀ v, output (run t0 (take k' l)) e' = Some v → w = v) → w = v) as Hsame.
  { intros i s l k' e' cmd' w Hi Hl He' Hc' Hreq Hw.
    destruct (up_to_date_prefix i j s sj l lj Hi Hj Hl Hlj Hup) as [x ->].
    pose proof (lookup_lt_Some _ _ _ He') as Hlt.
    assert ((l ++ x) !! k' = Some e') as He2 by by rw lookup_app_l.
    pose proof (Hone k' e' cmd' He2 Hc' Hreq) as ->. rw take_app_le in Hv; [lia|].
    apply Hw. congruence. }
  destruct Hb as [i s addr r Hi Hin Hg Hreq|c1 c2 i s forward replies response l Hr1 Hi ev Hstep Htidy Hwell Hr2 Hg Hok Hl Hnl].
  - pose proof (all_track_run t0 gid Hrel Huser Hid c0 c
      (rtc_subrel _ _ _ _ (tidy_led_tidy gid) Hrun) H0) as Hall.
    destruct (Hall i s Hi) as [l [_ Hl _ Ha]].
    destruct (Ha addr r Hin Hg) as [(k' & e' & cmd' & He' & Hc' & Hreq' & Hw) _].
    apply (Hsame i s l k' e' cmd'); [done..|congruence|done].
  - pose proof (all_track_run t0 gid Hrel Huser Hid c0 c1
      (rtc_subrel _ _ _ _ (tidy_led_tidy gid) Hr1) H0) as Hall.
    pose proof (all_track_log t0 gid c1 i s l Hall Hi Hl) as Htr.
    destruct (step_command_inv _ _ _ _ _ _ Hstep) as (s1 & Hi1 & Hu & Hroom & ->).
    assert (s1 = s) as -> by congruence.
    destruct (tracks_ExecCommand t0 gid Hrel Huser Hid cmd forward replies l s Hu (Htidy s Hi))
      as (l' & Htr' & Hcmd); [intros Hg'; pose proof (Hroom l) as Hr; rw Hg' in Hr; specialize (Hr Hl); lia
      |done|].
    destruct (Hcmd Hg) as [->|(g & -> & Hans)]; [by destruct (Hnl (tracks_log _ _ _ _ Htr'))|].
    destruct (logs_grow_run gid _ c i _ _ Hrel (rtc_subrel _ _ _ _ (tidy_led_any gid) Hr2)
      (lookup_insert_eq _ _ _) (tracks_boards _ _ _ _ Htr') Hid (tracks_log _ _ _ _ Htr'))
      as (s' & l' & Hi' & _ & Hl' & [x ->]).
    apply (Hsame i s' _ (length l) (next_entry g l cmd) cmd _ Hi' Hl'); [|done|done|].
    + rw -app_assoc. by apply list_lookup_middle.
    + intros v'. rw -app_assoc take_app_length. exact (Hans response v' Hok).
Qed.

(** When the members of a group that is led well, and the leader that took a
    command, report its result to the client, a client in whose answers those reports
    are a majority returns the result that the state machine gives at the command's
    entry, unless another of the answers has the same hash. *)
Theorem command_delivered cmd v hosts results reports data :
  executed c cmd v → reports `sublist_of` results → (∀ b, b ∈ reports → reported c0 c cmd b) →
  ExpectedPlayers (Z.of_nat (length results)) ≤ Z.of_nat (length reports) →
  finish_command (Some hosts) results = Ok data →
  data = v ∨ data ≠ v ∧ HashData data = HashData v.
Proof using All.
  intros Hex Hsub Hrep Hlen Hdata.
  destruct (finish_command_answer hosts results data Hdata) as (_ & Hmaj & _).
  destruct (decide (data = v)) as [?|Hne]; [by left|].
  destruct (Hmaj (HashData v)) as [_ Hh]; [|by right].
  unfold has_majority. rw length_fmap. etrans; [exact Hlen|].
  assert (reports = replicate (length reports) v) as Hall.
  { symmetry. apply replicate_as_Forall. split; [done|]. apply Forall_forall.
    intros b Hb. symmetry. exact (reported_executed cmd v b Hex (Hrep b Hb)). }
  pose proof (occurrences_sublist (HashData v) _ _ (fmap_sublist HashData _ _ Hsub)) as Hocc.
  rw Hall fmap_replicate occurrences_replicate in Hocc. lia.
Qed.
End served.

(** * Witness

    The leader's answer and the second member's, in the cluster of [DirectoryFacts.v]. *)
#[local] Existing Instance dir_machine.

Lemma dir_log c i s :
  all_track dir_t0 demo_group_id c → c !! i = Some s → LastEntryIndex (Server.DB s) demo_group_id = 1 →
  ∃ l, log_at (Server.DB s) demo_group_id l ∧ length l = 1%nat.
Proof.
  intros Hc Hi Hone. destruct (Hc i s Hi) as [l [_ Hl _ _]]. exists l.
  split; [done|]. exact (one_entry _ _ (LastEntryIndex_at _ _ _ Hl) Hone).
Qed.

Lemma dir_c2_lengths j s l :
  pair_c2 dir_start dir_cmd !! j = Some s → log_at (Server.DB s) demo_group_id l → length l = 1%nat.
Proof.
  intros Hj Hl. apply (one_entry _ _ (LastEntryIndex_at _ _ _ Hl)).
  unfold pair_c2, pair_c1, pair_c0 in Hj.
  apply lookup_insert_Some in Hj as [[_ <-]|[Hj2 Hj]]; [exact dir_told_index|].
  apply lookup_insert_Some in Hj as [[_ <-]|[Hj1 Hj]]; [exact dir_led_index|].
  apply lookup_insert_Some in Hj as [[Hj _]|[_ Hj]]; [by destruct (Hj1 Hj)|].
  apply lookup_singleton_Some in Hj as [Hj _]. by destruct (Hj2 Hj).
Qed.

Lemma dir_led_log : ∃ g,
  log_at (Server.DB (pair_led dir_start dir_cmd)) demo_group_id [next_entry g [] dir_cmd].
Proof.
  exact (command_taken dir_cmd no_forward [] (dir_start 1) [] eq_refl eq_refl dir_start_holds
    eq_refl dir_led_index).
Qed.

Lemma dir_executed : executed dir_t0 demo_group_id (pair_c2 dir_start dir_cmd) dir_cmd [1].
Proof.
  destruct dir_led_log as [g Hg]. constructor.
  exists 1, (pair_led dir_start dir_cmd), [next_entry g [] dir_cmd], 0%nat, (next_entry g [] dir_cmd).
  split; [exact (pair_first _ _)|]. split.
  { intros l j sj lj Hl Hj Hlj. rw (dir_c2_lengths _ _ _ Hj Hlj) (dir_c2_lengths _ _ _ (pair_first _ _) Hl).
    reflexivity. }
  split; [exact Hg|]. split; [reflexivity|]. split; [reflexivity|]. split.
  - change (host_answer dir_reg (next_entry g [] dir_cmd) = Some [1]).
    change (host_answer dir_reg (LogEntry.mk 0 0 [] (Some dir_cmd)) = Some [1]). by vm_compute.
  - by intros [|k'] e' cmd' Hk.
Qed.

Lemma dir_exec_answer : ∃ response,
  (RPC.ExecCommand dir_cmd no_forward [] (dir_start 1)).1 = Ok response ∧
  CommandResponse.Result response = [1].
Proof.
  assert (match (RPC.ExecCommand dir_cmd no_forward [] (dir_start 1)).1 with
    | Ok r => bool_decide (CommandResponse.Result r = [1]) | _ => false end = true) as H by by vm_compute.
  destruct (RPC.ExecCommand dir_cmd no_forward [] (dir_start 1)).1 as [r|e|w]; [|done..].
  exists r. split; [done|]. exact (bool_decide_eq_true_1 _ H).
Qed.

Lemma dir_leader_reports :
  reported demo_group_id (pair_c0 dir_start) (pair_c2 dir_start dir_cmd) dir_cmd [1].
Proof.
  destruct dir_exec_answer as (response & Hr & <-).
  apply (reported_leader _ _ _ _ (pair_c0 dir_start) (pair_c1 dir_start dir_cmd) 1 (dir_start 1)
    no_forward [] response []).
  - apply rtc_refl.
  - apply lookup_insert_eq.
  - exact (pair_step1 _ _ dir_paired).
  - exact dir_tidy.
  - exact (pair_led_well _ _ dir_paired).
  - apply rtc_once. eexists. split; [exact (pair_step2 _ _ dir_paired)|].
    split; [left; exact (paired_group _ _ dir_paired)|exact I].
  - reflexivity.
  - exact Hr.
  - exact (paired_log _ _ dir_paired 1).
  - intros Hl. pose proof (LastEntryIndex_at _ _ _ Hl) as Hi.
    change (RPC.ExecCommand dir_cmd no_forward [] (dir_start 1)).2 with (pair_led dir_start dir_cmd) in Hi.
    rw dir_led_index in Hi. discriminate Hi.
Qed.

Lemma dir_member_reports :
  reported demo_group_id (pair_c0 dir_start) (pair_c2 dir_start dir_cmd) dir_cmd [1].
Proof.
  destruct dir_results_one as (addr & r & Hin & Hg & Hreq & <-).
  apply (reported_member _ _ _ _ 2 (pair_told dir_start dir_cmd) addr r); [|unfold dir_results in Hin|done..].
  - apply (proj2 (pair_second _ _)).
  - rw Hin. apply list_elem_of_here.
Qed.

Lemma command_delivered_witness :
  finish_command (W:=mem_world) (Some demo_hosts) [[1]; [1]] = Ok [1] ∧
  ([1] = [1] ∨ [1] ≠ [1] ∧ HashData [1] = HashData [1]).
Proof.
  split; [exact demo_finish|].
  refine (command_delivered dir_t0 demo_group_id mem_reliable demo_user_untold (pair_c0 dir_start)
    (pair_c2 dir_start dir_cmd) [] (pair_starts _ _ dir_paired) dir_all_track dir_runs
    dir_cmd [1] demo_hosts [[1]; [1]] [[1]; [1]] [1] dir_executed _ _ _ demo_finish).
  - reflexivity.
  - intros b [->|[->|Hb]%elem_of_cons]%elem_of_cons;
      [exact dir_leader_reports|exact dir_member_reports|by apply not_elem_of_nil in Hb].
  - by vm_compute.
Defined.
