(* ===== verification/Routing.v ===== *)
(** From the client through the alpha nodes to a group and back: what alpha nodes answer
    when they are asked for the hosts and the leader of a group, against what the client
    makes of their answers, and a command from end to end.

    The hosts are those of the members, in any order; the leader is found when the alpha
    nodes are members of the group, and asking one that is not brings the client down. *)
From S2P Require Export Served MajorityFacts.

Section answers.
Context {W : World} {F : RaftFns}.

(** * What an alpha node answers *)

(** The server has the members' records in its store and knows their hosts as [H]. *)
Record versed (gid : Z) (members : gset Z) (H : gmap Z Host.t) (s : Server.t) : Prop := {
  versed_peers : ∃ t, peers_at (Server.DB s) gid t ∧ dom t = members;
  versed_hosts i : i ∈ members → read_host s i = H !! i
}.

Definition member_hosts (members : gset Z) (H : gmap Z Host.t) : list Host.t :=
  omap (λ i, H !! i) (elements members).

Lemma omap_hosts s gid t H :
  peers_at (Server.DB s) gid t → (∀ i, i ∈ dom t → read_host s i = H !! i) →
  omap (with_host (λ _ h, h) s) (range_map t) ≡ₚ member_hosts (dom t) H.
Proof.
  intros Ht Hr. unfold member_hosts. rw -(range_map_dom t).
  assert (∀ rows, (∀ row, row ∈ rows → t !! row.1 = Some row.2) →
    omap (with_host (λ _ h, h) s) rows = omap (λ i, H !! i) rows.*1) as ->; [|done|].
  - intros rows. induction rows as [|[i p] rows IH]; intros Hrows; [done|].
    pose proof (Hrows (i, p) ltac:(by left)) as Hi. cbn [fst snd] in Hi.
    cbn [omap list_omap fmap list_fmap fst]. unfold with_host at 1. cbn [snd].
    rw (peers_id _ _ _ Ht _ _ Hi) (Hr i ltac:(apply elem_of_dom; by exists p)).
    rw IH; [intros row Hin; apply Hrows; by right|]. by destruct (H !! i).
  - intros [i p] Hin. by apply elem_of_range_map.
Qed.

Lemma GroupHosts_answer gid members H s r s' :
  versed gid members H s → RPC.GroupHosts gid s = (Ok r, s') →
  GroupNodesResponse.Nodes r ≡ₚ member_hosts members H.
Proof.
  intros [(t & Ht & <-) Hr]. destruct (GetGroupHosts_run s gid t Ht) as (s1 & Hrun & _).
  unfold RPC.GroupHosts, GetGroupHostsNTXN, DB_View. rw {1}/mbind {1}/M_bind Hrun.
  intros Heq. assert (GroupNodesResponse.Nodes r = omap (with_host (λ _ h, h) s) (range_map t)) as ->.
  { by injection Heq as <- _. }
  exact (omap_hosts s gid t H Ht Hr).
Qed.

(** A server answers a question about a leader with the leader it follows and the host
    it knows for it, or with no node when the group is not on board. *)
Definition follows_host (gid : Z) (h : Host.t) (s : Server.t) : Prop := ∃ m rt,
  sm_get (Server.GroupsOnboard s) (id_key gid) = Some m ∧
  Server.rtgroups s !! m = Some rt ∧ read_host s (RTGroup.Leader rt) = Some h.

Lemma GetGroupLeader_follows gid h s r s' :
  follows_host gid h s → RPC.GetGroupLeader gid s = (Ok r, s') → GroupLeader.Node r = Some h.
Proof.
  intros (m & rt & Hm & Hrt & Hh) Hrun. unfold RPC.GetGroupLeader, GroupLeader in Hrun.
  rw (bind_Ok _ _ _ _ _ (eq_refl : GetOnboardGroup gid s = (Ok _, s))) Hm
    (bind_Ok _ _ _ _ _ (run_load_rt _ _ _ Hrt))
    (bind_Ok _ _ _ _ _ (GetHostNTXN_run (RTGroup.Leader rt) s)) Hh in Hrun.
  by injection Hrun as <- _.
Qed.

Lemma GetGroupLeader_elsewhere gid s r s' :
  sm_get (Server.GroupsOnboard s) (id_key gid) = None →
  RPC.GetGroupLeader gid s = (Ok r, s') → GroupLeader.Node r = None.
Proof.
  intros Hm Hrun. unfold RPC.GetGroupLeader, GroupLeader in Hrun.
  rw (bind_Ok _ _ _ _ _ (eq_refl : GetOnboardGroup gid s = (Ok _, s))) Hm in Hrun.
  unfold mbind, M_bind in Hrun. destruct (DB_View _ _) as [[]]; [|done..]. by injection Hrun as <- _.
Qed.
End answers.

Section directory.
Context {W : World} {F : RaftFns} (reg : gmap Z raft_fn).

Lemma versed_at s g t H :
  peers_at (Server.DB s) g t → hosts_at (Server.DB s) H → hosts_fresh H s → versed g (dom t) H s.
Proof.
  intros Ht Hh Hf. split; [by exists t|]. intros i [p Hp]%elem_of_dom.
  destruct (table_row _ _ _ (peers_table _ _ _ Ht) _ _ Hp) as [Hi _]. exact (read_host_at s H i Hh Hf Hi).
Qed.

(** What a node answers when it is asked for the hosts of a group: in a cluster
    that registers its hosts through one group, the peers it has stored for the group,
    with the hosts that its log of the registering group gives them, in some order; as
    long as its cache is not behind its table. *)
Theorem GroupHosts_answers_directory (Hrel : reliable W) (Huser : user_keeps reg) c0 c t0 gid
    i s l g t r s' :
  let _ := hosts_machine reg Hrel Huser in
  user_untold → is_u64 gid → all_track t0 gid c0 → rtc (tidy_step gid) c0 c →
  c !! i = Some s → log_at (Server.DB s) gid l → peers_at (Server.DB s) g t →
  hosts_fresh (directory reg t0 l) s → RPC.GroupHosts g s = (Ok r, s') →
  GroupNodesResponse.Nodes r ≡ₚ member_hosts (dom t) (directory reg t0 l).
Proof.
  intros Mch Hun Hid H0 Hrun Hi Hl Ht Hf Hr.
  pose proof (all_track_run t0 gid Hrel Hun Hid c0 c Hrun H0) as Hall.
  destruct (all_track_log t0 gid c i s l Hall Hi Hl) as [_ _ [_ Hh] _].
  exact (GroupHosts_answer _ _ _ _ _ _ (versed_at s g t _ Ht Hh Hf) Hr).
Qed.
End directory.

#[local] Arguments Result {_} _.
#[local] Arguments Feature {_} _.

Section client.
Context {W : World} {F : RaftFns}.

(** * What the client makes of the answers *)

(** The answers of [n] clients that were asked and did answer are in [replies], each
    from a server with [Q]. *)
Definition from {A} (Q : Server.t → Prop) (rpc : MS A) (n : nat)
    (replies : list (option (option A))) : Prop := ∀ i r,
  (i < n)%nat → replies !! i = Some (Some (Some r)) → ∃ s s', Q s ∧ rpc s = (Ok r, s').

Definition some_answer {A} (n : nat) (replies : list (option (option A))) : Prop :=
  ∃ i r, (i < n)%nat ∧ replies !! i = Some (Some (Some r)).

(** A majority among [n] clients: a value that one of them gave, or none. *)
Lemma majority_given {A B} (f : option A → FuncResult B) n replies :
  Result (f None) = None →
  match default None (MajorityResponse (repeat true n) (answers_of f n replies)) with
  | Some v => ∃ i r, (i < n)%nat ∧ replies !! i = Some (Some (Some r)) ∧ Result (f (Some r)) = Some v
  | None => ∀ i r, (i < n)%nat → replies !! i = Some (Some (Some r)) → Result (f (Some r)) = None
  end.
Proof.
  intros Hnone. unfold MajorityResponse.
  assert (length (filter (λ b, b = true) (repeat true n)) = length (repeat true n)) as Hn.
  { induction n as [|n IH]; [done|]. cbn [repeat]. rw filter_cons. case_decide; [|done].
    cbn [length]. by rw IH. }
  case_decide as Hd; [clear Hd|by destruct Hd]. cbn [default from_option id].
  pose proof (pick_response_given (timed <$> answers_of f n replies)) as Hp.
  destruct (pick_response _) as [v|].
  - destruct Hp as (fr & (x & -> & Hx)%list_elem_of_fmap & Hr).
    apply list_elem_of_fmap in Hx as (i & -> & Hi). apply elem_of_seq in Hi.
    destruct (replies !! i) as [[[r|]|]|] eqn:Hri; cbn in Hr; try done; [|congruence].
    exists i, r. split; [lia|]. by split.
  - intros i r Hi Hri. apply Hp. apply list_elem_of_fmap. exists (Some (f (Some r))).
    split; [done|]. apply list_elem_of_fmap. exists i. rw Hri. split; [done|]. apply elem_of_seq. lia.
Qed.

(** The client is connected to the alpha nodes at [addrs]. *)
Record connected (addrs : list string) (c : BFTRaftClient.t) : Prop := {
  connected_rpcs : AlphaRPCsCache.rpcs (BFTRaftClient.AlphaRPCs c) = addrs;
  connected_some : addrs ≠ [];
  connected_fresh : BFTRaftClient.now c ≤
    AlphaRPCsCache.lastCheck (BFTRaftClient.AlphaRPCs c) + 5 * Minute
}.

Lemma GetAlphaRPCs_connected addrs alphas c :
  connected addrs c → GetAlphaRPCs alphas c = (Ok addrs, c).
Proof.
  intros [Hr Hne Hf]. unfold GetAlphaRPCs, gets, mbind, M_bind. rw Hr.
  destruct addrs as [|a addrs]; [done|]. cbn [length Nat.ltb Nat.leb orb].
  by rw (proj2 (Z.ltb_ge _ _) Hf).
Qed.

(** Any refresh that finds somebody connects. *)
Lemma GetAlphaRPCs_connects alphas c addrs c' :
  GetAlphaRPCs alphas c = (Ok addrs, c') → addrs ≠ [] → connected addrs c'.
Proof.
  unfold GetAlphaRPCs, gets, lift, modify, mbind, M_bind. intros Hrun Hne.
  destruct (_ || _) eqn:Hd.
  - destruct (AlphaNodes _ _) as [nodes|e|w]; [|done..]. injection Hrun as <- <-.
    split; [done|done|]. cbn. unfold Minute, Second. lia.
  - injection Hrun as <- <-. apply orb_false_iff in Hd as [_ Hd%Z.ltb_ge]. by split.
Qed.

(** ** Hosts *)
Context (gid : Z) (members : gset Z) (H : gmap Z Host.t).

(** What the cache of the client holds for the group came from the same members. *)
Definition hosts_cached (c : BFTRaftClient.t) : Prop := ∀ hosts,
  sm_get (BFTRaftClient.GroupHosts c) (id_key gid) = Some hosts → hosts ≡ₚ member_hosts members H.

Lemma GetGroupHosts_members addrs alphas replies c :
  connected addrs c → hosts_cached c →
  from (versed gid members H) (RPC.GroupHosts gid) (length addrs) replies →
  ∃ o c', GetGroupHosts gid alphas replies c = (Ok o, c') ∧
    match o with
    | Some hosts => hosts ≡ₚ member_hosts members H
    | None => ¬ some_answer (length addrs) replies
    end.
Proof.
  intros Hc Hcached Hfrom. unfold GetGroupHosts.
  rw (bind_Ok _ _ _ _ _ (eq_refl : gets _ c = (Ok (sm_get (BFTRaftClient.GroupHosts c) (id_key gid)), c))).
  destruct (sm_get _ _) as [hosts|] eqn:Hk; [exists (Some hosts), c; split; [done|by apply Hcached]|].
  rw (bind_Ok _ _ _ _ _ (GetAlphaRPCs_connected addrs alphas c Hc)).
  match goal with |- context [answers_of ?f _ _] =>
    pose proof (majority_given f (length addrs) replies eq_refl) as Hm end.
  destruct (default _ _) as [hosts|]; cycle 1.
  { exists None, c. split; [done|]. intros (i & r & Hi & Hri). by specialize (Hm i r Hi Hri). }
  destruct Hm as (j & r & Hj & Hrj & [= <-]).
  eexists (Some (GroupNodesResponse.Nodes r)), _. split; [reflexivity|].
  destruct (Hfrom j r Hj Hrj) as (s & s' & Hs & Hrun). exact (GroupHosts_answer _ _ _ _ _ _ Hs Hrun).
Qed.

(** ** The leader *)

(** No answer without a node is among those of members of the group. *)
Lemma no_leaderless n (replies : list (option (option GroupLeader.t))) h :
  from (follows_host gid h) (RPC.GetGroupLeader gid) n replies →
  existsb leaderless (take n replies) = false.
Proof.
  intros Hfrom. apply not_true_iff_false. intros (x & Hx & Hl)%existsb_exists.
  apply list_elem_of_In, list_elem_of_lookup in Hx as [i Hi].
  destruct x as [[r|]|]; [|done..]. apply lookup_take_Some in Hi as [Hi Hlt].
  destruct (Hfrom i r Hlt Hi) as (s & s' & Hs & Hrun). simpl in Hl.
  by rw (GetGroupLeader_follows _ _ _ _ _ Hs Hrun) in Hl.
Qed.

(** The client connects to the leader that the alpha nodes follow. *)
Lemma GetGroupLeader_found addrs alphas replies c h :
  connected addrs c → sm_get (BFTRaftClient.GroupLeader c) (id_key gid) = None →
  from (follows_host gid h) (RPC.GetGroupLeader gid) (length addrs) replies →
  some_answer (length addrs) replies → W_dial (Host.ServerAddr h) = true →
  Client.GetGroupLeader gid alphas replies c =
    (Ok (Some (Host.ServerAddr h)),
     BFTRaftClient.upd_GroupLeader (λ m, sm_set m (id_key gid) (Host.ServerAddr h)) c).
Proof.
  intros Hc Hk Hfrom (i & r & Hi & Hri) Hd. unfold Client.GetGroupLeader.
  rw (bind_Ok _ _ _ _ _ (eq_refl : gets _ c = (Ok (sm_get (BFTRaftClient.GroupLeader c) (id_key gid)), c))).
  rw Hk (bind_Ok _ _ _ _ _ (GetAlphaRPCs_connected addrs alphas c Hc)) (no_leaderless _ _ _ Hfrom).
  pose proof (majority_given leader_result (length addrs) replies eq_refl) as Hm.
  assert (∀ j r', (j < length addrs)%nat → replies !! j = Some (Some (Some r')) →
    GroupLeader.Node r' = Some h) as Hnode.
  { intros j r' Hj Hrj. destruct (Hfrom j r' Hj Hrj) as (s & s' & Hs & Hrun).
    exact (GetGroupLeader_follows _ _ _ _ _ Hs Hrun). }
  destruct (default _ _) as [lh|].
  - destruct Hm as (j & r' & Hj & Hrj & Hl). cbn [leader_result Result] in Hl.
    rw (Hnode j r' Hj Hrj) in Hl. injection Hl as <-. by rw Hd.
  - specialize (Hm i r Hi Hri). cbn [leader_result Result] in Hm. by rw (Hnode i r Hi Hri) in Hm.
Qed.

(** A client that asks an alpha node for the leader of a group which that node is
    not a member of goes down, whatever the others answer: the answer has no node. *)
Theorem GetGroupLeader_elsewhere_panics addrs alphas replies c i r s s' :
  connected addrs c → sm_get (BFTRaftClient.GroupLeader c) (id_key gid) = None →
  (i < length addrs)%nat → replies !! i = Some (Some (Some r)) →
  RPC.GetGroupLeader gid s = (Ok r, s') → sm_get (Server.GroupsOnboard s) (id_key gid) = None →
  Client.GetGroupLeader gid alphas replies c = (Panic nil_deref, c).
Proof.
  intros Hc Hk Hi Hri Hrun Hs. unfold Client.GetGroupLeader.
  rw (bind_Ok _ _ _ _ _ (eq_refl : gets _ c = (Ok (sm_get (BFTRaftClient.GroupLeader c) (id_key gid)), c))).
  rw Hk (bind_Ok _ _ _ _ _ (GetAlphaRPCs_connected addrs alphas c Hc)).
  assert (existsb leaderless (take (length addrs) replies) = true) as ->; [|done].
  apply existsb_exists. exists (Some (Some r)). split.
  - apply list_elem_of_In, list_elem_of_lookup. exists i. by apply lookup_take_Some.
  - cbn. by rw (GetGroupLeader_elsewhere _ _ _ _ Hs Hrun).
Qed.

(** ** Commands *)

Lemma connected_same addrs c c' : connected addrs c → same_lookups c c' → connected addrs c'.
Proof using. intros [Hr Hne Hf] (_ & Ha & Hn). split; [by rw Ha|done|by rw Ha Hn]. Qed.

Lemma hosts_cached_same c c' : hosts_cached c → same_lookups c c' → hosts_cached c'.
Proof. intros Hc (Hh & _ & _) hosts. rw Hh. apply Hc. Qed.

Lemma same_lookups_trans c1 c2 c3 : same_lookups c1 c2 → same_lookups c2 c3 → same_lookups c1 c3.
Proof using. intros (? & ? & ?) (? & ? & ?). repeat split; congruence. Qed.

Lemma GetGroupLeader_same addrs alphas replies c :
  connected addrs c → same_lookups c (Client.GetGroupLeader gid alphas replies c).2.
Proof using.
  intros Hc. unfold Client.GetGroupLeader.
  rw (bind_Ok _ _ _ _ _ (eq_refl : gets _ c = (Ok (sm_get (BFTRaftClient.GroupLeader c) (id_key gid)), c))).
  destruct (sm_get _ _); [done|]. rw (bind_Ok _ _ _ _ _ (GetAlphaRPCs_connected addrs alphas c Hc)).
  destruct (existsb _ _); [done|]. destruct (default _ _) as [h|]; [|done]. by destruct (W_dial _).
Qed.

(** Every member's host is known. *)
Definition all_known : Prop := ∀ i, i ∈ members → is_Some (H !! i).

Lemma member_hosts_length : all_known → length (member_hosts members H) = size members.
Proof.
  unfold all_known, member_hosts. rw /size /set_size /=. setoid_rewrite <-elem_of_elements.
  induction (elements members) as [|i l IH]; intros Hk; [done|].
  destruct (Hk i ltac:(by left)) as [h Hh]. cbn [omap list_omap]. rw Hh. cbn [length].
  f_equal. apply IH. intros j Hj. apply Hk. by right.
Qed.

Lemma finish_command_all hosts results :
  Z.of_nat (length results) = ExpectedPlayers (Z.of_nat (length hosts)) →
  ∃ data, finish_command (Some hosts) results = Ok data.
Proof using.
  intros Hlen. unfold finish_command. rw -Hlen Z.ltb_irrefl.
  destruct (foldl receive (∅, []) results) as [received hashes]. by eexists.
Qed.

(** A command through alpha nodes that know the group: where it goes, and how many
    results it waits for. *)
Lemma ExecCommand_routed addrs c c1 leader funcId arg alphas lreplies hreplies results o c' :
  connected addrs c → hosts_cached c → all_known →
  from (versed gid members H) (RPC.GroupHosts gid) (length addrs) hreplies →
  Client.GetGroupLeader gid alphas lreplies c = (Ok (Some leader), c1) →
  Client.ExecCommand gid funcId arg alphas lreplies hreplies results c = (o, c') →
  ∃ cmd, BFTRaftClient.calls c' = (leader, cmd) :: BFTRaftClient.calls c ∧
    sent_command c gid funcId arg cmd ∧
    ((∃ hosts, length hosts = size members ∧ o = finish_command (Some hosts) results) ∨
     o = finish_command None results ∧ ¬ some_answer (length addrs) hreplies).
Proof.
  intros Hc Hcached Hall Hfrom Hl Hrun.
  destruct (ExecCommand_steps _ _ _ _ _ _ _ _ _ _ _ _ Hl Hrun) as (cmd & [Hcalls Hsent _ _ Hfin]).
  exists cmd. split; [done|]. split; [done|]. destruct Hfin as (c2 & c3 & found & Hsame & Hhosts & ->).
  pose proof (GetGroupLeader_same addrs alphas lreplies c Hc) as Hs1. rw Hl in Hs1.
  pose proof (same_lookups_trans _ _ _ Hs1 Hsame) as Hs2.
  destruct (GetGroupHosts_members addrs alphas hreplies c2 (connected_same _ _ _ Hc Hs2)
    (hosts_cached_same _ _ Hcached Hs2) Hfrom) as (hosts & c4 & Heq & Hp).
  rw Heq in Hhosts. injection Hhosts as <- _. destruct hosts as [hosts|]; [left|by right].
  exists hosts. split; [|done]. by rw Hp (member_hosts_length Hall).
Qed.

(** C6. A client gets its command through when the alpha nodes that answer it are all
    members of the group, all follow one leader, which the client can reach, and all know
    the hosts of all members; they may answer in any order, late or not at all as long as
    one of them does. The command goes to the leader, signed, and when as many results
    have come as a quorum of the members has and a majority of them agree, the call
    returns with what they agree on. *)
Theorem ExecCommand_completes addrs c h funcId arg alphas lreplies hreplies results v :
  connected addrs c → hosts_cached c → all_known →
  sm_get (BFTRaftClient.GroupLeader c) (id_key gid) = None →
  from (follows_host gid h) (RPC.GetGroupLeader gid) (length addrs) lreplies →
  some_answer (length addrs) lreplies → W_dial (Host.ServerAddr h) = true →
  from (versed gid members H) (RPC.GroupHosts gid) (length addrs) hreplies →
  some_answer (length addrs) hreplies →
  Z.of_nat (length results) = ExpectedPlayers (Z.of_nat (size members)) →
  has_majority (HashData v) (HashData <$> results) →
  ∃ cmd data c', Client.ExecCommand gid funcId arg alphas lreplies hreplies results c = (Ok data, c') ∧
    BFTRaftClient.calls c' = (Host.ServerAddr h, cmd) :: BFTRaftClient.calls c ∧
    sent_command c gid funcId arg cmd ∧ data ∈ results ∧ HashData data = HashData v.
Proof.
  intros Hc Hcached Hall Hk Hlfrom Hlsome Hd Hfrom Hsome Hlen Hmaj.
  pose proof (GetGroupLeader_found addrs alphas lreplies c h Hc Hk Hlfrom Hlsome Hd) as Hl.
  destruct (Client.ExecCommand gid funcId arg alphas lreplies hreplies results c) as [o c'] eqn:Hrun.
  destruct (ExecCommand_routed _ _ _ _ _ _ _ _ _ _ _ _ Hc Hcached Hall Hfrom Hl Hrun)
    as (cmd & Hcalls & Hsent & [(hosts & Hh & ->)|[_ Hno]]); [|by destruct (Hno Hsome)].
  rw -Hh in Hlen. destruct (finish_command_all hosts results Hlen) as [data Hdata].
  destruct (finish_command_answer _ _ _ Hdata) as (_ & Hm & _).
  destruct (Hm _ Hmaj) as [Hin Hhash]. exists cmd, data, c'. by rw Hdata.
Qed.
End client.

Section outcome.
Context {W : World} {F : RaftFns} {T : Type} {Mch : Machine T}.
Context (t0 : T) (gid : Z).

Lemma ExecCommand_leader funcId arg alphas lreplies hreplies results c data c' :
  Client.ExecCommand gid funcId arg alphas lreplies hreplies results c = (Ok data, c') →
  ∃ leader c1, Client.GetGroupLeader gid alphas lreplies c = (Ok (Some leader), c1).
Proof.
  unfold Client.ExecCommand. rw {1}/mbind {1}/M_bind.
  destruct (Client.GetGroupLeader gid alphas lreplies c) as [[[leader|]|e|w] c1]; [|done..].
  intros _. by exists leader, c1.
Qed.

(** C5. A command from end to end, for a client that has learnt from alpha nodes who
    the members of the group are, and whose call has returned: it sent one command,
    signed; it has waited for as many results as a quorum of the members has; and if a
    majority of these were reported by members of the group that executed the command, it
    returns what the state machine gives at the command's entry, unless another result
    has the same hash. This holds where the group is led well, its machine is moved by
    this group only, no command makes its leader panic between storing and committing
    it, and no other entry of the log has the command's request number, not even one of
    another client: a result names no client. *)
Theorem client_gets_result (Hrel : reliable W) (Huser : user_untold) c0 c l0 members H addrs cl
    funcId arg alphas lreplies hreplies results data cl' :
  starts gid c0 l0 → all_track t0 gid c0 → rtc (tidy_led_step gid) c0 c →
  connected addrs cl → hosts_cached gid members H cl → all_known members H →
  from (versed gid members H) (RPC.GroupHosts gid) (length addrs) hreplies →
  Client.ExecCommand gid funcId arg alphas lreplies hreplies results cl = (Ok data, cl') →
  ∃ leader cmd, BFTRaftClient.calls cl' = (leader, cmd) :: BFTRaftClient.calls cl ∧
    sent_command cl gid funcId arg cmd ∧
    Z.of_nat (length results) = ExpectedPlayers (Z.of_nat (size members)) ∧
    ∀ v reports, executed t0 gid c cmd v → reports `sublist_of` results →
      (∀ b, b ∈ reports → reported gid c0 c cmd b) →
      ExpectedPlayers (Z.of_nat (length results)) ≤ Z.of_nat (length reports) →
      data = v ∨ data ≠ v ∧ HashData data = HashData v.
Proof.
  intros Hst H0 Hr Hc Hcached Hall Hfrom Hrun.
  destruct (ExecCommand_leader _ _ _ _ _ _ _ _ _ Hrun) as (leader & c1 & Hl).
  destruct (ExecCommand_routed _ _ _ _ _ _ _ _ _ _ _ _ _ _ _ Hc Hcached Hall Hfrom Hl Hrun)
    as (cmd & Hcalls & Hsent & [(hosts & Hh & Hdata)|[Hdata _]]); cycle 1.
  { symmetry in Hdata. unfold finish_command in Hdata. by destruct (_ <? _)%nat. }
  exists leader, cmd. split; [done|]. split; [done|]. symmetry in Hdata.
  destruct (finish_command_answer _ _ _ Hdata) as (Hlen & _). split; [by rw -Hh|].
  intros v reports Hex Hsub Hrep Hmaj.
  exact (command_delivered t0 gid Hrel Huser c0 c l0 Hst H0 Hr cmd v hosts results reports data
    Hex Hsub Hrep Hmaj Hdata).
Qed.
End outcome.

(** * Witness

    The member 1 of [DirectoryFacts.v] is a client, too: it has connected to the members
    1 and 2, of which the second does not answer, and sends the command that registers a
    host. *)
#[local] Existing Instance dir_machine.

Definition routed_client : BFTRaftClient.t (W:=mem_world) :=
  BFTRaftClient.mk (W:=mem_world) 1 1 (AlphaRPCsCache.mk [] ["1"; "2"] 0) sm_empty sm_empty ∅ 3 0 [].

Definition routed_hosts : list (option (option GroupNodesResponse.t)) :=
  [match (RPC.GroupHosts demo_group_id (dir_start 1)).1 with
   | Ok r => Some (Some r) | _ => None end; Some None].

Definition routed_leader : list (option (option GroupLeader.t)) :=
  [match (RPC.GetGroupLeader demo_group_id (dir_start 1)).1 with
   | Ok r => Some (Some r) | _ => None end; Some None].

Definition routed_members : gset Z := {[1; 2; 3]}.

Lemma put_peer_at (d : store) n t :
  is_u64 n → peers_at d demo_group_id t →
  peers_at (put (peers_prefix demo_group_id ++ U64Bytes n) (demo_peer n) d) demo_group_id
    (<[n := demo_peer n]> t).
Proof.
  intros Hn Ht. unfold put.
  change (marshal (demo_peer n)) with (inr (print_peer (demo_peer n)) : string + bytes).
  cbv beta iota. destruct (kv_set _ _ _) as [e|w] eqn:Hs; [by revert Hs; cbn; case_decide|].
  apply (SavePeer_at d _ (demo_peer n) demo_group_id t Ht eq_refl Hn).
  change (txn_set d (peers_prefix demo_group_id ++ U64Bytes n) (print_peer (demo_peer n)) = Ok w).
  unfold txn_set. by rw Hs.
Qed.

Lemma put_member_peers (d : store) n t :
  is_u64 n → peers_at d demo_group_id t → peers_at (put_member d n) demo_group_id (<[n := demo_peer n]> t).
Proof.
  intros Hn Ht.
  apply (put_peer_at (put (hosts_prefix ++ U64Bytes n) (demo_host n) d) n t Hn).
  apply (put_peers_at d (hosts_prefix ++ U64Bytes n) (demo_host n) demo_group_id t); [|exact Ht].
  by apply has_prefix_kinds.
Qed.

Lemma dir_versed n : versed demo_group_id routed_members dir_t0 (dir_start n).
Proof.
  split.
  - exists (<[3 := demo_peer 3]> (<[2 := demo_peer 2]> (<[1 := demo_peer 1]> ∅))). split.
    + change (peers_at (demo_db 1 []) demo_group_id
        (<[3 := demo_peer 3]> (<[2 := demo_peer 2]> (<[1 := demo_peer 1]> ∅)))).
      unfold demo_db. apply put_peers_at; [by vm_compute|]. cbn [foldl].
      by repeat (apply put_member_peers; [done|]); apply peers_at_empty.
    + unfold routed_members. set_solver.
  - unfold routed_members. intros i. rw !elem_of_union !elem_of_singleton.
    intros [[-> | ->] | ->]; by vm_compute.
Qed.

Lemma one_answer {A} (Q : Server.t → Prop) (rpc : MS A) (r : A) (s : Server.t (W:=mem_world)) s' :
  Q s → rpc s = (Ok r, s') →
  from Q rpc 2 [Some (Some r); Some None] ∧ some_answer 2 [Some (Some r); Some None].
Proof.
  intros Hs Hrun. split.
  - intros [|[|i]] r' Hi Hr; [|done|simpl in Hi; lia]. injection Hr as <-. by exists s, s'.
  - exists 0%nat, r. split; [lia|done].
Qed.

Lemma routed_hosts_from :
  from (versed demo_group_id routed_members dir_t0) (RPC.GroupHosts demo_group_id) 2 routed_hosts ∧
  some_answer 2 routed_hosts.
Proof.
  assert (∃ r s', RPC.GroupHosts demo_group_id (dir_start 1) = (Ok r, s')) as (r & s' & Hrun).
  { unfold RPC.GroupHosts, GetGroupHostsNTXN, DB_View. rw {1}/mbind {1}/M_bind.
    destruct (versed_peers _ _ _ _ (dir_versed 1)) as (t & Ht & _).
    destruct (GetGroupHosts_run _ _ _ Ht) as (s1 & -> & _). by eexists _, _. }
  unfold routed_hosts. rw Hrun. exact (one_answer _ _ r (dir_start 1) s' (dir_versed 1) Hrun).
Qed.

Lemma dir_follows : follows_host demo_group_id (demo_host 1) (dir_start 1).
Proof. exists 0%nat, (demo_rt 1 LEADER). split; [done|]. split; [done|]. by vm_compute. Qed.

Lemma routed_leader_from :
  from (follows_host demo_group_id (demo_host 1)) (RPC.GetGroupLeader demo_group_id) 2 routed_leader ∧
  some_answer 2 routed_leader.
Proof.
  assert (∃ r s', RPC.GetGroupLeader demo_group_id (dir_start 1) = (Ok r, s')) as (r & s' & Hrun).
  { unfold RPC.GetGroupLeader, GroupLeader.
    rw (bind_Ok _ _ _ _ _ (eq_refl : GetOnboardGroup demo_group_id (dir_start 1) = (Ok (Some 0%nat), _)))
      (bind_Ok _ _ _ _ _ (run_load_rt (dir_start 1) 0%nat (demo_rt 1 LEADER) eq_refl))
      (bind_Ok _ _ _ _ _ (GetHostNTXN_run (RTGroup.Leader (demo_rt 1 LEADER)) (dir_start 1))).
    by eexists _, _. }
  unfold routed_leader. rw Hrun. exact (one_answer _ _ r (dir_start 1) s' dir_follows Hrun).
Qed.

Lemma routed_connected : connected ["1"; "2"] routed_client.
Proof. by split. Qed.

Lemma routed_cached : hosts_cached demo_group_id routed_members dir_t0 routed_client.
Proof. intros hosts. by rw sm_get_empty. Qed.

Lemma routed_known : all_known routed_members dir_t0.
Proof.
  unfold routed_members. intros i. rw !elem_of_union !elem_of_singleton.
  intros [[-> | ->] | ->]; by eexists.
Qed.

Lemma in_ones (b : bytes) : b ∈ [[1]; [1]] → b = [1].
Proof. by intros [->|[->|?%not_elem_of_nil]%elem_of_cons]%elem_of_cons. Qed.

Lemma ExecCommand_completes_witness :
  ∃ cmd c', Client.ExecCommand demo_group_id REG_NODE (print_host demo_reg_host) [] routed_leader
      routed_hosts [[1]; [1]] routed_client = (Ok [1], c') ∧
    BFTRaftClient.calls c' = [("1", cmd)].
Proof.
  destruct (ExecCommand_completes demo_group_id routed_members dir_t0 ["1"; "2"] routed_client
    (demo_host 1) REG_NODE (print_host demo_reg_host) [] routed_leader routed_hosts [[1]; [1]] [1]
    routed_connected routed_cached routed_known (sm_get_empty _) (proj1 routed_leader_from)
    (proj2 routed_leader_from) eq_refl (proj1 routed_hosts_from) (proj2 routed_hosts_from) eq_refl
    demo_agree) as (cmd & data & c' & Hrun & Hcalls & _ & Hin & _).
  rw (in_ones _ Hin) in Hrun. exists cmd, c'. split; [exact Hrun|exact Hcalls].
Defined.

Definition routed_run : outcome bytes * BFTRaftClient.t :=
  Client.ExecCommand demo_group_id REG_NODE (print_host demo_reg_host) [] routed_leader routed_hosts
    [[1]; [1]] routed_client.

Lemma routed_run_ok : routed_run = (Ok [1], routed_run.2).
Proof. assert (routed_run.1 = Ok [1]) as <- by (by vm_compute). apply surjective_pairing. Qed.

Lemma routed_sent : BFTRaftClient.calls routed_run.2 = [("1", dir_cmd)].
Proof. by vm_compute. Qed.

(** Both results are reported by members of the group, which registered the host. *)
Lemma client_gets_result_witness :
  routed_run = (Ok [1], routed_run.2) ∧ BFTRaftClient.calls routed_run.2 = [("1", dir_cmd)] ∧
  ([1] = [1] ∨ [1] ≠ [1] ∧ HashData [1] = HashData [1]).
Proof.
  split; [exact routed_run_ok|]. split; [exact routed_sent|].
  destruct (client_gets_result dir_t0 demo_group_id mem_reliable demo_user_untold (pair_c0 dir_start)
    (pair_c2 dir_start dir_cmd) [] routed_members dir_t0 ["1"; "2"] routed_client REG_NODE
    (print_host demo_reg_host) [] routed_leader routed_hosts [[1]; [1]] [1] routed_run.2
    (pair_starts _ _ dir_paired) dir_all_track dir_runs routed_connected routed_cached routed_known
    (proj1 routed_hosts_from) routed_run_ok) as (leader & cmd & Hcalls & _ & _ & Hv).
  rw routed_sent in Hcalls. injection Hcalls as _ <-.
  apply (Hv [1] [[1]; [1]] dir_executed); [reflexivity| |by vm_compute].
  intros b [->|[->|Hb]%elem_of_cons]%elem_of_cons;
    [exact dir_leader_reports|exact dir_member_reports|by apply not_elem_of_nil in Hb].
Defined.

(** The client of the first member asks a node that does not have the group. *)
Lemma GetGroupLeader_elsewhere_panics_witness :
  Client.GetGroupLeader 9 [] [Some (Some (GroupLeader.mk None false []))] routed_client =
    (Panic nil_deref, routed_client).
Proof.
  destruct (RPC.GetGroupLeader 9 (dir_start 1)) as [o s'] eqn:Hrun.
  assert (o = Ok (GroupLeader.mk None false [])) as ->.
  { assert ((RPC.GetGroupLeader 9 (dir_start 1)).1 = Ok (GroupLeader.mk None false [])) as Ho
      by (by vm_compute). by rw Hrun in Ho. }
  exact (GetGroupLeader_elsewhere_panics 9 ["1"; "2"] [] [Some (Some (GroupLeader.mk None false []))]
    routed_client 0 (GroupLeader.mk None false []) (dir_start 1) s' routed_connected (sm_get_empty _)
    (Nat.lt_0_succ 1) eq_refl Hrun eq_refl).
Defined.

(** The second member, when the first has taken a command. *)
Lemma GroupHosts_answers_directory_witness :
  ∃ r, (RPC.GroupHosts demo_group_id (dir_start 2)).1 = Ok r ∧
    GroupNodesResponse.Nodes r ≡ₚ member_hosts {[1; 2; 3]} dir_t0.
Proof.
  destruct (versed_peers _ _ _ _ (dir_versed 2)) as (t & Ht & Hdom).
  destruct (RPC.GroupHosts demo_group_id (dir_start 2)) as [o s'] eqn:Hrun.
  assert (∃ r, o = Ok r) as [r ->].
  { unfold RPC.GroupHosts, GetGroupHostsNTXN, DB_View in Hrun. rw {1}/mbind {1}/M_bind in Hrun.
    destruct (GetGroupHosts_run _ _ _ Ht) as (s1 & Heq & _). rw Heq in Hrun.
    injection Hrun as <- _. by eexists. }
  exists r. split; [reflexivity|]. fold routed_members. rw -Hdom.
  exact (GroupHosts_answers_directory dir_reg mem_reliable (demo_user_keeps dir_reg) _ _ dir_t0
    demo_group_id 2 (dir_start 2) [] demo_group_id t r s' demo_user_untold demo_group_u64 dir_all_track
    (rtc_subrel _ _ _ _ (tidy_led_tidy demo_group_id) dir_c1_runs) (proj1 (pair_second _ _))
    (paired_log _ _ dir_paired 2) Ht ltac:(intros id h _; by rw sm_get_empty) Hrun).
Defined.
