(* ===== verification/Start.v ===== *)
(** Configuration and process start: [server/config.go], and [GetServer],
    [StartServer] and [InitDatabase] of [server/bftraft.go]; with [SyncAlphaGroup] of
    [server/alpha.go], which asks the server's client for the alpha nodes.

    A database directory is the contents of its store, the state [W_db]: [opened]
    and [closed] are the errors [badger.Open] and [Close] give. Files and JSON are
    the standard library's: what reading and decoding give are arguments. *)
From S2P Require Export Conns Client.

Definition conf_key : bytes := ComposeKeyPrefix CONFIG_GROUP SERVER_CONF.

Module FileConfig.
Record t : Type := mk { Db : string; Address : string; Bootstraps : list string }.
End FileConfig.

Section start.
Context {W : World} `{!RaftFns}.

(** [ReadConfigFile], with what [ioutil.ReadFile] and [json.Unmarshal] give. *)
Definition ReadConfigFile (read : string + bytes) (decode : bytes → string + FileConfig.t)
    : outcome FileConfig.t :=
  match read with
  | inl err => Panic err
  | inr data =>
    match decode data with
    | inl err => Panic err
    | inr fc => Ok fc
    end
  end.

(** [log.Panic] comes before each of the error returns. *)
Definition GetConfig (kv : W_db) : outcome ServerConfig.t :=
  match kv_get kv conf_key with
  | KVNotFound => Panic "Key not found"
  | KVError err => Panic err
  | KVFound item =>
    match ItemValue (Some item) with
    | None => Panic "<nil>"
    | Some data =>
      let '(conf, ok) := unmarshal data in
      if (ok : bool) then Ok conf else Panic "proto: cannot parse"
    end
  end.

(** The bytes of a message that cannot be marshalled are nil; what [db.Update]
    returns is not looked at. *)
Definition InitDatabase (generated : string + PrivateKey) (opened closed : option string)
    : M W_db unit :=
  match GenerateKey generated with
  | inr (privateKey, _) =>
    let config := ServerConfig.mk privateKey in
    match opened with
    | Some err => panic err
    | None =>
      let configBytes := match marshal config with inr b => b | inl _ => [] end in
      _ ← modify (λ db,
        match kv_set db conf_key configBytes with
        | inr db' => if kv_commits db db' then db' else db
        | inl _ => db
        end);
      match closed with
      | Some err => panic err
      | None => mret tt
      end
    end
  | inl _ => mret tt
  end.

(** What [log.Panic] prints of the key, a list of numbers, and the error. *)
Definition parse_key_failed (key : bytes) (err : string) : string :=
  "error on parse key[" +:+ String.concat " " (pretty <$> key) +:+ "] " +:+ err.

(** * The alpha group

    A server and its client. *)
Definition at_client {A} (p : CS A) : M (Server.t * BFTRaftClient.t) A := λ '(s, c),
  let '(o, c') := p c in (o, (s, c')).

Definition at_server {A} (p : MS A) : M (Server.t * BFTRaftClient.t) A := λ '(s, c),
  let '(o, s') := p s in (o, (s', c)).

(** [alpha_replies] are the answers to the client, when it looks for the alpha nodes;
    the last line of [ColdStart] is about the client too. *)
Definition SyncAlphaGroup (alpha_replies : list (option (option GroupNodesResponse.t)))
    (members_replies : list (option (option GroupMembersResponse.t)))
    (content_replies : list (option (option RaftGroup.t)))
    : M (Server.t * BFTRaftClient.t) unit :=
  alphaRPCs ← at_client (GetAlphaRPCs alpha_replies);
  bootstraps ← at_server (sync_alpha alphaRPCs members_replies content_replies);
  match bootstraps with
  | Some addrs =>
    at_client (modify (BFTRaftClient.upd_AlphaRPCs (AlphaRPCsCache.ResetBootstrap addrs)))
  | None => mret tt
  end.

Definition start_server (alpha_replies : list (option (option GroupNodesResponse.t)))
    (members_replies : list (option (option GroupMembersResponse.t)))
    (content_replies : list (option (option RaftGroup.t)))
    : M (Server.t * BFTRaftClient.t) unit :=
  id ← at_server (gets Server.Id);
  _ ← at_server (ScanHostedGroups id);
  _ ← at_server RegisterMembershipCommands;
  SyncAlphaGroup alpha_replies members_replies content_replies.

(** [GetServer]: the server, its client and its table of clients. [now] and [rands] are
    the clock and the random numbers; the rest are the answers of the alpha nodes. *)
Definition GetServer {T : Transport} (serverOpts : Options.t) (opened : string + W_db)
    (now : Z) (rands : list Z)
    (alpha_replies : list (option (option GroupNodesResponse.t)))
    (members_replies : list (option (option GroupMembersResponse.t)))
    (content_replies : list (option (option RaftGroup.t)))
    : outcome (Server.t * BFTRaftClient.t * ClientStore.t) :=
  match opened with
  | inl err => Panic err
  | inr db =>
    match GetConfig db with
    | Ok config =>
      match ParsePrivateKey (ServerConfig.PrivateKey config) with
      | inl err => Panic (parse_key_failed (ServerConfig.PrivateKey config) err)
      | inr privateKey =>
        let id := HashPublicKey (PublicKeyFromPrivate privateKey) in
        let nclient := NewClient (Options.Bootstrap serverOpts) privateKey now in
        match start_server alpha_replies members_replies content_replies
                (new_server id serverOpts db privateKey now rands, nclient) with
        | (Ok _, (s, c)) => Ok (s, c, ClientStore.NewClientStore)
        | (Err e, _) => Err e
        | (Panic w, _) => Panic w
        end
      end
    | Err e => Panic e
    | Panic w => Panic w
    end
  end.

(** A process has a server and the tables of its connections. *)
Definition on_net {T : Transport} {A} (p : M Net.t A) : M (Server.t * Net.t) A := λ '(s, n),
  let '(o, n') := p n in (o, (s, n')).

Definition on_server {T : Transport} {A} (p : MS A) : M (Server.t * Net.t) A := λ '(s, n),
  let '(o, s') := p s in (o, (s', n)).

(** The goroutine that listens gets that far in the second that follows; its error
    and that of [RegHost] are not looked at. *)
Definition StartServer {T : Transport} (exec : Z → Z → bytes → outcome bytes)
    : M (Server.t * Net.t) unit :=
  opts ← on_server (gets Server.Opts);
  raft ← on_net (GetGRPCServer (Options.Address opts));
  _ ← on_net (RegisterService raft BFTRaft);
  feedback ← on_net (GetGRPCServer (Options.Address opts));
  _ ← on_net (RegisterService feedback BFTRaftClientService);
  _ ← ignore (on_net (GRPCServerListen (Options.Address opts)));
  _ ← on_server (modify (Server.upd_now (Z.add Second)));
  ignore (on_server (RegHost exec)).
End start.
