(* ===== verification/StartFacts.v ===== *)
(** How a process starts: the configuration that [InitDatabase] writes is the one
    [GetServer] reads, the first node of a network leads the alpha group from its
    start, and a started server serves both its services at its address. *)
From S2P Require Export Start ClientFacts ConnsFacts.

Section facts.
Context {W : World} {F : RaftFns}.

(** * The configuration *)

(** C28. What [InitDatabase] stores is what [GetConfig] reads: the key it generated,
    which parses to itself. *)
Theorem InitDatabase_roundtrip key pub conf db :
  reliable W → pkix_marshal (rsa_public key) = inr pub →
  marshal (ServerConfig.mk (pkcs1_marshal key)) = inr conf →
  ∃ db', InitDatabase (inr key) None None db = (Ok tt, db') ∧
    GetConfig db' = Ok (ServerConfig.mk (pkcs1_marshal key)) ∧
    ParsePrivateKey (pkcs1_marshal key) = inr key ∧
    (∀ k, k ≠ conf_key → kv_get db' k = kv_get db k).
Proof.
  intros Hrel Hpub Hconf. destruct (rel_set _ Hrel db conf_key conf) as [db' Hset]; [done|].
  exists db'. split; [|split; [|split]].
  - unfold InitDatabase, GenerateKey, modify, mbind, M_bind. rw Hpub Hconf. simpl.
    by rw Hset (rel_commit _ Hrel).
  - unfold GetConfig. rw (kv_get_set _ _ _ _ Hset). simpl. by rw (unmarshal_marshal _ _ Hconf).
  - apply pkcs1_parse_marshal.
  - intros k Hk. apply (kv_get_set_ne _ _ _ _ _ Hset). congruence.
Qed.

(** [InitDatabase] does not notice that its write failed: it returns as after a
    success, and the server cannot be started on what it leaves. *)
Theorem InitDatabase_loses_errors {T : Transport} key pub conf db opts now rands ar mr cr :
  pkix_marshal (rsa_public key) = inr pub →
  marshal (ServerConfig.mk (pkcs1_marshal key)) = inr conf →
  kv_get db conf_key = KVNotFound →
  match kv_set db conf_key conf with inr db' => kv_commits db db' = false | inl _ => True end →
  InitDatabase (inr key) None None db = (Ok tt, db) ∧
  ∃ w, GetServer opts (inr db) now rands ar mr cr = Panic w.
Proof.
  intros Hpub Hconf Hnone Hfail. split.
  - unfold InitDatabase, GenerateKey, modify, mbind, M_bind. rw Hpub Hconf. simpl.
    destruct (kv_set _ _ _) as [e|db']; [done|]. by rw Hfail.
  - eexists. unfold GetServer, GetConfig. by rw Hnone.
Qed.

(** * The first node of a network *)

Lemma range_map_empty {A} : range_map (∅ : gmap Z A) = [].
Proof.
  unfold range_map. rw map_to_list_empty. apply Permutation_nil. symmetry. apply map_range_perm.
Qed.

(** Nobody answers when nobody is asked. *)
Lemma majority_of_nobody {A} : MajorityResponse (A:=A) [] [] = Some None.
Proof.
  unfold MajorityResponse, pick_response, gather. simpl. by rw lookup_empty range_map_empty.
Qed.

Lemma conf_key_scan db' :
  (∀ k v, kv_get db' k = KVFound v → k = conf_key) →
  under_prefix (U32Bytes GROUP_PEERS) (kv_scan db' false (U32Bytes GROUP_PEERS)) = [].
Proof.
  intros Honly. destruct (kv_scan db' false (U32Bytes GROUP_PEERS)) as [|[k v] rest] eqn:Hs; [done|].
  assert (kv_get db' k = KVFound v) as Hk.
  { apply (kv_scan_elem db' false (U32Bytes GROUP_PEERS) k v). rw Hs. by left. }
  apply Honly in Hk as ->. done.
Qed.

(** Nothing is hosted yet. *)
Lemma ScanHostedGroups_nothing s :
  (∀ k v, kv_get (Server.DB s) k = KVFound v → k = conf_key) →
  ScanHostedGroups (Server.Id s) s = (Ok ∅, s).
Proof.
  intros Honly. unfold ScanHostedGroups.
  match goal with |- (DB_View ?p ≫= _) s = _ => assert (DB_View p s = (Ok ∅, s)) as Hv end.
  { unfold DB_View, txn_read. rw (bind_Ok _ _ _ _ _ (eq_refl : gets (λ s,
      under_prefix (U32Bytes GROUP_PEERS) (kv_scan (Server.DB s) false (U32Bytes GROUP_PEERS))) s = _)).
    rw (conf_key_scan _ Honly). simpl. by rw upd_DB_same. }
  rw (bind_Ok _ _ _ _ _ Hv).
  unfold set_on_board. by rw range_map_empty.
Qed.

Lemma peers_at_nothing db gid :
  (∀ k, kv_get db k = KVNotFound ∨ k = conf_key) → peers_at db gid ∅.
Proof.
  intros Honly. split; [split|]; [by intros i a; rw lookup_empty| |by intros i p; rw lookup_empty].
  intros k Hk. right. destruct (Honly k) as [?| ->]; [done|]. exfalso.
  unfold peers_prefix, conf_key in Hk. rw -(app_nil_r (ComposeKeyPrefix CONFIG_GROUP SERVER_CONF)) in Hk.
  by rw has_prefix_kinds in Hk.
Qed.

(** The functions a server has from its start. *)
Definition membership_functions : gmap Z raft_fn :=
  <[NEW_GROUP := Fn_SMNewGroup]> (<[NEW_CLIENT := Fn_SMNewClient]>
    (<[REG_NODE := Fn_SMRegHost]> (<[NODE_JOIN := Fn_SMNodeJoin]> ∅))).

(** A client none of whose bootstrap servers can be reached finds no alpha node, and
    looks for none before. *)
Lemma GetAlphaRPCs_alone bootstraps key now :
  (∀ addr, addr ∈ bootstraps → W_dial addr = false) →
  let c := NewClient bootstraps key now in GetAlphaRPCs [] c = (Ok [], c).
Proof.
  intros Hdial c. unfold GetAlphaRPCs.
  rw (bind_Ok _ _ _ _ _ (eq_refl : gets BFTRaftClient.AlphaRPCs c = (Ok _, c)))
    (bind_Ok _ _ _ _ _ (eq_refl : gets BFTRaftClient.now c = (Ok now, c))).
  cbn [AlphaRPCsCache.rpcs AlphaRPCsCache.NewAlphaRPCsCache NewClient BFTRaftClient.AlphaRPCs
    length Nat.ltb Nat.leb orb AlphaRPCsCache.bootstraps c].
  assert (AlphaNodes bootstraps [] = Ok []) as ->.
  { unfold AlphaNodes. assert (filter (λ addr, W_dial addr = true) bootstraps = []) as ->.
    { clear c. induction bootstraps as [|addr rest IH]; [done|].
      rw filter_cons_False; [by rw (Hdial addr ltac:(by left))|]. apply IH. intros a Ha. apply Hdial. by right. }
    unfold answers_of. cbn [length repeat seq fmap list_fmap].
    by rw (majority_of_nobody (A:=option GroupNodesResponse.t)). }
  reflexivity.
Qed.

(** C25. A server whose database holds its configuration and nothing else, and that
    reaches no alpha node, is named by the hash of its public key, like its client,
    leads the alpha group alone, has the four membership functions, and is its
    client's only alpha node. *)
Theorem GetServer_first_node {T : Transport} conf key db opts now rands d1 d2 d3 :
  let id := HashPublicKey (PublicKeyFromPrivate key) in
  let s0 := new_server id opts db key now rands in
  GetConfig db = Ok conf → ParsePrivateKey (ServerConfig.PrivateKey conf) = inr key →
  (∀ addr, addr ∈ Options.Bootstrap opts → W_dial addr = false) →
  (∀ k, kv_get db k = KVNotFound ∨ k = conf_key) →
  SaveGroup db alpha_group = Ok d1 → SavePeer d1 (first_peer s0) = Ok d2 →
  SaveHost d2 (first_host s0) = Ok d3 → kv_commits db d3 = true →
  ∃ s c m rt, GetServer opts (inr db) now rands [] [] [] = Ok (s, c, ClientStore.NewClientStore) ∧
    Server.Id s = id ∧ BFTRaftClient.Id c = id ∧ BFTRaftClient.SigningKey c = key ∧
    AlphaRPCsCache.bootstraps (BFTRaftClient.AlphaRPCs c) = [Options.Address opts] ∧
    sm_get (Server.GroupsOnboard s) (id_key ALPHA_GROUP) = Some m ∧
    has_group s m rt alpha_group ∧ RTGroup.Role rt = LEADER ∧ RTGroup.Leader rt = id ∧
    RTGroup.GroupPeers rt = {[ id := first_peer s0 ]} ∧
    Server.FuncReg s = membership_functions.
Proof.
  intros id s0 Hconf Hkey Hdial Honly H1 H2 H3 Hc.
  set (s1 := Server.upd_FuncReg (λ _, membership_functions) s0).
  set (c0 := NewClient (Options.Bootstrap opts) key now).
  set (c1 := BFTRaftClient.upd_AlphaRPCs (AlphaRPCsCache.ResetBootstrap [Options.Address opts]) c0).
  destruct (cold_start_run s1 d1 d2 d3 (peers_at_nothing db ALPHA_GROUP Honly)
    (fnv1a_64_u64 _) H1 H2 H3 Hc)
    as (s & m & rt & Hrun & _ & _ & _ & Hon & Hg & Hrole & Hlead & Hpeers & Hid & Hfn).
  assert (sync_alpha [] [] [] s1 = (Ok (Some [Options.Address opts]), s)) as Hsync.
  { unfold sync_alpha, answers_of. cbn [length repeat seq fmap list_fmap].
    rw (majority_of_nobody (A:=GroupMembersResponse.t)).
    cbv [from_option Datatypes.id]. by rw (bind_Ok _ _ _ _ _ Hrun). }
  assert (start_server [] [] [] (s0, c0) = (Ok tt, (s, c1))) as Hstart.
  { unfold start_server.
    rw (bind_Ok _ _ _ _ _ (eq_refl : at_server (gets Server.Id) (s0, c0) = (Ok (Server.Id s0), (s0, c0)))).
    assert (at_server (ScanHostedGroups (Server.Id s0)) (s0, c0) = (Ok ∅, (s0, c0))) as Hscan.
    { unfold at_server. rw (ScanHostedGroups_nothing s0); [|done].
      intros k v Hk. destruct (Honly k) as [Hn| ->]; [|done]. cbn in Hk. congruence. }
    rw (bind_Ok _ _ _ _ _ Hscan)
      (bind_Ok _ _ _ _ _ (eq_refl : at_server RegisterMembershipCommands (s0, c0) = (Ok tt, (s1, c0)))).
    unfold SyncAlphaGroup.
    assert (at_client (GetAlphaRPCs []) (s1, c0) = (Ok [], (s1, c0))) as Hget
      by (unfold at_client, c0; by rw (GetAlphaRPCs_alone _ key now Hdial)).
    rw (bind_Ok _ _ _ _ _ Hget).
    assert (at_server (sync_alpha [] [] []) (s1, c0) = (Ok (Some [Options.Address opts]), (s, c0)))
      as Hs by (unfold at_server; by rw Hsync).
    by rw (bind_Ok _ _ _ _ _ Hs). }
  eexists s, c1, m, rt. split.
  { unfold GetServer. rw Hconf Hkey. cbv zeta. fold id s0 c0. rw Hstart. reflexivity. }
  repeat (split; [done|]). done.
Qed.

(** * A server and its client *)

Lemma at_client_run {A} (p : CS A) s c a c' : p c = (Ok a, c') → at_client p (s, c) = (Ok a, (s, c')).
Proof. intros Hp. unfold at_client. by rw Hp. Qed.

Lemma at_server_run {A} (p : MS A) s c a s' : p s = (Ok a, s') → at_server p (s, c) = (Ok a, (s', c)).
Proof. intros Hp. unfold at_server. by rw Hp. Qed.

(** * Serving *)

Lemma ignore_no_error {S A} (p : M S A) s e : (ignore p s).1 ≠ Err e.
Proof. unfold ignore, try_. rw /mbind /M_bind. by destruct (p s) as [[a|e'|w] s']. Qed.

Lemma ignore_state {S A} (p : M S A) s : (ignore p s).2 = (p s).2.
Proof. unfold ignore, try_. rw /mbind /M_bind. by destruct (p s) as [[a|e'|w] s']. Qed.

Lemma run_on_net {T : Transport} {A} (p : M Net.t A) s n o n' :
  p n = (o, n') → on_net p (s, n) = (o, (s, n')).
Proof. intros Hp. unfold on_net. by rw Hp. Qed.

Lemma GetGRPCServer_run {T : Transport} addr n :
  ∃ srv n', GetGRPCServer addr n = (Ok srv, n') ∧ Net.RPCServers n' !! addr = Some srv ∧
    Net.registered n' = Net.registered n ∧ Net.serving n' = Net.serving n ∧
    Net.listens n' = Net.listens n.
Proof.
  unfold GetGRPCServer.
  rw (bind_Ok _ _ _ _ _ (eq_refl : gets (λ n, Net.RPCServers n !! addr) n = _)).
  destruct (Net.RPCServers n !! addr) as [srv|] eqn:Hs; [by exists srv, n|].
  eexists _, _. split; [reflexivity|]. split; [apply lookup_insert_eq|done].
Qed.

Lemma GRPCServerListen_run {T : Transport} addr n srv :
  Net.RPCServers n !! addr = Some srv →
  let n1 := Net.upd_listens S n in
  GRPCServerListen addr n =
    match net_Listen (Net.listens n) addr with
    | Some err => (Err err, n1)
    | None => (Ok tt, Net.upd_serving (cons (addr, srv)) n1)
    end.
Proof.
  intros Hs n1. unfold GRPCServerListen.
  rw (bind_Ok _ _ _ _ _ (eq_refl : gets Net.listens n = _))
    (bind_Ok _ _ _ _ _ (eq_refl : modify (Net.upd_listens S) n = (Ok tt, n1))).
  destruct (net_Listen _ _); [done|].
  by rw (bind_Ok _ _ _ _ _ (GetGRPCServer_known addr srv n1 Hs)).
Qed.

(** The last part of [StartServer] leaves the connections alone. *)
Lemma start_registers {T : Transport} exec s n :
  ∃ o s', (_ ← on_server (modify (Server.upd_now (Z.add Second)));
           ignore (on_server (RegHost exec))) (s, n) = (o, (s', n)) ∧ ∀ e, o ≠ Err e.
Proof.
  set (s1 := Server.upd_now (Z.add Second) s).
  rw (bind_Ok _ _ _ _ _ (eq_refl : on_server (modify (Server.upd_now (Z.add Second))) (s, n) =
    (Ok tt, (s1, n)))).
  exists (ignore (on_server (RegHost exec)) (s1, n)).1, (RegHost exec s1).2.
  split; [|intros e; apply ignore_no_error].
  rw {1}(surjective_pairing (ignore (on_server (RegHost exec)) (s1, n))) ignore_state.
  unfold on_server. by destruct (RegHost exec s1).
Qed.

(** [StartServer] puts both services on one server, the one that accepts at the
    server's address when listening succeeds; but it reports neither that listening
    failed nor that the host could not be registered. *)
Theorem StartServer_serves {T : Transport} exec s n :
  let addr := Options.Address (Server.Opts s) in
  let '(o, (s', n')) := StartServer exec (s, n) in
  (∀ e, o ≠ Err e) ∧
  ∃ srv, Net.RPCServers n' !! addr = Some srv ∧
    (srv, BFTRaft) ∈ Net.registered n' ∧ (srv, BFTRaftClientService) ∈ Net.registered n' ∧
    match net_Listen (Net.listens n) addr with
    | None => Net.serving n' = (addr, srv) :: Net.serving n
    | Some _ => Net.serving n' = Net.serving n
    end.
Proof.
  intros addr. destruct (StartServer exec (s, n)) as [o [s' n']] eqn:Hrun. unfold StartServer in Hrun.
  rw (bind_Ok _ _ _ _ _ (eq_refl : on_server (gets Server.Opts) (s, n) = (Ok (Server.Opts s), (s, n))))
    in Hrun. fold addr in Hrun.
  destruct (GetGRPCServer_run addr n) as (srv & n1 & H1 & Hsrv & Hreg & Hserve & Hlis).
  rw (bind_Ok _ _ _ _ _ (run_on_net _ s _ _ _ H1)) in Hrun.
  set (n2 := Net.upd_registered (cons (srv, BFTRaft)) n1) in *.
  rw (bind_Ok _ _ _ _ _ (run_on_net _ s _ _ _ (eq_refl : RegisterService srv BFTRaft n1 = (Ok tt, n2))))
    in Hrun.
  rw (bind_Ok _ _ _ _ _ (run_on_net _ s _ _ _ (GetGRPCServer_known addr srv n2 Hsrv))) in Hrun.
  set (n3 := Net.upd_registered (cons (srv, BFTRaftClientService)) n2) in *.
  rw (bind_Ok _ _ _ _ _ (run_on_net _ s _ _ _
    (eq_refl : RegisterService srv BFTRaftClientService n2 = (Ok tt, n3)))) in Hrun.
  assert (∃ n4, ignore (on_net (GRPCServerListen addr)) (s, n3) = (Ok tt, (s, n4)) ∧
    Net.RPCServers n4 = Net.RPCServers n3 ∧ Net.registered n4 = Net.registered n3 ∧
    match net_Listen (Net.listens n) addr with
    | None => Net.serving n4 = (addr, srv) :: Net.serving n
    | Some _ => Net.serving n4 = Net.serving n
    end) as (n4 & H4 & Hs4 & Hr4 & Hl4).
  { pose proof (GRPCServerListen_run addr n3 srv Hsrv) as Hl. cbn in Hl. rw Hlis in Hl.
    unfold ignore, try_, on_net. rw /mbind /M_bind Hl.
    destruct (net_Listen _ _); eexists; (split; [reflexivity|]); cbn; rw Hserve; done. }
  rw (bind_Ok _ _ _ _ _ H4) in Hrun.
  destruct (start_registers exec s n4) as (o5 & s5 & H5 & Ho). rw H5 in Hrun.
  injection Hrun as <- <- <-. split; [done|]. exists srv. rw Hs4 Hr4. split; [done|].
  split; [by right; left|]. split; [by left|done].
Qed.
End facts.

(** * Witnesses *)

Definition empty_db : store := (∅ : memdb).

Lemma InitDatabase_roundtrip_witness :
  ∃ db', InitDatabase (W:=mem_world) (inr 5) None None empty_db = (Ok tt, db') ∧
    GetConfig db' = Ok (ServerConfig.mk [5]).
Proof.
  destruct (InitDatabase_roundtrip (W:=mem_world) 5 [5] [5] empty_db mem_reliable eq_refl eq_refl)
    as (db' & Hrun & Hconf & _).
  exists db'. split; [exact Hrun|exact Hconf].
Defined.

Lemma InitDatabase_loses_errors_witness :
  InitDatabase (W:=full_world) (inr 5) None None (∅ : memdb) = (Ok tt, (∅ : memdb)).
Proof.
  exact (proj1 (InitDatabase_loses_errors (W:=full_world) 5 [5] [5] (∅ : memdb)
    (Options.mk "db" "a" [] 0) 0 [] [] [] [] eq_refl eq_refl eq_refl eq_refl)).
Defined.

Definition demo_opts : Options.t := Options.mk "db" "a" [] 0.

Definition conf_db : store := (InitDatabase (W:=mem_world) (inr 5) None None empty_db).2.

Definition first_id : Z := HashPublicKey (W:=mem_world) 5.

Definition demo_new : Server.t := new_server (W:=mem_world) first_id demo_opts conf_db 5 0 [].

Definition first_db1 : store := unwrap_ok empty_db (SaveGroup conf_db alpha_group).
Definition first_db2 : store := unwrap_ok empty_db (SavePeer first_db1 (first_peer demo_new)).
Definition first_db3 : store := unwrap_ok empty_db (SaveHost first_db2 (first_host demo_new)).

Lemma conf_db_only k : kv_get conf_db k = KVNotFound ∨ k = conf_key.
Proof.
  destruct (decide (k = conf_key)) as [->|Hne]; [by right|left].
  destruct (rel_set _ mem_reliable empty_db conf_key [5]) as [d Hd]; [done|].
  assert (conf_db = d) as ->.
  { unfold conf_db, InitDatabase, GenerateKey, modify, mbind, M_bind. cbn [pkix_marshal].
    change (marshal (ServerConfig.mk (pkcs1_marshal (5 : PrivateKey (World:=mem_world))))) with (inr [5] : string + bytes).
    cbv beta iota. simpl. injection Hd. done. }
  rw (kv_get_set_ne _ _ _ _ k Hd); [congruence|]. exact eq_refl.
Qed.

Lemma first_saves :
  SaveGroup conf_db alpha_group = Ok first_db1 ∧
  SavePeer first_db1 (first_peer demo_new) = Ok first_db2 ∧
  SaveHost first_db2 (first_host demo_new) = Ok first_db3.
Proof. split; [by vm_compute|split; by vm_compute]. Qed.

Lemma GetServer_first_node_witness :
  ∃ s c, GetServer demo_opts (inr conf_db) 0 [] [] [] [] = Ok (s, c, ClientStore.NewClientStore) ∧
    Server.Id s = first_id ∧ BFTRaftClient.Id c = first_id.
Proof.
  destruct (GetServer_first_node (W:=mem_world) (ServerConfig.mk [5]) 5 conf_db demo_opts 0 [] first_db1 first_db2
    first_db3 eq_refl eq_refl (λ addr Hin, False_ind _ (not_elem_of_nil addr Hin)) conf_db_only (proj1 first_saves) (proj1 (proj2 first_saves))
    (proj2 (proj2 first_saves)) eq_refl) as (s & c & m & rt & Hrun & Hs & Hc & _).
  exists s, c. split; [exact Hrun|split; [exact Hs|exact Hc]].
Defined.
