(* ===== verification/Joining.v ===== *)
(** A node that joins a network: what an alpha node says of the alpha group, and what
    the joining node has of it when it has started. *)
From S2P Require Export Sync StartFacts.

Section inserts.
Context {A : Type}.

Definition inserts (t : gmap Z A) (rows : list (Z * A)) : gmap Z A :=
  foldl (λ t row, <[row.1 := row.2]> t) t rows.

Lemma inserts_lookup rows t j :
  NoDup rows.*1 →
  inserts t rows !! j =
    match (list_to_map rows : gmap Z A) !! j with Some a => Some a | None => t !! j end.
Proof.
  revert t. induction rows as [|[i a] rows IH]; intros t; [done|].
  cbn [fmap list_fmap]. intros [Hi Hnd]%NoDup_cons. unfold inserts in *. cbn [foldl].
  rw IH //. cbn [list_to_map foldr fst snd uncurry]. destruct (decide (i = j)) as [<-|Hne].
  - rw (not_elem_of_list_to_map_1 rows i Hi) !lookup_insert_eq //.
  - by rw !lookup_insert_ne.
Qed.

Lemma inserts_range_map `{MapOrder} (t : gmap Z A) : inserts ∅ (range_map t) = t.
Proof.
  apply map_eq. intros j. rw inserts_lookup; [apply range_map_NoDup|]. rw lookup_empty.
  destruct (list_to_map (range_map t) !! j) as [a|] eqn:Ha.
  - apply elem_of_list_to_map_2, elem_of_range_map in Ha. by rw Ha.
  - destruct (t !! j) as [a|] eqn:Hj; [|done]. apply elem_of_range_map in Hj.
    apply not_elem_of_list_to_map_2 in Ha. destruct Ha. exact (list_elem_of_fmap_2 fst _ _ Hj).
Qed.
End inserts.

Section joining.
Context {W : World} {F : RaftFns}.

(** * The answer of an alpha node *)

(** The members that a server reports, of the peers that it has. *)
Definition reported_member (s : Server.t) (row : Z * Peer.t) : option GroupMember.t :=
  with_host (λ p host, GroupMember.mk (Some host) (Some p)) s row.

Lemma GroupMembers_run s m gid l rt :
  holds s m gid l → Server.rtgroups s !! m = Some rt →
  sm_get (Server.GroupsOnboard s) (id_key gid) = Some m →
  ∃ signature s', RPC.GroupMembers gid s = (Ok (GroupMembersResponse.mk (last l)
    (omap (reported_member s) (range_map (RTGroup.GroupPeers rt))) signature), s').
Proof.
  intros Hh Hm Hon. unfold RPC.GroupMembers.
  rw (bind_Ok _ _ _ _ _ (eq_refl : GetOnboardGroup gid s = (Ok _, s))) Hon. unfold RPCGroupMembers.
  rw (bind_Ok _ _ _ _ _ (run_load_rt _ _ _ Hm)).
  destruct (hosts_loop GetHostNTXN (λ p host, GroupMember.mk (Some host) (Some p)) s
    (range_map (RTGroup.GroupPeers rt)) [] GetHostNTXN_run s ltac:(reflexivity) ltac:(done))
    as (s1 & Hrun & Hq).
  rw (bind_Ok _ _ _ _ _ Hrun) (bind_Ok _ _ _ _ _ (run_server_sign _ _)).
  rw (bind_Ok _ _ _ _ _ (run_LastLogEntry _ _ _ _ (holds_frame _ _ _ _ _ (quiet_frame _ _ Hq) Hh))).
  by eexists _, s1.
Qed.

(** * The joining node *)

(** An alpha node whose records are in order: each of its peers is under its own id, in
    the alpha group, and its host is known under that id. *)
Record in_order (s : Server.t) (t : gmap Z Peer.t) : Prop := {
  in_order_peer i p : t !! i = Some p → Peer.Id p = i ∧ Peer.Group p = ALPHA_GROUP ∧ is_u64 i;
  in_order_host i p : t !! i = Some p → ∃ h, read_host s i = Some h ∧ Host.Id h = i
}.

Definition hosts_of (s : Server.t) (rows : list (Z * Peer.t)) : list (Z * Host.t) :=
  omap (λ row, pair row.1 <$> read_host s row.1) rows.

Lemma reported_rows s t rows :
  in_order s t → (∀ row, row ∈ rows → t !! row.1 = Some row.2) →
  Forall (λ m, ∃ p h, announced m p h) (omap (reported_member s) rows) ∧
  (∀ acc, foldl add_peer acc (omap (reported_member s) rows) = inserts acc rows) ∧
  (∀ acc, foldl add_host acc (omap (reported_member s) rows) = inserts acc (hosts_of s rows)).
Proof.
  intros Ho. induction rows as [|[i p] rows IH]; intros Hrows; [by split; [constructor|]|].
  destruct IH as (IHf & IHp & IHh); [intros row ?; apply Hrows; by right|].
  pose proof (Hrows (i, p) ltac:(by left)) as Hi. cbn [fst snd] in Hi.
  destruct (in_order_peer _ _ Ho i p Hi) as (Hid & Hg & Hu).
  destruct (in_order_host _ _ Ho i p Hi) as (h & Hh & Hhid).
  assert (reported_member s (i, p) = Some (GroupMember.mk (Some h) (Some p))) as Hrep
    by (unfold reported_member, with_host; cbn [snd]; by rw Hid Hh).
  unfold hosts_of in *. cbn [omap list_omap fst]. rw Hrep Hh.
  cbn [fmap option_fmap option_map]. split; [|split].
  - constructor; [|done]. exists p, h. split; [done..|by rw Hid|by rw Hhid].
  - intros acc. cbn [foldl].
    change (add_peer acc _) with (<[Peer.Id p := p]> acc). by rw Hid IHp.
  - intros acc. cbn [foldl].
    change (add_host acc _) with (<[Host.Id h := h]> acc). by rw Hhid IHh.
Qed.

Lemma hosts_of_NoDup s rows : NoDup rows.*1 → NoDup (hosts_of s rows).*1.
Proof.
  unfold hosts_of. induction rows as [|[k p] rows IH]; [done|].
  cbn [fmap list_fmap omap list_omap fst]. intros [Hk Hnd]%NoDup_cons.
  destruct (read_host s k) as [h|]; cbn [fmap option_fmap option_map]; [|by apply IH].
  cbn [fmap list_fmap fst]. apply NoDup_cons. split; [|by apply IH].
  intros ([k' h'] & Hkk & Hin)%list_elem_of_fmap. cbn [fst] in Hkk. subst k'.
  apply list_elem_of_omap in Hin as ([k' p'] & Hin & Heq). cbn [fst] in Heq.
  destruct (read_host s k') as [h2|]; [|done]. injection Heq as -> ->. destruct Hk.
  exact (list_elem_of_fmap_2 fst _ _ Hin).
Qed.

Lemma hosts_of_lookup s t i :
  inserts ∅ (hosts_of s (range_map t)) !! i = (t !! i) ≫= λ _, read_host s i.
Proof.
  pose proof (hosts_of_NoDup s _ (range_map_NoDup t)) as Hnd.
  rw inserts_lookup // lookup_empty.
  trans ((list_to_map (hosts_of s (range_map t)) : gmap Z Host.t) !! i); [by case_match|].
  apply option_eq. intros h. rw -(elem_of_list_to_map _ _ _ Hnd). unfold hosts_of.
  rw list_elem_of_omap. split.
  - intros ([k p] & Hin & Heq). cbn [fst] in Heq. apply elem_of_range_map in Hin.
    destruct (read_host s k) as [h2|] eqn:Hk; [|done]. injection Heq as -> ->. by rw Hin.
  - destruct (t !! i) as [p|] eqn:Ht; [|done]. cbn [mbind option_bind]. intros Hh.
    exists (i, p). split; [by apply elem_of_range_map|]. cbn [fst]. by rw Hh.
Qed.

(** C23. A node that joins a network has in its store, when it has started, the alpha
    group as the alpha nodes have it: if the client of the node reaches alpha nodes, and
    the answer that a majority of them give is what [GroupMembers] answers on the alpha
    node [sa], every peer that [sa] has in the group and the host that it knows for each,
    and nothing else, when it had none; the group's term is the number of entries in the
    log of [sa]. *)
Theorem joining_node_learns areplies clients c c' mreplies creplies res sa sa' m rt la s g b :
  let n := length clients in
  reliable W → holds sa m ALPHA_GROUP la → Server.rtgroups sa !! m = Some rt →
  sm_get (Server.GroupsOnboard sa) (id_key ALPHA_GROUP) = Some m → in_order sa (RTGroup.GroupPeers rt) →
  RPC.GroupMembers ALPHA_GROUP sa = (Ok res, sa') →
  GetAlphaRPCs areplies c = (Ok clients, c') →
  MajorityResponse (repeat true n) (answers_of members_result n mreplies) = Some (Some res) →
  RTGroup.GroupPeers rt !! Server.Id s = None →
  alpha_source n creplies s g → RaftGroup.Id g = ALPHA_GROUP →
  marshal (RaftGroup.set_Term (Z.of_nat (length la)) g) = inr b →
  peers_at (Server.DB s) ALPHA_GROUP ∅ → hosts_at (Server.DB s) ∅ →
  ∃ s' hosts, SyncAlphaGroup areplies mreplies creplies (s, c) = (Ok tt, (s', c')) ∧
    GetGroupFromKV (Server.DB s') ALPHA_GROUP = Some (RaftGroup.set_Term (Z.of_nat (length la)) g) ∧
    GetGroupPeersFromKV (Server.DB s') ALPHA_GROUP = Ok (RTGroup.GroupPeers rt) ∧
    hosts_at (Server.DB s') hosts ∧
    ∀ i, hosts !! i = (RTGroup.GroupPeers rt !! i) ≫= λ _, read_host sa i.
Proof.
  intros n Hrel Hh Hm Hon Ho Hres Hclients Hmaj Hself Hsrc Hgid Hb Hpeers Hhosts.
  destruct (GroupMembers_run sa m ALPHA_GROUP la rt Hh Hm Hon) as (signature & sa1 & Hrun).
  rw Hrun in Hres. injection Hres as <- _.
  destruct (reported_rows sa _ (range_map (RTGroup.GroupPeers rt)) Ho) as (Hann & Hfp & Hfh).
  { intros [i p] Hin. by apply elem_of_range_map. }
  match type of Hmaj with _ = Some (Some ?r) => set (res := r) in Hmaj end.
  assert (synced_term res = Z.of_nat (length la)) as Hterm.
  { unfold synced_term, res. cbn [GroupMembersResponse.LastEntry].
    destruct la as [|e0 la0] eqn:Hla; [done|]. rw -Hla in Hh |- *.
    destruct (last la) as [e|] eqn:Hl; cycle 1.
    { apply last_None in Hl. congruence. }
    rw last_lookup in Hl. rw (log_index _ _ _ (holds_log _ _ _ _ Hh) _ _ Hl).
    apply lookup_lt_Some in Hl. lia. }
  assert (¬ names (Server.Id s) res) as Hnot.
  { unfold names, res. cbn [GroupMembersResponse.Members]. intros (mb & Hin & Hmb)%Exists_exists.
    apply list_elem_of_omap in Hin as ([i p] & Hin & Heq). apply elem_of_range_map in Hin.
    unfold reported_member, with_host in Heq. cbn [snd] in Heq. destruct (read_host sa (Peer.Id p)); [|done].
    injection Heq as <-. injection Hmb as Hp. destruct (in_order_peer _ _ Ho i p Hin) as (Hid & _).
    congruence. }
  assert (told_by_alpha n mreplies res) as Htold by (split; [exact Hmaj|exact Hann]).
  rw -Hterm in Hb |- *.
  destruct (sync_alpha_learns clients mreplies creplies res s g ∅ ∅ b Hrel
    Htold Hnot Hsrc Hgid Hb Hpeers Hhosts)
    as (s' & Hsync & [Hk Hkp Hkh] & _).
  exists s', (inserts ∅ (hosts_of sa (range_map (RTGroup.GroupPeers rt)))).
  split.
  { unfold SyncAlphaGroup. rw (bind_Ok _ _ _ _ _ (at_client_run _ s _ _ _ Hclients))
      (bind_Ok _ _ _ _ _ (at_server_run _ _ c' _ _ Hsync)). done. }
  split; [done|]. unfold res in Hkp, Hkh. cbn [GroupMembersResponse.Members] in Hkp, Hkh.
  rw Hfp inserts_range_map in Hkp. rw Hfh in Hkh.
  split; [by apply GetGroupPeers_at|]. split; [done|]. apply hosts_of_lookup.
Qed.
End joining.

(** * Witness

    The alpha group has one member, node 1, whose answer both clients give to node 9. *)
Definition alpha_db : store := put (hosts_prefix ++ U64Bytes 1) (demo_host 1) ((∅ : memdb) : store).

Definition alpha_rt : RTGroup.t := RTGroup.mk 1 0 0 {[ 1 := sync_peer ]} 0 0 LEADER [] ∅ false.

Definition alpha_node : Server.t :=
  Server.mk 1 (Options.mk "db" "1" [] 0) alpha_db {[ 10 := Fn_user 0 ]}
    (sm_set sm_empty (id_key ALPHA_GROUP) 0%nat) ∅ ∅ sm_empty sm_empty sm_empty 1
    {[ 0%nat := alpha_rt ]} {[ 0%nat := sync_group ]} 0 [] [].

Definition alpha_answer : GroupMembersResponse.t :=
  match (RPC.GroupMembers ALPHA_GROUP alpha_node).1 with Ok res => res | _ => sync_answer end.

Definition alpha_answers : list (option (option GroupMembersResponse.t)) :=
  [Some (Some alpha_answer); Some (Some alpha_answer)].

Lemma alpha_holds : holds alpha_node 0 ALPHA_GROUP [].
Proof.
  split; [by exists alpha_rt, sync_group|done|].
  change (log_at alpha_db ALPHA_GROUP []). unfold alpha_db, hosts_prefix.
  apply put_other; [done|done|apply log_at_empty].
Qed.

Lemma alpha_in_order : in_order alpha_node (RTGroup.GroupPeers alpha_rt).
Proof.
  change (RTGroup.GroupPeers alpha_rt) with ({[ 1 := sync_peer ]} : gmap Z Peer.t).
  split; intros i p [<- <-]%lookup_singleton_Some; [done|]. exists (demo_host 1). by vm_compute.
Qed.

Lemma alpha_answers_run :
  RPC.GroupMembers ALPHA_GROUP alpha_node = (Ok alpha_answer, (RPC.GroupMembers ALPHA_GROUP alpha_node).2).
Proof.
  assert ((RPC.GroupMembers ALPHA_GROUP alpha_node).1 = Ok alpha_answer) as <-;
    [by vm_compute|apply surjective_pairing].
Qed.

(** A client that knows the two addresses. *)
Definition joining_client : BFTRaftClient.t (W:=mem_world) :=
  BFTRaftClient.upd_AlphaRPCs (λ _, AlphaRPCsCache.mk [] sync_clients 0) (NewClient (W:=mem_world) [] 9 0).

Lemma joining_node_learns_witness :
  ∃ s' hosts, SyncAlphaGroup [] alpha_answers sync_contents (sync_node, joining_client) =
      (Ok tt, (s', joining_client)) ∧
    GetGroupPeersFromKV (Server.DB s') ALPHA_GROUP = Ok {[ 1 := sync_peer ]} ∧
    hosts_at (Server.DB s') hosts ∧ hosts !! 1 = Some (demo_host 1).
Proof.
  assert (MajorityResponse (repeat true 2) (answers_of members_result 2 alpha_answers) =
    Some (Some alpha_answer)) as Hmaj by by vm_compute.
  destruct (joining_node_learns [] sync_clients joining_client joining_client alpha_answers
    sync_contents alpha_answer alpha_node
    (RPC.GroupMembers ALPHA_GROUP alpha_node).2 0 alpha_rt [] sync_node sync_group
    (print_group sync_group) mem_reliable alpha_holds eq_refl eq_refl alpha_in_order
    alpha_answers_run eq_refl Hmaj eq_refl sync_source eq_refl eq_refl (peers_at_empty ALPHA_GROUP)
    (table_at_empty hosts_prefix)) as (s' & hosts & Hrun & _ & Hp & Hh & Hl).
  exists s', hosts. split; [exact Hrun|]. split; [exact Hp|]. split; [exact Hh|].
  rw (Hl 1). by vm_compute.
Defined.
