(* ===== verification/Restart.v ===== *)
(** What a node has after a restart, when [GetServer] has heard from the alpha nodes:
    every group whose stored peers name the node is on board again, with its stored
    peers, its term and its log; but the node follows nobody, and has forgotten whom it
    voted for. *)
From S2P Require Export StartFacts Sync.

Section restart.
Context {W : World} {F : RaftFns}.

(** The record [m] of the group [gid] as the database of [s0] has it. *)
Record restored (s0 s : Server.t) (gid : Z) (m : nat) : Prop := {
  restored_group : ∃ rt g, has_group s m rt g ∧
    GetGroupFromKV (Server.DB s0) gid = Some g ∧
    GetGroupPeersFromKV (Server.DB s0) gid = Ok (RTGroup.GroupPeers rt) ∧
    RTGroup.Role rt = FOLLOWER ∧ RTGroup.LastVotedTo rt = 0 ∧ RTGroup.LastVotedTerm rt = 0 ∧
    (RTGroup.Leader rt = 0 ∨ RTGroup.Leader rt = Server.Id s0);
  restored_u64 : is_u64 gid
}.

(** The state and the map of groups after a part of the scan. *)
Record scanned (s0 s : Server.t) (groups : gmap Z nat) : Prop := {
  scanned_db : Server.DB s = Server.DB s0;
  scanned_id : Server.Id s = Server.Id s0;
  scanned_onboard : Server.GroupsOnboard s = Server.GroupsOnboard s0;
  scanned_cache : Server.Groups s = Server.Groups s0;
  scanned_groups gid m : groups !! gid = Some m → restored s0 s gid m
}.

(** An item names a group that the node is a peer of. *)
Definition item_names (s0 : Server.t) (gid : Z) (item : bytes * option bytes) : Prop :=
  ∃ b, item.2 = Some b ∧ Peer.Id (unmarshal b).1 = Server.Id s0 ∧ Peer.Group (unmarshal b).1 = gid ∧
    is_Some (GetGroupFromKV (Server.DB s0) gid).

Definition group_u64 (item : bytes * option bytes) : Prop :=
  ∀ b, item.2 = Some b → is_u64 (Peer.Group (unmarshal b).1).

Lemma has_group_keep s s' m rt g :
  (∀ p x, Server.rtgroups s !! p = Some x → Server.rtgroups s' !! p = Some x) →
  (∀ p x, Server.raftgroups s !! p = Some x → Server.raftgroups s' !! p = Some x) →
  has_group s m rt g → has_group s' m rt g.
Proof. intros H1 H2 [? ?]. split; auto. Qed.

Lemma restored_keep s0 s s' gid m :
  (∀ p x, Server.rtgroups s !! p = Some x → Server.rtgroups s' !! p = Some x) →
  (∀ p x, Server.raftgroups s !! p = Some x → Server.raftgroups s' !! p = Some x) →
  restored s0 s gid m → restored s0 s' gid m.
Proof.
  intros H1 H2 [(rt & g & Hg & Hrest) Hu]. split; [|done]. exists rt, g.
  split; [exact (has_group_keep _ _ _ _ _ H1 H2 Hg)|done].
Qed.

Lemma scan_peer_spec s0 s groups item groups' s' :
  scanned s0 s groups → group_u64 item →
  scan_peer (Server.Id s0) groups item s = (Ok groups', s') →
  scanned s0 s' groups' ∧ (∀ gid, is_Some (groups !! gid) → is_Some (groups' !! gid)) ∧
  (∀ gid, item_names s0 gid item → is_Some (groups' !! gid)).
Proof.
  intros [Hdb Hid Hon Hcache Hgr] Hu Hrun. unfold scan_peer in Hrun.
  apply bind_Ok_inv in Hrun as (val & s1 & Hval & Hrun). cbn [ItemValue] in Hval.
  destruct (item.2) as [b|] eqn:Hb; [|done]. injection Hval as <- <-.
  specialize (Hu b Hb). set (peer := (unmarshal b).1) in *.
  assert (∀ gid, item_names s0 gid item → Peer.Id peer = Server.Id s0 ∧ Peer.Group peer = gid ∧
    is_Some (GetGroupFromKV (Server.DB s0) gid)) as Hnames.
  { intros gid (b' & Hb' & H1 & H2 & H3). assert (b' = b) as -> by congruence. done. }
  destruct (Z.eqb_spec (Peer.Id peer) (Server.Id s0)) as [Hpid|Hne]; cycle 1.
  { injection Hrun as <- <-. split; [done|]. split; [done|]. intros gid Hn.
    destruct Hne. by apply (Hnames gid). }
  rw (bind_Ok _ _ _ _ _ (eq_refl : txn_read (λ txn, GetGroupFromKV txn (Peer.Group peer)) s = _))
    Hdb in Hrun.
  destruct (GetGroupFromKV (Server.DB s0) (Peer.Group peer)) as [g|] eqn:Hg; cycle 1.
  { injection Hrun as <- <-. split; [done|]. split; [done|]. intros gid Hn.
    destruct (Hnames gid Hn) as (_ & <- & [? ?]). congruence. }
  rw (bind_Ok _ _ _ _ _ (eq_refl : gets Server.Id s = _)) Hid in Hrun.
  apply bind_Ok_inv in Hrun as (hosts & s1 & Hhosts & Hrun).
  pose proof (quiet_GetGroupHosts (RaftGroup.Id g) s) as Hq. rw Hhosts in Hq. cbn [snd] in Hq.
  destruct Hq as (h & k & ->). set (s1 := Server.upd_Hosts _ _) in Hrun.
  apply bind_Ok_inv in Hrun as (peers & s2 & Hpeers & Hrun). injection Hpeers as Hpeers <-.
  apply bind_Ok_inv in Hrun as (t & s2 & Ht & Hrun). injection Ht as Ht <-.
  rw (bind_Ok _ _ _ _ _ (run_new_group_ptr _ _)) (bind_Ok _ _ _ _ _ (run_NewRTGroup _ _ _ _ _)) in Hrun.
  injection Hrun as <- <-. set (s3 := set_rt _ _ _).
  assert (∀ gid m, restored s0 s gid m → restored s0 s3 gid m) as Hkeep.
  { intros gid m. apply restored_keep; intros p x Hp; exact (lookup_fresh _ _ _ _ Hp). }
  split; [split; [done|done|done|done|]|split].
  - intros gid m [[<- <-]|[_ Hm]]%lookup_insert_Some; [|by apply Hkeep, Hgr].
    split; [|done]. eexists _, g. split; [split; apply lookup_insert_eq|]. split; [done|].
    split; [cbn; rw -Hdb; exact (eq_trans Hpeers Ht)|]. repeat (split; [done|]).
    cbn. destruct (length hosts <=? 1)%nat; auto.
  - intros gid [m Hm]. destruct (decide (Peer.Group peer = gid)) as [<-|Hne].
    + rw lookup_insert_eq. by eexists.
    + rw lookup_insert_ne; [done|]. by exists m.
  - intros gid Hn. destruct (Hnames gid Hn) as (_ & <- & _). rw lookup_insert_eq. by eexists.
Qed.

Lemma scan_spec s0 items s groups groups' s' :
  scanned s0 s groups → Forall group_u64 items →
  fold_each (scan_peer (Server.Id s0)) items groups s = (Ok groups', s') →
  scanned s0 s' groups' ∧ (∀ gid, is_Some (groups !! gid) → is_Some (groups' !! gid)) ∧
  (∀ gid item, item ∈ items → item_names s0 gid item → is_Some (groups' !! gid)).
Proof.
  revert s groups. induction items as [|item items IH]; intros s groups Hs Hu Hrun.
  { injection Hrun as <- <-. split; [done|]. split; [done|]. by intros gid item ?%not_elem_of_nil. }
  apply Forall_cons in Hu as [Hu Hus]. cbn [fold_each] in Hrun.
  apply bind_Ok_inv in Hrun as (groups1 & s1 & H1 & Hrun).
  destruct (scan_peer_spec _ _ _ _ _ _ Hs Hu H1) as (Hs1 & Hold & Hnew).
  destruct (IH s1 groups1 Hs1 Hus Hrun) as (Hs' & Hold' & Hnew').
  split; [done|]. split; [auto|].
  intros gid x [->|Hx]%elem_of_cons Hn; [by apply Hold', Hnew|by apply (Hnew' gid x)].
Qed.

(** * On board *)

(** Setting every group leaves each under its key. *)
Lemma set_on_board_run l s :
  ∃ c, set_on_board l s = (Ok tt, Server.upd_GroupsOnboard (λ _, c) s) ∧
    (∀ k, (∀ gid m, (gid, m) ∈ l → id_key gid ≠ k) →
       sm_get c k = sm_get (Server.GroupsOnboard s) k) ∧
    (NoDup l.*1 → Forall (λ x, is_u64 x.1) l →
     ∀ gid m, (gid, m) ∈ l → sm_get c (id_key gid) = Some m).
Proof.
  revert s. induction l as [|[g0 m0] l IH]; intros s.
  { exists (Server.GroupsOnboard s). split; [by destruct s|]. split; [done|].
    by intros _ _ gid m ?%not_elem_of_nil. }
  unfold set_on_board. cbn [for_each]. fold (set_on_board l).
  set (s1 := Server.upd_GroupsOnboard (λ c, sm_set c (id_key g0) m0) s).
  rw (bind_Ok _ _ _ _ _ (run_modify (Server.upd_GroupsOnboard (λ c, sm_set c (id_key g0) m0)) s)).
  fold s1. destruct (IH s1) as (c & Hrun & Hother & Hin). exists c. split; [|split].
  - exact Hrun.
  - intros k Hk. rw Hother; [intros gid m H; apply (Hk gid m); by right|].
    apply sm_get_set_ne. apply (Hk g0 m0). left.
  - intros [Hn0 Hnd]%NoDup_cons [Hu0 Hu]%Forall_cons gid m [[= -> ->]|H]%elem_of_cons; [|by apply Hin].
    rw Hother; [|apply sm_get_set]. intros gid' m' Hin' Heq.
    rw Forall_forall in Hu. specialize (Hu _ Hin'). apply id_key_inj in Heq as ->; [|done..].
    apply Hn0. by apply (list_elem_of_fmap_2 fst _ (g0, m')).
Qed.

Lemma ble_prefix p r : ble p (p ++ r).
Proof. unfold ble. rw -{1}(app_nil_r p) bytes_cmp_app. by destruct r. Qed.

(** The row of a peer of a group is among the items that the scan sees. *)
Lemma peer_row_scanned txn gid t i p :
  peers_at txn gid t → t !! i = Some p →
  ∃ b, (row_key (peers_prefix gid) i, Some b) ∈
      under_prefix (U32Bytes GROUP_PEERS) (kv_scan txn false (U32Bytes GROUP_PEERS)) ∧
    unmarshal b = (p, true).
Proof.
  intros [Ht _] Hp. destruct (table_row _ _ _ Ht i p Hp) as (Hi & b & Hb & Hu). exists b.
  split; [|done].
  assert (row_key (peers_prefix gid) i = U32Bytes GROUP_PEERS ++ (U64Bytes gid ++ U64Bytes i)) as Hk
    by (unfold row_key, peers_prefix, ComposeKeyPrefix; by rw -app_assoc).
  apply under_prefix_all.
  - intros pre [k v] post k' v' Heq Hin Hp'. apply has_prefix_spec in Hp' as [r ->].
    apply (prefix_between (U32Bytes GROUP_PEERS) [] r).
    + rw app_nil_r. assert ((k, v) ∈ kv_scan txn false (U32Bytes GROUP_PEERS)) as [_ ?]%kv_scan_elem
        by (rw Heq; apply elem_of_app; right; left). done.
    + apply blt_ble. pose proof (kv_scan_forward txn (U32Bytes GROUP_PEERS)) as Hs.
      rw Heq in Hs. exact (sorted_fst_before _ _ (k, v) _ _ v' Hs Hin).
  - apply kv_scan_elem. split; [done|]. rw Hk. apply ble_prefix.
  - rw Hk. apply has_prefix_app.
Qed.

Lemma NoDup_range_map {A} (m : gmap Z A) : NoDup (range_map m).*1.
Proof. unfold range_map. rw map_range_perm. apply NoDup_fst_map_to_list. Qed.

Lemma scan_run s res s' :
  ScanHostedGroups (Server.Id s) s = (Ok res, s') →
  ∃ s1 c, fold_each (scan_peer (Server.Id s))
      (under_prefix (U32Bytes GROUP_PEERS) (kv_scan (Server.DB s) false (U32Bytes GROUP_PEERS)))
      ∅ s = (Ok res, s1) ∧
    let s2 := Server.upd_DB (λ _, Server.DB s) s1 in
    set_on_board (range_map res) s2 = (Ok tt, Server.upd_GroupsOnboard (λ _, c) s2) ∧
    s' = Server.upd_GroupsOnboard (λ _, c) s2.
Proof.
  unfold ScanHostedGroups. intros (res' & s2 & Hv & Hrun)%bind_Ok_inv.
  unfold DB_View in Hv.
  rw (bind_Ok _ _ _ _ _ (eq_refl : txn_read (λ txn, under_prefix (U32Bytes GROUP_PEERS)
    (kv_scan txn false (U32Bytes GROUP_PEERS))) s = _)) in Hv.
  destruct (fold_each _ _ _ s) as [o s1] eqn:Hf. injection Hv as -> <-.
  set (s2 := Server.upd_DB (λ _, Server.DB s) s1) in *.
  destruct (set_on_board_run (range_map res') s2) as (c & Hset & _).
  rw (bind_Ok _ _ _ _ _ Hset) in Hrun. injection Hrun as <- <-. by exists s1, c.
Qed.

(** The scan puts every group on board that the stored peers say the node is a member
    of. *)
Lemma scan_restores s res s' gid t p g l :
  peers_at (Server.DB s) gid t → t !! Server.Id s = Some p → Peer.Group p = gid →
  GetGroupFromKV (Server.DB s) gid = Some g → RaftGroup.Id g = gid →
  (∀ k b, kv_get (Server.DB s) k = KVFound (Some b) → has_prefix (U32Bytes GROUP_PEERS) k = true →
    is_u64 (Peer.Group (unmarshal b).1)) →
  log_at (Server.DB s) gid l →
  ScanHostedGroups (Server.Id s) s = (Ok res, s') →
  Server.Id s' = Server.Id s ∧ Server.Groups s' = Server.Groups s ∧
  ∃ m rt, sm_get (Server.GroupsOnboard s') (id_key gid) = Some m ∧ holds s' m gid l ∧
    has_group s' m rt g ∧ RTGroup.GroupPeers rt = t ∧ RTGroup.Role rt = FOLLOWER ∧
    (RTGroup.Leader rt = 0 ∨ RTGroup.Leader rt = Server.Id s) ∧
    RTGroup.LastVotedTo rt = 0 ∧ RTGroup.LastVotedTerm rt = 0.
Proof.
  intros Hp Hself Hpg Hg Hgid Hu64 Hlog Hrun.
  destruct (scan_run s res s' Hrun) as (s1 & c & Hfold & Hset & ->).
  set (items := under_prefix _ _) in Hfold.
  assert (Forall group_u64 items) as Hitems.
  { apply Forall_forall. intros [k v] [[Hk _]%kv_scan_elem Hpre]%under_prefix_elem b Hb.
    cbn [snd] in Hb. rw Hb in Hk. exact (Hu64 k b Hk Hpre). }
  assert (scanned s s ∅) as Hs0 by (split; [done..|]; intros gid' m; by rw lookup_empty).
  destruct (scan_spec s items s ∅ res s1 Hs0 Hitems Hfold) as ([Hdb Hid Hon Hcache Hgr] & _ & Hin).
  destruct (peer_row_scanned _ _ _ _ _ Hp Hself) as (b & Hb & Hun).
  destruct (Hin gid (row_key (peers_prefix gid) (Server.Id s), Some b) Hb) as [m Hm].
  { exists b. rw Hun. split; [done|]. split; [by apply (peers_id _ _ _ Hp)|]. by split. }
  destruct (Hgr gid m Hm) as [(rt & g' & Hhas & Hg' & Hpeers & Hrole & Hto & Hterm & Hlead) Hu].
  assert (g' = g) as -> by congruence. rw (GetGroupPeers_at _ _ _ Hp) in Hpeers.
  injection Hpeers as Hpeers.
  destruct (set_on_board_run (range_map res) (Server.upd_DB (λ _, Server.DB s) s1))
    as (c' & Hset' & _ & Hget).
  rw Hset in Hset'. injection Hset' as Hc.
  split; [exact Hid|]. split; [exact Hcache|].
  exists m, rt. split; [|split; [split; [by exists rt, g|done|done]|done]].
  cbn. rw Hc. apply Hget.
  - apply NoDup_range_map.
  - apply Forall_forall. intros [gid' m'] Hin'%elem_of_range_map. apply (Hgr _ _ Hin').
  - by apply elem_of_range_map.
Qed.

(** * After the scan

    What the rest of a start keeps: the records in memory, though not that of the alpha
    group it makes for itself, and the logs. *)
Record keeps (s s' : Server.t) : Prop := {
  keeps_onboard : Server.GroupsOnboard s' = Server.GroupsOnboard s;
  keeps_rt m rt : Server.rtgroups s !! m = Some rt → Server.rtgroups s' !! m = Some rt;
  keeps_group p g : Server.raftgroups s !! p = Some g → Server.raftgroups s' !! p = Some g;
  keeps_log gid l : is_u64 gid → log_at (Server.DB s) gid l → log_at (Server.DB s') gid l
}.

#[export] Instance keeps_preorder : PreOrder keeps.
Proof.
  split; [by split|]. intros s1 s2 s3 [O1 R1 G1 L1] [O2 R2 G2 L2]. split; [congruence|auto..].
Qed.

Lemma keeps_DB d s :
  (∀ gid l, is_u64 gid → log_at (Server.DB s) gid l → log_at d gid l) →
  keeps s (Server.upd_DB (λ _, d) s).
Proof. intros Hl. split; [done..|exact Hl]. Qed.

Lemma keeps_write f :
  (∀ txn txn' gid l, f txn = Ok txn' → log_at txn gid l → log_at txn' gid l) →
  preserves keeps (txn_write f).
Proof.
  intros Hf s. unfold txn_write, gets, lift, modify, mbind, M_bind.
  destruct (f (Server.DB s)) as [d| |] eqn:Hd; simpl; [|reflexivity..].
  apply keeps_DB. intros gid l _. exact (Hf _ _ _ _ Hd).
Qed.

Lemma keeps_update {A} (fn : MS A) : preserves keeps fn → preserves keeps (DB_Update fn).
Proof.
  intros H s. specialize (H s). unfold DB_Update.
  destruct (fn s) as [[a|e|w] s']; simpl in *; [case_match; [done|]|..];
    destruct H as [H1 H2 H3 H4]; by split.
Qed.

Lemma keeps_save_member mb : preserves keeps (save_member mb).
Proof.
  unfold save_member. solve_preserves; apply keeps_write; intros txn txn' gid l;
    [apply SavePeer_log|apply SaveHost_log].
Qed.

(** A new record of a group, whatever is then done to it, and what is stored. *)
Lemma keeps_fresh g f s :
  keeps s (Server.upd_raftgroups (alter f (fresh_ptr (Server.raftgroups s)))
    (set_group (fresh_ptr (Server.raftgroups s)) g s)).
Proof.
  split; [done..| |done]. intros p x Hp. cbn. pose proof (fresh_ptr_bound _ _ _ Hp) as Hlt.
  rw lookup_alter_ne; [lia|]. rw lookup_insert_ne; [lia|done].
Qed.

Lemma keeps_cache f s s' : keeps s s' → keeps s (Server.upd_Groups f s').
Proof. by intros [? ? ? ?]. Qed.

(** What is done with the record [p] once the members are known. *)
Lemma keeps_store_alpha p members :
  preserves keeps (
    g ← load_group p;
    _ ← ignore (DB_Update (
      _ ← ignore (txn_write (λ txn, SaveGroup txn g)); for_each save_member members));
    (mret None : MS (option (list string)))).
Proof.
  unfold load_group. solve_preserves; try apply keeps_update; solve_preserves;
    first [apply keeps_save_member
          |apply keeps_write; intros txn txn' gid l; apply SaveGroup_log].
Qed.

Lemma is_member_state id ms (s : Server.t) : (is_member id ms s).2 = s.
Proof.
  induction ms as [|mb ms IH]; [done|]. cbn [is_member]. destruct (GroupMember.Peer mb); [|done].
  rw (bind_Ok _ _ _ _ _ (eq_refl : unwrap (Some _) s = (Ok _, s))). by destruct (_ =? _).
Qed.

Lemma sync_alpha_keeps clients mreplies creplies res s :
  sm_get (Server.Groups s) (id_key ALPHA_GROUP) = None →
  MajorityResponse (repeat true (length clients))
    (answers_of members_result (length clients) mreplies) = Some (Some res) →
  keeps s (sync_alpha clients mreplies creplies s).2.
Proof.
  intros Hc Hm. unfold sync_alpha. rw Hm. cbv [from_option Datatypes.id].
  rw (bind_Ok _ _ _ _ _ (eq_refl : gets Server.Id s = (Ok (Server.Id s), s))).
  pose proof (is_member_state (Server.Id s) (GroupMembersResponse.Members res) s) as Hs.
  rw {1}/mbind {1}/M_bind.
  destruct (is_member _ _ s) as [[listed|e|w] s0]; cbn [snd] in Hs; subst s0; [|reflexivity..].
  set (p := fresh_ptr (Server.raftgroups s)).
  assert (∀ s1 term, keeps s (Server.upd_raftgroups (alter (RaftGroup.set_Term term) p) s1) →
    keeps s ((_ ← update_group p (RaftGroup.set_Term term);
      g ← load_group p;
      _ ← ignore (DB_Update (
        _ ← ignore (txn_write (λ txn, SaveGroup txn g));
        for_each save_member (GroupMembersResponse.Members res)));
      (mret None : MS (option (list string)))) s1).2) as Hstore.
  { intros s1 term Hk. etrans; [exact Hk|].
    rw (bind_Ok _ _ _ _ _ (eq_refl : update_group p (RaftGroup.set_Term term) s1 = (Ok tt, _))).
    apply keeps_store_alpha. }
  assert (∃ known s1, GetGroupNTXN ALPHA_GROUP s = (Ok known, s1) ∧ keeps s s1 ∧
    match known with
    | Some q => q = p ∧ ∀ f, keeps s (Server.upd_raftgroups (alter f p) s1)
    | None => s1 = s
    end) as (known & s1 & Hg & Hk & Hknown).
  { unfold GetGroupNTXN, DB_View. destruct (GetGroupFromKV (Server.DB s) ALPHA_GROUP) as [g|] eqn:Hd.
    - eexists (Some p), _. split.
      { unfold GetGroup.
        rw (bind_Ok _ _ _ _ _ (eq_refl : gets (λ s, sm_get (Server.Groups s) (id_key ALPHA_GROUP)) s = _)) Hc.
        rw (bind_Ok _ _ _ _ _ (eq_refl : txn_read (λ txn, GetGroupFromKV txn ALPHA_GROUP) s = _)) Hd.
        reflexivity. }
      pose proof (keeps_fresh g) as Hf. fold p in Hf.
      split; [|split; [done|intros f]].
      + destruct (Hf id s) as [? ? Hgr ?]. split; [done..| |done]. intros q x Hq. specialize (Hgr q x Hq).
        cbn in Hgr |- *. by rw alter_id in Hgr.
      + by destruct (Hf f s) as [? ? ? ?].
    - exists None, s. rw (GetGroup_absent _ _ Hc Hd) upd_DB_same. done. }
  rw (bind_Ok _ _ _ _ _ Hg). destruct listed; [by destruct known|].
  destruct known as [q|].
  - destruct Hknown as [-> Hf]. rw (bind_Ok _ _ _ _ _ (eq_refl : (mret (Some p) : MS (option nat)) s1 = (Ok (Some p), s1))).
    apply Hstore, Hf.
  - subst s1. destruct (MajorityResponse (repeat true (length clients))
      (answers_of content_result (length clients) creplies)) as [[g|]|]; [|reflexivity..].
    apply (Hstore (set_group p g s)), keeps_fresh.
Qed.

(** * The start *)

Lemma at_client_Ok {A} (p : CS A) s c a sc :
  at_client p (s, c) = (Ok a, sc) → ∃ c', p c = (Ok a, c') ∧ sc = (s, c').
Proof. unfold at_client. destruct (p c) as [o c']. intros [= -> <-]. by exists c'. Qed.

Lemma at_server_Ok {A} (p : MS A) s c a sc :
  at_server p (s, c) = (Ok a, sc) → ∃ s', p s = (Ok a, s') ∧ sc = (s', c).
Proof. unfold at_server. destruct (p s) as [o s']. intros [= -> <-]. by exists s'. Qed.

(** C22. A node that starts again, and hears from the alpha nodes, has every group on
    board that its stored peers say it is a member of, with the stored term and peers, as
    a follower, and its log is what it was; but the votes the node gave are forgotten.
    (When it hears from no alpha node it starts the alpha group anew, as
    [GetServer_first_node] has it.) *)
Theorem restart_restores {T : Transport} conf key db opts now rands areplies mreplies creplies
    clients c0 res s' c st gid t p g l :
  let id := HashPublicKey (PublicKeyFromPrivate key) in
  GetConfig db = Ok conf → ParsePrivateKey (ServerConfig.PrivateKey conf) = inr key →
  peers_at db gid t → t !! id = Some p → Peer.Group p = gid →
  GetGroupFromKV db gid = Some g → RaftGroup.Id g = gid →
  (∀ k b, kv_get db k = KVFound (Some b) → has_prefix (U32Bytes GROUP_PEERS) k = true →
    is_u64 (Peer.Group (unmarshal b).1)) →
  log_at db gid l →
  GetAlphaRPCs areplies (NewClient (Options.Bootstrap opts) key now) = (Ok clients, c0) →
  MajorityResponse (repeat true (length clients))
    (answers_of members_result (length clients) mreplies) = Some (Some res) →
  GetServer opts (inr db) now rands areplies mreplies creplies = Ok (s', c, st) →
  ∃ m rt, sm_get (Server.GroupsOnboard s') (id_key gid) = Some m ∧ holds s' m gid l ∧
    has_group s' m rt g ∧ RTGroup.GroupPeers rt = t ∧ RTGroup.Role rt = FOLLOWER ∧
    (RTGroup.Leader rt = 0 ∨ RTGroup.Leader rt = id) ∧
    RTGroup.LastVotedTo rt = 0 ∧ RTGroup.LastVotedTerm rt = 0.
Proof.
  intros id Hconf Hkey Hp Hself Hpg Hg Hgid Hu64 Hlog Hclients Hmaj Hrun.
  unfold GetServer in Hrun. rw Hconf Hkey in Hrun. cbv zeta in Hrun. fold id in Hrun.
  set (s0 := new_server id opts db key now rands) in *.
  destruct (start_server _ _ _ _) as [[[]|e|w] [s2 c2]] eqn:Hstart; [|done..].
  injection Hrun as -> -> _. unfold start_server in Hstart.
  rw (bind_Ok _ _ _ _ _ (eq_refl : at_server (gets Server.Id) (s0, _) = (Ok (Server.Id s0), (s0, _)))) in Hstart.
  apply bind_Ok_inv in Hstart as (groups & sc1 & Hscan & Hstart).
  apply at_server_Ok in Hscan as (s1 & Hscan & ->).
  destruct (scan_restores s0 groups s1 gid t p g l Hp Hself Hpg Hg Hgid Hu64 Hlog Hscan)
    as (Hid & Hcache & m & rt & Hon & Hh & Hhas & Hrest).
  set (s1' := Server.upd_FuncReg (λ _, (RegisterMembershipCommands s1).2.(Server.FuncReg)) s1).
  rw (bind_Ok _ _ _ _ _ (eq_refl : at_server RegisterMembershipCommands (s1, _) = (Ok tt, (s1', _))))
    in Hstart.
  unfold SyncAlphaGroup in Hstart. rw (bind_Ok _ _ _ _ _ (at_client_run _ s1' _ _ _ Hclients)) in Hstart.
  apply bind_Ok_inv in Hstart as (bootstraps & sc3 & Hsync & Hend).
  apply at_server_Ok in Hsync as (s3 & Hsync & ->).
  assert (s3 = s') as ->.
  { destruct bootstraps; [|by injection Hend]. by apply at_client_Ok in Hend as (? & _ & [= -> _]). }
  assert (keeps s1' s') as [Hon' Hrt Hgr Hlog'].
  { replace s' with (sync_alpha clients mreplies creplies s1').2 by (by rw Hsync).
    apply (sync_alpha_keeps _ _ _ res); [|done]. cbn. rw Hcache. apply sm_get_empty. }
  assert (has_group s' m rt g) as Hhas' by (destruct Hhas; split; auto).
  exists m, rt. rw Hon'. split; [exact Hon|]. split; [|done].
  destruct Hh as [_ Hu Hl]. split; [by exists rt, g|exact Hu|auto].
Qed.
End restart.

(** * Witness

    The node of [first_id] is one of the two members of a group, and hears from one alpha
    node. *)
Definition kept_peer (n : Z) : Peer.t := Peer.mk n demo_group_id 0 0.

Definition kept_db0 : store := foldl put_entry conf_db (demo_log 1).
Definition kept_db1 : store := unwrap_ok empty_db (SaveGroup kept_db0 (demo_group 1)).
Definition kept_db2 : store := unwrap_ok empty_db (SavePeer kept_db1 (kept_peer first_id)).
Definition kept_db3 : store := unwrap_ok empty_db (SavePeer kept_db2 (kept_peer 3)).

Definition kept_table : gmap Z Peer.t := <[3 := kept_peer 3]> (<[first_id := kept_peer first_id]> ∅).

Definition kept_opts : Options.t := Options.mk "db" "a" ["1"%string] 0.

Definition kept_alpha : list (option (option GroupNodesResponse.t)) :=
  [Some (Some (GroupNodesResponse.mk [demo_host 1] []))].

Definition kept_members : list (option (option GroupMembersResponse.t)) := [Some (Some sync_answer)].

Definition kept_start :=
  GetServer (W:=mem_world) kept_opts (inr kept_db3) 0 [] kept_alpha kept_members [Some (Some sync_group)].

Lemma kept_saves :
  SaveGroup kept_db0 (demo_group 1) = Ok kept_db1 ∧
  SavePeer kept_db1 (kept_peer first_id) = Ok kept_db2 ∧ SavePeer kept_db2 (kept_peer 3) = Ok kept_db3.
Proof. split; [by vm_compute|split; by vm_compute]. Qed.

Lemma first_u64 : is_u64 first_id.
Proof. by vm_compute. Qed.

Lemma conf_set : kv_set empty_db (ComposeKeyPrefix CONFIG_GROUP SERVER_CONF ++ []) [5] = inr conf_db.
Proof. by vm_compute. Qed.

Lemma conf_log : log_at conf_db demo_group_id [].
Proof.
  apply (log_at_set_other empty_db conf_db demo_group_id [] SERVER_CONF CONFIG_GROUP [] [5] conf_set);
    [done|done|]. exact (log_at_empty demo_group_id).
Qed.

Lemma kept_peers : peers_at kept_db3 7 kept_table.
Proof.
  destruct kept_saves as (H1 & H2 & H3).
  apply (SavePeer_at kept_db2 kept_db3 (kept_peer 3) 7 (<[first_id := kept_peer first_id]> ∅));
    [|reflexivity|exact (conj (Z.lt_le_incl 0 3 eq_refl) eq_refl)|exact H3].
  apply (SavePeer_at kept_db1 kept_db2 (kept_peer first_id) 7 ∅); [|reflexivity|exact first_u64|exact H2].
  apply (SaveGroup_peers kept_db0 kept_db1 _ _ _ H1). unfold kept_db0. cbn [foldl demo_log demo_entries].
  apply put_peers_at; [by vm_compute|]. apply (peers_at_nothing (W:=mem_world)), conf_db_only.
Qed.

Lemma kept_log : log_at kept_db3 7 (demo_log 1).
Proof.
  destruct kept_saves as (H1 & H2 & H3).
  apply (SavePeer_log kept_db2 kept_db3 _ _ _ H3), (SavePeer_log kept_db1 kept_db2 _ _ _ H2),
    (SaveGroup_log kept_db0 kept_db1 _ _ _ H1).
  apply (put_entries_at (demo_log 1) conf_db []); [|reflexivity|].
  - intros n e He%demo_entries_index. rw He. simpl. lia.
  - exact conf_log.
Qed.

Definition group_in_range (k b : bytes) : Prop :=
  if has_prefix (U32Bytes GROUP_PEERS) k
  then 0 ≤ Peer.Group (unmarshal (A:=Peer.t) b).1 < 2 ^ 64 else True.

#[local] Instance group_in_range_dec k b : Decision (group_in_range k b).
Proof. unfold group_in_range. destruct (has_prefix _ _); apply _. Defined.

Lemma kept_groups k b :
  kv_get kept_db3 k = KVFound (Some b) → has_prefix (U32Bytes GROUP_PEERS) k = true →
  is_u64 (Peer.Group (unmarshal b).1).
Proof.
  assert (map_Forall group_in_range (kept_db3 : memdb)) as Hall
    by (apply (bool_decide_unpack _); by vm_compute).
  intros Hk Hp. cbn in Hk. destruct ((kept_db3 : memdb) !! k) as [v|] eqn:Hv; [|done].
  injection Hk as ->. specialize (Hall k b Hv). unfold group_in_range in Hall. by rw Hp in Hall.
Qed.

Lemma kept_start_runs : match kept_start with Ok _ => true | _ => false end = true.
Proof. by vm_compute. Qed.

Definition kept_asked := GetAlphaRPCs kept_alpha (NewClient (W:=mem_world) ["1"%string] 5 0).

Lemma kept_clients : kept_asked = (Ok ["1"%string], kept_asked.2).
Proof. assert (kept_asked.1 = Ok ["1"%string]) as <- by (by vm_compute). apply surjective_pairing. Qed.

Lemma kept_majority :
  MajorityResponse (repeat true 1) (answers_of (members_result (W:=mem_world)) 1 kept_members) =
    Some (Some sync_answer).
Proof. by vm_compute. Qed.

Lemma kept_self : kept_table !! first_id = Some (kept_peer first_id).
Proof. by vm_compute. Qed.

Lemma kept_conf :
  GetConfig kept_db3 = Ok (ServerConfig.mk [5]) ∧
  GetGroupFromKV kept_db3 7 = Some (demo_group 1).
Proof. split; by vm_compute. Qed.

Lemma restart_restores_witness :
  ∃ s' c st m, kept_start = Ok (s', c, st) ∧
    sm_get (Server.GroupsOnboard s') (id_key 7) = Some m ∧ holds s' m 7 (demo_log 1).
Proof.
  generalize kept_start_runs. destruct kept_start as [[[s' c] st]|e|w] eqn:Hrun;
    intros Hr; [|discriminate Hr..]. clear Hr.
  destruct (restart_restores (W:=mem_world) (ServerConfig.mk [5]) 5 kept_db3 kept_opts 0 [] kept_alpha
    kept_members [Some (Some sync_group)] ["1"%string] kept_asked.2 sync_answer s' c st 7 kept_table
    (kept_peer first_id) (demo_group 1) (demo_log 1) (proj1 kept_conf) eq_refl kept_peers kept_self
    eq_refl (proj2 kept_conf) eq_refl kept_groups kept_log kept_clients kept_majority Hrun) as (m & rt & Hm & Hh & _).
  exists s', c, st, m. split; [reflexivity|]. split; [exact Hm|exact Hh].
Defined.
